(** * Voice segmentation pipeline of speech2text: model and properties

  The repository holds several near-duplicate React components that
  turn a voice-activity signal into recorded clips, plus a relay
  server.  Each one is embedded below in a module of its own, named
  after what distinguishes it:

  - [ClipDetector]  : [src/app/page.tsx], component [VoiceDetector]
                    (Cobra probability, refs, clips kept locally);
  - [AwaitingStt]   : [src/app/page.tsx], component [RealtimeSpeechToText]
                    (the stop handler awaits the transcription call);
  - [QueuedStt]     : [unnamed/part_001], component [RealtimeSpeechToText]
                    ([processingQueueRef], [MAX_RECORDING_DURATION]);
  - [PauseVad]      : [src/app/speech2tex.tsx], component [Index]
                    (voice-activity-detection events, pause timer);
                    the [Index] of [src/app/page.tsx] is the same text;
  - [PlainDetector] : [src/app/speech2tex.tsx], component [VoiceDetector]
                    (Cobra probability, flags kept in React state);
  - [Relay]         : [src/app/server.js], the message handler, its
                    flush timer and the close handler;
  - [RelayBeat]     : [src/app/server.js], the heartbeat and the delivery
                    of timed messages;
  - [Wav]           : the WAV encoders, [bufferToWav] of [src/app/page.tsx]
                    and [audioBufferToWav] of [unnamed/part_001];
  - [SimpleVad]     : [unnamed/part_001], component [Index]
                    (records from each voice start to the next voice stop).

  The modules whose name ends in [Shapes] hold the predicates that the
  properties of a component are stated with.  The [VoiceDetector] of
  [unnamed/part_001] that uploads to AssemblyAI is not embedded.

  Time is [Date.now()] in milliseconds, a [Z].  Browser objects that
  the code mutates through references (MediaRecorder instances, timers
  created by [setTimeout]) live in explicit tables of the state. *)

From Stdlib Require Import ZArith QArith Qabs String Lia.
From stdpp Require Import base list gmap strings pretty.

Open Scope Z_scope.

(** ** Timers: [setTimeout] / [clearTimeout] *)

Module Timers.
Section Table.
Context {C : Type}.

Record timer := Timer { handle : nat; due : Z; callback : C }.

(** Handles are positive, as in the browser, so a stored handle is
    always truthy. *)
Record table := Table { pending : list timer; next_handle : nat }.

Definition empty : table := Table [] 1.

Definition setTimeout (c : C) (now delay : Z) (tb : table) : nat * table :=
  (next_handle tb,
   Table (pending tb ++ [Timer (next_handle tb) (now + delay) c])
       (S (next_handle tb))).

Definition clearTimeout (h : nat) (tb : table) : table :=
  Table (List.filter (λ x, negb (handle x =? h)%nat) (pending tb))
      (next_handle tb).

(** The timer with the least deadline; the one registered first wins
    a tie. *)
Fixpoint earliest (l : list timer) : option timer :=
  match l with
  | [] => None
  | x :: l' =>
    match earliest l' with
    | Some y => if due y <? due x then Some y else Some x
    | None => Some x
    end
  end.

Definition next_due (t : Z) (tb : table) : option timer :=
  earliest (List.filter (λ x, due x <=? t) (pending tb)).

Definition armed (h : nat) (tb : table) : bool :=
  existsb (λ x, (handle x =? h)%nat) (pending tb).
End Table.
Arguments timer : clear implicits.
Arguments table : clear implicits.
End Timers.

(** ** MediaRecorder objects and audio data *)

Module Media.
Definition Blob := list Byte.byte.

Definition size (b : Blob) : Z := Z.of_nat (length b).

(** [new Blob(chunks)]: the chunks one after the other. *)
Definition newBlob (chunks : list Blob) : Blob := concat chunks.

(** [MediaRecorder.state]; the code never pauses a recorder. *)
Inductive RecordingState := inactive | recording.

Definition isRecordingState (st : RecordingState) : bool :=
  match st with recording => true | inactive => false end.

(** A recorder object: its state, whether its [stop] event has been
    queued and not yet dispatched, and what its handlers close over. *)
Record MediaRecorder {E : Type} :=
  Recorder { state : RecordingState; stopQueued : bool; closure : E }.
Arguments MediaRecorder : clear implicits.

Section Heap.
Context {E : Type}.

(** [new MediaRecorder(..)] followed by [start(..)]: the new object is
  the next index of the table. *)
Definition create (e : E) (hp : list (MediaRecorder E))
  : nat * list (MediaRecorder E) :=
  (length hp, hp ++ [Recorder E recording false e]).

Definition stateOf (hp : list (MediaRecorder E)) (r : nat)
  : option RecordingState := state <$> hp !! r.

Definition isRecordingAt (hp : list (MediaRecorder E)) (r : nat) : bool :=
  match hp !! r with
  | Some m => isRecordingState (state m)
  | None => false
  end.

(** [recorder.stop()] on a recording recorder: it becomes inactive at
  once and its [stop] event is queued. *)
Definition stop (r : nat) (hp : list (MediaRecorder E))
  : list (MediaRecorder E) :=
  match hp !! r with
  | Some m => <[r := Recorder E inactive true (closure m)]> hp
  | None => hp
  end.

Definition dispatched (r : nat) (hp : list (MediaRecorder E))
  : list (MediaRecorder E) :=
  match hp !! r with
  | Some m => <[r := Recorder E (state m) false (closure m)]> hp
  | None => hp
  end.

Definition hasQueuedStop (hp : list (MediaRecorder E)) (r : nat) : bool :=
  match hp !! r with
  | Some m => stopQueued m
  | None => false
  end.

(** How many recorders are recording: the concurrently active
  sessions. *)
Definition activeCount (hp : list (MediaRecorder E)) : nat :=
  length (List.filter (λ m, isRecordingState (state m)) hp).

(** How many recorders have a stop event waiting to be dispatched. *)
Definition queuedCount (hp : list (MediaRecorder E)) : nat :=
  length (List.filter (λ m, stopQueued m) hp).
End Heap.

Record MediaStream := Stream { tracksLive : bool }.

(** A voice-probability sample with the time at which it is delivered. *)
Definition Sample : Type := Z * Q.

Definition sample (t : Z) (probability : Q) : Sample := (t, probability).
End Media.

(** ** [src/app/page.tsx]: component [VoiceDetector] *)

Module ClipDetector.
Import Media.

Definition VOICE_PROBABILITY_THRESHOLD : Q := 2 # 10.
Definition SILENCE_DURATION_THRESHOLD : Z := 1500.
Definition MIN_RECORDING_DURATION : Z := 500.

(** [url] stands for the object URL of the clip's blob. *)
Record AudioClip :=
  Clip { id : Z; url : Blob; timestamp : Z; duration : Q }.

Record CobraWorker := Cobra { subscribed : bool; released : bool }.

(** The only timer callback of the component, armed by
    [handleSilenceDetected]. *)
Inductive Callback := silenceElapsed.

(** The closure of a recorder's handlers holds [startTime]. *)
Record State := mkState {
  (* environment *)
  now : Z;
  opusSupported : bool;
  recorders : list (MediaRecorder Z);
  timers : Timers.table Callback;
  (* refs *)
  isListeningRef : bool;
  isRecordingRef : bool;
  mediaRecorderRef : option nat;
  audioChunksRef : list Blob;
  silenceTimeoutRef : option nat;
  recordingStartTimeRef : option Z;
  streamRef : option MediaStream;
  cobraRef : option CobraWorker;
  (* React state *)
  isInitialized : bool;
  isListening : bool;
  isRecording : bool;
  audioClips : list AudioClip;
  latestClip : option AudioClip;
  error : option string
}.

Definition set_now v (s : State) : State :=
  {| now := v; opusSupported := opusSupported s; recorders := recorders s; timers := timers s; isListeningRef := isListeningRef s; isRecordingRef := isRecordingRef s; mediaRecorderRef := mediaRecorderRef s; audioChunksRef := audioChunksRef s; silenceTimeoutRef := silenceTimeoutRef s; recordingStartTimeRef := recordingStartTimeRef s; streamRef := streamRef s; cobraRef := cobraRef s; isInitialized := isInitialized s; isListening := isListening s; isRecording := isRecording s; audioClips := audioClips s; latestClip := latestClip s; error := error s |}.
Definition set_opusSupported v (s : State) : State :=
  {| now := now s; opusSupported := v; recorders := recorders s; timers := timers s; isListeningRef := isListeningRef s; isRecordingRef := isRecordingRef s; mediaRecorderRef := mediaRecorderRef s; audioChunksRef := audioChunksRef s; silenceTimeoutRef := silenceTimeoutRef s; recordingStartTimeRef := recordingStartTimeRef s; streamRef := streamRef s; cobraRef := cobraRef s; isInitialized := isInitialized s; isListening := isListening s; isRecording := isRecording s; audioClips := audioClips s; latestClip := latestClip s; error := error s |}.
Definition set_recorders v (s : State) : State :=
  {| now := now s; opusSupported := opusSupported s; recorders := v; timers := timers s; isListeningRef := isListeningRef s; isRecordingRef := isRecordingRef s; mediaRecorderRef := mediaRecorderRef s; audioChunksRef := audioChunksRef s; silenceTimeoutRef := silenceTimeoutRef s; recordingStartTimeRef := recordingStartTimeRef s; streamRef := streamRef s; cobraRef := cobraRef s; isInitialized := isInitialized s; isListening := isListening s; isRecording := isRecording s; audioClips := audioClips s; latestClip := latestClip s; error := error s |}.
Definition set_timers v (s : State) : State :=
  {| now := now s; opusSupported := opusSupported s; recorders := recorders s; timers := v; isListeningRef := isListeningRef s; isRecordingRef := isRecordingRef s; mediaRecorderRef := mediaRecorderRef s; audioChunksRef := audioChunksRef s; silenceTimeoutRef := silenceTimeoutRef s; recordingStartTimeRef := recordingStartTimeRef s; streamRef := streamRef s; cobraRef := cobraRef s; isInitialized := isInitialized s; isListening := isListening s; isRecording := isRecording s; audioClips := audioClips s; latestClip := latestClip s; error := error s |}.
Definition set_isListeningRef v (s : State) : State :=
  {| now := now s; opusSupported := opusSupported s; recorders := recorders s; timers := timers s; isListeningRef := v; isRecordingRef := isRecordingRef s; mediaRecorderRef := mediaRecorderRef s; audioChunksRef := audioChunksRef s; silenceTimeoutRef := silenceTimeoutRef s; recordingStartTimeRef := recordingStartTimeRef s; streamRef := streamRef s; cobraRef := cobraRef s; isInitialized := isInitialized s; isListening := isListening s; isRecording := isRecording s; audioClips := audioClips s; latestClip := latestClip s; error := error s |}.
Definition set_isRecordingRef v (s : State) : State :=
  {| now := now s; opusSupported := opusSupported s; recorders := recorders s; timers := timers s; isListeningRef := isListeningRef s; isRecordingRef := v; mediaRecorderRef := mediaRecorderRef s; audioChunksRef := audioChunksRef s; silenceTimeoutRef := silenceTimeoutRef s; recordingStartTimeRef := recordingStartTimeRef s; streamRef := streamRef s; cobraRef := cobraRef s; isInitialized := isInitialized s; isListening := isListening s; isRecording := isRecording s; audioClips := audioClips s; latestClip := latestClip s; error := error s |}.
Definition set_mediaRecorderRef v (s : State) : State :=
  {| now := now s; opusSupported := opusSupported s; recorders := recorders s; timers := timers s; isListeningRef := isListeningRef s; isRecordingRef := isRecordingRef s; mediaRecorderRef := v; audioChunksRef := audioChunksRef s; silenceTimeoutRef := silenceTimeoutRef s; recordingStartTimeRef := recordingStartTimeRef s; streamRef := streamRef s; cobraRef := cobraRef s; isInitialized := isInitialized s; isListening := isListening s; isRecording := isRecording s; audioClips := audioClips s; latestClip := latestClip s; error := error s |}.
Definition set_audioChunksRef v (s : State) : State :=
  {| now := now s; opusSupported := opusSupported s; recorders := recorders s; timers := timers s; isListeningRef := isListeningRef s; isRecordingRef := isRecordingRef s; mediaRecorderRef := mediaRecorderRef s; audioChunksRef := v; silenceTimeoutRef := silenceTimeoutRef s; recordingStartTimeRef := recordingStartTimeRef s; streamRef := streamRef s; cobraRef := cobraRef s; isInitialized := isInitialized s; isListening := isListening s; isRecording := isRecording s; audioClips := audioClips s; latestClip := latestClip s; error := error s |}.
Definition set_silenceTimeoutRef v (s : State) : State :=
  {| now := now s; opusSupported := opusSupported s; recorders := recorders s; timers := timers s; isListeningRef := isListeningRef s; isRecordingRef := isRecordingRef s; mediaRecorderRef := mediaRecorderRef s; audioChunksRef := audioChunksRef s; silenceTimeoutRef := v; recordingStartTimeRef := recordingStartTimeRef s; streamRef := streamRef s; cobraRef := cobraRef s; isInitialized := isInitialized s; isListening := isListening s; isRecording := isRecording s; audioClips := audioClips s; latestClip := latestClip s; error := error s |}.
Definition set_recordingStartTimeRef v (s : State) : State :=
  {| now := now s; opusSupported := opusSupported s; recorders := recorders s; timers := timers s; isListeningRef := isListeningRef s; isRecordingRef := isRecordingRef s; mediaRecorderRef := mediaRecorderRef s; audioChunksRef := audioChunksRef s; silenceTimeoutRef := silenceTimeoutRef s; recordingStartTimeRef := v; streamRef := streamRef s; cobraRef := cobraRef s; isInitialized := isInitialized s; isListening := isListening s; isRecording := isRecording s; audioClips := audioClips s; latestClip := latestClip s; error := error s |}.
Definition set_streamRef v (s : State) : State :=
  {| now := now s; opusSupported := opusSupported s; recorders := recorders s; timers := timers s; isListeningRef := isListeningRef s; isRecordingRef := isRecordingRef s; mediaRecorderRef := mediaRecorderRef s; audioChunksRef := audioChunksRef s; silenceTimeoutRef := silenceTimeoutRef s; recordingStartTimeRef := recordingStartTimeRef s; streamRef := v; cobraRef := cobraRef s; isInitialized := isInitialized s; isListening := isListening s; isRecording := isRecording s; audioClips := audioClips s; latestClip := latestClip s; error := error s |}.
Definition set_cobraRef v (s : State) : State :=
  {| now := now s; opusSupported := opusSupported s; recorders := recorders s; timers := timers s; isListeningRef := isListeningRef s; isRecordingRef := isRecordingRef s; mediaRecorderRef := mediaRecorderRef s; audioChunksRef := audioChunksRef s; silenceTimeoutRef := silenceTimeoutRef s; recordingStartTimeRef := recordingStartTimeRef s; streamRef := streamRef s; cobraRef := v; isInitialized := isInitialized s; isListening := isListening s; isRecording := isRecording s; audioClips := audioClips s; latestClip := latestClip s; error := error s |}.
Definition set_isInitialized v (s : State) : State :=
  {| now := now s; opusSupported := opusSupported s; recorders := recorders s; timers := timers s; isListeningRef := isListeningRef s; isRecordingRef := isRecordingRef s; mediaRecorderRef := mediaRecorderRef s; audioChunksRef := audioChunksRef s; silenceTimeoutRef := silenceTimeoutRef s; recordingStartTimeRef := recordingStartTimeRef s; streamRef := streamRef s; cobraRef := cobraRef s; isInitialized := v; isListening := isListening s; isRecording := isRecording s; audioClips := audioClips s; latestClip := latestClip s; error := error s |}.
Definition set_isListening v (s : State) : State :=
  {| now := now s; opusSupported := opusSupported s; recorders := recorders s; timers := timers s; isListeningRef := isListeningRef s; isRecordingRef := isRecordingRef s; mediaRecorderRef := mediaRecorderRef s; audioChunksRef := audioChunksRef s; silenceTimeoutRef := silenceTimeoutRef s; recordingStartTimeRef := recordingStartTimeRef s; streamRef := streamRef s; cobraRef := cobraRef s; isInitialized := isInitialized s; isListening := v; isRecording := isRecording s; audioClips := audioClips s; latestClip := latestClip s; error := error s |}.
Definition set_isRecording v (s : State) : State :=
  {| now := now s; opusSupported := opusSupported s; recorders := recorders s; timers := timers s; isListeningRef := isListeningRef s; isRecordingRef := isRecordingRef s; mediaRecorderRef := mediaRecorderRef s; audioChunksRef := audioChunksRef s; silenceTimeoutRef := silenceTimeoutRef s; recordingStartTimeRef := recordingStartTimeRef s; streamRef := streamRef s; cobraRef := cobraRef s; isInitialized := isInitialized s; isListening := isListening s; isRecording := v; audioClips := audioClips s; latestClip := latestClip s; error := error s |}.
Definition set_audioClips v (s : State) : State :=
  {| now := now s; opusSupported := opusSupported s; recorders := recorders s; timers := timers s; isListeningRef := isListeningRef s; isRecordingRef := isRecordingRef s; mediaRecorderRef := mediaRecorderRef s; audioChunksRef := audioChunksRef s; silenceTimeoutRef := silenceTimeoutRef s; recordingStartTimeRef := recordingStartTimeRef s; streamRef := streamRef s; cobraRef := cobraRef s; isInitialized := isInitialized s; isListening := isListening s; isRecording := isRecording s; audioClips := v; latestClip := latestClip s; error := error s |}.
Definition set_latestClip v (s : State) : State :=
  {| now := now s; opusSupported := opusSupported s; recorders := recorders s; timers := timers s; isListeningRef := isListeningRef s; isRecordingRef := isRecordingRef s; mediaRecorderRef := mediaRecorderRef s; audioChunksRef := audioChunksRef s; silenceTimeoutRef := silenceTimeoutRef s; recordingStartTimeRef := recordingStartTimeRef s; streamRef := streamRef s; cobraRef := cobraRef s; isInitialized := isInitialized s; isListening := isListening s; isRecording := isRecording s; audioClips := audioClips s; latestClip := v; error := error s |}.
Definition set_error v (s : State) : State :=
  {| now := now s; opusSupported := opusSupported s; recorders := recorders s; timers := timers s; isListeningRef := isListeningRef s; isRecordingRef := isRecordingRef s; mediaRecorderRef := mediaRecorderRef s; audioChunksRef := audioChunksRef s; silenceTimeoutRef := silenceTimeoutRef s; recordingStartTimeRef := recordingStartTimeRef s; streamRef := streamRef s; cobraRef := cobraRef s; isInitialized := isInitialized s; isListening := isListening s; isRecording := isRecording s; audioClips := audioClips s; latestClip := latestClip s; error := v |}.

Definition initial (t : Z) (opus : bool) : State :=
  {| now := t; opusSupported := opus; recorders := []; timers := Timers.empty;
     isListeningRef := false; isRecordingRef := false;
     mediaRecorderRef := None; audioChunksRef := [];
     silenceTimeoutRef := None; recordingStartTimeRef := None;
     streamRef := None; cobraRef := None;
     isInitialized := false; isListening := false; isRecording := false;
     audioClips := []; latestClip := None; error := None |}.

(** [mediaRecorderRef.current?.state === "recording"] *)
Definition currentIsRecording (s : State) : bool :=
  match mediaRecorderRef s with
  | Some r => isRecordingAt (recorders s) r
  | None => false
  end.

(** [mediaRecorder.onstop], for the recorder whose closure holds
    [startTime]. *)
Definition onstop (startTime : Z) (s : State) : State :=
  let endTime := now s in
  let duration := if startTime =? 0 then 0 else endTime - startTime in
  let s1 :=
    if (MIN_RECORDING_DURATION <=? duration)
       && (0 <? Z.of_nat (length (audioChunksRef s)))
    then
      let audioBlob := newBlob (audioChunksRef s) in
      let newClip := Clip (now s) audioBlob (now s) (duration # 1000) in
      set_audioClips (newClip :: audioClips s)
        (set_latestClip (Some newClip) s)
    else s in
  set_isRecording false
    (set_recordingStartTimeRef None
       (set_isRecordingRef false
          (set_audioChunksRef [] s1))).

(** [mediaRecorder.ondataavailable] *)
Definition ondataavailable (data : Blob) (s : State) : State :=
  if 0 <? size data
  then set_audioChunksRef (audioChunksRef s ++ [data]) s
  else s.

Definition startRecording (s : State) : State :=
  match streamRef s with
  | None => s
  | Some _ =>
      if currentIsRecording s then s
      else if negb (opusSupported s)
      then set_error (Some "Failed to start recording"%string) s
      else
        let startTime := now s in
        let '(r, hp) := create startTime (recorders s) in
        set_isRecording true
          (set_isRecordingRef true
             (set_recorders hp
                (set_recordingStartTimeRef (Some startTime)
                   (set_audioChunksRef []
                      (set_mediaRecorderRef (Some r) s)))))
  end.

Definition stopRecording (s : State) : State :=
  match mediaRecorderRef s with
  | Some r =>
      if isRecordingAt (recorders s) r
      then set_recorders (stop r (recorders s)) s
      else s
  | None => s
  end.

Definition handleVoiceDetected (s : State) : State :=
  let s1 :=
    match silenceTimeoutRef s with
    | Some h =>
        set_silenceTimeoutRef None
          (set_timers (Timers.clearTimeout h (timers s)) s)
    | None => s
    end in
  if negb (isRecordingRef s1) && isListeningRef s1
     && bool_decide (is_Some (streamRef s1))
  then startRecording s1
  else s1.

Definition handleSilenceDetected (s : State) : State :=
  match silenceTimeoutRef s with
  | None =>
      if isRecordingRef s then
        let '(h, tb) :=
          Timers.setTimeout silenceElapsed (now s)
            SILENCE_DURATION_THRESHOLD (timers s) in
        set_silenceTimeoutRef (Some h) (set_timers tb s)
      else s
  | Some _ => s
  end.

Definition handleVoiceProbability (probability : Q) (s : State) : State :=
  if Qle_bool VOICE_PROBABILITY_THRESHOLD probability
  then handleVoiceDetected s
  else handleSilenceDetected s.

(** The body of the function passed to [setTimeout]. *)
Definition runCallback (c : Callback) (s : State) : State :=
  match c with
  | silenceElapsed => set_silenceTimeoutRef None (stopRecording s)
  end.

Inductive InitResult :=
| initReady
| initNoAccessKey
| initFailed (message : string)
| initCobraFailed (message : string).

(** [initFailed] is the refused microphone; [initCobraFailed] is a
    [CobraWorker.create] that throws, after the stream was stored. *)
Definition initializeVoiceDetector (r : InitResult) (s : State) : State :=
  match r with
  | initNoAccessKey =>
      set_error
        (Some "Picovoice access key is not configured in environment variables"%string)
        s
  | initFailed m => set_error (Some m) s
  | initCobraFailed m =>
      set_error (Some m) (set_streamRef (Some (Stream true)) s)
  | initReady =>
      set_error None
        (set_isInitialized true
           (set_cobraRef (Some (Cobra false false))
              (set_streamRef (Some (Stream true)) s)))
  end.

Definition startListening (s : State) : State :=
  match cobraRef s with
  | Some c =>
      if isInitialized s then
        set_error None
          (set_isListening true
             (set_isListeningRef true
                (set_cobraRef (Some (Cobra true (released c))) s)))
      else s
  | None => s
  end.

Definition stopListening (s : State) : State :=
  match cobraRef s with
  | Some c =>
      if isListeningRef s then
        let s1 := set_cobraRef (Some (Cobra false (released c))) s in
        let s2 := if isRecordingRef s1 then stopRecording s1 else s1 in
        set_error None (set_isListening false (set_isListeningRef false s2))
      else s
  | None => s
  end.

(** The cleanup returned by the mount effect. *)
Definition unmount (s : State) : State :=
  let s1 :=
    match cobraRef s with
    | Some c =>
        if isListeningRef s
        then set_cobraRef (Some (Cobra false (released c))) s
        else s
    | None => s
    end in
  let s2 :=
    match streamRef s1 with
    | Some _ => set_streamRef (Some (Stream false)) s1
    | None => s1
    end in
  match cobraRef s2 with
  | Some c => set_cobraRef (Some (Cobra (subscribed c) true)) s2
  | None => s2
  end.

(** *** The event loop *)

(** Timers whose deadline has passed run in deadline order, each at its
    deadline. *)
Fixpoint fireDue (fuel : nat) (t : Z) (s : State) : State :=
  match fuel with
  | O => s
  | S fuel' =>
      match Timers.next_due t (timers s) with
      | None => s
      | Some tm =>
          fireDue fuel' t
            (runCallback (Timers.callback tm)
               (set_now (Z.max (now s) (Timers.due tm))
                  (set_timers
                     (Timers.clearTimeout (Timers.handle tm) (timers s))
                     s)))
      end
  end.

Definition elapse (t : Z) (s : State) : State :=
  let s' := fireDue (length (Timers.pending (timers s))) t s in
  set_now (Z.max (now s') t) s'.

(** Dispatch of a recorder's queued [stop] event. *)
Definition dispatchStop (r : nat) (s : State) : State :=
  match recorders s !! r with
  | Some m =>
      if stopQueued m
      then onstop (closure m) (set_recorders (dispatched r (recorders s)) s)
      else s
  | None => s
  end.

(** A [dataavailable] event comes from a recorder that records or that
    has just been stopped. *)
Definition dispatchData (r : nat) (data : Blob) (s : State) : State :=
  if isRecordingAt (recorders s) r || hasQueuedStop (recorders s) r
  then ondataavailable data s
  else s.

Inductive Event :=
| evProbability (p : Q)
| evData (r : nat) (data : Blob)
| evStop (r : nat)
| evElapse (t : Z)
| evInitialized (r : InitResult)
| evStartListening
| evStopListening
| evUnmount.

Definition step (s : State) (e : Event) : State :=
  match e with
  | evProbability p => handleVoiceProbability p s
  | evData r d => dispatchData r d s
  | evStop r => dispatchStop r s
  | evElapse t => elapse t s
  | evInitialized r => initializeVoiceDetector r s
  | evStartListening => startListening s
  | evStopListening => stopListening s
  | evUnmount => unmount s
  end.

Definition run (s : State) (es : list Event) : State := fold_left step es s.

(** Delivery of one sample at its time: timers that fall due before it
    run first, each followed by the stop event it queued. *)
Definition settle (s : State) : State :=
  match mediaRecorderRef s with
  | Some r => dispatchStop r s
  | None => s
  end.

Fixpoint advance (fuel : nat) (t : Z) (s : State) : State :=
  match fuel with
  | O => elapse t s
  | S fuel' =>
      match Timers.next_due t (timers s) with
      | None => elapse t s
      | Some tm => advance fuel' t (settle (elapse (Timers.due tm) s))
      end
  end.

Definition advanceTo (t : Z) (s : State) : State :=
  advance (length (Timers.pending (timers s))) t s.

Definition feed (s : State) (x : Sample) : State :=
  handleVoiceProbability (snd x) (advanceTo (fst x) s).

Definition feedAll (s : State) (xs : list Sample) : State :=
  fold_left feed xs s.

Definition voiced (x : Sample) : bool :=
  Qle_bool VOICE_PROBABILITY_THRESHOLD (snd x).

(** What the recorder's stop handler decides on: the chunk list and the
    clips shown. *)
Definition clipOutput (s : State)
  : list Blob * list AudioClip * option AudioClip :=
  (audioChunksRef s, audioClips s, latestClip s).

(** *** Shapes of the state used by the debounce properties *)

(** Listening, nothing recording, no timer. *)
Definition ready (s : State) : Prop :=
  isListeningRef s = true ∧ isRecordingRef s = false ∧
  is_Some (streamRef s) ∧ opusSupported s = true ∧
  currentIsRecording s = false ∧
  silenceTimeoutRef s = None ∧ Timers.pending (timers s) = [].

(** Recorder [r] records and no silence timer is armed. *)
Definition recordingQuiet (r : nat) (s : State) : Prop :=
  isRecordingRef s = true ∧ mediaRecorderRef s = Some r ∧
  isRecordingAt (recorders s) r = true ∧
  silenceTimeoutRef s = None ∧ Timers.pending (timers s) = [].

(** Recorder [r] records and the silence timer is armed for time [d]. *)
Definition recordingArmed (r : nat) (d : Z) (s : State) : Prop :=
  isRecordingRef s = true ∧ mediaRecorderRef s = Some r ∧
  isRecordingAt (recorders s) r = true ∧
  ∃ h, silenceTimeoutRef s = Some h ∧
       Timers.pending (timers s) = [Timers.Timer h d silenceElapsed].

Definition sampleTime (x : Sample) : Z := fst x.

(** The component mounted at time [t], initialised, with listening
    started. *)
Definition listeningAt (t : Z) : State :=
  startListening (initializeVoiceDetector initReady (initial t true)).

(** At most one recorder is recording or waiting for its stop event, and
    none is while the recording flag is down. *)
Definition sessionInv (s : State) : Prop :=
  (activeCount (recorders s) + queuedCount (recorders s) ≤ 1)%nat ∧
  (isRecordingRef s = false →
   (activeCount (recorders s) + queuedCount (recorders s) = 0)%nat).
End ClipDetector.

(** ** The transcription endpoint, as the components use it *)

Module Sarvam.
Record Timestamps := {
  words : list string;
  start_time_seconds : list Q;
  end_time_seconds : list Q
}.

Record TranscriptionResponse :=
  Response { transcript : string; timestamps : option Timestamps }.

(** A value caught by [catch (err)]: an [Error] with its message, or
    anything else. *)
Inductive Thrown := errorObject (message : string) | otherValue.

(** [err instanceof Error ? err.message : "Transcription failed"] *)
Definition messageOf (err : Thrown) : string :=
  match err with
  | errorObject m => m
  | otherValue => "Transcription failed"%string
  end.

(** What [fetch] and the reading of the response body come to. *)
Inductive Reply :=
| fetchRejected (err : Thrown)
| httpStatus (status : nat) (errorText : string)
| bodyRejected (err : Thrown)
| json (data : TranscriptionResponse).

(** [new Error(`API Error (${response.status}): ${errorText}`)] *)
Definition apiError (status : nat) (errorText : string) : Thrown :=
  errorObject ("API Error (" +:+ pretty status +:+ "): " +:+ errorText).

(** The setter function passed to [setTranscription]. *)
Definition appendTranscript (prev : option TranscriptionResponse)
  (data : TranscriptionResponse) : TranscriptionResponse :=
  match prev with
  | Some p =>
      Response (transcript p +:+ " " +:+ transcript data) (timestamps data)
  | None => Response (transcript data) (timestamps data)
  end.

Record CobraWorker := Cobra { subscribed : bool; released : bool }.
Record AudioContext := Context { closed : bool }.
End Sarvam.

(** ** [unnamed/part_001]: component [RealtimeSpeechToText] *)

Module QueuedStt.
Import Media Sarvam.

Definition VOICE_PROBABILITY_THRESHOLD : Q := 4 # 10.
Definition SILENCE_DURATION_THRESHOLD : Z := 750.
Definition MIN_RECORDING_DURATION : Z := 250.
Definition MAX_RECORDING_DURATION : Z := 3000.
Definition RECORDING_CHUNK_SIZE : Z := 250.

(** [maxDurationElapsed r] closes over the recorder created by the same
    call of [startRecording]. *)
Inductive Callback := silenceElapsed | maxDurationElapsed (r : nat).

(** One link of the promise chain [processingQueueRef]: the call of
    [newProcessing] for one clip.  It waits for the links before it,
    then awaits the decoding of the clip, then the request.  A settled
    link keeps the response it merged, if any. *)
Inductive Phase :=
| waiting
| decoding
| fetching
| settled (merged : option TranscriptionResponse).

Record Job := mkJob { clip : Blob; phase : Phase }.

Inductive LogEntry :=
| logSendingRequest
| logReceivedResponse (data : TranscriptionResponse)
| logTranscriptionError (err : Thrown).

Record State := mkState {
  (* environment *)
  now : Z;
  recorders : list (MediaRecorder unit);
  timers : Timers.table Callback;
  console : list LogEntry;
  (* refs *)
  isListeningRef : bool;
  isRecordingRef : bool;
  mediaRecorderRef : option nat;
  chunksRef : list Blob;
  silenceTimeoutRef : option nat;
  recordingTimeoutRef : option nat;
  streamRef : option MediaStream;
  cobraRef : option CobraWorker;
  recordingStartTimeRef : option Z;
  audioContextRef : option AudioContext;
  processingQueueRef : list Job;
  (* React state *)
  isInitialized : bool;
  isListening : bool;
  isRecording : bool;
  error : option string;
  transcription : option TranscriptionResponse;
  isProcessing : bool;
  lastResponseTime : option Z;
  partialTranscript : string
}.

Definition set_now v (s : State) : State :=
  {| now := v; recorders := recorders s; timers := timers s; console := console s; isListeningRef := isListeningRef s; isRecordingRef := isRecordingRef s; mediaRecorderRef := mediaRecorderRef s; chunksRef := chunksRef s; silenceTimeoutRef := silenceTimeoutRef s; recordingTimeoutRef := recordingTimeoutRef s; streamRef := streamRef s; cobraRef := cobraRef s; recordingStartTimeRef := recordingStartTimeRef s; audioContextRef := audioContextRef s; processingQueueRef := processingQueueRef s; isInitialized := isInitialized s; isListening := isListening s; isRecording := isRecording s; error := error s; transcription := transcription s; isProcessing := isProcessing s; lastResponseTime := lastResponseTime s; partialTranscript := partialTranscript s |}.
Definition set_recorders v (s : State) : State :=
  {| now := now s; recorders := v; timers := timers s; console := console s; isListeningRef := isListeningRef s; isRecordingRef := isRecordingRef s; mediaRecorderRef := mediaRecorderRef s; chunksRef := chunksRef s; silenceTimeoutRef := silenceTimeoutRef s; recordingTimeoutRef := recordingTimeoutRef s; streamRef := streamRef s; cobraRef := cobraRef s; recordingStartTimeRef := recordingStartTimeRef s; audioContextRef := audioContextRef s; processingQueueRef := processingQueueRef s; isInitialized := isInitialized s; isListening := isListening s; isRecording := isRecording s; error := error s; transcription := transcription s; isProcessing := isProcessing s; lastResponseTime := lastResponseTime s; partialTranscript := partialTranscript s |}.
Definition set_timers v (s : State) : State :=
  {| now := now s; recorders := recorders s; timers := v; console := console s; isListeningRef := isListeningRef s; isRecordingRef := isRecordingRef s; mediaRecorderRef := mediaRecorderRef s; chunksRef := chunksRef s; silenceTimeoutRef := silenceTimeoutRef s; recordingTimeoutRef := recordingTimeoutRef s; streamRef := streamRef s; cobraRef := cobraRef s; recordingStartTimeRef := recordingStartTimeRef s; audioContextRef := audioContextRef s; processingQueueRef := processingQueueRef s; isInitialized := isInitialized s; isListening := isListening s; isRecording := isRecording s; error := error s; transcription := transcription s; isProcessing := isProcessing s; lastResponseTime := lastResponseTime s; partialTranscript := partialTranscript s |}.
Definition set_console v (s : State) : State :=
  {| now := now s; recorders := recorders s; timers := timers s; console := v; isListeningRef := isListeningRef s; isRecordingRef := isRecordingRef s; mediaRecorderRef := mediaRecorderRef s; chunksRef := chunksRef s; silenceTimeoutRef := silenceTimeoutRef s; recordingTimeoutRef := recordingTimeoutRef s; streamRef := streamRef s; cobraRef := cobraRef s; recordingStartTimeRef := recordingStartTimeRef s; audioContextRef := audioContextRef s; processingQueueRef := processingQueueRef s; isInitialized := isInitialized s; isListening := isListening s; isRecording := isRecording s; error := error s; transcription := transcription s; isProcessing := isProcessing s; lastResponseTime := lastResponseTime s; partialTranscript := partialTranscript s |}.
Definition set_isListeningRef v (s : State) : State :=
  {| now := now s; recorders := recorders s; timers := timers s; console := console s; isListeningRef := v; isRecordingRef := isRecordingRef s; mediaRecorderRef := mediaRecorderRef s; chunksRef := chunksRef s; silenceTimeoutRef := silenceTimeoutRef s; recordingTimeoutRef := recordingTimeoutRef s; streamRef := streamRef s; cobraRef := cobraRef s; recordingStartTimeRef := recordingStartTimeRef s; audioContextRef := audioContextRef s; processingQueueRef := processingQueueRef s; isInitialized := isInitialized s; isListening := isListening s; isRecording := isRecording s; error := error s; transcription := transcription s; isProcessing := isProcessing s; lastResponseTime := lastResponseTime s; partialTranscript := partialTranscript s |}.
Definition set_isRecordingRef v (s : State) : State :=
  {| now := now s; recorders := recorders s; timers := timers s; console := console s; isListeningRef := isListeningRef s; isRecordingRef := v; mediaRecorderRef := mediaRecorderRef s; chunksRef := chunksRef s; silenceTimeoutRef := silenceTimeoutRef s; recordingTimeoutRef := recordingTimeoutRef s; streamRef := streamRef s; cobraRef := cobraRef s; recordingStartTimeRef := recordingStartTimeRef s; audioContextRef := audioContextRef s; processingQueueRef := processingQueueRef s; isInitialized := isInitialized s; isListening := isListening s; isRecording := isRecording s; error := error s; transcription := transcription s; isProcessing := isProcessing s; lastResponseTime := lastResponseTime s; partialTranscript := partialTranscript s |}.
Definition set_mediaRecorderRef v (s : State) : State :=
  {| now := now s; recorders := recorders s; timers := timers s; console := console s; isListeningRef := isListeningRef s; isRecordingRef := isRecordingRef s; mediaRecorderRef := v; chunksRef := chunksRef s; silenceTimeoutRef := silenceTimeoutRef s; recordingTimeoutRef := recordingTimeoutRef s; streamRef := streamRef s; cobraRef := cobraRef s; recordingStartTimeRef := recordingStartTimeRef s; audioContextRef := audioContextRef s; processingQueueRef := processingQueueRef s; isInitialized := isInitialized s; isListening := isListening s; isRecording := isRecording s; error := error s; transcription := transcription s; isProcessing := isProcessing s; lastResponseTime := lastResponseTime s; partialTranscript := partialTranscript s |}.
Definition set_chunksRef v (s : State) : State :=
  {| now := now s; recorders := recorders s; timers := timers s; console := console s; isListeningRef := isListeningRef s; isRecordingRef := isRecordingRef s; mediaRecorderRef := mediaRecorderRef s; chunksRef := v; silenceTimeoutRef := silenceTimeoutRef s; recordingTimeoutRef := recordingTimeoutRef s; streamRef := streamRef s; cobraRef := cobraRef s; recordingStartTimeRef := recordingStartTimeRef s; audioContextRef := audioContextRef s; processingQueueRef := processingQueueRef s; isInitialized := isInitialized s; isListening := isListening s; isRecording := isRecording s; error := error s; transcription := transcription s; isProcessing := isProcessing s; lastResponseTime := lastResponseTime s; partialTranscript := partialTranscript s |}.
Definition set_silenceTimeoutRef v (s : State) : State :=
  {| now := now s; recorders := recorders s; timers := timers s; console := console s; isListeningRef := isListeningRef s; isRecordingRef := isRecordingRef s; mediaRecorderRef := mediaRecorderRef s; chunksRef := chunksRef s; silenceTimeoutRef := v; recordingTimeoutRef := recordingTimeoutRef s; streamRef := streamRef s; cobraRef := cobraRef s; recordingStartTimeRef := recordingStartTimeRef s; audioContextRef := audioContextRef s; processingQueueRef := processingQueueRef s; isInitialized := isInitialized s; isListening := isListening s; isRecording := isRecording s; error := error s; transcription := transcription s; isProcessing := isProcessing s; lastResponseTime := lastResponseTime s; partialTranscript := partialTranscript s |}.
Definition set_recordingTimeoutRef v (s : State) : State :=
  {| now := now s; recorders := recorders s; timers := timers s; console := console s; isListeningRef := isListeningRef s; isRecordingRef := isRecordingRef s; mediaRecorderRef := mediaRecorderRef s; chunksRef := chunksRef s; silenceTimeoutRef := silenceTimeoutRef s; recordingTimeoutRef := v; streamRef := streamRef s; cobraRef := cobraRef s; recordingStartTimeRef := recordingStartTimeRef s; audioContextRef := audioContextRef s; processingQueueRef := processingQueueRef s; isInitialized := isInitialized s; isListening := isListening s; isRecording := isRecording s; error := error s; transcription := transcription s; isProcessing := isProcessing s; lastResponseTime := lastResponseTime s; partialTranscript := partialTranscript s |}.
Definition set_streamRef v (s : State) : State :=
  {| now := now s; recorders := recorders s; timers := timers s; console := console s; isListeningRef := isListeningRef s; isRecordingRef := isRecordingRef s; mediaRecorderRef := mediaRecorderRef s; chunksRef := chunksRef s; silenceTimeoutRef := silenceTimeoutRef s; recordingTimeoutRef := recordingTimeoutRef s; streamRef := v; cobraRef := cobraRef s; recordingStartTimeRef := recordingStartTimeRef s; audioContextRef := audioContextRef s; processingQueueRef := processingQueueRef s; isInitialized := isInitialized s; isListening := isListening s; isRecording := isRecording s; error := error s; transcription := transcription s; isProcessing := isProcessing s; lastResponseTime := lastResponseTime s; partialTranscript := partialTranscript s |}.
Definition set_cobraRef v (s : State) : State :=
  {| now := now s; recorders := recorders s; timers := timers s; console := console s; isListeningRef := isListeningRef s; isRecordingRef := isRecordingRef s; mediaRecorderRef := mediaRecorderRef s; chunksRef := chunksRef s; silenceTimeoutRef := silenceTimeoutRef s; recordingTimeoutRef := recordingTimeoutRef s; streamRef := streamRef s; cobraRef := v; recordingStartTimeRef := recordingStartTimeRef s; audioContextRef := audioContextRef s; processingQueueRef := processingQueueRef s; isInitialized := isInitialized s; isListening := isListening s; isRecording := isRecording s; error := error s; transcription := transcription s; isProcessing := isProcessing s; lastResponseTime := lastResponseTime s; partialTranscript := partialTranscript s |}.
Definition set_recordingStartTimeRef v (s : State) : State :=
  {| now := now s; recorders := recorders s; timers := timers s; console := console s; isListeningRef := isListeningRef s; isRecordingRef := isRecordingRef s; mediaRecorderRef := mediaRecorderRef s; chunksRef := chunksRef s; silenceTimeoutRef := silenceTimeoutRef s; recordingTimeoutRef := recordingTimeoutRef s; streamRef := streamRef s; cobraRef := cobraRef s; recordingStartTimeRef := v; audioContextRef := audioContextRef s; processingQueueRef := processingQueueRef s; isInitialized := isInitialized s; isListening := isListening s; isRecording := isRecording s; error := error s; transcription := transcription s; isProcessing := isProcessing s; lastResponseTime := lastResponseTime s; partialTranscript := partialTranscript s |}.
Definition set_audioContextRef v (s : State) : State :=
  {| now := now s; recorders := recorders s; timers := timers s; console := console s; isListeningRef := isListeningRef s; isRecordingRef := isRecordingRef s; mediaRecorderRef := mediaRecorderRef s; chunksRef := chunksRef s; silenceTimeoutRef := silenceTimeoutRef s; recordingTimeoutRef := recordingTimeoutRef s; streamRef := streamRef s; cobraRef := cobraRef s; recordingStartTimeRef := recordingStartTimeRef s; audioContextRef := v; processingQueueRef := processingQueueRef s; isInitialized := isInitialized s; isListening := isListening s; isRecording := isRecording s; error := error s; transcription := transcription s; isProcessing := isProcessing s; lastResponseTime := lastResponseTime s; partialTranscript := partialTranscript s |}.
Definition set_processingQueueRef v (s : State) : State :=
  {| now := now s; recorders := recorders s; timers := timers s; console := console s; isListeningRef := isListeningRef s; isRecordingRef := isRecordingRef s; mediaRecorderRef := mediaRecorderRef s; chunksRef := chunksRef s; silenceTimeoutRef := silenceTimeoutRef s; recordingTimeoutRef := recordingTimeoutRef s; streamRef := streamRef s; cobraRef := cobraRef s; recordingStartTimeRef := recordingStartTimeRef s; audioContextRef := audioContextRef s; processingQueueRef := v; isInitialized := isInitialized s; isListening := isListening s; isRecording := isRecording s; error := error s; transcription := transcription s; isProcessing := isProcessing s; lastResponseTime := lastResponseTime s; partialTranscript := partialTranscript s |}.
Definition set_isInitialized v (s : State) : State :=
  {| now := now s; recorders := recorders s; timers := timers s; console := console s; isListeningRef := isListeningRef s; isRecordingRef := isRecordingRef s; mediaRecorderRef := mediaRecorderRef s; chunksRef := chunksRef s; silenceTimeoutRef := silenceTimeoutRef s; recordingTimeoutRef := recordingTimeoutRef s; streamRef := streamRef s; cobraRef := cobraRef s; recordingStartTimeRef := recordingStartTimeRef s; audioContextRef := audioContextRef s; processingQueueRef := processingQueueRef s; isInitialized := v; isListening := isListening s; isRecording := isRecording s; error := error s; transcription := transcription s; isProcessing := isProcessing s; lastResponseTime := lastResponseTime s; partialTranscript := partialTranscript s |}.
Definition set_isListening v (s : State) : State :=
  {| now := now s; recorders := recorders s; timers := timers s; console := console s; isListeningRef := isListeningRef s; isRecordingRef := isRecordingRef s; mediaRecorderRef := mediaRecorderRef s; chunksRef := chunksRef s; silenceTimeoutRef := silenceTimeoutRef s; recordingTimeoutRef := recordingTimeoutRef s; streamRef := streamRef s; cobraRef := cobraRef s; recordingStartTimeRef := recordingStartTimeRef s; audioContextRef := audioContextRef s; processingQueueRef := processingQueueRef s; isInitialized := isInitialized s; isListening := v; isRecording := isRecording s; error := error s; transcription := transcription s; isProcessing := isProcessing s; lastResponseTime := lastResponseTime s; partialTranscript := partialTranscript s |}.
Definition set_isRecording v (s : State) : State :=
  {| now := now s; recorders := recorders s; timers := timers s; console := console s; isListeningRef := isListeningRef s; isRecordingRef := isRecordingRef s; mediaRecorderRef := mediaRecorderRef s; chunksRef := chunksRef s; silenceTimeoutRef := silenceTimeoutRef s; recordingTimeoutRef := recordingTimeoutRef s; streamRef := streamRef s; cobraRef := cobraRef s; recordingStartTimeRef := recordingStartTimeRef s; audioContextRef := audioContextRef s; processingQueueRef := processingQueueRef s; isInitialized := isInitialized s; isListening := isListening s; isRecording := v; error := error s; transcription := transcription s; isProcessing := isProcessing s; lastResponseTime := lastResponseTime s; partialTranscript := partialTranscript s |}.
Definition set_error v (s : State) : State :=
  {| now := now s; recorders := recorders s; timers := timers s; console := console s; isListeningRef := isListeningRef s; isRecordingRef := isRecordingRef s; mediaRecorderRef := mediaRecorderRef s; chunksRef := chunksRef s; silenceTimeoutRef := silenceTimeoutRef s; recordingTimeoutRef := recordingTimeoutRef s; streamRef := streamRef s; cobraRef := cobraRef s; recordingStartTimeRef := recordingStartTimeRef s; audioContextRef := audioContextRef s; processingQueueRef := processingQueueRef s; isInitialized := isInitialized s; isListening := isListening s; isRecording := isRecording s; error := v; transcription := transcription s; isProcessing := isProcessing s; lastResponseTime := lastResponseTime s; partialTranscript := partialTranscript s |}.
Definition set_transcription v (s : State) : State :=
  {| now := now s; recorders := recorders s; timers := timers s; console := console s; isListeningRef := isListeningRef s; isRecordingRef := isRecordingRef s; mediaRecorderRef := mediaRecorderRef s; chunksRef := chunksRef s; silenceTimeoutRef := silenceTimeoutRef s; recordingTimeoutRef := recordingTimeoutRef s; streamRef := streamRef s; cobraRef := cobraRef s; recordingStartTimeRef := recordingStartTimeRef s; audioContextRef := audioContextRef s; processingQueueRef := processingQueueRef s; isInitialized := isInitialized s; isListening := isListening s; isRecording := isRecording s; error := error s; transcription := v; isProcessing := isProcessing s; lastResponseTime := lastResponseTime s; partialTranscript := partialTranscript s |}.
Definition set_isProcessing v (s : State) : State :=
  {| now := now s; recorders := recorders s; timers := timers s; console := console s; isListeningRef := isListeningRef s; isRecordingRef := isRecordingRef s; mediaRecorderRef := mediaRecorderRef s; chunksRef := chunksRef s; silenceTimeoutRef := silenceTimeoutRef s; recordingTimeoutRef := recordingTimeoutRef s; streamRef := streamRef s; cobraRef := cobraRef s; recordingStartTimeRef := recordingStartTimeRef s; audioContextRef := audioContextRef s; processingQueueRef := processingQueueRef s; isInitialized := isInitialized s; isListening := isListening s; isRecording := isRecording s; error := error s; transcription := transcription s; isProcessing := v; lastResponseTime := lastResponseTime s; partialTranscript := partialTranscript s |}.
Definition set_lastResponseTime v (s : State) : State :=
  {| now := now s; recorders := recorders s; timers := timers s; console := console s; isListeningRef := isListeningRef s; isRecordingRef := isRecordingRef s; mediaRecorderRef := mediaRecorderRef s; chunksRef := chunksRef s; silenceTimeoutRef := silenceTimeoutRef s; recordingTimeoutRef := recordingTimeoutRef s; streamRef := streamRef s; cobraRef := cobraRef s; recordingStartTimeRef := recordingStartTimeRef s; audioContextRef := audioContextRef s; processingQueueRef := processingQueueRef s; isInitialized := isInitialized s; isListening := isListening s; isRecording := isRecording s; error := error s; transcription := transcription s; isProcessing := isProcessing s; lastResponseTime := v; partialTranscript := partialTranscript s |}.
Definition set_partialTranscript v (s : State) : State :=
  {| now := now s; recorders := recorders s; timers := timers s; console := console s; isListeningRef := isListeningRef s; isRecordingRef := isRecordingRef s; mediaRecorderRef := mediaRecorderRef s; chunksRef := chunksRef s; silenceTimeoutRef := silenceTimeoutRef s; recordingTimeoutRef := recordingTimeoutRef s; streamRef := streamRef s; cobraRef := cobraRef s; recordingStartTimeRef := recordingStartTimeRef s; audioContextRef := audioContextRef s; processingQueueRef := processingQueueRef s; isInitialized := isInitialized s; isListening := isListening s; isRecording := isRecording s; error := error s; transcription := transcription s; isProcessing := isProcessing s; lastResponseTime := lastResponseTime s; partialTranscript := v |}.

Definition initial (t : Z) : State :=
  {| now := t; recorders := []; timers := Timers.empty; console := [];
     isListeningRef := false; isRecordingRef := false;
     mediaRecorderRef := None; chunksRef := [];
     silenceTimeoutRef := None; recordingTimeoutRef := None;
     streamRef := None; cobraRef := None; recordingStartTimeRef := None;
     audioContextRef := None; processingQueueRef := [];
     isInitialized := false; isListening := false; isRecording := false;
     error := None; transcription := None; isProcessing := false;
     lastResponseTime := None; partialTranscript := "" |}.

(** *** The promise chain *)

Definition isSettled (p : Phase) : bool :=
  match p with settled _ => true | _ => false end.

Definition isRunning (p : Phase) : bool :=
  match p with decoding | fetching => true | _ => false end.

(** [.then(newProcessing)]: the first link that has not settled starts
    once every link before it has settled.  With no audio context
    [newProcessing] returns at once, and the next link starts.  The
    boolean tells whether some link started ([setIsProcessing(true)]). *)
Fixpoint pump (haveContext : bool) (q : list Job) : list Job * bool :=
  match q with
  | [] => ([], false)
  | j :: q' =>
      match phase j with
      | settled _ =>
          let '(q'', began) := pump haveContext q' in (j :: q'', began)
      | waiting =>
          if haveContext then (mkJob (clip j) decoding :: q', true)
          else
            let '(q'', _) := pump haveContext q' in
            (mkJob (clip j) (settled None) :: q'', true)
      | decoding | fetching => (j :: q', false)
      end
  end.

Definition runQueue (s : State) : State :=
  let '(q, began) :=
    pump (bool_decide (is_Some (audioContextRef s))) (processingQueueRef s) in
  set_isProcessing (began || isProcessing s) (set_processingQueueRef q s).

Definition processAndSendAudio (audioBlob : Blob) (s : State) : State :=
  runQueue
    (set_processingQueueRef (processingQueueRef s ++ [mkJob audioBlob waiting]) s).

Definition settleJob (k : nat) (merged : option TranscriptionResponse)
  (s : State) : State :=
  match processingQueueRef s !! k with
  | Some j =>
      runQueue
        (set_processingQueueRef
           (<[k := mkJob (clip j) (settled merged)]> (processingQueueRef s)) s)
  | None => s
  end.

(** The [catch] block of [newProcessing]. *)
Definition transcriptionFailed (k : nat) (err : Thrown) (s : State) : State :=
  settleJob k None
    (set_isProcessing false
       (set_error (Some (messageOf err))
          (set_console (console s ++ [logTranscriptionError err]) s))).

(** [blobToAudioBuffer] settles for link [k]. *)
Definition decoded (k : nat) (failure : option Thrown) (s : State) : State :=
  match processingQueueRef s !! k with
  | Some j =>
      match phase j with
      | decoding =>
          match failure with
          | Some err => transcriptionFailed k err s
          | None =>
              set_processingQueueRef
                (<[k := mkJob (clip j) fetching]> (processingQueueRef s))
                (set_console (console s ++ [logSendingRequest]) s)
          end
      | _ => s
      end
  | None => s
  end.

(** The request of link [k] comes back. *)
Definition responded (k : nat) (r : Reply) (s : State) : State :=
  match processingQueueRef s !! k with
  | Some j =>
      match phase j with
      | fetching =>
          match r with
          | fetchRejected err => transcriptionFailed k err s
          | httpStatus status errorText =>
              transcriptionFailed k (apiError status errorText) s
          | bodyRejected err => transcriptionFailed k err s
          | json data =>
              settleJob k (Some data)
                (set_isProcessing false
                   (set_partialTranscript ""
                      (set_transcription
                         (Some (appendTranscript (transcription s) data))
                         (set_lastResponseTime (Some (now s))
                            (set_console
                               (console s ++ [logReceivedResponse data]) s)))))
          end
      | _ => s
      end
  | None => s
  end.

(** *** Recording *)

Definition currentIsRecording (s : State) : bool :=
  match mediaRecorderRef s with
  | Some r => isRecordingAt (recorders s) r
  | None => false
  end.

Definition stopRecording (s : State) : State :=
  let s1 :=
    match mediaRecorderRef s with
    | Some r =>
        if isRecordingAt (recorders s) r
        then set_recorders (stop r (recorders s)) s
        else s
    | None => s
    end in
  match recordingTimeoutRef s1 with
  | Some h =>
      set_recordingTimeoutRef None
        (set_timers (Timers.clearTimeout h (timers s1)) s1)
  | None => s1
  end.

Definition onstop (s : State) : State :=
  let duration :=
    now s - match recordingStartTimeRef s with Some t => t | None => 0 end in
  let s1 :=
    if (MIN_RECORDING_DURATION <=? duration)
       && (0 <? Z.of_nat (length (chunksRef s)))
    then processAndSendAudio (newBlob (chunksRef s)) s
    else s in
  set_isRecording false
    (set_recordingStartTimeRef None
       (set_isRecordingRef false
          (set_chunksRef [] s1))).

Definition ondataavailable (data : Blob) (s : State) : State :=
  if 0 <? size data
  then set_chunksRef (chunksRef s ++ [data]) s
  else s.

Definition startRecording (s : State) : State :=
  match streamRef s with
  | None => s
  | Some _ =>
      if currentIsRecording s then s
      else
        let '(r, hp) := create tt (recorders s) in
        let '(h, tb) :=
          Timers.setTimeout (maxDurationElapsed r) (now s)
            MAX_RECORDING_DURATION (timers s) in
        set_recordingTimeoutRef (Some h)
          (set_timers tb
             (set_isRecording true
                (set_isRecordingRef true
                   (set_recorders hp
                      (set_recordingStartTimeRef (Some (now s))
                         (set_chunksRef []
                            (set_mediaRecorderRef (Some r) s)))))))
  end.

Definition handleVoiceDetected (s : State) : State :=
  let s1 :=
    match silenceTimeoutRef s with
    | Some h =>
        set_silenceTimeoutRef None
          (set_timers (Timers.clearTimeout h (timers s)) s)
    | None => s
    end in
  if negb (isRecordingRef s1) && isListeningRef s1
     && bool_decide (is_Some (streamRef s1))
  then startRecording s1
  else s1.

Definition handleSilenceDetected (s : State) : State :=
  match silenceTimeoutRef s with
  | None =>
      if isRecordingRef s then
        let '(h, tb) :=
          Timers.setTimeout silenceElapsed (now s)
            SILENCE_DURATION_THRESHOLD (timers s) in
        set_silenceTimeoutRef (Some h) (set_timers tb s)
      else s
  | Some _ => s
  end.

(** The callback given to [CobraWorker.create]. *)
Definition handleVoiceProbability (probability : Q) (s : State) : State :=
  if Qle_bool VOICE_PROBABILITY_THRESHOLD probability
  then handleVoiceDetected s
  else handleSilenceDetected s.

Definition runCallback (c : Callback) (s : State) : State :=
  match c with
  | silenceElapsed => set_silenceTimeoutRef None (stopRecording s)
  | maxDurationElapsed r =>
      if isRecordingAt (recorders s) r then stopRecording s else s
  end.

Inductive InitResult :=
| initReady
| initMicrophoneFailed (err : Thrown)
| initCobraFailed (err : Thrown).

(** [err instanceof Error ? err.message : "Failed to initialize voice detector"] *)
Definition initMessage (err : Thrown) : string :=
  match err with
  | errorObject m => m
  | otherValue => "Failed to initialize voice detector"%string
  end.

Definition initializeVoiceDetector (r : InitResult) (s : State) : State :=
  let s1 := set_audioContextRef (Some (Context false)) s in
  match r with
  | initMicrophoneFailed err => set_error (Some (initMessage err)) s1
  | initCobraFailed err =>
      set_error (Some (initMessage err))
        (set_streamRef (Some (Stream true)) s1)
  | initReady =>
      set_error None
        (set_isInitialized true
           (set_cobraRef (Some (Cobra false false))
              (set_streamRef (Some (Stream true)) s1)))
  end.

Definition startListening (s : State) : State :=
  match cobraRef s with
  | Some c =>
      if isInitialized s then
        set_error None
          (set_isListening true
             (set_isListeningRef true
                (set_cobraRef (Some (Cobra true (released c))) s)))
      else s
  | None => s
  end.

Definition stopListening (s : State) : State :=
  match cobraRef s with
  | Some c =>
      if isListeningRef s then
        let s1 := set_cobraRef (Some (Cobra false (released c))) s in
        let s2 := if isRecordingRef s1 then stopRecording s1 else s1 in
        set_error None (set_isListening false (set_isListeningRef false s2))
      else s
  | None => s
  end.

Definition unmount (s : State) : State :=
  let s1 :=
    match cobraRef s with
    | Some c =>
        if isListeningRef s
        then set_cobraRef (Some (Cobra false (released c))) s
        else s
    | None => s
    end in
  let s2 :=
    match streamRef s1 with
    | Some _ => set_streamRef (Some (Stream false)) s1
    | None => s1
    end in
  let s3 :=
    match cobraRef s2 with
    | Some c => set_cobraRef (Some (Cobra (subscribed c) true)) s2
    | None => s2
    end in
  match audioContextRef s3 with
  | Some _ => set_audioContextRef (Some (Context true)) s3
  | None => s3
  end.

(** *** The event loop *)

Fixpoint fireDue (fuel : nat) (t : Z) (s : State) : State :=
  match fuel with
  | O => s
  | S fuel' =>
      match Timers.next_due t (timers s) with
      | None => s
      | Some tm =>
          fireDue fuel' t
            (runCallback (Timers.callback tm)
               (set_now (Z.max (now s) (Timers.due tm))
                  (set_timers
                     (Timers.clearTimeout (Timers.handle tm) (timers s))
                     s)))
      end
  end.

Definition elapse (t : Z) (s : State) : State :=
  let s' := fireDue (length (Timers.pending (timers s))) t s in
  set_now (Z.max (now s') t) s'.

Definition dispatchStop (r : nat) (s : State) : State :=
  match recorders s !! r with
  | Some m =>
      if stopQueued m
      then onstop (set_recorders (dispatched r (recorders s)) s)
      else s
  | None => s
  end.

Definition dispatchData (r : nat) (data : Blob) (s : State) : State :=
  if isRecordingAt (recorders s) r || hasQueuedStop (recorders s) r
  then ondataavailable data s
  else s.

Inductive Event :=
| evProbability (p : Q)
| evData (r : nat) (data : Blob)
| evStop (r : nat)
| evElapse (t : Z)
| evDecoded (k : nat) (failure : option Thrown)
| evResponse (k : nat) (r : Reply)
| evInitialized (r : InitResult)
| evStartListening
| evStopListening
| evUnmount.

Definition step (s : State) (e : Event) : State :=
  match e with
  | evProbability p => handleVoiceProbability p s
  | evData r d => dispatchData r d s
  | evStop r => dispatchStop r s
  | evElapse t => elapse t s
  | evDecoded k f => decoded k f s
  | evResponse k r => responded k r s
  | evInitialized r => initializeVoiceDetector r s
  | evStartListening => startListening s
  | evStopListening => stopListening s
  | evUnmount => unmount s
  end.

Definition run (s : State) (es : list Event) : State := fold_left step es s.

Definition settle (s : State) : State :=
  match mediaRecorderRef s with
  | Some r => dispatchStop r s
  | None => s
  end.

Fixpoint advance (fuel : nat) (t : Z) (s : State) : State :=
  match fuel with
  | O => elapse t s
  | S fuel' =>
      match Timers.next_due t (timers s) with
      | None => elapse t s
      | Some tm => advance fuel' t (settle (elapse (Timers.due tm) s))
      end
  end.

Definition advanceTo (t : Z) (s : State) : State :=
  advance (length (Timers.pending (timers s))) t s.

Definition feed (s : State) (x : Sample) : State :=
  handleVoiceProbability (snd x) (advanceTo (fst x) s).

Definition feedAll (s : State) (xs : list Sample) : State :=
  fold_left feed xs s.

Definition voiced (x : Sample) : bool :=
  Qle_bool VOICE_PROBABILITY_THRESHOLD (snd x).

(** The clips handed to [processAndSendAudio] so far, in order. *)
Definition submitted (s : State) : list Blob := map clip (processingQueueRef s).

Definition listeningAt (t : Z) : State :=
  startListening (initializeVoiceDetector initReady (initial t)).

Definition sampleTime (x : Sample) : Z := fst x.

(** *** Shapes of the state used by the properties *)

(** The session of recorder [r], started at [t0], is running under a
    voiced signal: no silence timer, and the maximum-duration timer of
    [startRecording] pending for [t0 + MAX_RECORDING_DURATION]. *)
Definition sessionRunning (r : nat) (t0 : Z) (s : State) : Prop :=
  isRecordingRef s = true ∧ mediaRecorderRef s = Some r ∧
  isRecordingAt (recorders s) r = true ∧
  recordingStartTimeRef s = Some t0 ∧
  silenceTimeoutRef s = None ∧
  ∃ h, recordingTimeoutRef s = Some h ∧
       Timers.pending (timers s)
       = [Timers.Timer h (t0 + MAX_RECORDING_DURATION) (maxDurationElapsed r)].

(** The responses merged so far, in the order of the chain. *)
Definition mergedOf (j : Job) : option TranscriptionResponse :=
  match phase j with
  | settled m => m
  | _ => None
  end.

Definition mergedResponses (q : list Job) : list TranscriptionResponse :=
  omap mergedOf q.

(** What [setTranscription] makes of a list of responses, from no
    transcript at all. *)
Definition mergeAll (ds : list TranscriptionResponse)
  : option TranscriptionResponse :=
  fold_left (λ acc d, Some (appendTranscript acc d)) ds None.

Definition isWaiting (p : Phase) : bool :=
  match p with waiting => true | _ => false end.

(** Settled links, then at most one running link, then waiting links. *)
Fixpoint wellChained (q : list Job) : bool :=
  match q with
  | [] => true
  | j :: q' =>
      match phase j with
      | settled _ => wellChained q'
      | decoding | fetching => forallb (λ j', isWaiting (phase j')) q'
      | waiting => false
      end
  end.

(** The shape of the chain between the settling of a link, or the
    chaining of a new one, and the start of the next: the first link
    that has not settled may still wait. *)
Definition preChained (q : list Job) : Prop :=
  ∃ done rest, q = done ++ rest ∧
    Forall (λ j, isSettled (phase j) = true) done ∧
    ((∃ j ws, rest = j :: ws ∧ isRunning (phase j) = true ∧
              Forall (λ j', phase j' = waiting) ws)
     ∨ Forall (λ j', phase j' = waiting) rest).

(** The chain is in shape and the transcript is what its settled links
    merged, in their order. *)
Definition chainInv (s : State) : Prop :=
  wellChained (processingQueueRef s) = true ∧
  transcription s = mergeAll (mergedResponses (processingQueueRef s)).

Definition dispatcherView (s : State)
  : list Job * option TranscriptionResponse :=
  (processingQueueRef s, transcription s).

(** A link has begun only if every link before it has settled. *)
Definition startedInOrder (q : list Job) : Prop :=
  ∀ (i k : nat) (ji jk : Job),
    (i < k)%nat → q !! i = Some ji → q !! k = Some jk →
    isWaiting (phase jk) = false → isSettled (phase ji) = true.

Definition runningCount (q : list Job) : nat :=
  length (List.filter (λ j, isRunning (phase j)) q).

Definition unsettledCount (q : list Job) : nat :=
  length (List.filter (λ j, negb (isSettled (phase j))) q).

(** The link that is running, if any. *)
Fixpoint runningIndex (q : list Job) : option nat :=
  match q with
  | [] => None
  | j :: q' =>
      if isRunning (phase j) then Some 0%nat
      else S <$> runningIndex q'
  end.

(** What the environment makes of one link: some step of it throws, or
    the clip is decoded and the request gets a reply. *)
Inductive Outcome :=
| failsWith (err : Thrown)
| replies (r : Reply).

(** The environment answers the running link, whichever of its two
    awaits it is at. *)
Definition answer (s : State) (o : Outcome) : State :=
  match runningIndex (processingQueueRef s) with
  | Some k =>
      match o with
      | failsWith err =>
          responded k (fetchRejected err) (decoded k (Some err) s)
      | replies r => responded k r (decoded k None s)
      end
  | None => s
  end.

Definition succeeded (o : Outcome) : option TranscriptionResponse :=
  match o with
  | replies (json data) => Some data
  | _ => None
  end.

(** The error a reply makes [newProcessing] throw, if any. *)
Definition failureOf (r : Reply) : option Thrown :=
  match r with
  | fetchRejected err => Some err
  | httpStatus status errorText => Some (apiError status errorText)
  | bodyRejected err => Some err
  | json _ => None
  end.

(** The chunk list and what has been handed to transcription. *)
Definition queuedOutput (s : State) : list Blob * list Blob :=
  (chunksRef s, submitted s).

(** The recording side of the state. *)
Definition recordingView (s : State) :=
  (recorders s, timers s, isListeningRef s, isRecordingRef s,
   mediaRecorderRef s, chunksRef s, silenceTimeoutRef s,
   recordingTimeoutRef s, recordingStartTimeRef s, streamRef s).

(** At most one recorder is recording or waiting for its stop event, and
    none is while the recording flag is down. *)
Definition sessionInv (s : State) : Prop :=
  (activeCount (recorders s) + queuedCount (recorders s) ≤ 1)%nat ∧
  (isRecordingRef s = false →
   (activeCount (recorders s) + queuedCount (recorders s) = 0)%nat).
End QueuedStt.

(** ** [src/app/page.tsx]: component [RealtimeSpeechToText] *)

Module AwaitingStt.
Import Media Sarvam.

Definition VOICE_PROBABILITY_THRESHOLD : Q := 5 # 10.
Definition SILENCE_DURATION_THRESHOLD : Z := 1500.
Definition MIN_RECORDING_DURATION : Z := 500.

Inductive Callback := silenceElapsed.

(** A call of [processAndSendAudio] that a stop handler awaits: it
    awaits the decoding of the clip, then the request, then returns. *)
Inductive Phase := decoding | fetching | returned.

Record Call := mkCall { clip : Blob; phase : Phase }.

Record State := mkState {
  (* environment *)
  now : Z;
  sarvamKeyConfigured : bool;
  recorders : list (MediaRecorder unit);
  timers : Timers.table Callback;
  calls : list Call;
  (* refs *)
  isListeningRef : bool;
  isRecordingRef : bool;
  mediaRecorderRef : option nat;
  chunksRef : list Blob;
  silenceTimeoutRef : option nat;
  streamRef : option MediaStream;
  cobraRef : option CobraWorker;
  recordingStartTimeRef : option Z;
  (* React state *)
  isInitialized : bool;
  isListening : bool;
  isRecording : bool;
  error : option string;
  transcription : option TranscriptionResponse;
  isProcessing : bool;
  lastResponseTime : option Z
}.

Definition set_now v (s : State) : State :=
  {| now := v; sarvamKeyConfigured := sarvamKeyConfigured s; recorders := recorders s; timers := timers s; calls := calls s; isListeningRef := isListeningRef s; isRecordingRef := isRecordingRef s; mediaRecorderRef := mediaRecorderRef s; chunksRef := chunksRef s; silenceTimeoutRef := silenceTimeoutRef s; streamRef := streamRef s; cobraRef := cobraRef s; recordingStartTimeRef := recordingStartTimeRef s; isInitialized := isInitialized s; isListening := isListening s; isRecording := isRecording s; error := error s; transcription := transcription s; isProcessing := isProcessing s; lastResponseTime := lastResponseTime s |}.
Definition set_sarvamKeyConfigured v (s : State) : State :=
  {| now := now s; sarvamKeyConfigured := v; recorders := recorders s; timers := timers s; calls := calls s; isListeningRef := isListeningRef s; isRecordingRef := isRecordingRef s; mediaRecorderRef := mediaRecorderRef s; chunksRef := chunksRef s; silenceTimeoutRef := silenceTimeoutRef s; streamRef := streamRef s; cobraRef := cobraRef s; recordingStartTimeRef := recordingStartTimeRef s; isInitialized := isInitialized s; isListening := isListening s; isRecording := isRecording s; error := error s; transcription := transcription s; isProcessing := isProcessing s; lastResponseTime := lastResponseTime s |}.
Definition set_recorders v (s : State) : State :=
  {| now := now s; sarvamKeyConfigured := sarvamKeyConfigured s; recorders := v; timers := timers s; calls := calls s; isListeningRef := isListeningRef s; isRecordingRef := isRecordingRef s; mediaRecorderRef := mediaRecorderRef s; chunksRef := chunksRef s; silenceTimeoutRef := silenceTimeoutRef s; streamRef := streamRef s; cobraRef := cobraRef s; recordingStartTimeRef := recordingStartTimeRef s; isInitialized := isInitialized s; isListening := isListening s; isRecording := isRecording s; error := error s; transcription := transcription s; isProcessing := isProcessing s; lastResponseTime := lastResponseTime s |}.
Definition set_timers v (s : State) : State :=
  {| now := now s; sarvamKeyConfigured := sarvamKeyConfigured s; recorders := recorders s; timers := v; calls := calls s; isListeningRef := isListeningRef s; isRecordingRef := isRecordingRef s; mediaRecorderRef := mediaRecorderRef s; chunksRef := chunksRef s; silenceTimeoutRef := silenceTimeoutRef s; streamRef := streamRef s; cobraRef := cobraRef s; recordingStartTimeRef := recordingStartTimeRef s; isInitialized := isInitialized s; isListening := isListening s; isRecording := isRecording s; error := error s; transcription := transcription s; isProcessing := isProcessing s; lastResponseTime := lastResponseTime s |}.
Definition set_calls v (s : State) : State :=
  {| now := now s; sarvamKeyConfigured := sarvamKeyConfigured s; recorders := recorders s; timers := timers s; calls := v; isListeningRef := isListeningRef s; isRecordingRef := isRecordingRef s; mediaRecorderRef := mediaRecorderRef s; chunksRef := chunksRef s; silenceTimeoutRef := silenceTimeoutRef s; streamRef := streamRef s; cobraRef := cobraRef s; recordingStartTimeRef := recordingStartTimeRef s; isInitialized := isInitialized s; isListening := isListening s; isRecording := isRecording s; error := error s; transcription := transcription s; isProcessing := isProcessing s; lastResponseTime := lastResponseTime s |}.
Definition set_isListeningRef v (s : State) : State :=
  {| now := now s; sarvamKeyConfigured := sarvamKeyConfigured s; recorders := recorders s; timers := timers s; calls := calls s; isListeningRef := v; isRecordingRef := isRecordingRef s; mediaRecorderRef := mediaRecorderRef s; chunksRef := chunksRef s; silenceTimeoutRef := silenceTimeoutRef s; streamRef := streamRef s; cobraRef := cobraRef s; recordingStartTimeRef := recordingStartTimeRef s; isInitialized := isInitialized s; isListening := isListening s; isRecording := isRecording s; error := error s; transcription := transcription s; isProcessing := isProcessing s; lastResponseTime := lastResponseTime s |}.
Definition set_isRecordingRef v (s : State) : State :=
  {| now := now s; sarvamKeyConfigured := sarvamKeyConfigured s; recorders := recorders s; timers := timers s; calls := calls s; isListeningRef := isListeningRef s; isRecordingRef := v; mediaRecorderRef := mediaRecorderRef s; chunksRef := chunksRef s; silenceTimeoutRef := silenceTimeoutRef s; streamRef := streamRef s; cobraRef := cobraRef s; recordingStartTimeRef := recordingStartTimeRef s; isInitialized := isInitialized s; isListening := isListening s; isRecording := isRecording s; error := error s; transcription := transcription s; isProcessing := isProcessing s; lastResponseTime := lastResponseTime s |}.
Definition set_mediaRecorderRef v (s : State) : State :=
  {| now := now s; sarvamKeyConfigured := sarvamKeyConfigured s; recorders := recorders s; timers := timers s; calls := calls s; isListeningRef := isListeningRef s; isRecordingRef := isRecordingRef s; mediaRecorderRef := v; chunksRef := chunksRef s; silenceTimeoutRef := silenceTimeoutRef s; streamRef := streamRef s; cobraRef := cobraRef s; recordingStartTimeRef := recordingStartTimeRef s; isInitialized := isInitialized s; isListening := isListening s; isRecording := isRecording s; error := error s; transcription := transcription s; isProcessing := isProcessing s; lastResponseTime := lastResponseTime s |}.
Definition set_chunksRef v (s : State) : State :=
  {| now := now s; sarvamKeyConfigured := sarvamKeyConfigured s; recorders := recorders s; timers := timers s; calls := calls s; isListeningRef := isListeningRef s; isRecordingRef := isRecordingRef s; mediaRecorderRef := mediaRecorderRef s; chunksRef := v; silenceTimeoutRef := silenceTimeoutRef s; streamRef := streamRef s; cobraRef := cobraRef s; recordingStartTimeRef := recordingStartTimeRef s; isInitialized := isInitialized s; isListening := isListening s; isRecording := isRecording s; error := error s; transcription := transcription s; isProcessing := isProcessing s; lastResponseTime := lastResponseTime s |}.
Definition set_silenceTimeoutRef v (s : State) : State :=
  {| now := now s; sarvamKeyConfigured := sarvamKeyConfigured s; recorders := recorders s; timers := timers s; calls := calls s; isListeningRef := isListeningRef s; isRecordingRef := isRecordingRef s; mediaRecorderRef := mediaRecorderRef s; chunksRef := chunksRef s; silenceTimeoutRef := v; streamRef := streamRef s; cobraRef := cobraRef s; recordingStartTimeRef := recordingStartTimeRef s; isInitialized := isInitialized s; isListening := isListening s; isRecording := isRecording s; error := error s; transcription := transcription s; isProcessing := isProcessing s; lastResponseTime := lastResponseTime s |}.
Definition set_streamRef v (s : State) : State :=
  {| now := now s; sarvamKeyConfigured := sarvamKeyConfigured s; recorders := recorders s; timers := timers s; calls := calls s; isListeningRef := isListeningRef s; isRecordingRef := isRecordingRef s; mediaRecorderRef := mediaRecorderRef s; chunksRef := chunksRef s; silenceTimeoutRef := silenceTimeoutRef s; streamRef := v; cobraRef := cobraRef s; recordingStartTimeRef := recordingStartTimeRef s; isInitialized := isInitialized s; isListening := isListening s; isRecording := isRecording s; error := error s; transcription := transcription s; isProcessing := isProcessing s; lastResponseTime := lastResponseTime s |}.
Definition set_cobraRef v (s : State) : State :=
  {| now := now s; sarvamKeyConfigured := sarvamKeyConfigured s; recorders := recorders s; timers := timers s; calls := calls s; isListeningRef := isListeningRef s; isRecordingRef := isRecordingRef s; mediaRecorderRef := mediaRecorderRef s; chunksRef := chunksRef s; silenceTimeoutRef := silenceTimeoutRef s; streamRef := streamRef s; cobraRef := v; recordingStartTimeRef := recordingStartTimeRef s; isInitialized := isInitialized s; isListening := isListening s; isRecording := isRecording s; error := error s; transcription := transcription s; isProcessing := isProcessing s; lastResponseTime := lastResponseTime s |}.
Definition set_recordingStartTimeRef v (s : State) : State :=
  {| now := now s; sarvamKeyConfigured := sarvamKeyConfigured s; recorders := recorders s; timers := timers s; calls := calls s; isListeningRef := isListeningRef s; isRecordingRef := isRecordingRef s; mediaRecorderRef := mediaRecorderRef s; chunksRef := chunksRef s; silenceTimeoutRef := silenceTimeoutRef s; streamRef := streamRef s; cobraRef := cobraRef s; recordingStartTimeRef := v; isInitialized := isInitialized s; isListening := isListening s; isRecording := isRecording s; error := error s; transcription := transcription s; isProcessing := isProcessing s; lastResponseTime := lastResponseTime s |}.
Definition set_isInitialized v (s : State) : State :=
  {| now := now s; sarvamKeyConfigured := sarvamKeyConfigured s; recorders := recorders s; timers := timers s; calls := calls s; isListeningRef := isListeningRef s; isRecordingRef := isRecordingRef s; mediaRecorderRef := mediaRecorderRef s; chunksRef := chunksRef s; silenceTimeoutRef := silenceTimeoutRef s; streamRef := streamRef s; cobraRef := cobraRef s; recordingStartTimeRef := recordingStartTimeRef s; isInitialized := v; isListening := isListening s; isRecording := isRecording s; error := error s; transcription := transcription s; isProcessing := isProcessing s; lastResponseTime := lastResponseTime s |}.
Definition set_isListening v (s : State) : State :=
  {| now := now s; sarvamKeyConfigured := sarvamKeyConfigured s; recorders := recorders s; timers := timers s; calls := calls s; isListeningRef := isListeningRef s; isRecordingRef := isRecordingRef s; mediaRecorderRef := mediaRecorderRef s; chunksRef := chunksRef s; silenceTimeoutRef := silenceTimeoutRef s; streamRef := streamRef s; cobraRef := cobraRef s; recordingStartTimeRef := recordingStartTimeRef s; isInitialized := isInitialized s; isListening := v; isRecording := isRecording s; error := error s; transcription := transcription s; isProcessing := isProcessing s; lastResponseTime := lastResponseTime s |}.
Definition set_isRecording v (s : State) : State :=
  {| now := now s; sarvamKeyConfigured := sarvamKeyConfigured s; recorders := recorders s; timers := timers s; calls := calls s; isListeningRef := isListeningRef s; isRecordingRef := isRecordingRef s; mediaRecorderRef := mediaRecorderRef s; chunksRef := chunksRef s; silenceTimeoutRef := silenceTimeoutRef s; streamRef := streamRef s; cobraRef := cobraRef s; recordingStartTimeRef := recordingStartTimeRef s; isInitialized := isInitialized s; isListening := isListening s; isRecording := v; error := error s; transcription := transcription s; isProcessing := isProcessing s; lastResponseTime := lastResponseTime s |}.
Definition set_error v (s : State) : State :=
  {| now := now s; sarvamKeyConfigured := sarvamKeyConfigured s; recorders := recorders s; timers := timers s; calls := calls s; isListeningRef := isListeningRef s; isRecordingRef := isRecordingRef s; mediaRecorderRef := mediaRecorderRef s; chunksRef := chunksRef s; silenceTimeoutRef := silenceTimeoutRef s; streamRef := streamRef s; cobraRef := cobraRef s; recordingStartTimeRef := recordingStartTimeRef s; isInitialized := isInitialized s; isListening := isListening s; isRecording := isRecording s; error := v; transcription := transcription s; isProcessing := isProcessing s; lastResponseTime := lastResponseTime s |}.
Definition set_transcription v (s : State) : State :=
  {| now := now s; sarvamKeyConfigured := sarvamKeyConfigured s; recorders := recorders s; timers := timers s; calls := calls s; isListeningRef := isListeningRef s; isRecordingRef := isRecordingRef s; mediaRecorderRef := mediaRecorderRef s; chunksRef := chunksRef s; silenceTimeoutRef := silenceTimeoutRef s; streamRef := streamRef s; cobraRef := cobraRef s; recordingStartTimeRef := recordingStartTimeRef s; isInitialized := isInitialized s; isListening := isListening s; isRecording := isRecording s; error := error s; transcription := v; isProcessing := isProcessing s; lastResponseTime := lastResponseTime s |}.
Definition set_isProcessing v (s : State) : State :=
  {| now := now s; sarvamKeyConfigured := sarvamKeyConfigured s; recorders := recorders s; timers := timers s; calls := calls s; isListeningRef := isListeningRef s; isRecordingRef := isRecordingRef s; mediaRecorderRef := mediaRecorderRef s; chunksRef := chunksRef s; silenceTimeoutRef := silenceTimeoutRef s; streamRef := streamRef s; cobraRef := cobraRef s; recordingStartTimeRef := recordingStartTimeRef s; isInitialized := isInitialized s; isListening := isListening s; isRecording := isRecording s; error := error s; transcription := transcription s; isProcessing := v; lastResponseTime := lastResponseTime s |}.
Definition set_lastResponseTime v (s : State) : State :=
  {| now := now s; sarvamKeyConfigured := sarvamKeyConfigured s; recorders := recorders s; timers := timers s; calls := calls s; isListeningRef := isListeningRef s; isRecordingRef := isRecordingRef s; mediaRecorderRef := mediaRecorderRef s; chunksRef := chunksRef s; silenceTimeoutRef := silenceTimeoutRef s; streamRef := streamRef s; cobraRef := cobraRef s; recordingStartTimeRef := recordingStartTimeRef s; isInitialized := isInitialized s; isListening := isListening s; isRecording := isRecording s; error := error s; transcription := transcription s; isProcessing := isProcessing s; lastResponseTime := v |}.

Definition initial (t : Z) (sarvamKey : bool) : State :=
  {| now := t; sarvamKeyConfigured := sarvamKey; recorders := [];
     timers := Timers.empty; calls := [];
     isListeningRef := false; isRecordingRef := false;
     mediaRecorderRef := None; chunksRef := [];
     silenceTimeoutRef := None; streamRef := None; cobraRef := None;
     recordingStartTimeRef := None;
     isInitialized := false; isListening := false; isRecording := false;
     error := None; transcription := None; isProcessing := false;
     lastResponseTime := None |}.

(** The callback given to Cobra is created once, by the mount effect,
    in the closure of the first render: the [isProcessing] that its
    [handleVoiceDetected] and [startRecording] read is the initial value
    of that state variable. *)
Definition firstRenderIsProcessing : bool := false.

Definition currentIsRecording (s : State) : bool :=
  match mediaRecorderRef s with
  | Some r => isRecordingAt (recorders s) r
  | None => false
  end.

(** The [finally] block of [mediaRecorder.onstop]. *)
Definition onstopFinally (s : State) : State :=
  set_isProcessing false
    (set_isRecording false
       (set_recordingStartTimeRef None
          (set_isRecordingRef false
             (set_chunksRef [] s)))).

(** The [catch] block of [processAndSendAudio]. *)
Definition transcriptionFailed (err : Thrown) (s : State) : State :=
  set_error (Some (messageOf err)) s.

(** [mediaRecorder.onstop], up to its [await]. *)
Definition onstop (s : State) : State :=
  let duration :=
    now s - match recordingStartTimeRef s with Some t => t | None => 0 end in
  if (MIN_RECORDING_DURATION <=? duration)
     && (0 <? Z.of_nat (length (chunksRef s)))
  then
    if sarvamKeyConfigured s
    then set_calls (calls s ++ [mkCall (newBlob (chunksRef s)) decoding]) s
    else
      onstopFinally
        (transcriptionFailed
           (errorObject
              "Sarvam API key is not configured in environment variables")
           s)
  else onstopFinally s.

(** The awaited call [k] returns: the stop handler resumes with its
    [finally] block. *)
Definition callReturned (k : nat) (s : State) : State :=
  match calls s !! k with
  | Some c => onstopFinally (set_calls (<[k := mkCall (clip c) returned]> (calls s)) s)
  | None => s
  end.

Definition decoded (k : nat) (failure : option Thrown) (s : State) : State :=
  match calls s !! k with
  | Some c =>
      match phase c with
      | decoding =>
          match failure with
          | Some err => callReturned k (transcriptionFailed err s)
          | None => set_calls (<[k := mkCall (clip c) fetching]> (calls s)) s
          end
      | _ => s
      end
  | None => s
  end.

Definition responded (k : nat) (r : Reply) (s : State) : State :=
  match calls s !! k with
  | Some c =>
      match phase c with
      | fetching =>
          match r with
          | fetchRejected err => callReturned k (transcriptionFailed err s)
          | httpStatus status errorText =>
              callReturned k (transcriptionFailed (apiError status errorText) s)
          | bodyRejected err => callReturned k (transcriptionFailed err s)
          | json data =>
              callReturned k
                (set_transcription
                   (Some (appendTranscript (transcription s) data))
                   (set_lastResponseTime (Some (now s)) s))
          end
      | _ => s
      end
  | None => s
  end.

Definition ondataavailable (data : Blob) (s : State) : State :=
  if 0 <? size data
  then set_chunksRef (chunksRef s ++ [data]) s
  else s.

Definition startRecording (isProcessingSeen : bool) (s : State) : State :=
  match streamRef s with
  | None => s
  | Some _ =>
      if currentIsRecording s || isProcessingSeen then s
      else
        let '(r, hp) := create tt (recorders s) in
        set_isRecording true
          (set_isRecordingRef true
             (set_recorders hp
                (set_recordingStartTimeRef (Some (now s))
                   (set_chunksRef []
                      (set_mediaRecorderRef (Some r)
                         (set_isProcessing true s))))))
  end.

Definition stopRecording (s : State) : State :=
  match mediaRecorderRef s with
  | Some r =>
      if isRecordingAt (recorders s) r
      then set_recorders (stop r (recorders s)) s
      else s
  | None => s
  end.

Definition handleVoiceDetected (isProcessingSeen : bool) (s : State) : State :=
  let s1 :=
    match silenceTimeoutRef s with
    | Some h =>
        set_silenceTimeoutRef None
          (set_timers (Timers.clearTimeout h (timers s)) s)
    | None => s
    end in
  if negb (isRecordingRef s1) && isListeningRef s1
     && bool_decide (is_Some (streamRef s1)) && negb isProcessingSeen
  then startRecording isProcessingSeen s1
  else s1.

Definition handleSilenceDetected (s : State) : State :=
  match silenceTimeoutRef s with
  | None =>
      if isRecordingRef s then
        let '(h, tb) :=
          Timers.setTimeout silenceElapsed (now s)
            SILENCE_DURATION_THRESHOLD (timers s) in
        set_silenceTimeoutRef (Some h) (set_timers tb s)
      else s
  | Some _ => s
  end.

Definition handleVoiceProbability (probability : Q) (s : State) : State :=
  if Qle_bool VOICE_PROBABILITY_THRESHOLD probability
  then handleVoiceDetected firstRenderIsProcessing s
  else handleSilenceDetected s.

Definition runCallback (c : Callback) (s : State) : State :=
  match c with
  | silenceElapsed => set_silenceTimeoutRef None (stopRecording s)
  end.

Inductive InitResult :=
| initReady
| initFailed (err : Thrown)
| initCobraFailed (err : Thrown).

(** [err instanceof Error ? err.message : "Failed to initialize voice detector"] *)
Definition initMessage (err : Thrown) : string :=
  match err with
  | errorObject m => m
  | otherValue => "Failed to initialize voice detector"%string
  end.

(** [initFailed] covers the missing access key and the refused
    microphone; [initCobraFailed] comes after the stream was stored. *)
Definition initializeVoiceDetector (r : InitResult) (s : State) : State :=
  match r with
  | initFailed err => set_error (Some (initMessage err)) s
  | initCobraFailed err =>
      set_error (Some (initMessage err)) (set_streamRef (Some (Stream true)) s)
  | initReady =>
      set_error None
        (set_isInitialized true
           (set_cobraRef (Some (Cobra false false))
              (set_streamRef (Some (Stream true)) s)))
  end.

Definition startListening (s : State) : State :=
  match cobraRef s with
  | Some c =>
      if isInitialized s then
        set_error None
          (set_isListening true
             (set_isListeningRef true
                (set_cobraRef (Some (Cobra true (released c))) s)))
      else s
  | None => s
  end.

Definition stopListening (s : State) : State :=
  match cobraRef s with
  | Some c =>
      if isListeningRef s then
        let s1 := set_cobraRef (Some (Cobra false (released c))) s in
        let s2 := if isRecordingRef s1 then stopRecording s1 else s1 in
        set_error None (set_isListening false (set_isListeningRef false s2))
      else s
  | None => s
  end.

(** The cleanup returned by the mount effect. *)
Definition unmount (s : State) : State :=
  let s1 :=
    match cobraRef s with
    | Some c =>
        if isListeningRef s
        then set_cobraRef (Some (Cobra false (released c))) s
        else s
    | None => s
    end in
  let s2 :=
    match streamRef s1 with
    | Some _ => set_streamRef (Some (Stream false)) s1
    | None => s1
    end in
  match cobraRef s2 with
  | Some c => set_cobraRef (Some (Cobra (subscribed c) true)) s2
  | None => s2
  end.

Fixpoint fireDue (fuel : nat) (t : Z) (s : State) : State :=
  match fuel with
  | O => s
  | S fuel' =>
      match Timers.next_due t (timers s) with
      | None => s
      | Some tm =>
          fireDue fuel' t
            (runCallback (Timers.callback tm)
               (set_now (Z.max (now s) (Timers.due tm))
                  (set_timers
                     (Timers.clearTimeout (Timers.handle tm) (timers s))
                     s)))
      end
  end.

Definition elapse (t : Z) (s : State) : State :=
  let s' := fireDue (length (Timers.pending (timers s))) t s in
  set_now (Z.max (now s') t) s'.

Definition dispatchStop (r : nat) (s : State) : State :=
  match recorders s !! r with
  | Some m =>
      if stopQueued m
      then onstop (set_recorders (dispatched r (recorders s)) s)
      else s
  | None => s
  end.

Definition dispatchData (r : nat) (data : Blob) (s : State) : State :=
  if isRecordingAt (recorders s) r || hasQueuedStop (recorders s) r
  then ondataavailable data s
  else s.

Inductive Event :=
| evProbability (p : Q)
| evData (r : nat) (data : Blob)
| evStop (r : nat)
| evElapse (t : Z)
| evDecoded (k : nat) (failure : option Thrown)
| evResponse (k : nat) (r : Reply)
| evInitialized (r : InitResult)
| evStartListening
| evStopListening
| evUnmount.

Definition step (s : State) (e : Event) : State :=
  match e with
  | evProbability p => handleVoiceProbability p s
  | evData r d => dispatchData r d s
  | evStop r => dispatchStop r s
  | evElapse t => elapse t s
  | evDecoded k f => decoded k f s
  | evResponse k r => responded k r s
  | evInitialized r => initializeVoiceDetector r s
  | evStartListening => startListening s
  | evStopListening => stopListening s
  | evUnmount => unmount s
  end.

Definition run (s : State) (es : list Event) : State := fold_left step es s.

Definition listeningAt (t : Z) : State :=
  startListening (initializeVoiceDetector initReady (initial t true)).

(** A call is awaited by a stop handler. *)
Definition callInFlight (s : State) : bool :=
  existsb (λ c, match phase c with returned => false | _ => true end) (calls s).

Definition isAwaited (c : Call) : bool :=
  match phase c with returned => false | _ => true end.

Definition awaitedCount (s : State) : nat :=
  length (List.filter isAwaited (calls s)).

(** At most one recorder is recording, or waiting for its stop event, or
    has its stop handler awaiting the transcription call; and none is
    while the recording flag is down. *)
Definition sessionInv (s : State) : Prop :=
  (activeCount (recorders s) + queuedCount (recorders s) + awaitedCount s
   ≤ 1)%nat ∧
  (isRecordingRef s = false →
   (activeCount (recorders s) + queuedCount (recorders s) + awaitedCount s
    = 0)%nat).
End AwaitingStt.

(** ** [src/app/speech2tex.tsx]: component [Index] *)

Module PauseVad.
Import Media.

Definition PAUSE_THRESHOLD : Z := 2000.
Definition MIN_RECORDING_LENGTH : Z := 500.

Inductive Callback := pauseElapsed.

(** The handlers given to the detector are created by one call of
    [startListening]: they close over the [isRecording] that this
    [startListening] sees and, through the [startRecording] it holds, an
    [isListening]. *)
Record VAD :=
  Detector { seenIsRecording : bool; seenIsListening : bool; destroyed : bool }.

Record AudioContext := Context { closed : bool }.

(** The closure of a recorder's handlers holds the [isListening] seen by
    the [startRecording] that created it.  [startListeningHolds] is the
    [isListening] seen by the [startRecording] that the memoised
    [startListening] holds. *)
Record State := mkState {
  (* environment *)
  now : Z;
  recorders : list (MediaRecorder bool);
  timers : Timers.table Callback;
  (* React state *)
  isListening : bool;
  isRecording : bool;
  audioPackets : list Blob;
  (* memoised callbacks *)
  startListeningHolds : bool;
  (* refs *)
  mediaRecorderRef : option nat;
  audioChunksRef : list Blob;
  streamRef : option MediaStream;
  audioContextRef : option AudioContext;
  vadRef : option VAD;
  silenceStartRef : option Z;
  isLongPauseRef : bool;
  pauseTimeoutRef : option nat;
  currentRecordingStartTime : Z
}.

Definition set_now v (s : State) : State :=
  {| now := v; recorders := recorders s; timers := timers s; isListening := isListening s; isRecording := isRecording s; audioPackets := audioPackets s; startListeningHolds := startListeningHolds s; mediaRecorderRef := mediaRecorderRef s; audioChunksRef := audioChunksRef s; streamRef := streamRef s; audioContextRef := audioContextRef s; vadRef := vadRef s; silenceStartRef := silenceStartRef s; isLongPauseRef := isLongPauseRef s; pauseTimeoutRef := pauseTimeoutRef s; currentRecordingStartTime := currentRecordingStartTime s |}.
Definition set_recorders v (s : State) : State :=
  {| now := now s; recorders := v; timers := timers s; isListening := isListening s; isRecording := isRecording s; audioPackets := audioPackets s; startListeningHolds := startListeningHolds s; mediaRecorderRef := mediaRecorderRef s; audioChunksRef := audioChunksRef s; streamRef := streamRef s; audioContextRef := audioContextRef s; vadRef := vadRef s; silenceStartRef := silenceStartRef s; isLongPauseRef := isLongPauseRef s; pauseTimeoutRef := pauseTimeoutRef s; currentRecordingStartTime := currentRecordingStartTime s |}.
Definition set_timers v (s : State) : State :=
  {| now := now s; recorders := recorders s; timers := v; isListening := isListening s; isRecording := isRecording s; audioPackets := audioPackets s; startListeningHolds := startListeningHolds s; mediaRecorderRef := mediaRecorderRef s; audioChunksRef := audioChunksRef s; streamRef := streamRef s; audioContextRef := audioContextRef s; vadRef := vadRef s; silenceStartRef := silenceStartRef s; isLongPauseRef := isLongPauseRef s; pauseTimeoutRef := pauseTimeoutRef s; currentRecordingStartTime := currentRecordingStartTime s |}.
Definition set_isListening v (s : State) : State :=
  {| now := now s; recorders := recorders s; timers := timers s; isListening := v; isRecording := isRecording s; audioPackets := audioPackets s; startListeningHolds := startListeningHolds s; mediaRecorderRef := mediaRecorderRef s; audioChunksRef := audioChunksRef s; streamRef := streamRef s; audioContextRef := audioContextRef s; vadRef := vadRef s; silenceStartRef := silenceStartRef s; isLongPauseRef := isLongPauseRef s; pauseTimeoutRef := pauseTimeoutRef s; currentRecordingStartTime := currentRecordingStartTime s |}.
Definition set_isRecording v (s : State) : State :=
  {| now := now s; recorders := recorders s; timers := timers s; isListening := isListening s; isRecording := v; audioPackets := audioPackets s; startListeningHolds := startListeningHolds s; mediaRecorderRef := mediaRecorderRef s; audioChunksRef := audioChunksRef s; streamRef := streamRef s; audioContextRef := audioContextRef s; vadRef := vadRef s; silenceStartRef := silenceStartRef s; isLongPauseRef := isLongPauseRef s; pauseTimeoutRef := pauseTimeoutRef s; currentRecordingStartTime := currentRecordingStartTime s |}.
Definition set_audioPackets v (s : State) : State :=
  {| now := now s; recorders := recorders s; timers := timers s; isListening := isListening s; isRecording := isRecording s; audioPackets := v; startListeningHolds := startListeningHolds s; mediaRecorderRef := mediaRecorderRef s; audioChunksRef := audioChunksRef s; streamRef := streamRef s; audioContextRef := audioContextRef s; vadRef := vadRef s; silenceStartRef := silenceStartRef s; isLongPauseRef := isLongPauseRef s; pauseTimeoutRef := pauseTimeoutRef s; currentRecordingStartTime := currentRecordingStartTime s |}.
Definition set_startListeningHolds v (s : State) : State :=
  {| now := now s; recorders := recorders s; timers := timers s; isListening := isListening s; isRecording := isRecording s; audioPackets := audioPackets s; startListeningHolds := v; mediaRecorderRef := mediaRecorderRef s; audioChunksRef := audioChunksRef s; streamRef := streamRef s; audioContextRef := audioContextRef s; vadRef := vadRef s; silenceStartRef := silenceStartRef s; isLongPauseRef := isLongPauseRef s; pauseTimeoutRef := pauseTimeoutRef s; currentRecordingStartTime := currentRecordingStartTime s |}.
Definition set_mediaRecorderRef v (s : State) : State :=
  {| now := now s; recorders := recorders s; timers := timers s; isListening := isListening s; isRecording := isRecording s; audioPackets := audioPackets s; startListeningHolds := startListeningHolds s; mediaRecorderRef := v; audioChunksRef := audioChunksRef s; streamRef := streamRef s; audioContextRef := audioContextRef s; vadRef := vadRef s; silenceStartRef := silenceStartRef s; isLongPauseRef := isLongPauseRef s; pauseTimeoutRef := pauseTimeoutRef s; currentRecordingStartTime := currentRecordingStartTime s |}.
Definition set_audioChunksRef v (s : State) : State :=
  {| now := now s; recorders := recorders s; timers := timers s; isListening := isListening s; isRecording := isRecording s; audioPackets := audioPackets s; startListeningHolds := startListeningHolds s; mediaRecorderRef := mediaRecorderRef s; audioChunksRef := v; streamRef := streamRef s; audioContextRef := audioContextRef s; vadRef := vadRef s; silenceStartRef := silenceStartRef s; isLongPauseRef := isLongPauseRef s; pauseTimeoutRef := pauseTimeoutRef s; currentRecordingStartTime := currentRecordingStartTime s |}.
Definition set_streamRef v (s : State) : State :=
  {| now := now s; recorders := recorders s; timers := timers s; isListening := isListening s; isRecording := isRecording s; audioPackets := audioPackets s; startListeningHolds := startListeningHolds s; mediaRecorderRef := mediaRecorderRef s; audioChunksRef := audioChunksRef s; streamRef := v; audioContextRef := audioContextRef s; vadRef := vadRef s; silenceStartRef := silenceStartRef s; isLongPauseRef := isLongPauseRef s; pauseTimeoutRef := pauseTimeoutRef s; currentRecordingStartTime := currentRecordingStartTime s |}.
Definition set_audioContextRef v (s : State) : State :=
  {| now := now s; recorders := recorders s; timers := timers s; isListening := isListening s; isRecording := isRecording s; audioPackets := audioPackets s; startListeningHolds := startListeningHolds s; mediaRecorderRef := mediaRecorderRef s; audioChunksRef := audioChunksRef s; streamRef := streamRef s; audioContextRef := v; vadRef := vadRef s; silenceStartRef := silenceStartRef s; isLongPauseRef := isLongPauseRef s; pauseTimeoutRef := pauseTimeoutRef s; currentRecordingStartTime := currentRecordingStartTime s |}.
Definition set_vadRef v (s : State) : State :=
  {| now := now s; recorders := recorders s; timers := timers s; isListening := isListening s; isRecording := isRecording s; audioPackets := audioPackets s; startListeningHolds := startListeningHolds s; mediaRecorderRef := mediaRecorderRef s; audioChunksRef := audioChunksRef s; streamRef := streamRef s; audioContextRef := audioContextRef s; vadRef := v; silenceStartRef := silenceStartRef s; isLongPauseRef := isLongPauseRef s; pauseTimeoutRef := pauseTimeoutRef s; currentRecordingStartTime := currentRecordingStartTime s |}.
Definition set_silenceStartRef v (s : State) : State :=
  {| now := now s; recorders := recorders s; timers := timers s; isListening := isListening s; isRecording := isRecording s; audioPackets := audioPackets s; startListeningHolds := startListeningHolds s; mediaRecorderRef := mediaRecorderRef s; audioChunksRef := audioChunksRef s; streamRef := streamRef s; audioContextRef := audioContextRef s; vadRef := vadRef s; silenceStartRef := v; isLongPauseRef := isLongPauseRef s; pauseTimeoutRef := pauseTimeoutRef s; currentRecordingStartTime := currentRecordingStartTime s |}.
Definition set_isLongPauseRef v (s : State) : State :=
  {| now := now s; recorders := recorders s; timers := timers s; isListening := isListening s; isRecording := isRecording s; audioPackets := audioPackets s; startListeningHolds := startListeningHolds s; mediaRecorderRef := mediaRecorderRef s; audioChunksRef := audioChunksRef s; streamRef := streamRef s; audioContextRef := audioContextRef s; vadRef := vadRef s; silenceStartRef := silenceStartRef s; isLongPauseRef := v; pauseTimeoutRef := pauseTimeoutRef s; currentRecordingStartTime := currentRecordingStartTime s |}.
Definition set_pauseTimeoutRef v (s : State) : State :=
  {| now := now s; recorders := recorders s; timers := timers s; isListening := isListening s; isRecording := isRecording s; audioPackets := audioPackets s; startListeningHolds := startListeningHolds s; mediaRecorderRef := mediaRecorderRef s; audioChunksRef := audioChunksRef s; streamRef := streamRef s; audioContextRef := audioContextRef s; vadRef := vadRef s; silenceStartRef := silenceStartRef s; isLongPauseRef := isLongPauseRef s; pauseTimeoutRef := v; currentRecordingStartTime := currentRecordingStartTime s |}.
Definition set_currentRecordingStartTime v (s : State) : State :=
  {| now := now s; recorders := recorders s; timers := timers s; isListening := isListening s; isRecording := isRecording s; audioPackets := audioPackets s; startListeningHolds := startListeningHolds s; mediaRecorderRef := mediaRecorderRef s; audioChunksRef := audioChunksRef s; streamRef := streamRef s; audioContextRef := audioContextRef s; vadRef := vadRef s; silenceStartRef := silenceStartRef s; isLongPauseRef := isLongPauseRef s; pauseTimeoutRef := pauseTimeoutRef s; currentRecordingStartTime := v |}.

Definition initial (t : Z) : State :=
  {| now := t; recorders := []; timers := Timers.empty;
     isListening := false; isRecording := false; audioPackets := [];
     startListeningHolds := false;
     mediaRecorderRef := None; audioChunksRef := []; streamRef := None;
     audioContextRef := None; vadRef := None; silenceStartRef := None;
     isLongPauseRef := false; pauseTimeoutRef := None;
     currentRecordingStartTime := 0 |}.

(** A number held by a ref is truthy unless it is zero. *)
Definition truthy (o : option Z) : bool :=
  match o with
  | Some t => negb (t =? 0)
  | None => false
  end.

(** [setIsRecording(v)].  [startListening] is memoised on [handlePause],
    [handleSpeech] and [isRecording]: the render that follows a change of
    [isRecording] creates it anew, and the new function holds the
    [startRecording] of that render, which sees [isListening] as it is
    then. *)
Definition setIsRecording (v : bool) (s : State) : State :=
  let s' := set_isRecording v s in
  if Bool.eqb (isRecording s) v then s'
  else set_startListeningHolds (isListening s') s'.

Definition stopRecording (s : State) : State :=
  match mediaRecorderRef s with
  | Some r =>
      if isRecordingAt (recorders s) r
      then setIsRecording false (set_recorders (stop r (recorders s)) s)
      else s
  | None => s
  end.

(** The body of the function passed to [setTimeout] by [handlePause]. *)
Definition runCallback (c : Callback) (s : State) : State :=
  match c with
  | pauseElapsed =>
      let pauseDuration :=
        now s - match silenceStartRef s with Some t => t | None => 0 end in
      if PAUSE_THRESHOLD <=? pauseDuration
      then stopRecording (set_isLongPauseRef true s)
      else s
  end.

Definition handlePause (s : State) : State :=
  if truthy (silenceStartRef s) then s
  else
    let '(h, tb) :=
      Timers.setTimeout pauseElapsed (now s) PAUSE_THRESHOLD (timers s) in
    set_pauseTimeoutRef (Some h)
      (set_timers tb (set_silenceStartRef (Some (now s)) s)).

Definition handleSpeech (s : State) : State :=
  let s1 :=
    match pauseTimeoutRef s with
    | Some h => set_timers (Timers.clearTimeout h (timers s)) s
    | None => s
    end in
  set_isLongPauseRef false (set_silenceStartRef None s1).

(** [startRecording] as created in a render that sees [isListening]. *)
Definition startRecording (seesListening : bool) (s : State) : State :=
  match streamRef s with
  | None => s
  | Some _ =>
      let '(r, hp) := create seesListening (recorders s) in
      setIsRecording true
        (set_recorders hp
           (set_currentRecordingStartTime (now s)
              (set_audioChunksRef []
                 (set_mediaRecorderRef (Some r) s))))
  end.

Definition saveRecording (chunks : list Blob) (s : State) : State :=
  let audioBlob := newBlob chunks in
  if 0 <? size audioBlob
  then set_audioPackets (audioPackets s ++ [audioBlob]) s
  else s.

(** [mediaRecorder.onstop] of a recorder created by a [startRecording]
    that sees [isListening]; the recorder it starts gets the same
    handlers. *)
Definition onstop (seesListening : bool) (s : State) : State :=
  let recordingDuration := now s - currentRecordingStartTime s in
  let s1 :=
    if MIN_RECORDING_LENGTH <=? recordingDuration
    then saveRecording (audioChunksRef s) s
    else s in
  if seesListening && negb (isLongPauseRef s1)
  then
    let '(r, hp) := create seesListening (recorders s1) in
    set_recorders hp
      (set_currentRecordingStartTime (now s1)
         (set_audioChunksRef []
            (set_mediaRecorderRef (Some r) s1)))
  else s1.

Definition ondataavailable (data : Blob) (s : State) : State :=
  if 0 <? size data
  then set_audioChunksRef (audioChunksRef s ++ [data]) s
  else s.

(** The options [onVoiceStart] and [onVoiceStop] of the detector. *)
Definition onVoiceStart (s : State) : State :=
  match vadRef s with
  | Some v =>
      let s1 := handleSpeech s in
      if negb (seenIsRecording v)
      then startRecording (seenIsListening v) s1
      else s1
  | None => s
  end.

Definition onVoiceStop (s : State) : State :=
  match vadRef s with
  | Some _ => handlePause s
  | None => s
  end.

(** The memoised [startListening] of the render that shows the state as
    it is: its [isRecording] is the one on screen, its [startRecording]
    the one it holds; [granted] tells whether the microphone was
    obtained. *)
Definition startListening (granted : bool) (s : State) : State :=
  if granted then
    set_isListening true
      (set_vadRef
         (Some (Detector (isRecording s) (startListeningHolds s) false))
         (set_audioContextRef (Some (Context false))
            (set_streamRef (Some (Stream true)) s)))
  else s.

Definition stopListening (s : State) : State :=
  let s1 :=
    match streamRef s with
    | Some _ => set_streamRef (Some (Stream false)) s
    | None => s
    end in
  let s2 :=
    match audioContextRef s1 with
    | Some _ => set_audioContextRef (Some (Context true)) s1
    | None => s1
    end in
  let s3 :=
    match vadRef s2 with
    | Some v =>
        set_vadRef
          (Some (Detector (seenIsRecording v) (seenIsListening v) true)) s2
    | None => s2
    end in
  let s4 :=
    match pauseTimeoutRef s3 with
    | Some h => set_timers (Timers.clearTimeout h (timers s3)) s3
    | None => s3
    end in
  setIsRecording false (set_isListening false s4).

Fixpoint fireDue (fuel : nat) (t : Z) (s : State) : State :=
  match fuel with
  | O => s
  | S fuel' =>
      match Timers.next_due t (timers s) with
      | None => s
      | Some tm =>
          fireDue fuel' t
            (runCallback (Timers.callback tm)
               (set_now (Z.max (now s) (Timers.due tm))
                  (set_timers
                     (Timers.clearTimeout (Timers.handle tm) (timers s))
                     s)))
      end
  end.

Definition elapse (t : Z) (s : State) : State :=
  let s' := fireDue (length (Timers.pending (timers s))) t s in
  set_now (Z.max (now s') t) s'.

Definition dispatchStop (r : nat) (s : State) : State :=
  match recorders s !! r with
  | Some m =>
      if stopQueued m
      then onstop (closure m) (set_recorders (dispatched r (recorders s)) s)
      else s
  | None => s
  end.

Definition dispatchData (r : nat) (data : Blob) (s : State) : State :=
  if isRecordingAt (recorders s) r || hasQueuedStop (recorders s) r
  then ondataavailable data s
  else s.

(** A detector that has been destroyed calls nothing. *)
Definition detectorLive (s : State) : bool :=
  match vadRef s with
  | Some v => negb (destroyed v)
  | None => false
  end.

(** [evCleanup] is the cleanup of the effect, which calls
    [stopListening]: on unmount, and before the effect runs again. *)
Inductive Event :=
| evVoiceStart
| evVoiceStop
| evData (r : nat) (data : Blob)
| evStop (r : nat)
| evElapse (t : Z)
| evStartListening (granted : bool)
| evStopListening
| evCleanup.

Definition step (s : State) (e : Event) : State :=
  match e with
  | evVoiceStart => if detectorLive s then onVoiceStart s else s
  | evVoiceStop => if detectorLive s then onVoiceStop s else s
  | evData r d => dispatchData r d s
  | evStop r => dispatchStop r s
  | evElapse t => elapse t s
  | evStartListening g => startListening g s
  | evStopListening => stopListening s
  | evCleanup => stopListening s
  end.

Definition run (s : State) (es : list Event) : State := fold_left step es s.
End PauseVad.

(** ** [src/app/speech2tex.tsx]: component [VoiceDetector] *)

Module PlainDetector.
Import Media Sarvam.

Definition VOICE_PROBABILITY_THRESHOLD : Q := 2 # 10.
Definition SILENCE_DURATION_THRESHOLD : Z := 1500.

Record AudioClip :=
  Clip { id : Z; blob : Blob; timestamp : Z; duration : Q }.

Inductive Callback := silenceElapsed.

(** Here the flags are React state, not refs; [cobra] is state too. *)
Record State := mkState {
  (* environment *)
  now : Z;
  recorders : list (MediaRecorder unit);
  timers : Timers.table Callback;
  (* React state *)
  isInitialized : bool;
  isListening : bool;
  isRecording : bool;
  audioClips : list AudioClip;
  cobra : option CobraWorker;
  currentProbability : Q;
  (* refs *)
  mediaRecorderRef : option nat;
  audioChunksRef : list Blob;
  silenceTimeoutRef : option nat;
  recordingStartTimeRef : option Z;
  streamRef : option MediaStream
}.

Definition set_now v (s : State) : State :=
  {| now := v; recorders := recorders s; timers := timers s; isInitialized := isInitialized s; isListening := isListening s; isRecording := isRecording s; audioClips := audioClips s; cobra := cobra s; currentProbability := currentProbability s; mediaRecorderRef := mediaRecorderRef s; audioChunksRef := audioChunksRef s; silenceTimeoutRef := silenceTimeoutRef s; recordingStartTimeRef := recordingStartTimeRef s; streamRef := streamRef s |}.
Definition set_recorders v (s : State) : State :=
  {| now := now s; recorders := v; timers := timers s; isInitialized := isInitialized s; isListening := isListening s; isRecording := isRecording s; audioClips := audioClips s; cobra := cobra s; currentProbability := currentProbability s; mediaRecorderRef := mediaRecorderRef s; audioChunksRef := audioChunksRef s; silenceTimeoutRef := silenceTimeoutRef s; recordingStartTimeRef := recordingStartTimeRef s; streamRef := streamRef s |}.
Definition set_timers v (s : State) : State :=
  {| now := now s; recorders := recorders s; timers := v; isInitialized := isInitialized s; isListening := isListening s; isRecording := isRecording s; audioClips := audioClips s; cobra := cobra s; currentProbability := currentProbability s; mediaRecorderRef := mediaRecorderRef s; audioChunksRef := audioChunksRef s; silenceTimeoutRef := silenceTimeoutRef s; recordingStartTimeRef := recordingStartTimeRef s; streamRef := streamRef s |}.
Definition set_isInitialized v (s : State) : State :=
  {| now := now s; recorders := recorders s; timers := timers s; isInitialized := v; isListening := isListening s; isRecording := isRecording s; audioClips := audioClips s; cobra := cobra s; currentProbability := currentProbability s; mediaRecorderRef := mediaRecorderRef s; audioChunksRef := audioChunksRef s; silenceTimeoutRef := silenceTimeoutRef s; recordingStartTimeRef := recordingStartTimeRef s; streamRef := streamRef s |}.
Definition set_isListening v (s : State) : State :=
  {| now := now s; recorders := recorders s; timers := timers s; isInitialized := isInitialized s; isListening := v; isRecording := isRecording s; audioClips := audioClips s; cobra := cobra s; currentProbability := currentProbability s; mediaRecorderRef := mediaRecorderRef s; audioChunksRef := audioChunksRef s; silenceTimeoutRef := silenceTimeoutRef s; recordingStartTimeRef := recordingStartTimeRef s; streamRef := streamRef s |}.
Definition set_isRecording v (s : State) : State :=
  {| now := now s; recorders := recorders s; timers := timers s; isInitialized := isInitialized s; isListening := isListening s; isRecording := v; audioClips := audioClips s; cobra := cobra s; currentProbability := currentProbability s; mediaRecorderRef := mediaRecorderRef s; audioChunksRef := audioChunksRef s; silenceTimeoutRef := silenceTimeoutRef s; recordingStartTimeRef := recordingStartTimeRef s; streamRef := streamRef s |}.
Definition set_audioClips v (s : State) : State :=
  {| now := now s; recorders := recorders s; timers := timers s; isInitialized := isInitialized s; isListening := isListening s; isRecording := isRecording s; audioClips := v; cobra := cobra s; currentProbability := currentProbability s; mediaRecorderRef := mediaRecorderRef s; audioChunksRef := audioChunksRef s; silenceTimeoutRef := silenceTimeoutRef s; recordingStartTimeRef := recordingStartTimeRef s; streamRef := streamRef s |}.
Definition set_cobra v (s : State) : State :=
  {| now := now s; recorders := recorders s; timers := timers s; isInitialized := isInitialized s; isListening := isListening s; isRecording := isRecording s; audioClips := audioClips s; cobra := v; currentProbability := currentProbability s; mediaRecorderRef := mediaRecorderRef s; audioChunksRef := audioChunksRef s; silenceTimeoutRef := silenceTimeoutRef s; recordingStartTimeRef := recordingStartTimeRef s; streamRef := streamRef s |}.
Definition set_currentProbability v (s : State) : State :=
  {| now := now s; recorders := recorders s; timers := timers s; isInitialized := isInitialized s; isListening := isListening s; isRecording := isRecording s; audioClips := audioClips s; cobra := cobra s; currentProbability := v; mediaRecorderRef := mediaRecorderRef s; audioChunksRef := audioChunksRef s; silenceTimeoutRef := silenceTimeoutRef s; recordingStartTimeRef := recordingStartTimeRef s; streamRef := streamRef s |}.
Definition set_mediaRecorderRef v (s : State) : State :=
  {| now := now s; recorders := recorders s; timers := timers s; isInitialized := isInitialized s; isListening := isListening s; isRecording := isRecording s; audioClips := audioClips s; cobra := cobra s; currentProbability := currentProbability s; mediaRecorderRef := v; audioChunksRef := audioChunksRef s; silenceTimeoutRef := silenceTimeoutRef s; recordingStartTimeRef := recordingStartTimeRef s; streamRef := streamRef s |}.
Definition set_audioChunksRef v (s : State) : State :=
  {| now := now s; recorders := recorders s; timers := timers s; isInitialized := isInitialized s; isListening := isListening s; isRecording := isRecording s; audioClips := audioClips s; cobra := cobra s; currentProbability := currentProbability s; mediaRecorderRef := mediaRecorderRef s; audioChunksRef := v; silenceTimeoutRef := silenceTimeoutRef s; recordingStartTimeRef := recordingStartTimeRef s; streamRef := streamRef s |}.
Definition set_silenceTimeoutRef v (s : State) : State :=
  {| now := now s; recorders := recorders s; timers := timers s; isInitialized := isInitialized s; isListening := isListening s; isRecording := isRecording s; audioClips := audioClips s; cobra := cobra s; currentProbability := currentProbability s; mediaRecorderRef := mediaRecorderRef s; audioChunksRef := audioChunksRef s; silenceTimeoutRef := v; recordingStartTimeRef := recordingStartTimeRef s; streamRef := streamRef s |}.
Definition set_recordingStartTimeRef v (s : State) : State :=
  {| now := now s; recorders := recorders s; timers := timers s; isInitialized := isInitialized s; isListening := isListening s; isRecording := isRecording s; audioClips := audioClips s; cobra := cobra s; currentProbability := currentProbability s; mediaRecorderRef := mediaRecorderRef s; audioChunksRef := audioChunksRef s; silenceTimeoutRef := silenceTimeoutRef s; recordingStartTimeRef := v; streamRef := streamRef s |}.
Definition set_streamRef v (s : State) : State :=
  {| now := now s; recorders := recorders s; timers := timers s; isInitialized := isInitialized s; isListening := isListening s; isRecording := isRecording s; audioClips := audioClips s; cobra := cobra s; currentProbability := currentProbability s; mediaRecorderRef := mediaRecorderRef s; audioChunksRef := audioChunksRef s; silenceTimeoutRef := silenceTimeoutRef s; recordingStartTimeRef := recordingStartTimeRef s; streamRef := v |}.

Definition initial (t : Z) : State :=
  {| now := t; recorders := []; timers := Timers.empty;
     isInitialized := false; isListening := false; isRecording := false;
     audioClips := []; cobra := None; currentProbability := 0;
     mediaRecorderRef := None; audioChunksRef := [];
     silenceTimeoutRef := None; recordingStartTimeRef := None;
     streamRef := None |}.

(** The callback given to Cobra is created by the mount effect, in the
    closure of the first render: the [isRecording] and [isListening]
    that its handlers read are the initial values of those state
    variables. *)
Definition firstRenderIsRecording : bool := false.
Definition firstRenderIsListening : bool := false.

Definition currentIsRecording (s : State) : bool :=
  match mediaRecorderRef s with
  | Some r => isRecordingAt (recorders s) r
  | None => false
  end.

(** [mediaRecorder.onstop]: the clip is kept whenever a chunk was
    captured; the duration is only recorded in the clip. *)
Definition onstop (s : State) : State :=
  let s1 :=
    match audioChunksRef s with
    | [] => s
    | _ :: _ =>
        let audioBlob := newBlob (audioChunksRef s) in
        let duration :=
          match recordingStartTimeRef s with
          | Some t => if t =? 0 then 0%Q else ((now s - t) # 1000)
          | None => 0%Q
          end in
        set_audioClips
          (audioClips s ++ [Clip (now s) audioBlob (now s) duration]) s
    end in
  set_audioChunksRef [] s1.

Definition ondataavailable (data : Blob) (s : State) : State :=
  if 0 <? size data
  then set_audioChunksRef (audioChunksRef s ++ [data]) s
  else s.

Definition startRecording (s : State) : State :=
  match streamRef s with
  | None => s
  | Some _ =>
      if currentIsRecording s then s
      else
        let '(r, hp) := create tt (recorders s) in
        set_isRecording true
          (set_recordingStartTimeRef (Some (now s))
             (set_recorders hp
                (set_audioChunksRef []
                   (set_mediaRecorderRef (Some r) s))))
  end.

Definition stopRecording (s : State) : State :=
  match mediaRecorderRef s with
  | Some r =>
      if isRecordingAt (recorders s) r
      then
        set_recordingStartTimeRef None
          (set_isRecording false (set_recorders (stop r (recorders s)) s))
      else s
  | None => s
  end.

(** [handleVoiceDetected] and [handleSilenceDetected], in a closure that
    sees the given values of the two flags. *)
Definition handleVoiceDetected (seesRecording seesListening : bool)
  (s : State) : State :=
  let s1 :=
    match silenceTimeoutRef s with
    | Some h =>
        set_silenceTimeoutRef None
          (set_timers (Timers.clearTimeout h (timers s)) s)
    | None => s
    end in
  if negb seesRecording && seesListening then startRecording s1 else s1.

Definition handleSilenceDetected (seesRecording : bool) (s : State) : State :=
  match silenceTimeoutRef s with
  | None =>
      if seesRecording then
        let '(h, tb) :=
          Timers.setTimeout silenceElapsed (now s)
            SILENCE_DURATION_THRESHOLD (timers s) in
        set_silenceTimeoutRef (Some h) (set_timers tb s)
      else s
  | Some _ => s
  end.

(** The threshold is exclusive in this component. *)
Definition handleVoiceProbability (probability : Q) (s : State) : State :=
  let s1 := set_currentProbability probability s in
  if negb (Qle_bool probability VOICE_PROBABILITY_THRESHOLD)
  then handleVoiceDetected firstRenderIsRecording firstRenderIsListening s1
  else handleSilenceDetected firstRenderIsRecording s1.

Definition runCallback (c : Callback) (s : State) : State :=
  match c with
  | silenceElapsed => set_silenceTimeoutRef None (stopRecording s)
  end.

Definition initializeVoiceDetector (ready : bool) (s : State) : State :=
  if ready then
    set_isInitialized true
      (set_cobra (Some (Cobra false false))
         (set_streamRef (Some (Stream true)) s))
  else s.

(** The two buttons call the handlers of the render on screen. *)
Definition startListening (s : State) : State :=
  match cobra s with
  | Some c =>
      if isListening s then s
      else set_isListening true (set_cobra (Some (Cobra true (released c))) s)
  | None => s
  end.

Definition stopListening (s : State) : State :=
  match cobra s with
  | Some c =>
      if isListening s then
        let s1 :=
          set_isListening false
            (set_cobra (Some (Cobra false (released c))) s) in
        if isRecording s then stopRecording s1 else s1
      else s
  | None => s
  end.

Fixpoint fireDue (fuel : nat) (t : Z) (s : State) : State :=
  match fuel with
  | O => s
  | S fuel' =>
      match Timers.next_due t (timers s) with
      | None => s
      | Some tm =>
          fireDue fuel' t
            (runCallback (Timers.callback tm)
               (set_now (Z.max (now s) (Timers.due tm))
                  (set_timers
                     (Timers.clearTimeout (Timers.handle tm) (timers s))
                     s)))
      end
  end.

Definition elapse (t : Z) (s : State) : State :=
  let s' := fireDue (length (Timers.pending (timers s))) t s in
  set_now (Z.max (now s') t) s'.

Definition dispatchStop (r : nat) (s : State) : State :=
  match recorders s !! r with
  | Some m =>
      if stopQueued m
      then onstop (set_recorders (dispatched r (recorders s)) s)
      else s
  | None => s
  end.

Definition dispatchData (r : nat) (data : Blob) (s : State) : State :=
  if isRecordingAt (recorders s) r || hasQueuedStop (recorders s) r
  then ondataavailable data s
  else s.

(** The cleanup of the mount effect calls the [releaseResources] of the
    first render, which sees no [cobra] and does nothing. *)
Inductive Event :=
| evProbability (p : Q)
| evData (r : nat) (data : Blob)
| evStop (r : nat)
| evElapse (t : Z)
| evInitialized (ready : bool)
| evStartListening
| evStopListening
| evUnmount.

Definition step (s : State) (e : Event) : State :=
  match e with
  | evProbability p => handleVoiceProbability p s
  | evData r d => dispatchData r d s
  | evStop r => dispatchStop r s
  | evElapse t => elapse t s
  | evInitialized ready => initializeVoiceDetector ready s
  | evStartListening => startListening s
  | evStopListening => stopListening s
  | evUnmount => s
  end.

Definition run (s : State) (es : list Event) : State := fold_left step es s.
End PlainDetector.

(** ** The relay server, [src/app/server.js] *)

Module Relay.
Import Sarvam.

Definition Buffer := list Byte.byte.

Definition PING_INTERVAL : Z := 30000.
Definition AUDIO_CHUNK_TIMEOUT : Z := 500.
Definition MAX_BUFFER_SIZE : Z := 1024 * 1024.

Record Client := mkClient {
  isAlive : bool;
  currentAudioBuffer : list Buffer
}.

(** What [JSON.parse(message)] gives, as far as the handler looks. *)
Inductive Inbound :=
| inAudio (data : Buffer)
| inPing
| inOther (type : string)
| inUnparsable.

Inductive Outbound :=
| outConnected (clientId : string)
| outTranscript (final : string) (timestamps : option Timestamps)
| outError (data : string)
| outPong
| outPing.

(** The callback of the processing timer of a connection. *)
Inductive Callback := flushAudio (clientId : string).

(** [clients] is the map of the server; [detached] holds the client
    objects that have left the map, which the closures of their
    connections still hold; the connection closures of
    [audioProcessingTimeout] are kept by client id; [sent] lists what
    [ws.send] was given, and [requests] the buffers handed to
    [processAudio] that have not come back. *)
Record State := mkState {
  now : Z;
  clients : gmap string Client;
  detached : gmap string Client;
  audioProcessingTimeout : gmap string nat;
  timers : Timers.table Callback;
  sent : list (string * Outbound);
  requests : list (string * Buffer)
}.

Definition set_now v (s : State) : State :=
  {| now := v; clients := clients s; detached := detached s; audioProcessingTimeout := audioProcessingTimeout s; timers := timers s; sent := sent s; requests := requests s |}.
Definition set_clients v (s : State) : State :=
  {| now := now s; clients := v; detached := detached s; audioProcessingTimeout := audioProcessingTimeout s; timers := timers s; sent := sent s; requests := requests s |}.
Definition set_detached v (s : State) : State :=
  {| now := now s; clients := clients s; detached := v; audioProcessingTimeout := audioProcessingTimeout s; timers := timers s; sent := sent s; requests := requests s |}.
Definition set_audioProcessingTimeout v (s : State) : State :=
  {| now := now s; clients := clients s; detached := detached s; audioProcessingTimeout := v; timers := timers s; sent := sent s; requests := requests s |}.
Definition set_timers v (s : State) : State :=
  {| now := now s; clients := clients s; detached := detached s; audioProcessingTimeout := audioProcessingTimeout s; timers := v; sent := sent s; requests := requests s |}.
Definition set_sent v (s : State) : State :=
  {| now := now s; clients := clients s; detached := detached s; audioProcessingTimeout := audioProcessingTimeout s; timers := timers s; sent := v; requests := requests s |}.
Definition set_requests v (s : State) : State :=
  {| now := now s; clients := clients s; detached := detached s; audioProcessingTimeout := audioProcessingTimeout s; timers := timers s; sent := sent s; requests := v |}.

Definition initial (t : Z) : State :=
  {| now := t; clients := ∅; detached := ∅; audioProcessingTimeout := ∅;
     timers := Timers.empty; sent := []; requests := [] |}.

Definition send (clientId : string) (m : Outbound) (s : State) : State :=
  set_sent (sent s ++ [(clientId, m)]) s.

(** [currentAudioBuffer.reduce((acc, chunk) => acc + chunk.length, 0)] *)
Definition totalSize (chunks : list Buffer) : Z :=
  fold_left (λ acc chunk, acc + Z.of_nat (length chunk)) chunks 0.

(** [wss.on('connection')] with the identifier drawn for the client. *)
Definition onConnection (clientId : string) (s : State) : State :=
  send clientId (outConnected clientId)
    (set_clients (<[clientId := mkClient true []]> (clients s)) s).

(** The [catch] block of the message handler. *)
Definition messageFailed (clientId : string) (s : State) : State :=
  send clientId (outError "Failed to process message") s.

(** [ws.on('message')] of the connection of [clientId]; a socket that
    was closed or terminated delivers no message. *)
Definition onMessage (clientId : string) (m : Inbound) (s : State) : State :=
  match clients s !! clientId with
  | None => s
  | Some client =>
      match m with
      | inUnparsable => messageFailed clientId s
      | inOther _ => s
      | inPing =>
          send clientId outPong
            (set_clients
               (<[clientId := mkClient true (currentAudioBuffer client)]>
                  (clients s)) s)
      | inAudio audioChunk =>
          let buffered := currentAudioBuffer client ++ [audioChunk] in
          let s1 :=
            set_clients
              (<[clientId := mkClient (isAlive client) buffered]> (clients s))
              s in
          if MAX_BUFFER_SIZE <? totalSize buffered
          then messageFailed clientId s1
          else
            let tb :=
              match audioProcessingTimeout s1 !! clientId with
              | Some h => Timers.clearTimeout h (timers s1)
              | None => timers s1
              end in
            let '(h, tb') :=
              Timers.setTimeout (flushAudio clientId) (now s1)
                AUDIO_CHUNK_TIMEOUT tb in
            set_audioProcessingTimeout
              (<[clientId := h]> (audioProcessingTimeout s1))
              (set_timers tb' s1)
      end
  end.

(** The timer callback, up to its [await]: the buffer is emptied and
    handed to [processAudio].  The callback holds the client object
    itself, so it does the same once the client has left the map. *)
Definition runCallback (c : Callback) (s : State) : State :=
  match c with
  | flushAudio clientId =>
      match clients s !! clientId with
      | Some client =>
          set_requests
            (requests s ++ [(clientId, concat (currentAudioBuffer client))])
            (set_clients
               (<[clientId := mkClient (isAlive client) []]> (clients s)) s)
      | None =>
          match detached s !! clientId with
          | Some client =>
              set_requests
                (requests s ++ [(clientId, concat (currentAudioBuffer client))])
                (set_detached
                   (<[clientId := mkClient (isAlive client) []]> (detached s))
                   s)
          | None => s
          end
      end
  end.

(** [processAudio] comes back for the request at index [k]: the rest of
    the timer callback, with its own [catch]. *)
Definition onProcessed (k : nat) (result : option TranscriptionResponse)
  (s : State) : State :=
  match requests s !! k with
  | None => s
  | Some (clientId, _) =>
      let s1 := set_requests (delete k (requests s)) s in
      match result with
      | Some r => send clientId (outTranscript (transcript r) (timestamps r)) s1
      | None => send clientId (outError "Failed to process audio") s1
      end
  end.

(** [ws.on('close')] and [ws.on('error')]: the client leaves the map;
    no timer is cleared. *)
Definition onClose (clientId : string) (s : State) : State :=
  match clients s !! clientId with
  | Some client =>
      set_detached (<[clientId := client]> (detached s))
        (set_clients (delete clientId (clients s)) s)
  | None => s
  end.

Fixpoint fireDue (fuel : nat) (t : Z) (s : State) : State :=
  match fuel with
  | O => s
  | S fuel' =>
      match Timers.next_due t (timers s) with
      | None => s
      | Some tm =>
          fireDue fuel' t
            (runCallback (Timers.callback tm)
               (set_now (Z.max (now s) (Timers.due tm))
                  (set_timers
                     (Timers.clearTimeout (Timers.handle tm) (timers s))
                     s)))
      end
  end.

Definition elapse (t : Z) (s : State) : State :=
  let s' := fireDue (length (Timers.pending (timers s))) t s in
  set_now (Z.max (now s') t) s'.

Inductive Event :=
| evConnection (clientId : string)
| evMessage (clientId : string) (m : Inbound)
| evProcessed (k : nat) (result : option TranscriptionResponse)
| evClose (clientId : string)
| evElapse (t : Z).

Definition step (s : State) (e : Event) : State :=
  match e with
  | evConnection c => onConnection c s
  | evMessage c m => onMessage c m s
  | evProcessed k r => onProcessed k r s
  | evClose c => onClose c s
  | evElapse t => elapse t s
  end.

Definition run (s : State) (es : list Event) : State := fold_left step es s.

(** The bytes a client has buffered. *)
Definition bufferedSize (clientId : string) (s : State) : Z :=
  match clients s !! clientId with
  | Some client => totalSize (currentAudioBuffer client)
  | None => 0
  end.

(** A chunk of [n] bytes. *)
Definition chunkOf (n : Z) : Buffer := replicate (Z.to_nat n) Byte.x00.
End Relay.

(** ** WAV encoding: [floatTo16BitPCM], [writeString] and [bufferToWav]
    of [src/app/page.tsx]; [audioBufferToWav] of [unnamed/part_001] *)

Module Wav.
Import Media.

(** *** JavaScript numbers

    A sample of a [Float32Array] is a finite 32-bit float, an infinity
    or NaN.  Every finite float is a rational, and the two products the
    encoders take (by [0x8000] and by [0x7fff]) are exact in double
    precision, so a finite value is kept as a [Q]. *)
Inductive Number := NaN | Infinity (negative : bool) | Finite (q : Q).

Definition Math_min (a b : Number) : Number :=
  match a, b with
  | NaN, _ | _, NaN => NaN
  | Infinity true, _ | _, Infinity true => Infinity true
  | Infinity false, x | x, Infinity false => x
  | Finite p, Finite q => if Qle_bool p q then Finite p else Finite q
  end.

Definition Math_max (a b : Number) : Number :=
  match a, b with
  | NaN, _ | _, NaN => NaN
  | Infinity false, _ | _, Infinity false => Infinity false
  | Infinity true, x | x, Infinity true => x
  | Finite p, Finite q => if Qle_bool p q then Finite q else Finite p
  end.

(** [s < 0] *)
Definition isNegative (s : Number) : bool :=
  match s with
  | NaN => false
  | Infinity negative => negative
  | Finite q => negb (Qle_bool 0 q)
  end.

(** [s * k] for a positive integer literal [k]. *)
Definition times (s : Number) (k : positive) : Number :=
  match s with
  | Finite q => Finite (q * (Zpos k # 1))
  | _ => s
  end.

(** Rounding towards zero. *)
Definition truncate (q : Q) : Z := Z.quot (Qnum q) (Zpos (Qden q)).

(** The conversion applied by [DataView.setInt16] and by an assignment
    to an element of an [Int16Array]. *)
Definition ToInt16 (x : Number) : Z :=
  match x with
  | Finite q =>
      let int16bit := truncate q mod 65536 in
      if 32768 <=? int16bit then int16bit - 65536 else int16bit
  | _ => 0
  end.

(** *** [DataView] over a fresh [ArrayBuffer] *)

Definition DataView := list Byte.byte.

Definition newArrayBuffer (byteLength : nat) : DataView :=
  replicate byteLength Byte.x00.

(** The byte that holds [value] modulo 256. *)
Definition u8 (value : Z) : Byte.byte :=
  match Byte.of_N (Z.to_N (value mod 256)) with
  | Some b => b
  | None => Byte.x00
  end.

(** The [n] low bytes of [value], the least significant first. *)
Fixpoint littleEndian (n : nat) (value : Z) : list Byte.byte :=
  match n with
  | O => []
  | S n' => u8 value :: littleEndian n' (value / 256)
  end.

(** A write that does not fit throws a [RangeError] and writes
    nothing. *)
Definition setBytes (view : DataView) (byteOffset : nat)
  (bytes : list Byte.byte) : option DataView :=
  if decide (byteOffset + length bytes ≤ length view)%nat
  then Some (list_inserts byteOffset bytes view)
  else None.

Definition setUint8 (view : DataView) (byteOffset : nat) (value : Z)
  : option DataView :=
  setBytes view byteOffset (littleEndian 1 value).

(** [view.setUint16(byteOffset, value, true)] and the like. *)
Definition setUint16 (view : DataView) (byteOffset : nat) (value : Z)
  : option DataView :=
  setBytes view byteOffset (littleEndian 2 value).

Definition setUint32 (view : DataView) (byteOffset : nat) (value : Z)
  : option DataView :=
  setBytes view byteOffset (littleEndian 4 value).

Definition setInt16 (view : DataView) (byteOffset : nat) (value : Number)
  : option DataView :=
  setBytes view byteOffset (littleEndian 2 (ToInt16 value)).

(** The readers of the same interface, little-endian. *)
Definition byteValue (b : Byte.byte) : Z := Z.of_N (Byte.to_N b).

Fixpoint fromLittleEndian (bytes : list Byte.byte) : Z :=
  match bytes with
  | [] => 0
  | b :: rest => byteValue b + 256 * fromLittleEndian rest
  end.

Definition getBytes (view : DataView) (byteOffset n : nat)
  : option (list Byte.byte) :=
  if decide (byteOffset + n ≤ length view)%nat
  then Some (take n (drop byteOffset view))
  else None.

Definition getUint16 (view : DataView) (byteOffset : nat) : option Z :=
  fromLittleEndian <$> getBytes view byteOffset 2.

Definition getUint32 (view : DataView) (byteOffset : nat) : option Z :=
  fromLittleEndian <$> getBytes view byteOffset 4.

Definition getInt16 (view : DataView) (byteOffset : nat) : option Z :=
  (λ u, if 32768 <=? u then u - 65536 else u)
    <$> getUint16 view byteOffset.

(** The characters of a string as bytes. *)
Fixpoint charCodes (str : string) : list Byte.byte :=
  match str with
  | EmptyString => []
  | String c rest => Ascii.byte_of_ascii c :: charCodes rest
  end.

(** *** The encoders of [src/app/page.tsx] *)

(** The value handed to [setInt16] for the sample [x]:
    [s < 0 ? s * 0x8000 : s * 0x7fff] with
    [s = Math.max(-1, Math.min(1, x))]. *)
Definition scaled (x : Number) : Number :=
  let s := Math_max (Finite (-1)) (Math_min (Finite 1) x) in
  if isNegative s then times s 0x8000 else times s 0x7fff.

Fixpoint floatTo16BitPCM (output : DataView) (offset : nat)
  (input : list Number) : option DataView :=
  match input with
  | [] => Some output
  | x :: rest =>
      output' ← setInt16 output offset (scaled x);
      floatTo16BitPCM output' (offset + 2) rest
  end.

Fixpoint writeString (view : DataView) (offset : nat) (str : string)
  : option DataView :=
  match str with
  | EmptyString => Some view
  | String c rest =>
      view' ← setUint8 view offset (Z.of_N (Ascii.N_of_ascii c));
      writeString view' (S offset) rest
  end.

(** An [AudioBuffer]: [bufferLength] is its [length], in sample frames,
    and [channels] holds what [getChannelData] returns for each
    channel. *)
Record AudioBuffer := mkAudioBuffer {
  sampleRate : Z;
  bufferLength : nat;
  channels : list (list Number)
}.

Definition numberOfChannels (audioBuffer : AudioBuffer) : nat :=
  length (channels audioBuffer).

(** The Web Audio interface gives every channel [length] frames. *)
Definition wellFormed (audioBuffer : AudioBuffer) : Prop :=
  Forall (λ c, length c = bufferLength audioBuffer) (channels audioBuffer).

(** [target.set(source, offset)] on a typed array: a source that does
    not fit throws a [RangeError]. *)
Definition typedArraySet {A} (target source : list A) (offset : nat)
  : option (list A) :=
  if decide (offset + length source ≤ length target)%nat
  then Some (list_inserts offset source target)
  else None.

(** The loop that lays the channels one after the other in [data]. *)
Fixpoint copyChannels (data : list Number) (offset frames : nat)
  (chs : list (list Number)) : option (list Number) :=
  match chs with
  | [] => Some data
  | c :: rest =>
      data' ← typedArraySet data c offset;
      copyChannels data' (offset + frames) frames rest
  end.

Definition bufferToWav (audioBuffer : AudioBuffer) : option Blob :=
  let numOfChan := numberOfChannels audioBuffer in
  let length := (bufferLength audioBuffer * numOfChan * 2)%nat in
  let view := newArrayBuffer (44 + length) in
  let pos := 0%nat in
  view ← writeString view pos "RIFF";
  let pos := (pos + 4)%nat in
  view ← setUint32 view pos (36 + Z.of_nat length);
  let pos := (pos + 4)%nat in
  view ← writeString view pos "WAVE";
  let pos := (pos + 4)%nat in
  view ← writeString view pos "fmt ";
  let pos := (pos + 4)%nat in
  view ← setUint32 view pos 16;
  let pos := (pos + 4)%nat in
  view ← setUint16 view pos 1;
  let pos := (pos + 2)%nat in
  view ← setUint16 view pos (Z.of_nat numOfChan);
  let pos := (pos + 2)%nat in
  view ← setUint32 view pos (sampleRate audioBuffer);
  let pos := (pos + 4)%nat in
  view ← setUint32 view pos (sampleRate audioBuffer * Z.of_nat numOfChan * 2);
  let pos := (pos + 4)%nat in
  view ← setUint16 view pos (Z.of_nat numOfChan * 2);
  let pos := (pos + 2)%nat in
  view ← setUint16 view pos 16;
  let pos := (pos + 2)%nat in
  view ← writeString view pos "data";
  let pos := (pos + 4)%nat in
  view ← setUint32 view pos (Z.of_nat length);
  data ← copyChannels
            (replicate (bufferLength audioBuffer * numOfChan) (Finite 0))
            0 (bufferLength audioBuffer) (channels audioBuffer);
  floatTo16BitPCM view 44 data.

(** *** The encoder of [unnamed/part_001] *)

(** What [audioBufferToWav] hands to [WaveFile.fromScratch]. *)
Record FromScratch := mkFromScratch {
  numChannels : Z;
  waveSampleRate : Z;
  bitDepth : string;
  samples : list Z
}.

(** The loop over [leftChannel]; an index past the end of an
    [Int16Array] is not written. *)
Fixpoint fillSamples (samples : list Z) (i : nat) (leftChannel : list Number)
  : list Z :=
  match leftChannel with
  | [] => samples
  | x :: rest => fillSamples (<[i := ToInt16 (scaled x)]> samples) (S i) rest
  end.

(** [getChannelData(0)] throws when the buffer has no channel. *)
Definition audioBufferToWav (audioBuffer : AudioBuffer) : option FromScratch :=
  leftChannel ← channels audioBuffer !! 0%nat;
  Some (mkFromScratch 1 (sampleRate audioBuffer) "16"
          (fillSamples (replicate (bufferLength audioBuffer) 0) 0 leftChannel)).

(** *** What a reader of the file finds *)

(** The 16-bit sample the encoders store for [x]. *)
Definition pcm16 (x : Number) : Z := ToInt16 (scaled x).

(** The same conversion on a fraction [n / d] in integers: saturation
    at full scale, otherwise scaling and rounding towards zero. *)
Definition saturated (n d : Z) : Z :=
  if d <=? n then 32767
  else if n <=? - d then -32768
  else if 0 <=? n then (n * 32767) / d
  else - ((- n * 32768) / d).

(** The byte length of the PCM data of a buffer. *)
Definition dataLength (audioBuffer : AudioBuffer) : nat :=
  (bufferLength audioBuffer * numberOfChannels audioBuffer * 2)%nat.

(** The samples of the channels, one channel after the other. *)
Definition planar (audioBuffer : AudioBuffer) : list Number :=
  concat (channels audioBuffer).

Definition header (audioBuffer : AudioBuffer) : list Byte.byte :=
  charCodes "RIFF"
  ++ littleEndian 4 (36 + Z.of_nat (dataLength audioBuffer))
  ++ charCodes "WAVE"
  ++ charCodes "fmt "
  ++ littleEndian 4 16
  ++ littleEndian 2 1
  ++ littleEndian 2 (Z.of_nat (numberOfChannels audioBuffer))
  ++ littleEndian 4 (sampleRate audioBuffer)
  ++ littleEndian 4
       (sampleRate audioBuffer * Z.of_nat (numberOfChannels audioBuffer) * 2)
  ++ littleEndian 2 (Z.of_nat (numberOfChannels audioBuffer) * 2)
  ++ littleEndian 2 16
  ++ charCodes "data"
  ++ littleEndian 4 (Z.of_nat (dataLength audioBuffer)).

Definition pcmBytes (xs : list Number) : list Byte.byte :=
  concat (map (λ x, littleEndian 2 (pcm16 x)) xs).

(** A stereo buffer of three frames, with a sample beyond full scale
    and one that is not a number. *)
Definition stereoExample : AudioBuffer :=
  mkAudioBuffer 16000 3
    [[Finite (1 # 2); Finite (-1 # 2); Finite 2];
     [NaN; Finite (-1); Finite (1 # 3)]].
End Wav.

(** ** Shapes of the state of the Cobra components *)

Module ClipShapes.
Import Media ClipDetector.

(** What the component keeps: chunks with bytes in them, clips of at
    least half a second with bytes in them, and the newest clip shown as
    the latest. *)
Definition keptInv (s : State) : Prop :=
  Forall (λ chunk, 0 < size chunk) (audioChunksRef s) ∧
  Forall (λ c, (1 # 2 <= duration c)%Q ∧ 0 < size (url c)) (audioClips s) ∧
  latestClip s = head (audioClips s).

(** The component before any initialization has succeeded; the stream
    may have been stored already. *)
Definition uninitialized (s : State) : Prop :=
  cobraRef s = None ∧ isInitialized s = false ∧
  isListeningRef s = false ∧ isListening s = false ∧
  isRecordingRef s = false ∧ mediaRecorderRef s = None ∧
  recorders s = [] ∧ audioClips s = [].

(** The component in a browser that does not record Opus in WebM. *)
Definition withoutOpus (s : State) : Prop :=
  opusSupported s = false ∧ recorders s = [] ∧ audioClips s = [] ∧
  isRecordingRef s = false ∧
  (is_Some (cobraRef s) → is_Some (streamRef s)) ∧
  (isListeningRef s = true → is_Some (cobraRef s)).

(** Since the state [s0], recorder [r] has gone on recording with the
    same chunks and clips, and the silence timer armed for [d] has not
    come due. *)
Definition armedBefore (r : nat) (d : Z) (s0 s : State) : Prop :=
  recordingArmed r d s ∧ now s < d ∧
  recorders s = recorders s0 ∧ clipOutput s = clipOutput s0.

(** The clip that the stop handler of a recorder started at [startTime]
    cuts at time [endTime] from [chunks], if it cuts one. *)
Definition clipCut (startTime endTime : Z) (chunks : list Blob)
  : list AudioClip :=
  let duration := if startTime =? 0 then 0 else endTime - startTime in
  if (MIN_RECORDING_DURATION <=? duration) && (0 <? Z.of_nat (length chunks))
  then [Clip endTime (newBlob chunks) endTime (duration # 1000)]
  else [].
End ClipShapes.

(** ** Shapes of the state of the two transcribing components *)

Module QueuedShapes.
Import Media Sarvam QueuedStt.

Definition anyRunning (q : list Job) : bool :=
  existsb (λ j, isRunning (phase j)) q.

(** The audio context is there as soon as there is a stream, a recorder
    or a link of the chain. *)
Definition contextReady (s : State) : Prop :=
  is_Some (audioContextRef s)
  ∨ (streamRef s = None ∧ recorders s = [] ∧ processingQueueRef s = []).

(** The chain is in shape and the processing flag tells whether a link
    of it is running. *)
Definition indicatorInv (s : State) : Prop :=
  contextReady s ∧
  wellChained (processingQueueRef s) = true ∧
  isProcessing s = anyRunning (processingQueueRef s).

(** What the recording side leaves alone. *)
Definition indicatorView (s : State) :=
  (audioContextRef s, streamRef s, processingQueueRef s, isProcessing s).

(** Listening with a microphone, nothing recording, no timer. *)
Definition ready (s : State) : Prop :=
  isListeningRef s = true ∧ isRecordingRef s = false ∧
  is_Some (streamRef s) ∧ currentIsRecording s = false ∧
  silenceTimeoutRef s = None ∧ Timers.pending (timers s) = [].

(** The transcript that a list of responses comes to: the texts joined
    by single spaces, with the timestamps of the last response. *)
Definition joined (ds : list TranscriptionResponse)
  : option TranscriptionResponse :=
  match last ds with
  | Some d =>
      Some (Response (String.concat " " (transcript <$> ds)) (timestamps d))
  | None => None
  end.
End QueuedShapes.

Module AwaitingShapes.
Import Media Sarvam AwaitingStt.

(** The component built without the key of the transcription
    service. *)
Definition withoutKey (s : State) : Prop :=
  sarvamKeyConfigured s = false ∧ calls s = [] ∧
  transcription s = None ∧ lastResponseTime s = None.
End AwaitingShapes.

(** ** [unnamed/part_001]: component [Index] *)

Module SimpleVad.
Import Media.

(** A detector of the voice-activity-detection package: once destroyed
    it calls nothing. *)
Record VAD := Detector { destroyed : bool }.

Record AudioContext := Context { closed : bool }.

(** An object URL is the index at which [URL.createObjectURL] entered
    it in the table of the page; [revoked] tells whether
    [URL.revokeObjectURL] has been called on it. *)
Record ObjectURL := Object { blob : Blob; revoked : bool }.

Record State := mkState {
  (* environment *)
  recorders : list (MediaRecorder unit);
  detectors : list VAD;
  objectURLs : list ObjectURL;
  (* React state *)
  isListening : bool;
  isRecording : bool;
  audioPackets : list nat;
  (* refs *)
  mediaRecorderRef : option nat;
  audioChunksRef : list Blob;
  streamRef : option MediaStream;
  audioContextRef : option AudioContext;
  vadRef : option nat
}.

Definition set_recorders v (s : State) : State :=
  {| recorders := v; detectors := detectors s; objectURLs := objectURLs s; isListening := isListening s; isRecording := isRecording s; audioPackets := audioPackets s; mediaRecorderRef := mediaRecorderRef s; audioChunksRef := audioChunksRef s; streamRef := streamRef s; audioContextRef := audioContextRef s; vadRef := vadRef s |}.
Definition set_detectors v (s : State) : State :=
  {| recorders := recorders s; detectors := v; objectURLs := objectURLs s; isListening := isListening s; isRecording := isRecording s; audioPackets := audioPackets s; mediaRecorderRef := mediaRecorderRef s; audioChunksRef := audioChunksRef s; streamRef := streamRef s; audioContextRef := audioContextRef s; vadRef := vadRef s |}.
Definition set_objectURLs v (s : State) : State :=
  {| recorders := recorders s; detectors := detectors s; objectURLs := v; isListening := isListening s; isRecording := isRecording s; audioPackets := audioPackets s; mediaRecorderRef := mediaRecorderRef s; audioChunksRef := audioChunksRef s; streamRef := streamRef s; audioContextRef := audioContextRef s; vadRef := vadRef s |}.
Definition set_isListening v (s : State) : State :=
  {| recorders := recorders s; detectors := detectors s; objectURLs := objectURLs s; isListening := v; isRecording := isRecording s; audioPackets := audioPackets s; mediaRecorderRef := mediaRecorderRef s; audioChunksRef := audioChunksRef s; streamRef := streamRef s; audioContextRef := audioContextRef s; vadRef := vadRef s |}.
Definition set_isRecording v (s : State) : State :=
  {| recorders := recorders s; detectors := detectors s; objectURLs := objectURLs s; isListening := isListening s; isRecording := v; audioPackets := audioPackets s; mediaRecorderRef := mediaRecorderRef s; audioChunksRef := audioChunksRef s; streamRef := streamRef s; audioContextRef := audioContextRef s; vadRef := vadRef s |}.
Definition set_audioPackets v (s : State) : State :=
  {| recorders := recorders s; detectors := detectors s; objectURLs := objectURLs s; isListening := isListening s; isRecording := isRecording s; audioPackets := v; mediaRecorderRef := mediaRecorderRef s; audioChunksRef := audioChunksRef s; streamRef := streamRef s; audioContextRef := audioContextRef s; vadRef := vadRef s |}.
Definition set_mediaRecorderRef v (s : State) : State :=
  {| recorders := recorders s; detectors := detectors s; objectURLs := objectURLs s; isListening := isListening s; isRecording := isRecording s; audioPackets := audioPackets s; mediaRecorderRef := v; audioChunksRef := audioChunksRef s; streamRef := streamRef s; audioContextRef := audioContextRef s; vadRef := vadRef s |}.
Definition set_audioChunksRef v (s : State) : State :=
  {| recorders := recorders s; detectors := detectors s; objectURLs := objectURLs s; isListening := isListening s; isRecording := isRecording s; audioPackets := audioPackets s; mediaRecorderRef := mediaRecorderRef s; audioChunksRef := v; streamRef := streamRef s; audioContextRef := audioContextRef s; vadRef := vadRef s |}.
Definition set_streamRef v (s : State) : State :=
  {| recorders := recorders s; detectors := detectors s; objectURLs := objectURLs s; isListening := isListening s; isRecording := isRecording s; audioPackets := audioPackets s; mediaRecorderRef := mediaRecorderRef s; audioChunksRef := audioChunksRef s; streamRef := v; audioContextRef := audioContextRef s; vadRef := vadRef s |}.
Definition set_audioContextRef v (s : State) : State :=
  {| recorders := recorders s; detectors := detectors s; objectURLs := objectURLs s; isListening := isListening s; isRecording := isRecording s; audioPackets := audioPackets s; mediaRecorderRef := mediaRecorderRef s; audioChunksRef := audioChunksRef s; streamRef := streamRef s; audioContextRef := v; vadRef := vadRef s |}.
Definition set_vadRef v (s : State) : State :=
  {| recorders := recorders s; detectors := detectors s; objectURLs := objectURLs s; isListening := isListening s; isRecording := isRecording s; audioPackets := audioPackets s; mediaRecorderRef := mediaRecorderRef s; audioChunksRef := audioChunksRef s; streamRef := streamRef s; audioContextRef := audioContextRef s; vadRef := v |}.

Definition initial : State :=
  {| recorders := []; detectors := []; objectURLs := [];
     isListening := false; isRecording := false; audioPackets := [];
     mediaRecorderRef := None; audioChunksRef := []; streamRef := None;
     audioContextRef := None; vadRef := None |}.

(** [startListening]; [granted] tells whether the microphone was
    obtained.  The new detector is given [startRecording] and
    [stopRecording] as its two handlers. *)
Definition startListening (granted : bool) (s : State) : State :=
  if granted then
    set_isListening true
      (set_vadRef (Some (length (detectors s)))
         (set_detectors (detectors s ++ [Detector false])
            (set_audioContextRef (Some (Context false))
               (set_streamRef (Some (Stream true)) s))))
  else s.

Definition stopListening (s : State) : State :=
  let s1 :=
    match streamRef s with
    | Some _ => set_streamRef (Some (Stream false)) s
    | None => s
    end in
  let s2 :=
    match audioContextRef s1 with
    | Some _ => set_audioContextRef (Some (Context true)) s1
    | None => s1
    end in
  let s3 :=
    match vadRef s2 with
    | Some d => set_detectors (<[d := Detector true]> (detectors s2)) s2
    | None => s2
    end in
  set_isRecording false (set_isListening false s3).

(** [mediaRecorder.start()] throws when the tracks of the stream have
    been stopped: the recorder is then left inactive and the recording
    flag is not raised. *)
Definition startRecording (s : State) : State :=
  match streamRef s with
  | None => s
  | Some stream =>
      let r := length (recorders s) in
      let s1 := set_audioChunksRef [] (set_mediaRecorderRef (Some r) s) in
      if tracksLive stream
      then
        set_isRecording true
          (set_recorders (recorders s ++ [Recorder unit recording false tt]) s1)
      else
        set_recorders (recorders s ++ [Recorder unit inactive false tt]) s1
  end.

Definition stopRecording (s : State) : State :=
  match mediaRecorderRef s with
  | Some r =>
      if isRecordingAt (recorders s) r
      then set_isRecording false (set_recorders (stop r (recorders s)) s)
      else s
  | None => s
  end.

Definition ondataavailable (data : Blob) (s : State) : State :=
  if 0 <? size data
  then set_audioChunksRef (audioChunksRef s ++ [data]) s
  else s.

Fixpoint revokeAll (urls : list nat) (objects : list ObjectURL)
  : list ObjectURL :=
  match urls with
  | [] => objects
  | url :: rest =>
      revokeAll rest
        (match objects !! url with
         | Some o => <[url := Object (blob o) true]> objects
         | None => objects
         end)
  end.

(** The cleanup of the effect whose dependencies are [stopListening]
    and [audioPackets], as created by a render that sees
    [packetsSeen]. *)
Definition cleanup (packetsSeen : list nat) (s : State) : State :=
  let s1 := stopListening s in
  set_objectURLs (revokeAll packetsSeen (objectURLs s1)) s1.

(** [mediaRecorder.onstop].  [setAudioPackets] gives the state a new
    array, so the component renders again and React runs the cleanup of
    the effect of the render before, which saw the packets as they
    were. *)
Definition onstop (s : State) : State :=
  let audioBlob := newBlob (audioChunksRef s) in
  if 0 <? size audioBlob
  then
    let audioUrl := length (objectURLs s) in
    let s1 := set_objectURLs (objectURLs s ++ [Object audioBlob false]) s in
    set_audioPackets (audioPackets s ++ [audioUrl])
      (cleanup (audioPackets s) s1)
  else s.

Definition dispatchStop (r : nat) (s : State) : State :=
  match recorders s !! r with
  | Some m =>
      if stopQueued m
      then onstop (set_recorders (dispatched r (recorders s)) s)
      else s
  | None => s
  end.

Definition dispatchData (r : nat) (data : Blob) (s : State) : State :=
  if isRecordingAt (recorders s) r || hasQueuedStop (recorders s) r
  then ondataavailable data s
  else s.

Definition detectorLive (d : nat) (s : State) : bool :=
  match detectors s !! d with
  | Some v => negb (destroyed v)
  | None => false
  end.

Inductive Event :=
| evVoiceStart (d : nat)
| evVoiceStop (d : nat)
| evData (r : nat) (data : Blob)
| evStop (r : nat)
| evStartListening (granted : bool)
| evStopListening
| evUnmount.

Definition step (s : State) (e : Event) : State :=
  match e with
  | evVoiceStart d => if detectorLive d s then startRecording s else s
  | evVoiceStop d => if detectorLive d s then stopRecording s else s
  | evData r data => dispatchData r data s
  | evStop r => dispatchStop r s
  | evStartListening granted => startListening granted s
  | evStopListening => stopListening s
  | evUnmount => cleanup (audioPackets s) s
  end.

Definition run (s : State) (es : list Event) : State := fold_left step es s.

Definition isRevoked (s : State) (url : nat) : bool :=
  match objectURLs s !! url with
  | Some o => revoked o
  | None => false
  end.

(** The packets name object URLs of the table, and all of them but the
    last have been revoked. *)
Definition packetsInv (s : State) : Prop :=
  Forall (λ url, (url < length (objectURLs s))%nat) (audioPackets s) ∧
  ∀ i url, audioPackets s !! i = Some url →
           (S i < length (audioPackets s))%nat → isRevoked s url = true.

(** What [stopListening] leaves. *)
Definition stopped (s : State) : Prop :=
  isListening s = false ∧ isRecording s = false ∧
  (∀ stream, streamRef s = Some stream → tracksLive stream = false) ∧
  (∀ ctx, audioContextRef s = Some ctx → closed ctx = true) ∧
  (∀ d, vadRef s = Some d → detectorLive d s = false).
End SimpleVad.

(** ** Shapes of the state of the two components of [speech2tex.tsx] *)

Module PauseShapes.
Import Media PauseVad.

(** Time has a positive reading, and the only timer that can be pending
    is the one [pauseTimeoutRef] names, armed while [silenceStartRef]
    holds a time. *)
Definition timerInv (s : State) : Prop :=
  0 < now s ∧
  (Timers.pending (timers s) = []
   ∨ ∃ h d, Timers.pending (timers s) = [Timers.Timer h d pauseElapsed] ∧
            pauseTimeoutRef s = Some h ∧
            truthy (silenceStartRef s) = true).

(** The packet that the stop handler saves for a recording of
    [recordingDuration] milliseconds made of [chunks], if it saves
    one. *)
Definition packetSaved (recordingDuration : Z) (chunks : list Blob)
  : list Blob :=
  if (MIN_RECORDING_LENGTH <=? recordingDuration)
     && (0 <? size (newBlob chunks))
  then [newBlob chunks]
  else [].
End PauseShapes.

Module PlainShapes.
Import Media PlainDetector.

(** Nothing has been recorded, and nothing is about to be. *)
Definition idle (s : State) : Prop :=
  recorders s = [] ∧ audioClips s = [] ∧ isRecording s = false ∧
  mediaRecorderRef s = None ∧
  silenceTimeoutRef s = None ∧ Timers.pending (timers s) = [].
End PlainShapes.

(** ** The relay server: heartbeat and audio bursts *)

Module RelayBeat.
Import Sarvam Relay.

(** The callback of [setInterval(..., PING_INTERVAL)]: a client that has
    not shown itself alive since the beat before is terminated and
    leaves the map; every other client is marked and sent a ping.  The
    pings of one beat are listed here in the order of the client
    identifiers, where the source visits the clients in the order of
    connection. *)
Definition pingClients (s : State) : State :=
  let alive := filter (λ kv, isAlive kv.2 = true) (clients s) in
  let dropped := filter (λ kv, isAlive kv.2 = false) (clients s) in
  set_sent (sent s ++ ((λ kv, (kv.1, outPing)) <$> map_to_list alive))
    (set_detached (dropped ∪ detached s)
       (set_clients
          ((λ client, mkClient false (currentAudioBuffer client)) <$> alive)
          s)).

(** An audio message of [clientId] arriving at time [m.1]. *)
Definition deliver (clientId : string) (s : State) (m : Z * Buffer) : State :=
  onMessage clientId (inAudio m.2) (elapse m.1 s).

Definition deliverAll (clientId : string) (s : State)
  (ms : list (Z * Buffer)) : State :=
  fold_left (deliver clientId) ms s.

(** Each message comes less than [AUDIO_CHUNK_TIMEOUT] after the one
    before. *)
Fixpoint spaced (previous : Z) (ms : list (Z * Buffer)) : Prop :=
  match ms with
  | [] => True
  | m :: rest =>
      previous ≤ m.1 ∧ m.1 < previous + AUDIO_CHUNK_TIMEOUT ∧ spaced m.1 rest
  end.

(** The time of the last of the messages [m :: ms]. *)
Definition lastTime (m : Z * Buffer) (ms : list (Z * Buffer)) : Z :=
  (List.last ms m).1.

(** The processing timer of [clientId] is the only timer pending, armed
    by a message that came at [now s]; the client has buffered
    [buffered]. *)
Definition armed (clientId : string) (alive : bool) (buffered : list Buffer)
  (s : State) : Prop :=
  clients s !! clientId = Some (mkClient alive buffered) ∧
  ∃ h, audioProcessingTimeout s !! clientId = Some h ∧
       Timers.pending (timers s)
       = [Timers.Timer h (now s + AUDIO_CHUNK_TIMEOUT) (flushAudio clientId)].

(** The client, if there, has not shown itself alive. *)
Definition notAlive (clientId : string) (s : State) : Prop :=
  ∀ client, clients s !! clientId = Some client → isAlive client = false.

(** The client is there and has shown itself alive. *)
Definition alive (clientId : string) (s : State) : Prop :=
  ∃ client, clients s !! clientId = Some client ∧ isAlive client = true.

Definition connected (clientId : string) (s : State) : Prop :=
  is_Some (clients s !! clientId).
End RelayBeat.


(** * Timer tables *)

Section TimerFacts.
Context {C : Type}.
Implicit Types (tb : Timers.table C) (c : C).

Lemma timers_next_due_none t n : Timers.next_due t (Timers.Table (C:=C) [] n) = None.
Proof. done. Qed.

Lemma timers_next_due_later t h d c n :
  t < d → Timers.next_due t (Timers.Table [Timers.Timer h d c] n) = None.
Proof.
  intros H. unfold Timers.next_due. simpl.
  destruct (Z.leb_spec d t); [lia|done].
Qed.

Lemma timers_next_due_single t h d c n :
  d ≤ t →
  Timers.next_due t (Timers.Table [Timers.Timer h d c] n)
  = Some (Timers.Timer h d c).
Proof.
  intros H. unfold Timers.next_due. simpl.
  destruct (Z.leb_spec d t); [done|lia].
Qed.

Lemma timers_clear_single h d c n :
  Timers.clearTimeout h (Timers.Table [Timers.Timer h d c] n) = Timers.Table [] n.
Proof. unfold Timers.clearTimeout. simpl. by rewrite Nat.eqb_refl. Qed.
End TimerFacts.



(** * Counting recorders *)

Section MediaFacts.
Import Media.
Context {E : Type}.
Implicit Types (hp : list (MediaRecorder E)) (m : MediaRecorder E).

Lemma media_count_insert {A} (P : A → bool) (l : list A) i x y :
  l !! i = Some x →
  (length (List.filter P (<[i := y]> l)) + (if P x then 1 else 0)
   = length (List.filter P l) + (if P y then 1 else 0))%nat.
Proof.
  revert i. induction l as [|a l IH]; intros i Hi; [done|].
  destruct i as [|i]; simpl in *.
  - injection Hi as ->. destruct (P x), (P y); simpl; lia.
  - specialize (IH i Hi). destruct (P a); simpl; lia.
Qed.

Lemma media_count_snoc {A} (P : A → bool) (l : list A) x :
  length (List.filter P (l ++ [x]))
  = (length (List.filter P l) + (if P x then 1 else 0))%nat.
Proof. rewrite List.filter_app, length_app. simpl. by destruct (P x). Qed.

Lemma media_create_counts e hp :
  activeCount (create e hp).2 = S (activeCount hp) ∧
  queuedCount (create e hp).2 = queuedCount hp.
Proof.
  unfold activeCount, queuedCount, create. simpl.
  rewrite !media_count_snoc. simpl. lia.
Qed.

Lemma media_stop_counts r hp :
  isRecordingAt hp r = true →
  (activeCount (stop r hp) + 1 = activeCount hp)%nat ∧
  (queuedCount (stop r hp) ≤ queuedCount hp + 1)%nat.
Proof.
  unfold isRecordingAt, stop. destruct (hp !! r) as [m|] eqn:Hm; [|done].
  intros Hrec. unfold activeCount, queuedCount.
  pose proof (media_count_insert (λ m, isRecordingState (state m)) hp r m
                (Recorder E inactive true (closure m)) Hm) as H1.
  pose proof (media_count_insert (λ m, stopQueued m) hp r m
                (Recorder E inactive true (closure m)) Hm) as H2.
  simpl in *. rewrite Hrec in H1. destruct (stopQueued m); lia.
Qed.

Lemma media_dispatched_counts r hp :
  hasQueuedStop hp r = true →
  activeCount (dispatched r hp) = activeCount hp ∧
  (queuedCount (dispatched r hp) + 1 = queuedCount hp)%nat.
Proof.
  unfold hasQueuedStop, dispatched. destruct (hp !! r) as [m|] eqn:Hm; [|done].
  intros Hq. unfold activeCount, queuedCount.
  pose proof (media_count_insert (λ m, isRecordingState (state m)) hp r m
                (Recorder E (state m) false (closure m)) Hm) as H1.
  pose proof (media_count_insert (λ m, stopQueued m) hp r m
                (Recorder E (state m) false (closure m)) Hm) as H2.
  simpl in *. rewrite Hq in H2. destruct (isRecordingState (state m)); lia.
Qed.


End MediaFacts.


(** * Properties of [ClipDetector] *)

Section ClipDetectorFinalization.
Import Media ClipDetector.

Lemma clip_stopRecording_output s : clipOutput (stopRecording s) = clipOutput s.
Proof.
  unfold stopRecording.
  destruct (mediaRecorderRef s) as [r|]; [|done].
  by destruct (isRecordingAt (recorders s) r).
Qed.

Lemma clip_runCallback_output c s : clipOutput (runCallback c s) = clipOutput s.
Proof. destruct c. apply clip_stopRecording_output. Qed.

Lemma clip_fireDue_output fuel t s : clipOutput (fireDue fuel t s) = clipOutput s.
Proof.
  revert s. induction fuel as [|fuel IH]; intros s; simpl; [done|].
  destruct (Timers.next_due t (timers s)) as [tm|]; [|done].
  by rewrite IH, clip_runCallback_output.
Qed.

Lemma clip_elapse_output t s : clipOutput (elapse t s) = clipOutput s.
Proof. unfold elapse. by rewrite <- (clip_fireDue_output (length (Timers.pending (timers s))) t s). Qed.

Lemma clip_startRecording_empty s :
  audioChunksRef s = [] →
  clipOutput (startRecording s) = clipOutput s.
Proof.
  intros H. unfold startRecording.
  destruct (streamRef s); [|done].
  destruct (currentIsRecording s); [done|].
  destruct (opusSupported s); simpl; [|done].
  unfold clipOutput; simpl. by rewrite H.
Qed.

Lemma clip_handleVoiceProbability_empty p s :
  audioChunksRef s = [] →
  clipOutput (handleVoiceProbability p s) = clipOutput s.
Proof.
  intros H. unfold handleVoiceProbability.
  destruct (Qle_bool _ _).
  - unfold handleVoiceDetected.
    destruct (silenceTimeoutRef s) as [h|]; simpl;
      match goal with |- context [if ?b then _ else _] => destruct b end;
      try done; by rewrite clip_startRecording_empty.
  - unfold handleSilenceDetected.
    destruct (silenceTimeoutRef s); [done|].
    by destruct (isRecordingRef s).
Qed.

Lemma clip_onstop_empty startTime s :
  audioChunksRef s = [] →
  clipOutput (onstop startTime s) = clipOutput s.
Proof.
  intros H. unfold onstop. rewrite H. simpl.
  rewrite andb_false_r. unfold clipOutput; simpl. by rewrite H.
Qed.

Lemma clip_dispatchStop_empty r s :
  audioChunksRef s = [] →
  clipOutput (dispatchStop r s) = clipOutput s.
Proof.
  intros H. unfold dispatchStop.
  destruct (recorders s !! r) as [m|]; [|done].
  destruct (stopQueued m); [|done].
  by rewrite clip_onstop_empty.
Qed.

Lemma clip_step_empty s e :
  audioChunksRef s = [] →
  (∀ r d, e = evData r d → size d = 0) →
  clipOutput (step s e) = clipOutput s.
Proof.
  intros H Hd. destruct e as [p|r d|r|t|i| | |]; simpl.
  - by apply clip_handleVoiceProbability_empty.
  - unfold dispatchData, ondataavailable. rewrite (Hd r d eq_refl). simpl.
    by destruct (_ || _).
  - by apply clip_dispatchStop_empty.
  - apply clip_elapse_output.
  - by destruct i.
  - unfold startListening. destruct (cobraRef s); [|done]. by destruct (isInitialized s).
  - unfold stopListening. destruct (cobraRef s); [|done].
    destruct (isListeningRef s); [|done]. simpl.
    destruct (isRecordingRef s); [|done].
    unfold clipOutput; simpl.
    change (clipOutput (stopRecording (set_cobraRef (Some (Cobra false (released c))) s)) = clipOutput s).
    by rewrite clip_stopRecording_output.
  - unfold unmount.
    destruct (cobraRef s) as [c|] eqn:Hc; simpl.
    + destruct (isListeningRef s); simpl; destruct (streamRef s); simpl; try rewrite Hc; done.
    + destruct (streamRef s); simpl; rewrite ?Hc; done.
Qed.

Lemma clip_run_empty es : ∀ s,
  audioChunksRef s = [] →
  (∀ r d, In (evData r d) es → size d = 0) →
  clipOutput (run s es) = clipOutput s.
Proof.
  induction es as [|e es IH]; intros s H Hd; [done|].
  simpl.
  assert (Hs : clipOutput (step s e) = clipOutput s).
  { apply clip_step_empty; [done|]. intros r d ->. apply (Hd r d). by left. }
  change (clipOutput (run (step s e) es) = clipOutput s).
  rewrite IH; [done| |].
  - unfold clipOutput in Hs. congruence.
  - intros r d Hin. apply (Hd r d). by right.
Qed.

End ClipDetectorFinalization.


Section ClipDetectorDebounce.
Import Media ClipDetector.

Lemma clip_advanceTo_idle t s :
  Timers.pending (timers s) = [] →
  advanceTo t s = set_now (Z.max (now s) t) s.
Proof.
  intros H. unfold advanceTo. rewrite H. simpl. unfold elapse. by rewrite H.
Qed.

Lemma clip_advanceTo_before t s h d c :
  Timers.pending (timers s) = [Timers.Timer h d c] → t < d →
  advanceTo t s = set_now (Z.max (now s) t) s.
Proof.
  intros H Ht. unfold advanceTo. rewrite H. simpl.
  assert (Hn : Timers.next_due t (timers s) = None).
  { destruct (timers s) as [p n]. simpl in H. subst p.
    by apply timers_next_due_later. }
  rewrite Hn. unfold elapse. rewrite H. simpl. by rewrite Hn.
Qed.

(** The first voiced sample of a region starts the one recorder. *)
Lemma clip_feed_voiced_ready s x :
  ready s → voiced x = true →
  recordingQuiet (length (recorders s)) (feed s x) ∧
  length (recorders (feed s x)) = S (length (recorders s)) ∧
  audioClips (feed s x) = audioClips s.
Proof.
  intros (Hl & Hr & [st Hst] & Ho & Hc & Hs & Hp) Hv.
  unfold feed. rewrite clip_advanceTo_idle by done.
  unfold handleVoiceProbability. unfold voiced in Hv. rewrite Hv.
  unfold handleVoiceDetected. simpl. rewrite Hs. simpl. rewrite Hr, Hl, Hst.
  rewrite bool_decide_eq_true_2 by eauto. simpl.
  unfold startRecording. simpl. rewrite Hst.
  unfold currentIsRecording in *. simpl. rewrite Hc, Ho. simpl.
  unfold recordingQuiet. simpl.
  repeat split; try done.
  - unfold isRecordingAt. by rewrite lookup_app_r, Nat.sub_diag.
  - rewrite length_app. simpl. lia.
Qed.

(** A voiced sample while recording with no timer changes nothing but
    the clock. *)
Lemma clip_feed_voiced_quiet r s x :
  recordingQuiet r s → voiced x = true →
  recordingQuiet r (feed s x) ∧
  recorders (feed s x) = recorders s ∧
  audioClips (feed s x) = audioClips s.
Proof.
  intros (Hr & Hm & Ha & Hs & Hp) Hv.
  unfold feed. rewrite clip_advanceTo_idle by done.
  unfold handleVoiceProbability. unfold voiced in Hv. rewrite Hv.
  unfold handleVoiceDetected. simpl. rewrite Hs. simpl. rewrite Hr. simpl.
  by unfold recordingQuiet.
Qed.

(** The first silent sample arms the timer, one debounce period after
    the time at which it is handled. *)
Lemma clip_feed_silent_quiet r s x :
  recordingQuiet r s → voiced x = false →
  recordingArmed r (Z.max (now s) (sampleTime x) + SILENCE_DURATION_THRESHOLD) (feed s x) ∧
  recorders (feed s x) = recorders s ∧
  audioClips (feed s x) = audioClips s.
Proof.
  intros (Hr & Hm & Ha & Hs & Hp) Hv.
  unfold feed. rewrite clip_advanceTo_idle by done.
  unfold handleVoiceProbability. unfold voiced in Hv. rewrite Hv.
  unfold handleSilenceDetected. simpl. rewrite Hs, Hr. simpl.
  unfold recordingArmed. simpl. repeat split; try done.
  eexists. split; [done|]. by rewrite Hp.
Qed.

(** Further silent samples before the deadline leave the timer as it is. *)
Lemma clip_feed_silent_armed r d s x :
  recordingArmed r d s → voiced x = false → sampleTime x < d →
  recordingArmed r d (feed s x) ∧
  recorders (feed s x) = recorders s ∧
  audioClips (feed s x) = audioClips s.
Proof.
  intros (Hr & Hm & Ha & h & Hs & Hp) Hv Ht.
  unfold feed. rewrite (clip_advanceTo_before _ _ _ _ _ Hp) by done.
  unfold handleVoiceProbability. unfold voiced in Hv. rewrite Hv.
  unfold handleSilenceDetected. simpl. rewrite Hs.
  unfold recordingArmed. simpl. repeat split; try done.
  by exists h.
Qed.

(** Voice resuming before the deadline cancels the timer. *)
Lemma clip_feed_voiced_armed r d s x :
  recordingArmed r d s → voiced x = true → sampleTime x < d →
  recordingQuiet r (feed s x) ∧
  recorders (feed s x) = recorders s ∧
  audioClips (feed s x) = audioClips s.
Proof.
  intros (Hr & Hm & Ha & h & Hs & Hp) Hv Ht.
  unfold feed. rewrite (clip_advanceTo_before _ _ _ _ _ Hp) by done.
  unfold handleVoiceProbability. unfold voiced in Hv. rewrite Hv.
  unfold handleVoiceDetected. simpl. rewrite Hs. simpl. rewrite Hr. simpl.
  unfold recordingQuiet. simpl. repeat split; try done.
  rewrite Hp. simpl. by rewrite Nat.eqb_refl.
Qed.

Lemma clip_feedAll_voiced_quiet r xs : ∀ s,
  recordingQuiet r s → forallb voiced xs = true →
  recordingQuiet r (feedAll s xs) ∧
  recorders (feedAll s xs) = recorders s ∧
  audioClips (feedAll s xs) = audioClips s.
Proof.
  induction xs as [|x xs IH]; intros s Hq Hv; [simpl; auto|].
  simpl in Hv. apply andb_prop in Hv as [Hx Hxs].
  destruct (clip_feed_voiced_quiet r s x Hq Hx) as (Hq' & Hr' & Hc').
  destruct (IH (feed s x) Hq' Hxs) as (? & ? & ?).
  simpl. split; [done|split; congruence].
Qed.

Lemma clip_feedAll_silent_armed r d xs : ∀ s,
  recordingArmed r d s → forallb (λ x, negb (voiced x)) xs = true →
  Forall (λ x, sampleTime x < d) xs →
  recordingArmed r d (feedAll s xs) ∧
  recorders (feedAll s xs) = recorders s ∧
  audioClips (feedAll s xs) = audioClips s.
Proof.
  induction xs as [|x xs IH]; intros s Hq Hv Ht; [simpl; auto|].
  simpl in Hv. apply andb_prop in Hv as [Hx Hxs].
  apply negb_true_iff in Hx.
  inversion Ht as [|? ? Htx Htxs]; subst.
  destruct (clip_feed_silent_armed r d s x Hq Hx Htx) as (Hq' & Hr' & Hc').
  destruct (IH (feed s x) Hq' Hxs Htxs) as (? & ? & ?).
  simpl. split; [done|split; congruence].
Qed.

(** A silent run that starts with no timer armed and whose samples all
    come less than one debounce period after its first. *)
Lemma clip_feedAll_silent_run r x xs s :
  recordingQuiet r s →
  forallb (λ y, negb (voiced y)) (x :: xs) = true →
  Forall (λ y, sampleTime y < sampleTime x + SILENCE_DURATION_THRESHOLD) xs →
  ∃ d, sampleTime x + SILENCE_DURATION_THRESHOLD ≤ d ∧
    recordingArmed r d (feedAll s (x :: xs)) ∧
    recorders (feedAll s (x :: xs)) = recorders s ∧
    audioClips (feedAll s (x :: xs)) = audioClips s.
Proof.
  intros Hq Hv Ht. simpl in Hv. apply andb_prop in Hv as [Hx Hxs].
  apply negb_true_iff in Hx.
  destruct (clip_feed_silent_quiet r s x Hq Hx) as (Ha & Hr' & Hc').
  set (d := Z.max (now s) (sampleTime x) + SILENCE_DURATION_THRESHOLD) in *.
  assert (Hd : sampleTime x + SILENCE_DURATION_THRESHOLD ≤ d) by (unfold d; lia).
  exists d. split; [done|].
  destruct (clip_feedAll_silent_armed r d xs (feed s x) Ha Hxs) as (? & ? & ?).
  { eapply Forall_impl; [exact Ht|]. simpl. intros; lia. }
  simpl. split; [done|split; congruence].
Qed.

Lemma clip_feedAll_app s xs ys : feedAll s (xs ++ ys) = feedAll (feedAll s xs) ys.
Proof. apply fold_left_app. Qed.

(** A whole voiced region entered from the idle state: one recorder is
    created and it keeps recording. *)
Lemma clip_feedAll_voiced_ready s x xs :
  ready s → forallb voiced (x :: xs) = true →
  recordingQuiet (length (recorders s)) (feedAll s (x :: xs)) ∧
  length (recorders (feedAll s (x :: xs))) = S (length (recorders s)) ∧
  audioClips (feedAll s (x :: xs)) = audioClips s.
Proof.
  intros Hs Hv. simpl in Hv. apply andb_prop in Hv as [Hx Hxs].
  destruct (clip_feed_voiced_ready s x Hs Hx) as (Hq & Hl & Hc).
  destruct (clip_feedAll_voiced_quiet _ xs (feed s x) Hq Hxs) as (? & Hr & ?).
  simpl. split; [done|]. split; [by rewrite Hr|congruence].
Qed.

(** Recording goes on after every prefix of a short silent run. *)
Lemma clip_silent_prefix_records r x sil s k :
  recordingQuiet r s →
  forallb (λ y, negb (voiced y)) (x :: sil) = true →
  Forall (λ y, sampleTime y < sampleTime x + SILENCE_DURATION_THRESHOLD) sil →
  isRecordingAt (recorders (feedAll s (take k (x :: sil)))) r = true.
Proof.
  intros Hq Hv Ht. destruct k as [|k]; simpl take.
  - simpl. by destruct Hq as (_ & _ & ? & _).
  - destruct (clip_feedAll_silent_run r x (take k sil) s Hq) as (d & _ & Ha & _).
    + simpl in *. apply andb_prop in Hv as [Hx Hxs]. rewrite Hx. simpl.
      rewrite forallb_forall in *. intros y Hy. apply Hxs.
      apply list_elem_of_In. apply list_elem_of_In in Hy.
      by apply (subseteq_take k sil).
    + by apply Forall_take.
    + by destruct Ha as (_ & _ & ? & _).
Qed.

End ClipDetectorDebounce.


(** * [ClipDetector] never has two sessions *)

Section ClipDetectorSessions.
Import Media ClipDetector.

Lemma clip_sessionInv_frame s s' :
  recorders s' = recorders s → isRecordingRef s' = isRecordingRef s →
  sessionInv s → sessionInv s'.
Proof. unfold sessionInv. by intros -> ->. Qed.

Lemma clip_stopRecording_inv s : sessionInv s → sessionInv (stopRecording s).
Proof.
  intros [Hle Hdown]. unfold stopRecording.
  destruct (mediaRecorderRef s) as [r|]; [|done].
  destruct (isRecordingAt (recorders s) r) eqn:Hrec; [|done].
  destruct (media_stop_counts r (recorders s) Hrec) as [Ha Hq].
  unfold sessionInv. simpl. split; [lia|].
  intros Hflag. specialize (Hdown Hflag). lia.
Qed.

Lemma clip_startRecording_inv s :
  isRecordingRef s = false → sessionInv s → sessionInv (startRecording s).
Proof.
  intros Hflag [Hle Hdown]. specialize (Hdown Hflag). unfold startRecording.
  destruct (streamRef s); [|done].
  destruct (currentIsRecording s); [done|].
  destruct (opusSupported s); simpl; [|done].
  destruct (media_create_counts (now s) (recorders s)) as [Ha Hq].
  unfold sessionInv. simpl in *. split; [lia|done].
Qed.

Lemma clip_handleVoiceProbability_inv p s :
  sessionInv s → sessionInv (handleVoiceProbability p s).
Proof.
  intros Hinv. unfold handleVoiceProbability.
  destruct (Qle_bool _ _).
  - unfold handleVoiceDetected.
    set (s1 := match silenceTimeoutRef s with Some _ => _ | None => s end).
    assert (H1 : sessionInv s1).
    { unfold s1. destruct (silenceTimeoutRef s); [|done].
      revert Hinv. by apply clip_sessionInv_frame. }
    destruct (isRecordingRef s1) eqn:Hflag; simpl; [done|].
    destruct (isListeningRef s1); simpl; [|done].
    destruct (bool_decide _); [|done].
    by apply clip_startRecording_inv.
  - unfold handleSilenceDetected.
    destruct (silenceTimeoutRef s); [done|].
    destruct (isRecordingRef s); [|done].
    revert Hinv. by apply clip_sessionInv_frame.
Qed.

Lemma clip_fireDue_inv fuel t : ∀ s, sessionInv s → sessionInv (fireDue fuel t s).
Proof.
  induction fuel as [|fuel IH]; intros s Hinv; simpl; [done|].
  destruct (Timers.next_due t (timers s)) as [tm|]; [|done].
  apply IH. destruct (Timers.callback tm). simpl.
  apply (clip_sessionInv_frame (stopRecording
           (set_now (Z.max (now s) (Timers.due tm))
              (set_timers (Timers.clearTimeout (Timers.handle tm) (timers s)) s))));
    [done|done|].
  apply clip_stopRecording_inv. revert Hinv. by apply clip_sessionInv_frame.
Qed.

Lemma clip_dispatchStop_inv r s : sessionInv s → sessionInv (dispatchStop r s).
Proof.
  intros [Hle Hdown]. unfold dispatchStop.
  destruct (recorders s !! r) as [m|] eqn:Hm; [|done].
  destruct (stopQueued m) eqn:Hq; [|done].
  assert (Hhas : hasQueuedStop (recorders s) r = true)
    by (unfold hasQueuedStop; by rewrite Hm).
  destruct (media_dispatched_counts r (recorders s) Hhas) as [Ha Hc].
  unfold onstop, sessionInv.
  destruct (_ && _); simpl; split; intros; lia.
Qed.

Lemma clip_step_inv s e : sessionInv s → sessionInv (step s e).
Proof.
  intros Hinv. destruct e as [p|r d|r|t|i| | |]; simpl.
  - by apply clip_handleVoiceProbability_inv.
  - revert Hinv. apply clip_sessionInv_frame;
      unfold dispatchData, ondataavailable;
      destruct (_ || _); try done; by destruct (0 <? size d).
  - by apply clip_dispatchStop_inv.
  - unfold elapse.
    apply (clip_sessionInv_frame
             (fireDue (length (Timers.pending (timers s))) t s)); [done|done|].
    by apply clip_fireDue_inv.
  - revert Hinv. apply clip_sessionInv_frame; by destruct i.
  - revert Hinv. apply clip_sessionInv_frame; unfold startListening;
      destruct (cobraRef s); try done; by destruct (isInitialized s).
  - unfold stopListening. destruct (cobraRef s) as [c|]; [|done].
    destruct (isListeningRef s); [|done]. simpl.
    destruct (isRecordingRef s) eqn:Hflag.
    + set (s2 := stopRecording _).
      apply (clip_sessionInv_frame s2); [done|done|].
      apply clip_stopRecording_inv. revert Hinv. by apply clip_sessionInv_frame.
    + revert Hinv. apply clip_sessionInv_frame; simpl; done.
  - revert Hinv. apply clip_sessionInv_frame; unfold unmount;
      (destruct (cobraRef s) as [c|] eqn:Hc; simpl;
       [destruct (isListeningRef s); simpl|];
       destruct (streamRef s); simpl; rewrite ?Hc; done).
Qed.

Lemma clip_run_inv es : ∀ s, sessionInv s → sessionInv (run s es).
Proof.
  induction es as [|e es IH]; intros s Hinv; [done|].
  simpl. apply IH. by apply clip_step_inv.
Qed.

(** From the initial state, whatever the events, at most one recorder
    is recording. *)
Lemma clip_at_most_one_session t opus es :
  (activeCount (recorders (run (initial t opus) es)) ≤ 1)%nat.
Proof.
  assert (H0 : sessionInv (initial t opus)) by (split; [simpl|intros _]; reflexivity || (vm_compute; lia)).
  destruct (clip_run_inv es _ H0) as [Hle _]. lia.
Qed.

End ClipDetectorSessions.


(** * The promise chain of [QueuedStt] *)

Section QueuedSttChain.
Import Media Sarvam QueuedStt.

Lemma queued_pump_clips b q : map clip (pump b q).1 = map clip q.
Proof.
  induction q as [|j q IH]; [done|]. simpl.
  destruct (phase j) eqn:Hp; simpl; try done.
  - destruct b; simpl; [done|].
    destruct (pump false q) as [q'' began]. simpl in *. by rewrite IH.
  - destruct (pump b q) as [q'' began]. simpl in *. by rewrite IH.
Qed.

Lemma queued_waiting_forallb ws :
  forallb (λ j', isWaiting (phase j')) ws = true ↔
  Forall (λ j', phase j' = waiting) ws.
Proof.
  induction ws as [|j ws IH]; simpl.
  - split; [constructor|done].
  - rewrite andb_true_iff, IH. split.
    + intros [Hj Hws]. constructor; [by destruct (phase j)|done].
    + intros H. inversion H as [|? ? Hj Hws]; subst. by rewrite Hj.
Qed.

Lemma queued_wellChained_split q :
  wellChained q = true ↔
  ∃ done rest, q = done ++ rest ∧
    Forall (λ j, isSettled (phase j) = true) done ∧
    (rest = [] ∨
     ∃ j ws, rest = j :: ws ∧ isRunning (phase j) = true ∧
             Forall (λ j', phase j' = waiting) ws).
Proof.
  induction q as [|j q IH]; simpl.
  - split; [|done]. intros _. exists [], []. by repeat split; auto.
  - assert (Hhead : ∀ P : Prop, isSettled (phase j) = false →
      (P ↔ isRunning (phase j) = true ∧ Forall (λ j', phase j' = waiting) q) →
      (P ↔ ∃ done rest, j :: q = done ++ rest ∧
          Forall (λ j, isSettled (phase j) = true) done ∧
          (rest = [] ∨
           ∃ j0 ws, rest = j0 :: ws ∧ isRunning (phase j0) = true ∧
                    Forall (λ j', phase j' = waiting) ws))).
    { intros P Hns HP. rewrite HP. split.
      - intros [Hrun Hws]. exists [], (j :: q). repeat split; [constructor|].
        right. by exists j, q.
      - intros (done & rest & Hq & Hd & Hr).
        destruct done as [|d done]; simpl in Hq.
        + destruct Hr as [->|(j0 & ws & -> & Hrun & Hws)]; [done|].
          by injection Hq as -> ->.
        + injection Hq as -> ->. inversion Hd; subst. congruence. }
    destruct (phase j) eqn:Hp.
    + apply Hhead; [done|]. split; [done|]. by intros [? _].
    + apply Hhead; [done|]. rewrite queued_waiting_forallb. by split; [|intros [_ ?]].
    + apply Hhead; [done|]. rewrite queued_waiting_forallb. by split; [|intros [_ ?]].
    + rewrite IH. split.
      * intros (done & rest & -> & Hd & Hr).
        exists (j :: done), rest. repeat split; [|done].
        constructor; [by rewrite Hp|done].
      * intros (done & rest & Hq & Hd & Hr).
        destruct done as [|d done]; simpl in Hq.
        -- destruct Hr as [->|(j0 & ws & -> & Hrun & Hws)]; [done|].
           injection Hq as -> ->. by rewrite Hp in Hrun.
        -- injection Hq as -> ->. inversion Hd; subst.
           by exists done, rest.
Qed.

Lemma queued_wellChained_pre q : wellChained q = true → preChained q.
Proof.
  rewrite queued_wellChained_split. intros (done & rest & -> & Hd & Hr).
  exists done, rest. repeat split; [done|].
  destruct Hr as [->|?]; [by right|by left].
Qed.

Lemma queued_pump_waiting b ws :
  Forall (λ j', phase j' = waiting) ws →
  wellChained (pump b ws).1 = true ∧ mergedResponses (pump b ws).1 = [].
Proof.
  induction 1 as [|j ws Hj Hws IH]; [done|]. simpl. rewrite Hj.
  destruct b; simpl.
  - split.
    + by apply queued_waiting_forallb.
    + unfold mergedResponses. simpl.
      clear IH. induction Hws as [|j' ws' Hj' _ IH']; [done|].
      simpl. unfold mergedOf at 1. by rewrite Hj'.
  - destruct (pump false ws) as [q'' began]. simpl in *. done.
Qed.

Lemma queued_merged_waiting ws :
  Forall (λ j', phase j' = waiting) ws → mergedResponses ws = [].
Proof.
  induction 1 as [|j ws Hj _ IH]; [done|].
  unfold mergedResponses in *. simpl. unfold mergedOf at 1. by rewrite Hj.
Qed.

Lemma queued_merged_app q1 q2 :
  mergedResponses (q1 ++ q2) = mergedResponses q1 ++ mergedResponses q2.
Proof. unfold mergedResponses. apply omap_app. Qed.

Lemma queued_pump_settled b done rest :
  Forall (λ j, isSettled (phase j) = true) done →
  (pump b (done ++ rest)).1 = done ++ (pump b rest).1.
Proof.
  induction 1 as [|j done Hj _ IH]; [done|]. simpl.
  destruct (phase j); try done.
  destruct (pump b (done ++ rest)) as [q1 b1].
  destruct (pump b rest) as [q2 b2]. simpl in *. by rewrite IH.
Qed.

Lemma queued_wellChained_app done rest :
  Forall (λ j, isSettled (phase j) = true) done →
  wellChained (done ++ rest) = wellChained rest.
Proof.
  induction 1 as [|j done Hj _ IH]; [done|]. simpl.
  by destruct (phase j).
Qed.

(** Running the chain restores its shape and merges nothing. *)
Lemma queued_pump_chained b q :
  preChained q →
  wellChained (pump b q).1 = true ∧
  mergedResponses (pump b q).1 = mergedResponses q.
Proof.
  intros (done & rest & -> & Hd & Hr).
  rewrite queued_pump_settled by done.
  rewrite queued_wellChained_app by done.
  rewrite !queued_merged_app.
  destruct Hr as [(j & ws & -> & Hrun & Hws)|Hws].
  - simpl. destruct (phase j) eqn:Hp; try done; simpl; rewrite Hp; split; try done.
    + by apply queued_waiting_forallb.
    + by apply queued_waiting_forallb.
  - destruct (queued_pump_waiting b rest Hws) as [H1 H2].
    split; [done|]. by rewrite H2, (queued_merged_waiting rest Hws).
Qed.

Lemma queued_append_pre q (c : Blob) :
  wellChained q = true → preChained (q ++ [mkJob c waiting]).
Proof.
  rewrite queued_wellChained_split. intros (done & rest & -> & Hd & Hr).
  exists done, (rest ++ [mkJob c waiting]). rewrite <- app_assoc.
  repeat split; [done|].
  destruct Hr as [->|(j & ws & -> & Hrun & Hws)].
  - right. by repeat constructor.
  - left. exists j, (ws ++ [mkJob c waiting]). repeat split; [done|].
    apply Forall_app. split; [done|]. by repeat constructor.
Qed.

(** The running link, located. *)
Lemma queued_running_located q k j :
  wellChained q = true → q !! k = Some j → isRunning (phase j) = true →
  ∃ done ws, q = done ++ j :: ws ∧ length done = k ∧
    Forall (λ j, isSettled (phase j) = true) done ∧
    Forall (λ j', phase j' = waiting) ws.
Proof.
  rewrite queued_wellChained_split.
  intros (done & rest & -> & Hd & Hr) Hk Hrun.
  destruct (decide (k < length done)%nat) as [Hlt|Hge].
  - rewrite lookup_app_l in Hk by done.
    rewrite Forall_forall in Hd. apply list_elem_of_lookup_2 in Hk.
    specialize (Hd j Hk). by destruct (phase j).
  - rewrite lookup_app_r in Hk by lia.
    destruct Hr as [->|(j' & ws & -> & Hrun' & Hws)]; [done|].
    destruct (k - length done)%nat as [|n] eqn:Hn.
    + simpl in Hk. injection Hk as ->. exists done, ws. repeat split; try done. lia.
    + simpl in Hk. rewrite Forall_forall in Hws.
      apply list_elem_of_lookup_2 in Hk. rewrite (Hws j Hk) in Hrun. done.
Qed.

Lemma queued_insert_located (done ws : list Job) j j' :
  <[length done := j']> (done ++ j :: ws) = done ++ j' :: ws.
Proof.
  rewrite insert_app_r_alt by lia. by rewrite Nat.sub_diag.
Qed.

Lemma queued_merged_settle (done ws : list Job) j m :
  isRunning (phase j) = true →
  Forall (λ j', phase j' = waiting) ws →
  mergedResponses (done ++ mkJob (clip j) (settled m) :: ws)
  = mergedResponses (done ++ j :: ws) ++ option_list m.
Proof.
  intros Hrun Hws. rewrite !queued_merged_app.
  change (mkJob (clip j) (settled m) :: ws) with ([mkJob (clip j) (settled m)] ++ ws).
  change (j :: ws) with ([j] ++ ws).
  rewrite !queued_merged_app, (queued_merged_waiting ws Hws), !app_nil_r.
  unfold mergedResponses at 2 4. simpl. unfold mergedOf. simpl.
  destruct (phase j); try done; destruct m; simpl; by rewrite ?app_nil_r.
Qed.

Lemma queued_mergeAll_snoc ds d :
  mergeAll (ds ++ [d]) = Some (appendTranscript (mergeAll ds) d).
Proof. unfold mergeAll. by rewrite fold_left_app. Qed.

Lemma queued_runQueue_inv s :
  preChained (processingQueueRef s) →
  transcription s = mergeAll (mergedResponses (processingQueueRef s)) →
  chainInv (runQueue s).
Proof.
  intros Hpre Ht. unfold runQueue, chainInv.
  destruct (queued_pump_chained (bool_decide (is_Some (audioContextRef s)))
              (processingQueueRef s) Hpre) as [Hw Hm].
  destruct (pump _ _) as [q began]. simpl in *. by rewrite Hm.
Qed.

Lemma queued_processAndSendAudio_inv c s :
  chainInv s → chainInv (processAndSendAudio c s).
Proof.
  intros [Hw Ht]. unfold processAndSendAudio.
  apply queued_runQueue_inv; simpl.
  - by apply queued_append_pre.
  - rewrite queued_merged_app. unfold mergedResponses at 2. simpl.
    by rewrite app_nil_r.
Qed.

(** Settling the running link [k]: the chain goes on, and the transcript
    gains the response merged, if any. *)
Lemma queued_settleJob_inv k j m s tr :
  wellChained (processingQueueRef s) = true →
  processingQueueRef s !! k = Some j → isRunning (phase j) = true →
  transcription s = tr →
  tr = mergeAll (mergedResponses (processingQueueRef s) ++ option_list m) →
  chainInv (settleJob k m s).
Proof.
  intros Hw Hk Hrun Ht Hm. unfold settleJob. rewrite Hk.
  destruct (queued_running_located _ _ _ Hw Hk Hrun)
    as (done & ws & Hq & Hlen & Hd & Hws).
  apply queued_runQueue_inv; simpl; rewrite Hq, <- Hlen, queued_insert_located.
  - exists (done ++ [mkJob (clip j) (settled m)]), ws.
    rewrite <- app_assoc. repeat split.
    + apply Forall_app. split; [done|]. by repeat constructor.
    + by right.
  - rewrite queued_merged_settle by done. rewrite <- Hq. congruence.
Qed.

Lemma queued_transcriptionFailed_inv k j err s :
  chainInv s →
  processingQueueRef s !! k = Some j → isRunning (phase j) = true →
  chainInv (transcriptionFailed k err s).
Proof.
  intros [Hw Ht] Hk Hrun. unfold transcriptionFailed.
  eapply queued_settleJob_inv; simpl; try done.
  by rewrite app_nil_r.
Qed.

Lemma queued_decoded_inv k f s : chainInv s → chainInv (decoded k f s).
Proof.
  intros Hinv. unfold decoded.
  destruct (processingQueueRef s !! k) as [j|] eqn:Hk; [|done].
  destruct (phase j) eqn:Hp; try done.
  destruct f as [err|].
  - eapply queued_transcriptionFailed_inv; try done. by rewrite Hp.
  - destruct Hinv as [Hw Ht].
    destruct (queued_running_located _ k j Hw Hk) as (done & ws & Hq & Hlen & Hd & Hws);
      [by rewrite Hp|].
    unfold chainInv. simpl. rewrite Hq, <- Hlen, queued_insert_located.
    split.
    + rewrite queued_wellChained_app by done. simpl.
      by apply queued_waiting_forallb.
    + rewrite Ht, Hq, !queued_merged_app. f_equal. f_equal.
      unfold mergedResponses. simpl. unfold mergedOf. simpl. by rewrite Hp.
Qed.

Lemma queued_responded_inv k r s : chainInv s → chainInv (responded k r s).
Proof.
  intros Hinv. unfold responded.
  destruct (processingQueueRef s !! k) as [j|] eqn:Hk; [|done].
  destruct (phase j) eqn:Hp; try done.
  assert (Hrun : isRunning (phase j) = true) by by rewrite Hp.
  destruct r as [err|status txt|err|data].
  - exact (queued_transcriptionFailed_inv k j _ s Hinv Hk Hrun).
  - exact (queued_transcriptionFailed_inv k j _ s Hinv Hk Hrun).
  - exact (queued_transcriptionFailed_inv k j _ s Hinv Hk Hrun).
  - destruct Hinv as [Hw Ht].
    apply (queued_settleJob_inv k j (Some data) _
             (Some (appendTranscript (transcription s) data))); simpl; try done.
    by rewrite queued_mergeAll_snoc, Ht.
Qed.

(** The handlers of the recording side leave the chain and the
    transcript alone, but for the stop handler, which may chain a clip. *)
Lemma queued_stopRecording_view s : dispatcherView (stopRecording s) = dispatcherView s.
Proof.
  unfold stopRecording.
  destruct (mediaRecorderRef s) as [r|]; simpl.
  - destruct (isRecordingAt (recorders s) r); simpl;
      by destruct (recordingTimeoutRef s).
  - by destruct (recordingTimeoutRef s).
Qed.

Lemma queued_runCallback_view c s : dispatcherView (runCallback c s) = dispatcherView s.
Proof.
  destruct c as [|r]; simpl.
  - change (dispatcherView (stopRecording s) = dispatcherView s).
    apply queued_stopRecording_view.
  - destruct (isRecordingAt (recorders s) r); [|done].
    apply queued_stopRecording_view.
Qed.

Lemma queued_fireDue_view fuel t s : dispatcherView (fireDue fuel t s) = dispatcherView s.
Proof.
  revert s. induction fuel as [|fuel IH]; intros s; simpl; [done|].
  destruct (Timers.next_due t (timers s)) as [tm|]; [|done].
  by rewrite IH, queued_runCallback_view.
Qed.

Lemma queued_elapse_view t s : dispatcherView (elapse t s) = dispatcherView s.
Proof.
  unfold elapse.
  by rewrite <- (queued_fireDue_view (length (Timers.pending (timers s))) t s).
Qed.

Lemma queued_handleVoiceProbability_view p s :
  dispatcherView (handleVoiceProbability p s) = dispatcherView s.
Proof.
  unfold handleVoiceProbability.
  destruct (Qle_bool _ _).
  - unfold handleVoiceDetected.
    destruct (silenceTimeoutRef s) as [h|]; simpl;
      match goal with |- context [if ?b then _ else _] => destruct b end;
      try done; unfold startRecording; simpl;
      destruct (streamRef s); try done;
      match goal with |- context [if ?b then _ else _] => destruct b end; done.
  - unfold handleSilenceDetected.
    destruct (silenceTimeoutRef s); [done|].
    by destruct (isRecordingRef s).
Qed.

Lemma queued_chainInv_view s s' :
  dispatcherView s' = dispatcherView s → chainInv s → chainInv s'.
Proof.
  unfold dispatcherView, chainInv. intros H. by injection H as -> ->.
Qed.

Lemma queued_onstop_inv s : chainInv s → chainInv (onstop s).
Proof.
  intros Hinv. unfold onstop.
  destruct (_ && _).
  - apply (queued_processAndSendAudio_inv (newBlob (chunksRef s))) in Hinv.
    revert Hinv. by apply queued_chainInv_view.
  - revert Hinv. by apply queued_chainInv_view.
Qed.

Lemma queued_step_inv s e : chainInv s → chainInv (step s e).
Proof.
  intros Hinv. destruct e as [p|r d|r|t|k f|k r|i| | |]; simpl.
  - revert Hinv. apply queued_chainInv_view, queued_handleVoiceProbability_view.
  - revert Hinv. apply queued_chainInv_view.
    unfold dispatchData, ondataavailable.
    destruct (_ || _); [|done]. by destruct (0 <? size d).
  - unfold dispatchStop. destruct (recorders s !! r) as [m|]; [|done].
    destruct (stopQueued m); [|done].
    apply queued_onstop_inv. revert Hinv. by apply queued_chainInv_view.
  - revert Hinv. apply queued_chainInv_view, queued_elapse_view.
  - by apply queued_decoded_inv.
  - by apply queued_responded_inv.
  - revert Hinv. apply queued_chainInv_view. by destruct i.
  - revert Hinv. apply queued_chainInv_view.
    unfold startListening. destruct (cobraRef s); [|done]. by destruct (isInitialized s).
  - revert Hinv. apply queued_chainInv_view.
    unfold stopListening. destruct (cobraRef s) as [c|]; [|done].
    destruct (isListeningRef s); [|done]. simpl.
    destruct (isRecordingRef s); [|done].
    change (dispatcherView (stopRecording (set_cobraRef (Some (Cobra false (released c))) s)) = dispatcherView s).
    by rewrite queued_stopRecording_view.
  - revert Hinv. apply queued_chainInv_view.
    unfold unmount.
    destruct (cobraRef s) as [c|] eqn:Hc; simpl.
    + destruct (isListeningRef s); simpl; destruct (streamRef s); simpl; rewrite ?Hc;
        simpl; by destruct (audioContextRef s).
    + destruct (streamRef s); simpl; rewrite ?Hc; simpl; by destruct (audioContextRef s).
Qed.

Lemma queued_run_inv es : ∀ s, chainInv s → chainInv (run s es).
Proof.
  induction es as [|e es IH]; intros s Hinv; [done|].
  simpl. apply IH. by apply queued_step_inv.
Qed.

Lemma queued_initial_inv t : chainInv (initial t).
Proof. done. Qed.

(** In a chain in shape, the links begin in order and at most one runs. *)
Lemma queued_wellChained_in_order q : wellChained q = true → startedInOrder q.
Proof.
  rewrite queued_wellChained_split.
  intros (done & rest & -> & Hd & Hr) i k ji jk Hik Hi Hk Hnw.
  destruct (decide (i < length done)%nat) as [Hlt|Hge].
  - rewrite lookup_app_l in Hi by done.
    rewrite Forall_forall in Hd. apply Hd. by eapply list_elem_of_lookup_2.
  - rewrite lookup_app_r in Hk by lia. rewrite lookup_app_r in Hi by lia.
    destruct Hr as [->|(j & ws & -> & Hrun & Hws)]; [done|].
    destruct (k - length done)%nat as [|n] eqn:Hn; [lia|].
    simpl in Hk. rewrite Forall_forall in Hws.
    apply list_elem_of_lookup_2 in Hk. rewrite (Hws jk Hk) in Hnw. done.
Qed.

Lemma queued_wellChained_one_running q :
  wellChained q = true → (runningCount q ≤ 1)%nat.
Proof.
  rewrite queued_wellChained_split.
  intros (done & rest & -> & Hd & Hr). unfold runningCount.
  rewrite List.filter_app, length_app.
  assert (H1 : length (List.filter (λ j, isRunning (phase j)) done) = 0%nat).
  { clear Hr. induction Hd as [|j done Hj _ IH]; [done|]. simpl.
    destruct (phase j); try done. }
  rewrite H1.
  destruct Hr as [->|(j & ws & -> & Hrun & Hws)]; [simpl; lia|].
  simpl. rewrite Hrun. simpl.
  assert (H2 : length (List.filter (λ j, isRunning (phase j)) ws) = 0%nat).
  { clear Hrun. induction Hws as [|j' ws Hj' _ IH]; [done|]. simpl.
    by rewrite Hj'. }
  lia.
Qed.

End QueuedSttChain.


(** * Properties of [QueuedStt] *)

Section QueuedSttFinalization.
Import Media Sarvam QueuedStt.

Lemma queued_runQueue_output s : queuedOutput (runQueue s) = queuedOutput s.
Proof.
  unfold runQueue.
  pose proof (queued_pump_clips (bool_decide (is_Some (audioContextRef s))) (processingQueueRef s)) as H.
  destruct (pump _ _) as [q began]. unfold queuedOutput, submitted. simpl in *.
  by rewrite H.
Qed.

Lemma queued_insert_clips k (j : Job) ph (q : list Job) :
  q !! k = Some j → map clip (<[k := mkJob (clip j) ph]> q) = map clip q.
Proof.
  intros H. rewrite list_fmap_insert. simpl.
  apply list_insert_id. by rewrite list_lookup_fmap, H.
Qed.

Lemma queued_settleJob_output k m s : queuedOutput (settleJob k m s) = queuedOutput s.
Proof.
  unfold settleJob. destruct (processingQueueRef s !! k) as [j|] eqn:Hk; [|done].
  rewrite queued_runQueue_output. unfold queuedOutput, submitted. simpl.
  by rewrite queued_insert_clips.
Qed.

Lemma queued_transcriptionFailed_output k err s :
  queuedOutput (transcriptionFailed k err s) = queuedOutput s.
Proof. unfold transcriptionFailed. by rewrite queued_settleJob_output. Qed.

Lemma queued_decoded_output k f s : queuedOutput (decoded k f s) = queuedOutput s.
Proof.
  unfold decoded. destruct (processingQueueRef s !! k) as [j|] eqn:Hk; [|done].
  destruct (phase j); try done.
  destruct f; [apply queued_transcriptionFailed_output|].
  unfold queuedOutput, submitted. simpl. by rewrite queued_insert_clips.
Qed.

Lemma queued_responded_output k r s : queuedOutput (responded k r s) = queuedOutput s.
Proof.
  unfold responded. destruct (processingQueueRef s !! k) as [j|] eqn:Hk; [|done].
  destruct (phase j); try done.
  destruct r as [err|status txt|err|data].
  - apply queued_transcriptionFailed_output.
  - apply queued_transcriptionFailed_output.
  - apply queued_transcriptionFailed_output.
  - by rewrite queued_settleJob_output.
Qed.

Lemma queued_stopRecording_output s : queuedOutput (stopRecording s) = queuedOutput s.
Proof.
  unfold stopRecording.
  destruct (mediaRecorderRef s) as [r|]; simpl.
  - destruct (isRecordingAt (recorders s) r); simpl;
      by destruct (recordingTimeoutRef s).
  - by destruct (recordingTimeoutRef s).
Qed.

Lemma queued_runCallback_output c s : queuedOutput (runCallback c s) = queuedOutput s.
Proof.
  destruct c as [|r]; simpl.
  - change (queuedOutput (stopRecording s) = queuedOutput s).
    apply queued_stopRecording_output.
  - destruct (isRecordingAt (recorders s) r); [|done].
    apply queued_stopRecording_output.
Qed.

Lemma queued_fireDue_output fuel t s : queuedOutput (fireDue fuel t s) = queuedOutput s.
Proof.
  revert s. induction fuel as [|fuel IH]; intros s; simpl; [done|].
  destruct (Timers.next_due t (timers s)) as [tm|]; [|done].
  by rewrite IH, queued_runCallback_output.
Qed.

Lemma queued_elapse_output t s : queuedOutput (elapse t s) = queuedOutput s.
Proof.
  unfold elapse.
  by rewrite <- (queued_fireDue_output (length (Timers.pending (timers s))) t s).
Qed.

Lemma queued_startRecording_empty s :
  chunksRef s = [] → queuedOutput (startRecording s) = queuedOutput s.
Proof.
  intros H. unfold startRecording.
  destruct (streamRef s); [|done].
  destruct (currentIsRecording s); [done|].
  unfold queuedOutput, submitted; simpl. by rewrite H.
Qed.

Lemma queued_handleVoiceProbability_empty p s :
  chunksRef s = [] →
  queuedOutput (handleVoiceProbability p s) = queuedOutput s.
Proof.
  intros H. unfold handleVoiceProbability.
  destruct (Qle_bool _ _).
  - unfold handleVoiceDetected.
    destruct (silenceTimeoutRef s) as [h|]; simpl;
      match goal with |- context [if ?b then _ else _] => destruct b end;
      try done; by rewrite queued_startRecording_empty.
  - unfold handleSilenceDetected.
    destruct (silenceTimeoutRef s); [done|].
    by destruct (isRecordingRef s).
Qed.

Lemma queued_onstop_empty s :
  chunksRef s = [] → queuedOutput (onstop s) = queuedOutput s.
Proof.
  intros H. unfold onstop. rewrite H. simpl.
  rewrite andb_false_r. unfold queuedOutput, submitted; simpl. by rewrite H.
Qed.

Lemma queued_dispatchStop_empty r s :
  chunksRef s = [] → queuedOutput (dispatchStop r s) = queuedOutput s.
Proof.
  intros H. unfold dispatchStop.
  destruct (recorders s !! r) as [m|]; [|done].
  destruct (stopQueued m); [|done].
  by rewrite queued_onstop_empty.
Qed.

Lemma queued_step_empty s e :
  chunksRef s = [] →
  (∀ r d, e = evData r d → size d = 0) →
  queuedOutput (step s e) = queuedOutput s.
Proof.
  intros H Hd. destruct e as [p|r d|r|t|k f|k r|i| | |]; simpl.
  - by apply queued_handleVoiceProbability_empty.
  - unfold dispatchData, ondataavailable. rewrite (Hd r d eq_refl). simpl.
    by destruct (_ || _).
  - by apply queued_dispatchStop_empty.
  - apply queued_elapse_output.
  - apply queued_decoded_output.
  - apply queued_responded_output.
  - by destruct i.
  - unfold startListening. destruct (cobraRef s); [|done]. by destruct (isInitialized s).
  - unfold stopListening. destruct (cobraRef s) as [c|]; [|done].
    destruct (isListeningRef s); [|done]. simpl.
    destruct (isRecordingRef s); [|done].
    change (queuedOutput (stopRecording (set_cobraRef (Some (Cobra false (released c))) s)) = queuedOutput s).
    by rewrite queued_stopRecording_output.
  - unfold unmount.
    destruct (cobraRef s) as [c|] eqn:Hc; simpl.
    + destruct (isListeningRef s); simpl; destruct (streamRef s); simpl; rewrite ?Hc;
        simpl; by destruct (audioContextRef s).
    + destruct (streamRef s); simpl; rewrite ?Hc; simpl; by destruct (audioContextRef s).
Qed.

Lemma queued_run_empty es : ∀ s,
  chunksRef s = [] →
  (∀ r d, In (evData r d) es → size d = 0) →
  queuedOutput (run s es) = queuedOutput s.
Proof.
  induction es as [|e es IH]; intros s H Hd; [done|].
  simpl.
  assert (Hs : queuedOutput (step s e) = queuedOutput s).
  { apply queued_step_empty; [done|]. intros r d ->. apply (Hd r d). by left. }
  change (queuedOutput (run (step s e) es) = queuedOutput s).
  rewrite IH; [done| |].
  - unfold queuedOutput in Hs. congruence.
  - intros r d Hin. apply (Hd r d). by right.
Qed.

End QueuedSttFinalization.


Section QueuedSttProgress.
Import Media Sarvam QueuedStt.

Lemma queued_runningIndex_located (done ws : list Job) j :
  Forall (λ j, isSettled (phase j) = true) done →
  isRunning (phase j) = true →
  runningIndex (done ++ j :: ws) = Some (length done).
Proof.
  intros Hd Hrun. induction Hd as [|d done Hdj _ IH]; simpl.
  - by rewrite Hrun.
  - destruct (phase d); try done. simpl. by rewrite IH.
Qed.

Lemma queued_unsettled_settled done :
  Forall (λ j, isSettled (phase j) = true) done → unsettledCount done = 0%nat.
Proof.
  unfold unsettledCount.
  induction 1 as [|d done Hdj _ IH]; [done|]. simpl. by rewrite Hdj.
Qed.

Lemma queued_unsettled_app q1 q2 :
  unsettledCount (q1 ++ q2) = (unsettledCount q1 + unsettledCount q2)%nat.
Proof. unfold unsettledCount. by rewrite List.filter_app, length_app. Qed.

Lemma queued_unsettled_waiting ws :
  Forall (λ j', phase j' = waiting) ws → unsettledCount ws = length ws.
Proof.
  unfold unsettledCount.
  induction 1 as [|d ws Hd _ IH]; [done|]. simpl. rewrite Hd. simpl. by rewrite IH.
Qed.

Lemma queued_pump_true_waiting ws :
  Forall (λ j', phase j' = waiting) ws →
  unsettledCount (pump true ws).1 = length ws.
Proof.
  intros Hws. destruct Hws as [|d ws Hd Hws]; [done|]. simpl. rewrite Hd. simpl.
  unfold unsettledCount. simpl. f_equal.
  by apply queued_unsettled_waiting.
Qed.

(** The queue after the running link [j], at index [length done], has
    settled with [m]. *)
Lemma queued_settleJob_located (done ws : list Job) j m s :
  processingQueueRef s = done ++ j :: ws →
  Forall (λ j, isSettled (phase j) = true) done →
  is_Some (audioContextRef s) →
  processingQueueRef (settleJob (length done) m s)
  = done ++ mkJob (clip j) (settled m) :: (pump true ws).1.
Proof.
  intros Hq Hd Hctx. unfold settleJob.
  rewrite Hq, lookup_app_r, Nat.sub_diag by lia. simpl.
  unfold runQueue. simpl. rewrite queued_insert_located.
  rewrite bool_decide_eq_true_2 by done.
  pose proof (queued_pump_settled true (done ++ [mkJob (clip j) (settled m)]) ws) as Hp.
  rewrite <- !app_assoc in Hp. simpl in Hp.
  destruct (pump true (done ++ mkJob (clip j) (settled m) :: ws)) as [q began].
  simpl in *. apply Hp.
  apply Forall_app. split; [done|]. by repeat constructor.
Qed.

(** Settling a link touches the chain and the processing flag only. *)
Lemma queued_settleJob_frame k m s :
  error (settleJob k m s) = error s ∧
  transcription (settleJob k m s) = transcription s ∧
  recordingView (settleJob k m s) = recordingView s.
Proof.
  unfold settleJob. destruct (processingQueueRef s !! k); [|done].
  unfold runQueue. simpl. destruct (pump _ _).
  unfold recordingView. simpl. repeat split; reflexivity.
Qed.

Lemma queued_settleJob_context k m s :
  audioContextRef (settleJob k m s) = audioContextRef s.
Proof.
  unfold settleJob. destruct (processingQueueRef s !! k); [|done].
  unfold runQueue. simpl. by destruct (pump _ _).
Qed.

Lemma queued_decoded_context k f s :
  audioContextRef (decoded k f s) = audioContextRef s.
Proof.
  unfold decoded. destruct (processingQueueRef s !! k) as [j|]; [|done].
  destruct (phase j); try done. destruct f; [|done].
  unfold transcriptionFailed. by rewrite queued_settleJob_context.
Qed.

Lemma queued_responded_context k r s :
  audioContextRef (responded k r s) = audioContextRef s.
Proof.
  unfold responded. destruct (processingQueueRef s !! k) as [j|]; [|done].
  destruct (phase j); try done.
  destruct r; unfold transcriptionFailed; by rewrite queued_settleJob_context.
Qed.

Lemma queued_answer_context s o : audioContextRef (answer s o) = audioContextRef s.
Proof.
  unfold answer. destruct (runningIndex _); [|done].
  destruct o; by rewrite queued_responded_context, queued_decoded_context.
Qed.

(** Answering the running link settles it with what the outcome
    merged, and starts the link after it. *)
Lemma queued_answer_located (done ws : list Job) j o s :
  processingQueueRef s = done ++ j :: ws →
  Forall (λ j, isSettled (phase j) = true) done →
  isRunning (phase j) = true →
  is_Some (audioContextRef s) →
  processingQueueRef (answer s o)
  = done ++ mkJob (clip j) (settled (succeeded o)) :: (pump true ws).1.
Proof.
  intros Hq Hd Hrun Hctx. unfold answer.
  rewrite Hq, queued_runningIndex_located by done.
  assert (Hk : processingQueueRef s !! length done = Some j).
  { by rewrite Hq, lookup_app_r, Nat.sub_diag by lia. }
  destruct (phase j) eqn:Hp; try done.
  - (* decoding *)
    destruct o as [err|r].
    + unfold decoded at 1. rewrite Hk, Hp. unfold transcriptionFailed.
      set (s1 := set_isProcessing _ _).
      assert (Hq1 : processingQueueRef s1 = done ++ j :: ws) by done.
      pose proof (queued_settleJob_located done ws j None s1 Hq1 Hd Hctx) as Hs.
      unfold responded. rewrite Hs, lookup_app_r, Nat.sub_diag by lia. simpl.
      done.
    + unfold decoded at 1. rewrite Hk, Hp.
      set (s1 := set_processingQueueRef _ _).
      assert (Hq1 : processingQueueRef s1 = done ++ mkJob (clip j) fetching :: ws).
      { unfold s1. simpl. by rewrite Hq, queued_insert_located. }
      unfold responded. rewrite Hq1, lookup_app_r, Nat.sub_diag by lia. simpl.
      destruct r as [err|st txt|err|data]; unfold transcriptionFailed;
        by rewrite (queued_settleJob_located done ws (mkJob (clip j) fetching)).
  - (* fetching *)
    assert (Hdec : ∀ f, decoded (length done) f s = s).
    { intros f. unfold decoded. by rewrite Hk, Hp. }
    destruct o as [err|r]; rewrite Hdec; unfold responded; rewrite Hk, Hp.
    + unfold transcriptionFailed.
      by rewrite (queued_settleJob_located done ws j).
    + destruct r as [err|st txt|err|data]; unfold transcriptionFailed;
        by rewrite (queued_settleJob_located done ws j).
Qed.

Lemma queued_answer_inv s o : chainInv s → chainInv (answer s o).
Proof.
  intros Hinv. unfold answer. destruct (runningIndex _); [|done].
  destruct o; by apply queued_responded_inv, queued_decoded_inv.
Qed.

(** One answer settles one link, as long as one is left. *)
Lemma queued_answer_progress s o :
  chainInv s → is_Some (audioContextRef s) →
  (0 < unsettledCount (processingQueueRef s))%nat →
  unsettledCount (processingQueueRef (answer s o))
  = pred (unsettledCount (processingQueueRef s)) ∧
  mergedResponses (processingQueueRef (answer s o))
  = mergedResponses (processingQueueRef s) ++ option_list (succeeded o).
Proof.
  intros [Hw _] Hctx Hpos.
  apply queued_wellChained_split in Hw as (done & rest & Hq & Hd & Hr).
  destruct Hr as [->|(j & ws & -> & Hrun & Hws)].
  - rewrite Hq, app_nil_r, queued_unsettled_settled in Hpos by done. lia.
  - rewrite (queued_answer_located done ws j o s Hq Hd Hrun Hctx), Hq.
    split.
    + rewrite !queued_unsettled_app. rewrite queued_unsettled_settled by done.
      change (mkJob (clip j) (settled (succeeded o)) :: (pump true ws).1)
        with ([mkJob (clip j) (settled (succeeded o))] ++ (pump true ws).1).
      change (j :: ws) with ([j] ++ ws).
      rewrite !queued_unsettled_app, (queued_pump_true_waiting ws) by done.
      rewrite (queued_unsettled_waiting ws) by done.
      unfold unsettledCount. simpl. by destruct (phase j).
    + destruct (queued_pump_waiting true ws Hws) as [_ Hm].
      rewrite !queued_merged_app.
      change (mkJob (clip j) (settled (succeeded o)) :: (pump true ws).1)
        with ([mkJob (clip j) (settled (succeeded o))] ++ (pump true ws).1).
      change (j :: ws) with ([j] ++ ws).
      rewrite !queued_merged_app, Hm, (queued_merged_waiting ws Hws), !app_nil_r.
      rewrite <- app_assoc. f_equal.
      unfold mergedResponses. simpl. unfold mergedOf. simpl.
      destruct (phase j); try done; by destruct (succeeded o).
Qed.

(** Answering as many times as there are links left settles them all;
    the transcript gains the successful responses in the order of the
    chain, whatever the failures among them. *)
Lemma queued_answers_drain os : ∀ s,
  chainInv s → is_Some (audioContextRef s) →
  length os = unsettledCount (processingQueueRef s) →
  let s' := fold_left answer os s in
  unsettledCount (processingQueueRef s') = 0%nat ∧
  mergedResponses (processingQueueRef s')
  = mergedResponses (processingQueueRef s) ++ omap succeeded os ∧
  chainInv s'.
Proof.
  induction os as [|o os IH]; intros s Hinv Hctx Hlen; simpl in *.
  - by rewrite app_nil_r.
  - destruct (queued_answer_progress s o Hinv Hctx) as [Hu Hm]; [lia|].
    destruct (IH (answer s o)) as (H1 & H2 & H3).
    + by apply queued_answer_inv.
    + by rewrite queued_answer_context.
    + lia.
    + split; [done|]. split; [|done].
      rewrite H2, Hm, <- app_assoc. f_equal.
      by destruct (succeeded o).
Qed.

End QueuedSttProgress.


(** * Recording in [QueuedStt]: the maximum duration *)

Section QueuedSttMaximum.
Import Media Sarvam QueuedStt.

Lemma queued_advanceTo_before t s h d c :
  Timers.pending (timers s) = [Timers.Timer h d c] → t < d →
  advanceTo t s = set_now (Z.max (now s) t) s.
Proof.
  intros H Ht. unfold advanceTo. rewrite H. simpl.
  assert (Hn : Timers.next_due t (timers s) = None).
  { destruct (timers s) as [p n]. simpl in H. subst p.
    by apply timers_next_due_later. }
  rewrite Hn. unfold elapse. rewrite H. simpl. by rewrite Hn.
Qed.

(** Voiced samples before the deadline move the clock and nothing else. *)
Lemma queued_feed_voiced_running r t0 s x :
  sessionRunning r t0 s → voiced x = true →
  sampleTime x < t0 + MAX_RECORDING_DURATION →
  feed s x = set_now (Z.max (now s) (sampleTime x)) s.
Proof.
  intros (Hr & Hm & Ha & Hst & Hs & h & Hh & Hp) Hv Ht.
  unfold feed. rewrite (queued_advanceTo_before _ _ _ _ _ Hp) by done.
  unfold handleVoiceProbability. unfold voiced in Hv. rewrite Hv.
  unfold handleVoiceDetected. simpl. rewrite Hs. simpl. by rewrite Hr.
Qed.

Lemma queued_feedAll_voiced_running r t0 xs : ∀ s,
  sessionRunning r t0 s → forallb voiced xs = true →
  Forall (λ x, sampleTime x < t0 + MAX_RECORDING_DURATION) xs →
  now s < t0 + MAX_RECORDING_DURATION →
  sessionRunning r t0 (feedAll s xs) ∧
  now (feedAll s xs) < t0 + MAX_RECORDING_DURATION ∧
  recorders (feedAll s xs) = recorders s ∧
  chunksRef (feedAll s xs) = chunksRef s ∧
  processingQueueRef (feedAll s xs) = processingQueueRef s.
Proof.
  induction xs as [|x xs IH]; intros s Hs Hv Ht Hnow; [simpl; auto|].
  simpl in Hv. apply andb_prop in Hv as [Hx Hxs].
  inversion Ht as [|? ? Htx Htxs]; subst.
  simpl. rewrite (queued_feed_voiced_running r t0 s x Hs Hx Htx).
  destruct (IH (set_now (Z.max (now s) (sampleTime x)) s)) as (? & ? & ? & ? & ?);
    try done.
  simpl. lia.
Qed.

(** When the deadline passes, the timer stops the recorder. *)
Lemma queued_elapse_maximum r t0 s t :
  sessionRunning r t0 s → t0 + MAX_RECORDING_DURATION ≤ t →
  elapse t s =
  set_now (Z.max (Z.max (now s) (t0 + MAX_RECORDING_DURATION)) t)
    (set_recordingTimeoutRef None
       (set_timers (Timers.Table [] (Timers.next_handle (timers s)))
          (set_recorders (stop r (recorders s)) s))).
Proof.
  intros (Hr & Hm & Ha & Hst & Hs & h & Hh & Hp) Ht.
  unfold elapse. rewrite Hp. simpl.
  assert (Hn : Timers.next_due t (timers s)
               = Some (Timers.Timer h (t0 + MAX_RECORDING_DURATION) (maxDurationElapsed r))).
  { destruct (timers s) as [p n]. simpl in Hp. subst p.
    by apply timers_next_due_single. }
  rewrite Hn. simpl. rewrite Ha.
  unfold stopRecording. simpl. rewrite Hm, Ha. simpl. rewrite Hh.
  unfold Timers.clearTimeout. simpl. rewrite Hp. simpl.
  rewrite Nat.eqb_refl. simpl. done.
Qed.

Lemma queued_stop_lookup r (hp : list (MediaRecorder unit)) :
  isRecordingAt hp r = true →
  stop r hp !! r = Some (Recorder unit inactive true tt).
Proof.
  unfold isRecordingAt, stop. destruct (hp !! r) as [m|] eqn:Hm; [|done].
  intros _. rewrite list_lookup_insert_eq; [by destruct (closure m)|].
  by eapply lookup_lt_Some.
Qed.

Lemma queued_submitted_processAndSendAudio c s :
  submitted (processAndSendAudio c s) = submitted s ++ [c].
Proof.
  unfold processAndSendAudio, runQueue, submitted. simpl.
  pose proof (queued_pump_clips (bool_decide (is_Some (audioContextRef s)))
                (processingQueueRef s ++ [mkJob c waiting])) as H.
  destruct (pump _ _) as [q began]. simpl in *.
  by rewrite H, map_app.
Qed.

End QueuedSttMaximum.


(** * [QueuedStt] never has two sessions *)

Section QueuedSttSessions.
Import Media Sarvam QueuedStt.

Lemma queued_sessionInv_frame s s' :
  recorders s' = recorders s → isRecordingRef s' = isRecordingRef s →
  sessionInv s → sessionInv s'.
Proof. unfold sessionInv. by intros -> ->. Qed.

Lemma queued_sessionInv_view s s' :
  recordingView s' = recordingView s → sessionInv s → sessionInv s'.
Proof.
  unfold recordingView. intros H. apply queued_sessionInv_frame; congruence.
Qed.

Lemma queued_runQueue_recording s : recordingView (runQueue s) = recordingView s.
Proof. unfold runQueue. by destruct (pump _ _). Qed.

Lemma queued_decoded_recording k f s :
  recordingView (decoded k f s) = recordingView s.
Proof.
  unfold decoded. destruct (processingQueueRef s !! k) as [j|]; [|done].
  destruct (phase j); try done. destruct f; [|done].
  unfold transcriptionFailed.
  by rewrite (proj2 (proj2 (queued_settleJob_frame _ _ _))).
Qed.

Lemma queued_responded_recording k r s :
  recordingView (responded k r s) = recordingView s.
Proof.
  unfold responded. destruct (processingQueueRef s !! k) as [j|]; [|done].
  destruct (phase j); try done.
  destruct r as [err|status txt|err|data]; unfold transcriptionFailed;
    by rewrite (proj2 (proj2 (queued_settleJob_frame _ _ _))).
Qed.

Lemma queued_stopRecording_inv s : sessionInv s → sessionInv (stopRecording s).
Proof.
  intros Hinv. unfold stopRecording.
  set (s1 := match mediaRecorderRef s with Some _ => _ | None => s end).
  assert (H1 : sessionInv s1).
  { unfold s1. destruct Hinv as [Hle Hdown].
    destruct (mediaRecorderRef s) as [r|]; [|done].
    destruct (isRecordingAt (recorders s) r) eqn:Hrec; [|done].
    destruct (media_stop_counts r (recorders s) Hrec) as [Ha Hq].
    unfold sessionInv. simpl. split; [lia|].
    intros Hflag. specialize (Hdown Hflag). lia. }
  destruct (recordingTimeoutRef s1); [|done].
  revert H1. by apply queued_sessionInv_frame.
Qed.

Lemma queued_startRecording_inv s :
  isRecordingRef s = false → sessionInv s → sessionInv (startRecording s).
Proof.
  intros Hflag [Hle Hdown]. specialize (Hdown Hflag). unfold startRecording.
  destruct (streamRef s); [|done].
  destruct (currentIsRecording s); [done|].
  destruct (media_create_counts tt (recorders s)) as [Ha Hq].
  unfold sessionInv. simpl in *. split; [lia|done].
Qed.

Lemma queued_handleVoiceProbability_inv p s :
  sessionInv s → sessionInv (handleVoiceProbability p s).
Proof.
  intros Hinv. unfold handleVoiceProbability.
  destruct (Qle_bool _ _).
  - unfold handleVoiceDetected.
    set (s1 := match silenceTimeoutRef s with Some _ => _ | None => s end).
    assert (H1 : sessionInv s1).
    { unfold s1. destruct (silenceTimeoutRef s); [|done].
      revert Hinv. by apply queued_sessionInv_frame. }
    destruct (isRecordingRef s1) eqn:Hflag; simpl; [done|].
    destruct (isListeningRef s1); simpl; [|done].
    destruct (bool_decide _); [|done].
    by apply queued_startRecording_inv.
  - unfold handleSilenceDetected.
    destruct (silenceTimeoutRef s); [done|].
    destruct (isRecordingRef s); [|done].
    revert Hinv. by apply queued_sessionInv_frame.
Qed.

Lemma queued_runCallback_inv c s : sessionInv s → sessionInv (runCallback c s).
Proof.
  intros Hinv. destruct c as [|r]; simpl.
  - apply (queued_sessionInv_frame (stopRecording s)); [done|done|].
    by apply queued_stopRecording_inv.
  - destruct (isRecordingAt (recorders s) r); [|done].
    by apply queued_stopRecording_inv.
Qed.

Lemma queued_fireDue_inv fuel t : ∀ s, sessionInv s → sessionInv (fireDue fuel t s).
Proof.
  induction fuel as [|fuel IH]; intros s Hinv; simpl; [done|].
  destruct (Timers.next_due t (timers s)) as [tm|]; [|done].
  apply IH, queued_runCallback_inv. revert Hinv. by apply queued_sessionInv_frame.
Qed.

Lemma queued_dispatchStop_inv r s : sessionInv s → sessionInv (dispatchStop r s).
Proof.
  intros [Hle Hdown]. unfold dispatchStop.
  destruct (recorders s !! r) as [m|] eqn:Hm; [|done].
  destruct (stopQueued m) eqn:Hq; [|done].
  assert (Hhas : hasQueuedStop (recorders s) r = true)
    by (unfold hasQueuedStop; by rewrite Hm).
  destruct (media_dispatched_counts r (recorders s) Hhas) as [Ha Hc].
  unfold onstop.
  set (s0 := set_recorders (dispatched r (recorders s)) s).
  assert (Hrec : ∀ x, recorders x = recorders s0 →
            sessionInv (set_isRecording false
              (set_recordingStartTimeRef None
                 (set_isRecordingRef false (set_chunksRef [] x))))).
  { intros x Hx. unfold sessionInv. simpl. rewrite Hx. simpl.
    split; intros; lia. }
  destruct (_ && _); apply Hrec; [|done].
  unfold processAndSendAudio, runQueue. by destruct (pump _ _).
Qed.

Lemma queued_step_sessionInv s e : sessionInv s → sessionInv (step s e).
Proof.
  intros Hinv. destruct e as [p|r d|r|t|k f|k r|i| | |]; simpl.
  - by apply queued_handleVoiceProbability_inv.
  - revert Hinv. apply queued_sessionInv_frame;
      unfold dispatchData, ondataavailable;
      destruct (_ || _); try done; by destruct (0 <? size d).
  - by apply queued_dispatchStop_inv.
  - unfold elapse.
    apply (queued_sessionInv_frame
             (fireDue (length (Timers.pending (timers s))) t s)); [done|done|].
    by apply queued_fireDue_inv.
  - revert Hinv. apply queued_sessionInv_view, queued_decoded_recording.
  - revert Hinv. apply queued_sessionInv_view, queued_responded_recording.
  - revert Hinv. apply queued_sessionInv_frame; by destruct i.
  - revert Hinv. apply queued_sessionInv_frame; unfold startListening;
      destruct (cobraRef s); try done; by destruct (isInitialized s).
  - unfold stopListening. destruct (cobraRef s) as [c|]; [|done].
    destruct (isListeningRef s); [|done]. simpl.
    destruct (isRecordingRef s) eqn:Hflag.
    + set (s2 := stopRecording _).
      apply (queued_sessionInv_frame s2); [done|done|].
      apply queued_stopRecording_inv. revert Hinv. by apply queued_sessionInv_frame.
    + revert Hinv. apply queued_sessionInv_frame; simpl; done.
  - revert Hinv. apply queued_sessionInv_frame; unfold unmount;
      (destruct (cobraRef s) as [c|] eqn:Hc; simpl;
       [destruct (isListeningRef s); simpl|];
       destruct (streamRef s); simpl; rewrite ?Hc; simpl;
       by destruct (audioContextRef s)).
Qed.

Lemma queued_run_sessionInv es : ∀ s, sessionInv s → sessionInv (run s es).
Proof.
  induction es as [|e es IH]; intros s Hinv; [done|].
  simpl. apply IH. by apply queued_step_sessionInv.
Qed.

(** From the initial state, whatever the events, at most one recorder is
    recording, and none is while the recording flag is down. *)
Lemma queued_at_most_one_session t es :
  let s := run (initial t) es in
  (activeCount (recorders s) ≤ 1)%nat ∧
  (isRecordingRef s = false → activeCount (recorders s) = 0%nat).
Proof.
  assert (H0 : sessionInv (initial t))
    by (split; [simpl|intros _]; reflexivity || (vm_compute; lia)).
  destruct (queued_run_sessionInv es _ H0) as [Hle Hdown].
  split; [lia|]. intros Hflag. specialize (Hdown Hflag). lia.
Qed.

End QueuedSttSessions.


(** * [QueuedStt]: the transcript in closed form, and the start of a
    session *)

Section QueuedSttTranscript.
Import Media Sarvam QueuedStt QueuedShapes.

Lemma queued_append_assoc (s1 s2 s3 : string) :
  (s1 +:+ s2) +:+ s3 = s1 +:+ (s2 +:+ s3).
Proof.
  induction s1 as [|c s1 IH]; [done|].
  change (String c ((s1 +:+ s2) +:+ s3) = String c (s1 +:+ (s2 +:+ s3))).
  by rewrite IH.
Qed.

Lemma queued_concat_snoc sep (l : list string) a x :
  String.concat sep ((a :: l) ++ [x])
  = String.concat sep (a :: l) +:+ sep +:+ x.
Proof.
  revert a. induction l as [|b l IH]; intros a; [done|].
  change (String.concat sep ((a :: b :: l) ++ [x]))
    with (a +:+ sep +:+ String.concat sep ((b :: l) ++ [x])).
  change (String.concat sep (a :: b :: l))
    with (a +:+ sep +:+ String.concat sep (b :: l)).
  rewrite IH. by rewrite !queued_append_assoc.
Qed.

Lemma queued_joined_snoc ds d :
  joined (ds ++ [d])
  = Some (appendTranscript (joined ds) d).
Proof.
  unfold joined. rewrite last_snoc, fmap_app.
  destruct ds as [|d0 ds]; [done|].
  destruct (last (d0 :: ds)) as [dl|] eqn:Hl.
  - unfold appendTranscript. cbn [transcript timestamps].
    change (transcript <$> d0 :: ds)
      with (transcript d0 :: (transcript <$> ds)).
    change (transcript <$> [d]) with [transcript d].
    by rewrite queued_concat_snoc.
  - by apply last_None in Hl.
Qed.

Lemma queued_mergeAll_joined ds : mergeAll ds = joined ds.
Proof.
  induction ds as [|d ds IH] using rev_ind; [done|].
  by rewrite queued_mergeAll_snoc, queued_joined_snoc, IH.
Qed.

(** A response for the link that is fetching settles that link with it,
    behind the responses merged before, and moves no clip. *)
Lemma queued_responded_merged s k j data :
  wellChained (processingQueueRef s) = true →
  processingQueueRef s !! k = Some j → phase j = fetching →
  let s' := responded k (json data) s in
  processingQueueRef s' !! k = Some (mkJob (clip j) (settled (Some data))) ∧
  mergedResponses (processingQueueRef s')
  = mergedResponses (processingQueueRef s) ++ [data].
Proof.
  intros Hw Hk Hp. cbn zeta.
  assert (Hrun : isRunning (phase j) = true) by by rewrite Hp.
  destruct (queued_running_located _ _ _ Hw Hk Hrun)
    as (done & ws & Hq & Hlen & Hd & Hws).
  unfold responded. rewrite Hk, Hp. unfold settleJob. simpl. rewrite Hk.
  unfold runQueue. simpl.
  rewrite Hq, <- Hlen, queued_insert_located.
  set (b := bool_decide _).
  assert (Hd' : Forall (λ j0, isSettled (phase j0) = true)
                  (done ++ [mkJob (clip j) (settled (Some data))])).
  { apply Forall_app. split; [done|]. by repeat constructor. }
  assert (Hpre : preChained (done ++ mkJob (clip j) (settled (Some data)) :: ws)).
  { exists (done ++ [mkJob (clip j) (settled (Some data))]), ws.
    rewrite <- app_assoc. repeat split; [done|]. by right. }
  destruct (queued_pump_chained b _ Hpre) as [_ Hm].
  pose proof (queued_pump_settled b
                (done ++ [mkJob (clip j) (settled (Some data))]) ws Hd') as Hpump.
  rewrite <- app_assoc in Hpump. simpl in Hpump.
  destruct (pump b (done ++ mkJob (clip j) (settled (Some data)) :: ws))
    as [q began] eqn:Hpq.
  simpl in *. split.
  - rewrite Hpump, <- app_assoc. simpl.
    by rewrite lookup_app_r, Nat.sub_diag.
  - rewrite Hm. by rewrite queued_merged_settle.
Qed.

(** The first voiced sample that reaches a ready component makes
    [startRecording] create a recorder and arm the timer of the maximum
    duration for it. *)
Lemma queued_feed_voiced_ready s x :
  ready s → now s ≤ sampleTime x → voiced x = true →
  sessionRunning (length (recorders s)) (sampleTime x) (feed s x) ∧
  now (feed s x) = sampleTime x ∧
  recorders (feed s x)
  = recorders s ++ [Recorder unit recording false tt] ∧
  chunksRef (feed s x) = [] ∧
  processingQueueRef (feed s x) = processingQueueRef s.
Proof.
  intros (Hl & Hr & [st Hst] & Hc & Hs & Hp) Hnow Hv.
  unfold feed, advanceTo. rewrite Hp. simpl.
  unfold elapse. rewrite Hp. simpl.
  unfold handleVoiceProbability. unfold voiced in Hv. rewrite Hv.
  unfold handleVoiceDetected. simpl. rewrite Hs. simpl. rewrite Hr, Hl, Hst.
  rewrite bool_decide_eq_true_2 by eauto. simpl.
  unfold startRecording. simpl. rewrite Hst.
  unfold currentIsRecording in *. simpl. rewrite Hc. simpl.
  destruct (timers s) as [p n] eqn:Htb. simpl in Hp. subst p.
  unfold sampleTime in *. rewrite Z.max_r by lia.
  unfold sessionRunning. simpl.
  repeat split; try done.
  - unfold isRecordingAt. by rewrite lookup_app_r, Nat.sub_diag.
  - by eexists.
Qed.

(** A chunk delivered to the recorder of a running session is kept, if
    it holds a byte, and nothing else changes. *)
Lemma queued_dispatchData_running r t0 s d :
  sessionRunning r t0 s →
  sessionRunning r t0 (dispatchData r d s) ∧
  now (dispatchData r d s) = now s ∧
  recorders (dispatchData r d s) = recorders s ∧
  chunksRef (dispatchData r d s)
  = chunksRef s ++ (if 0 <? size d then [d] else []) ∧
  processingQueueRef (dispatchData r d s) = processingQueueRef s.
Proof.
  intros Hs. pose proof Hs as (Hr & Hm & Ha & Hst & Hsil & h & Hh & Hp).
  unfold dispatchData. rewrite Ha. simpl. unfold ondataavailable.
  destruct (0 <? size d); simpl; rewrite ?app_nil_r; repeat split; try done;
    by eexists.
Qed.

End QueuedSttTranscript.


(** * [AwaitingStt]: one session, one call at a time *)

Section AwaitingSttSessions.
Import Media Sarvam AwaitingStt.

Lemma awaiting_sessionInv_frame s s' :
  recorders s' = recorders s → calls s' = calls s →
  isRecordingRef s' = isRecordingRef s →
  sessionInv s → sessionInv s'.
Proof. unfold sessionInv, awaitedCount. by intros -> -> ->. Qed.

Lemma awaiting_stopRecording_inv s : sessionInv s → sessionInv (stopRecording s).
Proof.
  intros [Hle Hdown]. unfold stopRecording.
  destruct (mediaRecorderRef s) as [r|]; [|done].
  destruct (isRecordingAt (recorders s) r) eqn:Hrec; [|done].
  destruct (media_stop_counts r (recorders s) Hrec) as [Ha Hq].
  unfold sessionInv, awaitedCount in *. simpl. split; [lia|].
  intros Hflag. specialize (Hdown Hflag). lia.
Qed.

Lemma awaiting_startRecording_inv seen s :
  isRecordingRef s = false → sessionInv s → sessionInv (startRecording seen s).
Proof.
  intros Hflag [Hle Hdown]. specialize (Hdown Hflag). unfold startRecording.
  destruct (streamRef s); [|done].
  destruct (_ || _); [done|].
  destruct (media_create_counts tt (recorders s)) as [Ha Hq].
  unfold sessionInv, awaitedCount in *. simpl in *. split; [lia|done].
Qed.

Lemma awaiting_handleVoiceProbability_inv p s :
  sessionInv s → sessionInv (handleVoiceProbability p s).
Proof.
  intros Hinv. unfold handleVoiceProbability.
  destruct (Qle_bool _ _).
  - unfold handleVoiceDetected.
    set (s1 := match silenceTimeoutRef s with Some _ => _ | None => s end).
    assert (H1 : sessionInv s1).
    { unfold s1. destruct (silenceTimeoutRef s); [|done].
      revert Hinv. by apply awaiting_sessionInv_frame. }
    destruct (isRecordingRef s1) eqn:Hflag; simpl; [done|].
    destruct (isListeningRef s1); simpl; [|done].
    destruct (bool_decide _); [|done]. simpl.
    by apply awaiting_startRecording_inv.
  - unfold handleSilenceDetected.
    destruct (silenceTimeoutRef s); [done|].
    destruct (isRecordingRef s); [|done].
    revert Hinv. by apply awaiting_sessionInv_frame.
Qed.

Lemma awaiting_fireDue_inv fuel t : ∀ s, sessionInv s → sessionInv (fireDue fuel t s).
Proof.
  induction fuel as [|fuel IH]; intros s Hinv; simpl; [done|].
  destruct (Timers.next_due t (timers s)) as [tm|]; [|done].
  apply IH. destruct (Timers.callback tm). simpl.
  apply (awaiting_sessionInv_frame (stopRecording
           (set_now (Z.max (now s) (Timers.due tm))
              (set_timers (Timers.clearTimeout (Timers.handle tm) (timers s)) s))));
    [done|done|done|].
  apply awaiting_stopRecording_inv. revert Hinv. by apply awaiting_sessionInv_frame.
Qed.

(** The [finally] block lowers the flag when nothing is left. *)
Lemma awaiting_onstopFinally_inv s :
  (activeCount (recorders s) + queuedCount (recorders s) + awaitedCount s = 0)%nat →
  sessionInv (onstopFinally s).
Proof. intros H. unfold sessionInv, awaitedCount in *. simpl. split; intros; lia. Qed.

Lemma awaiting_dispatchStop_inv r s : sessionInv s → sessionInv (dispatchStop r s).
Proof.
  intros [Hle Hdown]. unfold dispatchStop.
  destruct (recorders s !! r) as [m|] eqn:Hm; [|done].
  destruct (stopQueued m) eqn:Hq; [|done].
  assert (Hhas : hasQueuedStop (recorders s) r = true)
    by (unfold hasQueuedStop; by rewrite Hm).
  destruct (media_dispatched_counts r (recorders s) Hhas) as [Ha Hc].
  unfold onstop. simpl.
  destruct (_ && _).
  - destruct (sarvamKeyConfigured s).
    + unfold sessionInv, awaitedCount in *. simpl.
      rewrite media_count_snoc. simpl. split; [lia|].
      intros Hflag. specialize (Hdown Hflag). lia.
    + apply awaiting_onstopFinally_inv. unfold awaitedCount in *. simpl. lia.
  - apply awaiting_onstopFinally_inv. unfold awaitedCount in *. simpl. lia.
Qed.

Lemma awaiting_callReturned_inv k c s :
  calls s !! k = Some c → isAwaited c = true →
  sessionInv s → sessionInv (callReturned k s).
Proof.
  intros Hk Haw [Hle Hdown]. unfold callReturned. rewrite Hk.
  apply awaiting_onstopFinally_inv. unfold awaitedCount in *. simpl.
  pose proof (media_count_insert isAwaited (calls s) k c
                (mkCall (clip c) returned) Hk) as H.
  rewrite Haw in H. simpl in H. lia.
Qed.

Lemma awaiting_decoded_inv k f s : sessionInv s → sessionInv (decoded k f s).
Proof.
  intros Hinv. unfold decoded.
  destruct (calls s !! k) as [c|] eqn:Hk; [|done].
  destruct (phase c) eqn:Hp; try done.
  assert (Haw : isAwaited c = true) by (unfold isAwaited; by rewrite Hp).
  destruct f as [err|].
  - apply (awaiting_callReturned_inv k c); [done|done|].
    revert Hinv. by apply awaiting_sessionInv_frame.
  - destruct Hinv as [Hle Hdown]. unfold sessionInv, awaitedCount in *. simpl.
    pose proof (media_count_insert isAwaited (calls s) k c
                  (mkCall (clip c) fetching) Hk) as H.
    rewrite Haw in H. simpl in H.
    split; [lia|]. intros Hflag. specialize (Hdown Hflag). lia.
Qed.

Lemma awaiting_responded_inv k r s : sessionInv s → sessionInv (responded k r s).
Proof.
  intros Hinv. unfold responded.
  destruct (calls s !! k) as [c|] eqn:Hk; [|done].
  destruct (phase c) eqn:Hp; try done.
  assert (Haw : isAwaited c = true) by (unfold isAwaited; by rewrite Hp).
  destruct r as [err|status txt|err|data];
    (apply (awaiting_callReturned_inv k c); [done|done|];
     revert Hinv; by apply awaiting_sessionInv_frame).
Qed.

Lemma awaiting_step_inv s e : sessionInv s → sessionInv (step s e).
Proof.
  intros Hinv. destruct e as [p|r d|r|t|k f|k r|i| | |]; simpl.
  - by apply awaiting_handleVoiceProbability_inv.
  - revert Hinv. apply awaiting_sessionInv_frame;
      unfold dispatchData, ondataavailable;
      destruct (_ || _); try done; by destruct (0 <? size d).
  - by apply awaiting_dispatchStop_inv.
  - unfold elapse.
    apply (awaiting_sessionInv_frame
             (fireDue (length (Timers.pending (timers s))) t s));
      [done|done|done|].
    by apply awaiting_fireDue_inv.
  - by apply awaiting_decoded_inv.
  - by apply awaiting_responded_inv.
  - revert Hinv. apply awaiting_sessionInv_frame; by destruct i.
  - revert Hinv. apply awaiting_sessionInv_frame; unfold startListening;
      destruct (cobraRef s); try done; by destruct (isInitialized s).
  - unfold stopListening. destruct (cobraRef s) as [c|]; [|done].
    destruct (isListeningRef s); [|done]. simpl.
    destruct (isRecordingRef s) eqn:Hflag.
    + set (s2 := stopRecording _).
      apply (awaiting_sessionInv_frame s2); [done|done|done|].
      apply awaiting_stopRecording_inv. revert Hinv.
      by apply awaiting_sessionInv_frame.
    + revert Hinv. apply awaiting_sessionInv_frame; simpl; done.
  - revert Hinv. apply awaiting_sessionInv_frame; unfold unmount;
      (destruct (cobraRef s) as [c|] eqn:Hc; simpl;
       [destruct (isListeningRef s); simpl|];
       destruct (streamRef s); simpl; rewrite ?Hc; done).
Qed.

Lemma awaiting_run_inv es : ∀ s, sessionInv s → sessionInv (run s es).
Proof.
  induction es as [|e es IH]; intros s Hinv; [done|].
  simpl. apply IH. by apply awaiting_step_inv.
Qed.

(** From the initial state, whatever the events: at most one recorder
    records, at most one transcription call is awaited, and while one
    is awaited no recorder records and the recording flag is up, so that
    no clip is submitted before the call returns. *)
Lemma awaiting_one_call_at_a_time t key es :
  let s := run (initial t key) es in
  (activeCount (recorders s) ≤ 1)%nat ∧
  (awaitedCount s ≤ 1)%nat ∧
  (awaitedCount s = 1%nat →
   activeCount (recorders s) = 0%nat ∧ isRecordingRef s = true).
Proof.
  assert (H0 : sessionInv (initial t key))
    by (split; [simpl|intros _]; reflexivity || (vm_compute; lia)).
  destruct (awaiting_run_inv es _ H0) as [Hle Hdown].
  split; [lia|]. split; [lia|]. intros Haw. split; [lia|].
  destruct (isRecordingRef (run (initial t key) es)); [done|].
  specialize (Hdown eq_refl). lia.
Qed.

End AwaitingSttSessions.


(** * [PlainDetector] *)

Section PlainDetectorFacts.
Import Media PlainDetector.

(** The stop handler has no minimum duration: with a chunk captured it
    keeps a clip, whatever the clock says. *)
Lemma plain_onstop_has_no_minimum s :
  audioChunksRef s ≠ [] →
  length (audioClips (onstop s)) = S (length (audioClips s)).
Proof.
  intros H. unfold onstop. destruct (audioChunksRef s); [done|].
  simpl. rewrite length_app. simpl. lia.
Qed.

Lemma plain_stopRecording_none s : recorders s = [] → stopRecording s = s.
Proof.
  intros H. unfold stopRecording. destruct (mediaRecorderRef s) as [r|]; [|done].
  unfold isRecordingAt. by rewrite H, lookup_nil.
Qed.

Lemma plain_fireDue_none fuel t : ∀ s,
  recorders s = [] → recorders (fireDue fuel t s) = [].
Proof.
  induction fuel as [|fuel IH]; intros s H; simpl; [done|].
  destruct (Timers.next_due t (timers s)) as [tm|]; [|done].
  apply IH. destruct (Timers.callback tm). simpl.
  by rewrite plain_stopRecording_none.
Qed.

Lemma plain_step_none s e : recorders s = [] → recorders (step s e) = [].
Proof.
  intros H. destruct e as [p|r d|r|t|i| | |]; simpl; try done.
  - unfold handleVoiceProbability. destruct (negb _); simpl.
    + unfold handleVoiceDetected. simpl. by destruct (silenceTimeoutRef s).
    + unfold handleSilenceDetected. simpl. by destruct (silenceTimeoutRef s).
  - unfold dispatchData, ondataavailable.
    destruct (_ || _); [|done]. by destruct (0 <? size d).
  - unfold dispatchStop. by rewrite H, lookup_nil.
  - unfold elapse. simpl. by apply plain_fireDue_none.
  - by destruct i.
  - unfold startListening. destruct (cobra s); [|done]. by destruct (isListening s).
  - unfold stopListening. destruct (cobra s) as [c|]; [|done].
    destruct (isListening s); [|done].
    destruct (isRecording s); [|done].
    by rewrite plain_stopRecording_none.
Qed.

(** The handlers given to Cobra see [isListening] as it was in the first
    render: no run of the component ever creates a recorder. *)
Lemma plain_never_records t es : recorders (run (initial t) es) = [].
Proof.
  assert (H : ∀ s, recorders s = [] → recorders (run s es) = []).
  { induction es as [|e es IH]; intros s Hs; [done|].
    simpl. apply IH. by apply plain_step_none. }
  by apply H.
Qed.

End PlainDetectorFacts.


(** * The relay server *)

Section RelayOverflow.
Import Sarvam Relay.

Lemma relay_totalSize_from acc chunks :
  fold_left (λ a chunk, a + Z.of_nat (length chunk)) chunks acc
  = acc + totalSize chunks.
Proof.
  unfold totalSize. revert acc.
  induction chunks as [|c chunks IH]; intros acc; simpl; [lia|].
  rewrite (IH (acc + Z.of_nat (length c))), (IH (0 + Z.of_nat (length c))). lia.
Qed.

Lemma relay_totalSize_snoc chunks (c : Buffer) :
  totalSize (chunks ++ [c]) = totalSize chunks + Z.of_nat (length c).
Proof.
  unfold totalSize at 1. rewrite fold_left_app. simpl.
  by rewrite relay_totalSize_from.
Qed.

Lemma relay_totalSize_nonneg chunks : 0 ≤ totalSize chunks.
Proof.
  induction chunks as [|c chunks IH] using rev_ind; [done|].
  rewrite relay_totalSize_snoc. lia.
Qed.

Lemma relay_chunkOf_length n : 0 ≤ n → Z.of_nat (length (chunkOf n)) = n.
Proof. intros H. unfold chunkOf. rewrite length_replicate. lia. Qed.

(** What the handler does with an audio message that takes the buffer
    over the cap. *)
Lemma relay_onMessage_overflow s clientId client chunk :
  clients s !! clientId = Some client →
  MAX_BUFFER_SIZE < totalSize (currentAudioBuffer client ++ [chunk]) →
  onMessage clientId (inAudio chunk) s
  = send clientId (outError "Failed to process message")
      (set_clients
         (<[clientId := mkClient (isAlive client)
                          (currentAudioBuffer client ++ [chunk])]> (clients s))
         s).
Proof.
  intros Hc Hover. unfold onMessage. rewrite Hc.
  destruct (Z.ltb_spec MAX_BUFFER_SIZE (totalSize (currentAudioBuffer client ++ [chunk])));
    [done|lia].
Qed.

End RelayOverflow.


(** C2: in [ClipDetector], a run of samples below the threshold that
    lasts less than [SILENCE_DURATION_THRESHOLD] from its first sample
    [x] to the sample [y] where voice resumes, inside a voiced region
    entered from the idle listening state, stops nothing: the recorder
    created by the region records after every prefix of the run, and at
    the end of the region it is still the only recorder created, it
    records, the silence timer is cancelled and no clip was cut. *)
Theorem short_silence_does_not_split_utterance :
  ∀ (s : ClipDetector.State) (v1 sil v2 : list Media.Sample)
    (v x y : Media.Sample),
    ClipDetector.ready s →
    forallb ClipDetector.voiced (v :: v1) = true →
    forallb (λ z, negb (ClipDetector.voiced z)) (x :: sil) = true →
    forallb ClipDetector.voiced (y :: v2) = true →
    Forall (λ z, ClipDetector.sampleTime z ≤ ClipDetector.sampleTime y) sil →
    ClipDetector.sampleTime y - ClipDetector.sampleTime x
      < ClipDetector.SILENCE_DURATION_THRESHOLD →
    let r := length (ClipDetector.recorders s) in
    let s' := ClipDetector.feedAll s ((v :: v1) ++ (x :: sil) ++ (y :: v2)) in
    (∀ k, Media.isRecordingAt
            (ClipDetector.recorders
               (ClipDetector.feedAll s ((v :: v1) ++ take k (x :: sil)))) r
          = true) ∧
    ClipDetector.recordingQuiet r s' ∧
    length (ClipDetector.recorders s') = S r ∧
    ClipDetector.audioClips s' = ClipDetector.audioClips s.
Proof.
  intros s v1 sil v2 v x y Hs Hv1 Hsil Hv2 Hord Hgap r s'.
  destruct (clip_feedAll_voiced_ready s v v1 Hs Hv1) as (Hq & Hlen & Hclips).
  fold r in Hq.
  assert (Hlate : Forall (λ z, ClipDetector.sampleTime z
            < ClipDetector.sampleTime x + ClipDetector.SILENCE_DURATION_THRESHOLD) sil).
  { eapply Forall_impl; [exact Hord|]. simpl. intros; lia. }
  split.
  - intros k. rewrite clip_feedAll_app.
    by apply clip_silent_prefix_records.
  - subst s'. rewrite !clip_feedAll_app.
    destruct (clip_feedAll_silent_run r x sil _ Hq Hsil Hlate)
      as (d & Hd & Ha & Hr1 & Hc1).
    simpl in Hv2. apply andb_prop in Hv2 as [Hy Hv2].
    destruct (clip_feed_voiced_armed r d _ y Ha Hy) as (Hq2 & Hr2 & Hc2); [lia|].
    destruct (clip_feedAll_voiced_quiet r v2 _ Hq2 Hv2) as (Hq3 & Hr3 & Hc3).
    change (ClipDetector.feedAll ?a (y :: v2))
      with (ClipDetector.feedAll (ClipDetector.feed a y) v2).
    split; [done|]. split; [|congruence].
    rewrite Hr3, Hr2, Hr1. exact Hlen.
Qed.

(** C2, at an instance: voice from 1000 to 2900, a dip from 3000 to
    3200, voice again from 3300 to 5000. *)
Lemma short_silence_does_not_split_utterance_witness :
  let s := ClipDetector.listeningAt 1000 in
  let s' :=
    ClipDetector.feedAll s
      ([Media.sample 1000 (9 # 10); Media.sample 2000 (9 # 10); Media.sample 2900 (9 # 10)]
       ++ [Media.sample 3000 (5 # 100); Media.sample 3100 (5 # 100); Media.sample 3200 (1 # 10)]
       ++ [Media.sample 3300 (8 # 10); Media.sample 4000 (9 # 10); Media.sample 5000 (9 # 10)]) in
  (∀ k, Media.isRecordingAt
          (ClipDetector.recorders
             (ClipDetector.feedAll s
                ([Media.sample 1000 (9 # 10); Media.sample 2000 (9 # 10); Media.sample 2900 (9 # 10)]
                 ++ take k [Media.sample 3000 (5 # 100); Media.sample 3100 (5 # 100); Media.sample 3200 (1 # 10)])))
          0%nat = true) ∧
  ClipDetector.recordingQuiet 0 s' ∧
  length (ClipDetector.recorders s') = 1%nat ∧
  ClipDetector.audioClips s' = [].
Proof.
  apply (short_silence_does_not_split_utterance
           (ClipDetector.listeningAt 1000)
           [Media.sample 2000 (9 # 10); Media.sample 2900 (9 # 10)]
           [Media.sample 3100 (5 # 100); Media.sample 3200 (1 # 10)]
           [Media.sample 4000 (9 # 10); Media.sample 5000 (9 # 10)]
           (Media.sample 1000 (9 # 10)) (Media.sample 3000 (5 # 100))
           (Media.sample 3300 (8 # 10))).
  - unfold ClipDetector.ready. simpl. repeat split; eauto.
  - reflexivity.
  - reflexivity.
  - reflexivity.
  - repeat constructor; simpl; lia.
  - simpl. unfold ClipDetector.SILENCE_DURATION_THRESHOLD. lia.
Defined.

(** C3: a recorder whose stop event is dispatched less than the minimum
    recording duration after the session started leaves no clip.  In
    [ClipDetector] the clip list and the latest clip stay as they were;
    in [QueuedStt] nothing is handed to [processAndSendAudio] and the
    transcript stays as it was.  In both the chunks are dropped. *)
Theorem below_minimum_duration_no_clip :
  (∀ (s : ClipDetector.State) (r : nat) (m : Media.MediaRecorder Z),
     ClipDetector.recorders s !! r = Some m →
     Media.stopQueued m = true →
     ClipDetector.now s - Media.closure m < ClipDetector.MIN_RECORDING_DURATION →
     let s' := ClipDetector.dispatchStop r s in
     ClipDetector.audioClips s' = ClipDetector.audioClips s ∧
     ClipDetector.latestClip s' = ClipDetector.latestClip s ∧
     ClipDetector.audioChunksRef s' = [] ∧
     ClipDetector.isRecordingRef s' = false)
  ∧
  (∀ (s : QueuedStt.State) (r : nat) (m : Media.MediaRecorder unit) (start : Z),
     QueuedStt.recorders s !! r = Some m →
     Media.stopQueued m = true →
     QueuedStt.recordingStartTimeRef s = Some start →
     QueuedStt.now s - start < QueuedStt.MIN_RECORDING_DURATION →
     let s' := QueuedStt.dispatchStop r s in
     QueuedStt.processingQueueRef s' = QueuedStt.processingQueueRef s ∧
     QueuedStt.transcription s' = QueuedStt.transcription s ∧
     QueuedStt.chunksRef s' = [] ∧
     QueuedStt.isRecordingRef s' = false).
Proof.
  split.
  - intros s r m Hm Hq Hd s'. subst s'.
    unfold ClipDetector.dispatchStop. rewrite Hm, Hq.
    unfold ClipDetector.onstop. simpl.
    assert (Hlt : (ClipDetector.MIN_RECORDING_DURATION <=?
              (if Media.closure m =? 0 then 0 else ClipDetector.now s - Media.closure m)) = false).
    { apply Z.leb_gt. destruct (Media.closure m =? 0); [done|lia]. }
    rewrite Hlt. done.
  - intros s r m start Hm Hq Hst Hd s'. subst s'.
    unfold QueuedStt.dispatchStop. rewrite Hm, Hq.
    unfold QueuedStt.onstop. simpl. rewrite Hst.
    assert (Hlt : (QueuedStt.MIN_RECORDING_DURATION <=? QueuedStt.now s - start) = false)
      by (apply Z.leb_gt; lia).
    rewrite Hlt. done.
Qed.

(** C3, at an instance: listening is stopped 200 ms into a session that
    has captured a chunk. *)
Lemma below_minimum_duration_no_clip_witness :
  (let s := ClipDetector.run (ClipDetector.listeningAt 1000)
              [ClipDetector.evProbability (9 # 10); ClipDetector.evElapse 1200;
               ClipDetector.evData 0 [Byte.x01]; ClipDetector.evStopListening] in
   ClipDetector.audioChunksRef s = [[Byte.x01]] ∧
   ClipDetector.audioClips (ClipDetector.dispatchStop 0 s) = [] ∧
   ClipDetector.audioChunksRef (ClipDetector.dispatchStop 0 s) = [])
  ∧
  (let s := QueuedStt.run (QueuedStt.listeningAt 1000)
              [QueuedStt.evProbability (9 # 10); QueuedStt.evElapse 1200;
               QueuedStt.evData 0 [Byte.x01]; QueuedStt.evStopListening] in
   QueuedStt.chunksRef s = [[Byte.x01]] ∧
   QueuedStt.processingQueueRef (QueuedStt.dispatchStop 0 s) = [] ∧
   QueuedStt.chunksRef (QueuedStt.dispatchStop 0 s) = []).
Proof.
  split.
  - intros s. split; [reflexivity|].
    pose proof (proj1 below_minimum_duration_no_clip s 0%nat
                  (Media.Recorder Z Media.inactive true 1000)
                  eq_refl eq_refl ltac:(vm_compute; reflexivity)) as (H1 & _ & H3 & _).
    split; [exact H1|exact H3].
  - intros s. split; [reflexivity|].
    pose proof (proj2 below_minimum_duration_no_clip s 0%nat
                  (Media.Recorder unit Media.inactive true tt) 1000
                  eq_refl eq_refl eq_refl ltac:(vm_compute; reflexivity)) as (H1 & _ & H3 & _).
    split; [exact H1|exact H3].
Defined.

(** C10: a run in which every [dataavailable] event carries an empty
    blob, entered with an empty chunk list (as [startRecording] leaves
    it), produces no clip in [ClipDetector] and hands nothing to
    transcription in [QueuedStt], however long the sessions last. *)
Theorem no_chunk_no_clip :
  (∀ (s : ClipDetector.State) (es : list ClipDetector.Event),
     ClipDetector.audioChunksRef s = [] →
     (∀ r d, In (ClipDetector.evData r d) es → Media.size d = 0) →
     ClipDetector.audioClips (ClipDetector.run s es) = ClipDetector.audioClips s ∧
     ClipDetector.latestClip (ClipDetector.run s es) = ClipDetector.latestClip s)
  ∧
  (∀ (s : QueuedStt.State) (es : list QueuedStt.Event),
     QueuedStt.chunksRef s = [] →
     (∀ r d, In (QueuedStt.evData r d) es → Media.size d = 0) →
     QueuedStt.submitted (QueuedStt.run s es) = QueuedStt.submitted s).
Proof.
  split.
  - intros s es H Hd.
    pose proof (clip_run_empty es s H Hd) as Ho.
    unfold ClipDetector.clipOutput in Ho. split; congruence.
  - intros s es H Hd.
    pose proof (queued_run_empty es s H Hd) as Ho.
    unfold QueuedStt.queuedOutput in Ho. congruence.
Qed.

(** C10, at an instance: a session of 2000 ms whose only chunk is empty,
    ended by the silence timer. *)
Lemma no_chunk_no_clip_witness :
  ClipDetector.audioClips
    (ClipDetector.run (ClipDetector.listeningAt 1000)
       [ClipDetector.evProbability (9 # 10); ClipDetector.evElapse 1500;
        ClipDetector.evData 0 []; ClipDetector.evProbability (1 # 10);
        ClipDetector.evElapse 3000; ClipDetector.evStop 0]) = []
  ∧
  QueuedStt.submitted
    (QueuedStt.run (QueuedStt.listeningAt 1000)
       [QueuedStt.evProbability (9 # 10); QueuedStt.evElapse 1500;
        QueuedStt.evData 0 []; QueuedStt.evProbability (1 # 10);
        QueuedStt.evElapse 3000; QueuedStt.evStop 0]) = [].
Proof.
  split.
  - refine (proj1 (proj1 no_chunk_no_clip (ClipDetector.listeningAt 1000) _ eq_refl _)).
    intros r d [H|[H|[H|[H|[H|[H|[]]]]]]]; inversion H; reflexivity.
  - refine (proj2 no_chunk_no_clip (QueuedStt.listeningAt 1000) _ eq_refl _).
    intros r d [H|[H|[H|[H|[H|[H|[]]]]]]]; inversion H; reflexivity.
Defined.


(** In [QueuedStt], a session started at [t0] that runs under voiced
    samples is still recording before [t0 + MAX_RECORDING_DURATION];
    when the clock reaches that time the maximum-duration timer stops its
    recorder, with no silence timer involved; the stop handler then ends
    the session and, if a chunk was captured, hands the clip to
    transcription; and at no later time is the recorder recording. *)
Lemma queued_running_session_is_cut :
  ∀ (s : QueuedStt.State) (r : nat) (t0 : Z) (xs : list Media.Sample),
    QueuedStt.sessionRunning r t0 s →
    QueuedStt.now s < t0 + QueuedStt.MAX_RECORDING_DURATION →
    forallb QueuedStt.voiced xs = true →
    Forall (λ x, QueuedStt.sampleTime x < t0 + QueuedStt.MAX_RECORDING_DURATION) xs →
    let s1 := QueuedStt.feedAll s xs in
    let s2 := QueuedStt.elapse (t0 + QueuedStt.MAX_RECORDING_DURATION) s1 in
    let s3 := QueuedStt.dispatchStop r s2 in
    Media.isRecordingAt (QueuedStt.recorders s1) r = true ∧
    QueuedStt.now s2 = t0 + QueuedStt.MAX_RECORDING_DURATION ∧
    Media.stateOf (QueuedStt.recorders s2) r = Some Media.inactive ∧
    Media.hasQueuedStop (QueuedStt.recorders s2) r = true ∧
    QueuedStt.isRecordingRef s3 = false ∧
    (QueuedStt.chunksRef s ≠ [] →
     QueuedStt.submitted s3
     = QueuedStt.submitted s ++ [Media.newBlob (QueuedStt.chunksRef s)]) ∧
    (∀ t, t0 + QueuedStt.MAX_RECORDING_DURATION ≤ t →
          Media.isRecordingAt (QueuedStt.recorders (QueuedStt.elapse t s1)) r
          = false).
Proof.
  intros s r t0 xs Hs Hnow Hv Ht s1 s2 s3.
  destruct (queued_feedAll_voiced_running r t0 xs s Hs Hv Ht Hnow)
    as (Hs1 & Hnow1 & Hrec1 & Hch1 & Hq1).
  fold s1 in Hs1, Hnow1, Hrec1, Hch1, Hq1.
  assert (Hs2 := queued_elapse_maximum r t0 s1 _ Hs1 (Z.le_refl _)).
  fold s2 in Hs2. clearbody s2. clearbody s1.
  pose proof Hs1 as (Hr & Hm & Ha & Hst & Hsil & h & Hh & Hp).
  assert (Hlk : Media.stop r (QueuedStt.recorders s1) !! r
                = Some (Media.Recorder unit Media.inactive true tt))
    by by apply queued_stop_lookup.
  split; [done|].
  split; [rewrite Hs2; simpl; lia|].
  split; [rewrite Hs2; unfold Media.stateOf; simpl; by rewrite Hlk|].
  split; [rewrite Hs2; unfold Media.hasQueuedStop; simpl; by rewrite Hlk|].
  assert (Hs3 : s3 = QueuedStt.onstop
            (QueuedStt.set_recorders
               (Media.dispatched r (QueuedStt.recorders s2)) s2)).
  { assert (Hlk2 : QueuedStt.recorders s2 !! r
                    = Some (Media.Recorder unit Media.inactive true tt))
      by (rewrite Hs2; exact Hlk).
    unfold s3, QueuedStt.dispatchStop. by rewrite Hlk2. }
  clearbody s3.
  split; [by rewrite Hs3|].
  split.
  - intros Hne. rewrite Hs3. unfold QueuedStt.onstop. simpl.
    assert (Hst2 : QueuedStt.recordingStartTimeRef s2 = Some t0)
      by (rewrite Hs2; done).
    assert (Hn2 : QueuedStt.now s2 = t0 + QueuedStt.MAX_RECORDING_DURATION)
      by (rewrite Hs2; simpl; lia).
    assert (Hc2 : QueuedStt.chunksRef s2 = QueuedStt.chunksRef s)
      by (rewrite Hs2; simpl; done).
    rewrite Hst2, Hn2, Hc2.
    replace (t0 + QueuedStt.MAX_RECORDING_DURATION - t0)
      with QueuedStt.MAX_RECORDING_DURATION by lia.
    destruct (QueuedStt.chunksRef s) as [|c cs] eqn:Hc; [done|].
    simpl. unfold QueuedStt.submitted at 1. simpl.
    change (map QueuedStt.clip (QueuedStt.processingQueueRef ?x))
      with (QueuedStt.submitted x).
    rewrite queued_submitted_processAndSendAudio.
    unfold QueuedStt.submitted. simpl. rewrite Hs2. simpl. by rewrite Hq1.
  - intros t Hle.
    rewrite (queued_elapse_maximum r t0 s1 t Hs1 Hle). simpl.
    unfold Media.isRecordingAt. by rewrite Hlk.
Qed.

(** Chunks delivered to the recorder of a running session. *)
Lemma queued_chunks_running r t0 (chunks : list Media.Blob) : ∀ s,
  QueuedStt.sessionRunning r t0 s →
  Forall (λ d, 0 < Media.size d) chunks →
  let s' := fold_left (λ s d, QueuedStt.dispatchData r d s) chunks s in
  QueuedStt.sessionRunning r t0 s' ∧
  QueuedStt.now s' = QueuedStt.now s ∧
  QueuedStt.recorders s' = QueuedStt.recorders s ∧
  QueuedStt.chunksRef s' = QueuedStt.chunksRef s ++ chunks ∧
  QueuedStt.processingQueueRef s' = QueuedStt.processingQueueRef s.
Proof.
  induction chunks as [|d chunks IH]; intros s Hs Hpos; cbn zeta.
  - simpl. by rewrite app_nil_r.
  - inversion Hpos as [|? ? Hd Hrest]; subst.
    destruct (queued_dispatchData_running r t0 s d Hs)
      as (H1 & H2 & H3 & H4 & H5).
    destruct (IH _ H1 Hrest) as (K1 & K2 & K3 & K4 & K5).
    simpl. split; [done|]. rewrite K2, K3, K4, K5, H2, H3, H4, H5.
    destruct (Z.ltb_spec 0 (Media.size d)); [|lia].
    by rewrite <- app_assoc.
Qed.

(** The forced stop of [QueuedStt], from the start of the session: the
    first voiced sample that reaches a ready component makes
    [startRecording] create recorder [r] and arm the timer of
    [MAX_RECORDING_DURATION]; chunks are captured; under voiced samples
    the recorder is still recording before that time has passed; when
    the clock reaches it the timer stops the recorder, with no silence
    timer involved; the stop handler then ends the session and hands the
    clip to transcription, if a chunk was captured; and at no later time
    is the recorder recording. *)
Theorem maximum_duration_forces_stop :
  ∀ (s0 : QueuedStt.State) (x0 : Media.Sample) (chunks : list Media.Blob)
    (xs : list Media.Sample),
    QueuedShapes.ready s0 →
    QueuedStt.now s0 ≤ QueuedStt.sampleTime x0 →
    QueuedStt.voiced x0 = true →
    Forall (λ d, 0 < Media.size d) chunks →
    forallb QueuedStt.voiced xs = true →
    Forall (λ x, QueuedStt.sampleTime x
                 < QueuedStt.sampleTime x0 + QueuedStt.MAX_RECORDING_DURATION)
      xs →
    let r := length (QueuedStt.recorders s0) in
    let deadline :=
      QueuedStt.sampleTime x0 + QueuedStt.MAX_RECORDING_DURATION in
    let started := QueuedStt.feed s0 x0 in
    let s1 :=
      QueuedStt.feedAll
        (fold_left (λ s d, QueuedStt.dispatchData r d s) chunks started) xs in
    let s2 := QueuedStt.elapse deadline s1 in
    let s3 := QueuedStt.dispatchStop r s2 in
    QueuedStt.recorders started
    = QueuedStt.recorders s0
      ++ [Media.Recorder unit Media.recording false tt] ∧
    Media.isRecordingAt (QueuedStt.recorders s1) r = true ∧
    QueuedStt.now s2 = deadline ∧
    Media.stateOf (QueuedStt.recorders s2) r = Some Media.inactive ∧
    Media.hasQueuedStop (QueuedStt.recorders s2) r = true ∧
    QueuedStt.isRecordingRef s3 = false ∧
    (chunks ≠ [] →
     QueuedStt.submitted s3
     = QueuedStt.submitted s0 ++ [Media.newBlob chunks]) ∧
    (∀ t, deadline ≤ t →
          Media.isRecordingAt (QueuedStt.recorders (QueuedStt.elapse t s1)) r
          = false).
Proof.
  intros s0 x0 chunks xs Hready Hnow Hv0 Hpos Hv Ht r deadline started.
  destruct (queued_feed_voiced_ready s0 x0 Hready Hnow Hv0)
    as (Hrun & Hn & Hrec & Hch & Hq). fold r started in Hrun, Hn, Hrec, Hch, Hq.
  destruct (queued_chunks_running r (QueuedStt.sampleTime x0) chunks started
              Hrun Hpos) as (Hrun' & Hn' & Hrec' & Hch' & Hq').
  set (s := fold_left _ chunks started) in *.
  assert (Hlt : QueuedStt.now s
                < QueuedStt.sampleTime x0 + QueuedStt.MAX_RECORDING_DURATION).
  { rewrite Hn', Hn. unfold QueuedStt.MAX_RECORDING_DURATION. lia. }
  destruct (queued_running_session_is_cut s r (QueuedStt.sampleTime x0) xs
              Hrun' Hlt Hv Ht) as (H1 & H2 & H3 & H4 & H5 & H6 & H7).
  cbn zeta. split; [done|]. split; [done|]. split; [done|].
  split; [done|]. split; [done|]. split; [done|]. split; [|done].
  intros Hne.
  assert (Hs : QueuedStt.submitted s = QueuedStt.submitted s0)
    by (unfold QueuedStt.submitted; by rewrite Hq', Hq).
  rewrite Hch', Hch in H6. simpl in H6. rewrite <- Hs. by apply H6.
Qed.

(** At an instance: a session started at 1000, one chunk captured,
    voiced samples up to 3900; the timer fires at 4000. *)
Lemma maximum_duration_forces_stop_witness :
  let s0 := QueuedStt.listeningAt 1000 in
  let started := QueuedStt.feed s0 (Media.sample 1000 (9 # 10)) in
  let s1 := QueuedStt.feedAll
              (fold_left (λ s d, QueuedStt.dispatchData 0 d s)
                 [[Byte.x01]] started)
              [Media.sample 1500 (9 # 10); Media.sample 2500 (8 # 10);
               Media.sample 3900 (9 # 10)] in
  let s2 := QueuedStt.elapse 4000 s1 in
  let s3 := QueuedStt.dispatchStop 0 s2 in
  Media.isRecordingAt (QueuedStt.recorders s1) 0 = true ∧
  QueuedStt.now s2 = 4000 ∧
  Media.stateOf (QueuedStt.recorders s2) 0 = Some Media.inactive ∧
  QueuedStt.isRecordingRef s3 = false ∧
  QueuedStt.submitted s3 = [[Byte.x01]].
Proof.
  assert (Hready : QueuedShapes.ready (QueuedStt.listeningAt 1000)).
  { unfold QueuedShapes.ready. repeat split; try reflexivity.
    eexists; reflexivity. }
  destruct (maximum_duration_forces_stop (QueuedStt.listeningAt 1000)
              (Media.sample 1000 (9 # 10)) [[Byte.x01]]
              [Media.sample 1500 (9 # 10); Media.sample 2500 (8 # 10);
               Media.sample 3900 (9 # 10)]
              Hready ltac:(vm_compute; discriminate) eq_refl
              ltac:(repeat constructor)
              eq_refl
              ltac:(repeat constructor; vm_compute; reflexivity))
    as (_ & H1 & H2 & H3 & _ & H5 & H6 & _).
  split; [exact H1|]. split; [exact H2|]. split; [exact H3|].
  split; [exact H5|].
  apply H6. discriminate.
Defined.

(** C4: in every state that [QueuedStt] reaches from its initial state,
    the transcript is the texts of the responses merged by the settled
    links of the promise chain, in the order of the chain, joined by
    single spaces (with the timestamps of the last of them); a clip is
    chained behind those submitted before it; a link has begun only if
    every link before it has settled; at most one link is running; and a
    response that comes for the link that is fetching settles that link
    with it and is merged behind the responses merged before, whatever
    came first for the links behind, while the clips keep their
    order. *)
Theorem transcript_follows_submission_order :
  ∀ (t : Z) (es : list QueuedStt.Event),
    let s := QueuedStt.run (QueuedStt.initial t) es in
    QueuedStt.transcription s
    = QueuedShapes.joined
        (QueuedStt.mergedResponses (QueuedStt.processingQueueRef s)) ∧
    (∀ c, QueuedStt.submitted (QueuedStt.processAndSendAudio c s)
          = QueuedStt.submitted s ++ [c]) ∧
    QueuedStt.startedInOrder (QueuedStt.processingQueueRef s) ∧
    (QueuedStt.runningCount (QueuedStt.processingQueueRef s) ≤ 1)%nat ∧
    (∀ (k : nat) (j : QueuedStt.Job) (data : Sarvam.TranscriptionResponse),
       QueuedStt.processingQueueRef s !! k = Some j →
       QueuedStt.phase j = QueuedStt.fetching →
       let s' := QueuedStt.responded k (Sarvam.json data) s in
       QueuedStt.processingQueueRef s' !! k
       = Some (QueuedStt.mkJob (QueuedStt.clip j)
                 (QueuedStt.settled (Some data))) ∧
       QueuedStt.mergedResponses (QueuedStt.processingQueueRef s')
       = QueuedStt.mergedResponses (QueuedStt.processingQueueRef s) ++ [data] ∧
       QueuedStt.transcription s'
       = QueuedShapes.joined
           (QueuedStt.mergedResponses (QueuedStt.processingQueueRef s)
            ++ [data]) ∧
       QueuedStt.submitted s' = QueuedStt.submitted s).
Proof.
  intros t es s.
  pose proof (queued_run_inv es _ (queued_initial_inv t)) as Hinv.
  fold s in Hinv. pose proof Hinv as [Hw Ht].
  split; [by rewrite Ht, queued_mergeAll_joined|].
  split; [intros c; apply queued_submitted_processAndSendAudio|].
  split; [by apply queued_wellChained_in_order|].
  split; [by apply queued_wellChained_one_running|].
  intros k j data Hk Hp s'.
  destruct (queued_responded_merged s k j data Hw Hk Hp) as [H1 H2].
  fold s' in H1, H2.
  destruct (queued_responded_inv k (Sarvam.json data) s Hinv) as [_ Ht'].
  fold s' in Ht'.
  split; [done|]. split; [done|].
  split; [by rewrite Ht', H2, queued_mergeAll_joined|].
  pose proof (queued_responded_output k (Sarvam.json data) s) as Ho.
  fold s' in Ho. unfold QueuedStt.queuedOutput in Ho. congruence.
Qed.

(** C4, at an instance: three clips are recorded one after the other
    while the first is still being decoded; the environment tries the
    replies in the order C, A, B.  A reply for a link whose request has
    not been sent finds nothing to settle, and the transcript comes out
    in the order A, B, C. *)
Lemma transcript_follows_submission_order_witness :
  let a := Sarvam.Response "a" None in
  let b := Sarvam.Response "b" None in
  let c := Sarvam.Response "c" None in
  let s := QueuedStt.run (QueuedStt.initial 0)
             [QueuedStt.evInitialized QueuedStt.initReady;
              QueuedStt.evStartListening;
              QueuedStt.evElapse 1000; QueuedStt.evProbability (9 # 10);
              QueuedStt.evElapse 1500; QueuedStt.evData 0 [Byte.x01];
              QueuedStt.evProbability (1 # 10);
              QueuedStt.evElapse 2250; QueuedStt.evStop 0;
              QueuedStt.evElapse 3000; QueuedStt.evProbability (9 # 10);
              QueuedStt.evElapse 3500; QueuedStt.evData 1 [Byte.x02];
              QueuedStt.evProbability (1 # 10);
              QueuedStt.evElapse 4250; QueuedStt.evStop 1;
              QueuedStt.evElapse 5000; QueuedStt.evProbability (9 # 10);
              QueuedStt.evElapse 5500; QueuedStt.evData 2 [Byte.x03];
              QueuedStt.evProbability (1 # 10);
              QueuedStt.evElapse 6250; QueuedStt.evStop 2;
              QueuedStt.evResponse 2 (Sarvam.json c);
              QueuedStt.evDecoded 0 None;
              QueuedStt.evResponse 2 (Sarvam.json c);
              QueuedStt.evResponse 0 (Sarvam.json a);
              QueuedStt.evDecoded 1 None;
              QueuedStt.evResponse 1 (Sarvam.json b);
              QueuedStt.evDecoded 2 None;
              QueuedStt.evResponse 2 (Sarvam.json c)] in
  QueuedStt.submitted s = [[Byte.x01]; [Byte.x02]; [Byte.x03]] ∧
  QueuedStt.mergedResponses (QueuedStt.processingQueueRef s) = [a; b; c] ∧
  QueuedStt.transcription s = Some (Sarvam.Response "a b c" None).
Proof.
  intros a b c s.
  destruct (transcript_follows_submission_order 0
              [QueuedStt.evInitialized QueuedStt.initReady;
               QueuedStt.evStartListening;
               QueuedStt.evElapse 1000; QueuedStt.evProbability (9 # 10);
               QueuedStt.evElapse 1500; QueuedStt.evData 0 [Byte.x01];
               QueuedStt.evProbability (1 # 10);
               QueuedStt.evElapse 2250; QueuedStt.evStop 0;
               QueuedStt.evElapse 3000; QueuedStt.evProbability (9 # 10);
               QueuedStt.evElapse 3500; QueuedStt.evData 1 [Byte.x02];
               QueuedStt.evProbability (1 # 10);
               QueuedStt.evElapse 4250; QueuedStt.evStop 1;
               QueuedStt.evElapse 5000; QueuedStt.evProbability (9 # 10);
               QueuedStt.evElapse 5500; QueuedStt.evData 2 [Byte.x03];
               QueuedStt.evProbability (1 # 10);
               QueuedStt.evElapse 6250; QueuedStt.evStop 2;
               QueuedStt.evResponse 2 (Sarvam.json c);
               QueuedStt.evDecoded 0 None;
               QueuedStt.evResponse 2 (Sarvam.json c);
               QueuedStt.evResponse 0 (Sarvam.json a);
               QueuedStt.evDecoded 1 None;
               QueuedStt.evResponse 1 (Sarvam.json b);
               QueuedStt.evDecoded 2 None;
               QueuedStt.evResponse 2 (Sarvam.json c)]) as [H _].
  fold s in H.
  assert (Hm : QueuedStt.mergedResponses (QueuedStt.processingQueueRef s)
               = [a; b; c]) by (vm_compute; reflexivity).
  split; [vm_compute; reflexivity|]. split; [exact Hm|].
  rewrite H, Hm. reflexivity.
Defined.

(** C5: in [QueuedStt], a reply that makes the request of a link fail
    (rejected fetch, status that is not ok, body that cannot be read)
    records the error message, leaves the transcript and the recording
    side as they were, settles the link and starts the link chained
    behind it; and once every link left has been answered, failing or
    not, all have settled and the transcript has gained the successful
    responses in order. *)
Theorem failed_job_does_not_block_queue :
  (∀ (s : QueuedStt.State) (k : nat) (j : QueuedStt.Job) (r : Sarvam.Reply)
     (err : Sarvam.Thrown),
     QueuedStt.chainInv s →
     is_Some (QueuedStt.audioContextRef s) →
     QueuedStt.processingQueueRef s !! k = Some j →
     QueuedStt.phase j = QueuedStt.fetching →
     QueuedStt.failureOf r = Some err →
     let s' := QueuedStt.responded k r s in
     QueuedStt.error s' = Some (Sarvam.messageOf err) ∧
     QueuedStt.transcription s' = QueuedStt.transcription s ∧
     QueuedStt.phase <$> QueuedStt.processingQueueRef s' !! k
     = Some (QueuedStt.settled None) ∧
     (∀ next, QueuedStt.processingQueueRef s !! S k = Some next →
              QueuedStt.phase <$> QueuedStt.processingQueueRef s' !! S k
              = Some QueuedStt.decoding) ∧
     QueuedStt.recordingView s' = QueuedStt.recordingView s)
  ∧
  (∀ (s : QueuedStt.State) (os : list QueuedStt.Outcome),
     QueuedStt.chainInv s →
     is_Some (QueuedStt.audioContextRef s) →
     length os = QueuedStt.unsettledCount (QueuedStt.processingQueueRef s) →
     let s' := fold_left QueuedStt.answer os s in
     QueuedStt.unsettledCount (QueuedStt.processingQueueRef s') = 0%nat ∧
     QueuedStt.transcription s'
     = fold_left (λ acc d, Some (Sarvam.appendTranscript acc d))
         (omap QueuedStt.succeeded os) (QueuedStt.transcription s)).
Proof.
  split.
  - intros s k j r err Hinv Hctx Hk Hp Hf s'.
    destruct Hinv as [Hw Htr].
    destruct (queued_running_located _ k j Hw Hk) as (done & ws & Hq & Hlen & Hd & Hws);
      [by rewrite Hp|].
    assert (Hs' : s' = QueuedStt.transcriptionFailed k err s).
    { unfold s', QueuedStt.responded. rewrite Hk, Hp.
      destruct r; simpl in Hf; congruence. }
    assert (Hq' : QueuedStt.processingQueueRef s'
                  = done ++ QueuedStt.mkJob (QueuedStt.clip j) (QueuedStt.settled None)
                         :: (QueuedStt.pump true ws).1).
    { rewrite Hs'. unfold QueuedStt.transcriptionFailed. rewrite <- Hlen.
      by apply (queued_settleJob_located done ws j). }
    pose proof (λ m x, queued_settleJob_frame k m x) as Hframe.
    split; [rewrite Hs'; unfold QueuedStt.transcriptionFailed;
            by rewrite (proj1 (Hframe _ _))|].
    split; [rewrite Hs'; unfold QueuedStt.transcriptionFailed;
            by rewrite (proj1 (proj2 (Hframe _ _)))|].
    split; [rewrite Hq', <- Hlen, lookup_app_r, Nat.sub_diag by lia; done|].
    split; [|rewrite Hs'; unfold QueuedStt.transcriptionFailed;
             by rewrite (proj2 (proj2 (Hframe _ _)))].
    intros next Hnext. rewrite Hq in Hnext. rewrite Hq'.
    rewrite <- Hlen in *.
    rewrite lookup_app_r in Hnext by lia. rewrite lookup_app_r by lia.
    replace (S (length done) - length done)%nat with 1%nat in * by lia.
    simpl in *. destruct ws as [|w ws']; [done|].
    inversion Hws as [|? ? Hwp _]; subst. simpl. by rewrite Hwp.
  - intros s os Hinv Hctx Hlen s'.
    destruct (queued_answers_drain os s Hinv Hctx Hlen) as (H1 & H2 & [_ H3]).
    fold s' in H1, H2, H3. split; [done|].
    rewrite H3, H2. destruct Hinv as [_ ->].
    unfold QueuedStt.mergeAll. by rewrite fold_left_app.
Qed.

(** C5, at an instance: two clips chained, the request of the first
    answered with status 500; then the second answered with a
    transcript. *)
Lemma failed_job_does_not_block_queue_witness :
  let s0 := QueuedStt.initializeVoiceDetector QueuedStt.initReady (QueuedStt.initial 0) in
  let s := QueuedStt.decoded 0 None
             (QueuedStt.processAndSendAudio [Byte.x02]
                (QueuedStt.processAndSendAudio [Byte.x01] s0)) in
  let s' := QueuedStt.responded 0 (Sarvam.httpStatus 500 "down") s in
  (QueuedStt.error s' = Some "API Error (500): down"%string ∧
   QueuedStt.transcription s' = None ∧
   QueuedStt.phase <$> QueuedStt.processingQueueRef s' !! 1%nat
   = Some QueuedStt.decoding)
  ∧
  QueuedStt.transcription
    (fold_left QueuedStt.answer
       [QueuedStt.replies (Sarvam.httpStatus 500 "down");
        QueuedStt.replies (Sarvam.json (Sarvam.Response "namaste" None))] s)
  = Some (Sarvam.Response "namaste" None).
Proof.
  intros s0 s s'.
  assert (Hinv : QueuedStt.chainInv s) by (split; reflexivity).
  assert (Hctx : is_Some (QueuedStt.audioContextRef s)) by (eexists; reflexivity).
  split.
  - destruct (proj1 failed_job_does_not_block_queue s 0%nat
                (QueuedStt.mkJob [Byte.x01] QueuedStt.fetching)
                (Sarvam.httpStatus 500 "down") (Sarvam.apiError 500 "down")
                Hinv Hctx eq_refl eq_refl eq_refl) as (H1 & H2 & _ & H4 & _).
    split; [exact H1|]. split; [exact H2|].
    exact (H4 (QueuedStt.mkJob [Byte.x02] QueuedStt.waiting) eq_refl).
  - exact (proj2 (proj2 failed_job_does_not_block_queue s
                    [QueuedStt.replies (Sarvam.httpStatus 500 "down");
                     QueuedStt.replies (Sarvam.json (Sarvam.Response "namaste" None))]
                    Hinv Hctx eq_refl)).
Defined.

(** Three clips chained while the first is still being decoded; the
    environment tries to deliver the replies in the order C, A, B.  A
    reply for a link whose request has not been sent finds nothing to
    settle, and the transcript comes out in the order A, B, C. *)
Example queued_three_clips_out_of_order :
  let a := Sarvam.Response "a" None in
  let b := Sarvam.Response "b" None in
  let c := Sarvam.Response "c" None in
  let s0 := QueuedStt.initializeVoiceDetector QueuedStt.initReady (QueuedStt.initial 0) in
  let s := QueuedStt.processAndSendAudio [Byte.x03]
             (QueuedStt.processAndSendAudio [Byte.x02]
                (QueuedStt.processAndSendAudio [Byte.x01] s0)) in
  Sarvam.transcript <$>
    QueuedStt.transcription
      (QueuedStt.run s
         [QueuedStt.evResponse 2 (Sarvam.json c);
          QueuedStt.evDecoded 0 None;
          QueuedStt.evResponse 2 (Sarvam.json c);
          QueuedStt.evResponse 0 (Sarvam.json a);
          QueuedStt.evDecoded 1 None;
          QueuedStt.evResponse 1 (Sarvam.json b);
          QueuedStt.evDecoded 2 None;
          QueuedStt.evResponse 2 (Sarvam.json c)])
  = Some "a b c"%string.
Proof. reflexivity. Qed.


(** What [Relay] does on overflow: an audio message that takes the
    buffer of a client over [MAX_BUFFER_SIZE] makes the handler send
    that client
    the error ["Failed to process message"] and nothing else: the client
    stays registered, its buffer keeps every chunk, the one that
    overflowed included, the processing timer is neither cleared nor
    armed, nothing is handed to [processAudio]; and whatever chunk comes
    next overflows again. *)
Lemma relay_overflow_reported_buffer_kept :
  ∀ (s : Relay.State) (clientId : string) (client : Relay.Client)
    (chunk : Relay.Buffer),
    Relay.clients s !! clientId = Some client →
    Relay.MAX_BUFFER_SIZE
      < Relay.totalSize (Relay.currentAudioBuffer client ++ [chunk]) →
    let s' := Relay.onMessage clientId (Relay.inAudio chunk) s in
    Relay.sent s'
    = Relay.sent s ++ [(clientId, Relay.outError "Failed to process message")] ∧
    Relay.clients s' !! clientId
    = Some (Relay.mkClient (Relay.isAlive client)
              (Relay.currentAudioBuffer client ++ [chunk])) ∧
    Relay.timers s' = Relay.timers s ∧
    Relay.audioProcessingTimeout s' = Relay.audioProcessingTimeout s ∧
    Relay.requests s' = Relay.requests s ∧
    (∀ chunk' : Relay.Buffer,
       Relay.MAX_BUFFER_SIZE
       < Relay.totalSize ((Relay.currentAudioBuffer client ++ [chunk]) ++ [chunk'])).
Proof.
  intros s clientId client chunk Hc Hover s'. subst s'.
  rewrite (relay_onMessage_overflow s clientId client chunk Hc Hover).
  unfold Relay.send. simpl.
  repeat split; try done.
  - by rewrite lookup_insert_eq.
  - intros chunk'. rewrite relay_totalSize_snoc. lia.
Qed.

(** At an instance: a first chunk of one byte more than the cap. *)
Lemma relay_overflow_reported_buffer_kept_witness :
  let s := Relay.onConnection "c1" (Relay.initial 0) in
  let s' := Relay.onMessage "c1"
              (Relay.inAudio (Relay.chunkOf (Relay.MAX_BUFFER_SIZE + 1))) s in
  Relay.sent s'
  = [("c1"%string, Relay.outConnected "c1");
     ("c1"%string, Relay.outError "Failed to process message")] ∧
  Relay.clients s' !! "c1"%string
  = Some (Relay.mkClient true [Relay.chunkOf (Relay.MAX_BUFFER_SIZE + 1)]) ∧
  Timers.pending (Relay.timers s') = [].
Proof.
  intros s s'.
  assert (Hc : Relay.clients s !! "c1"%string = Some (Relay.mkClient true []))
    by apply lookup_insert_eq.
  assert (Hover : Relay.MAX_BUFFER_SIZE
            < Relay.totalSize (Relay.currentAudioBuffer (Relay.mkClient true [])
                               ++ [Relay.chunkOf (Relay.MAX_BUFFER_SIZE + 1)])).
  { rewrite relay_totalSize_snoc, relay_chunkOf_length by done.
    unfold Relay.totalSize. simpl. lia. }
  destruct (relay_overflow_reported_buffer_kept s "c1"
              (Relay.mkClient true [])
              (Relay.chunkOf (Relay.MAX_BUFFER_SIZE + 1)) Hc Hover)
    as (H1 & H2 & H3 & _).
  split; [exact H1|]. split; [exact H2|].
  fold s' in H3. rewrite H3. reflexivity.
Defined.

(** Two audio messages, the first with a chunk of one byte more than the
    cap, the second with one more byte, whatever the bytes are. *)
Lemma relay_two_chunks_over_cap (big one : Relay.Buffer) :
  Z.of_nat (length big) = Relay.MAX_BUFFER_SIZE + 1 →
  Z.of_nat (length one) = 1 →
  let s := Relay.run (Relay.initial 0)
             [Relay.evConnection "c1";
              Relay.evMessage "c1" (Relay.inAudio big);
              Relay.evMessage "c1" (Relay.inAudio one)] in
  Relay.clients s !! "c1"%string = Some (Relay.mkClient true [big; one]) ∧
  Relay.bufferedSize "c1" s = Relay.MAX_BUFFER_SIZE + 2 ∧
  Relay.sent s
  = [("c1"%string, Relay.outConnected "c1");
     ("c1"%string, Relay.outError "Failed to process message");
     ("c1"%string, Relay.outError "Failed to process message")] ∧
  Timers.pending (Relay.timers s) = [].
Proof.
  intros Hbig Hone.
  set (s1 := Relay.onConnection "c1" (Relay.initial 0)).
  assert (Hc1 : Relay.clients s1 !! "c1"%string = Some (Relay.mkClient true []))
    by apply lookup_insert_eq.
  assert (Ho1 : Relay.MAX_BUFFER_SIZE
            < Relay.totalSize (Relay.currentAudioBuffer (Relay.mkClient true []) ++ [big])).
  { rewrite relay_totalSize_snoc, Hbig. unfold Relay.totalSize. simpl. lia. }
  pose proof (relay_onMessage_overflow s1 "c1" _ big Hc1 Ho1) as H2.
  set (s2 := Relay.onMessage "c1" (Relay.inAudio big) s1) in *.
  assert (Hc2 : Relay.clients s2 !! "c1"%string = Some (Relay.mkClient true [big])).
  { rewrite H2. simpl. apply lookup_insert_eq. }
  assert (Ho2 : Relay.MAX_BUFFER_SIZE
            < Relay.totalSize (Relay.currentAudioBuffer (Relay.mkClient true [big]) ++ [one])).
  { simpl. change [big; one] with ([big] ++ [one]).
    rewrite relay_totalSize_snoc. change [big] with ([] ++ [big]).
    rewrite relay_totalSize_snoc, Hbig, Hone. unfold Relay.totalSize. simpl. lia. }
  pose proof (relay_onMessage_overflow s2 "c1" _ one Hc2 Ho2) as H3.
  intros s.
  assert (Hs : s = Relay.onMessage "c1" (Relay.inAudio one) s2) by reflexivity.
  assert (Hcl : Relay.clients s !! "c1"%string
                = Some (Relay.mkClient true [big; one])).
  { rewrite Hs, H3. simpl. apply lookup_insert_eq. }
  split; [exact Hcl|].
  split.
  { unfold Relay.bufferedSize. rewrite Hcl. simpl.
    change [big; one] with ([big] ++ [one]).
    rewrite relay_totalSize_snoc. change [big] with ([] ++ [big]).
    rewrite relay_totalSize_snoc, Hbig, Hone. unfold Relay.totalSize. simpl. lia. }
  split; rewrite Hs, H3; simpl; rewrite H2; reflexivity.
Qed.

(** C9 at the failing input: the handler pushes the chunk before it
    checks the size of the buffer.  After a chunk of one byte more than
    the cap and then one more byte, the client is still registered and
    holds both chunks, two bytes over the cap; it was sent two errors,
    and no timer is pending that would ever empty the buffer. *)
Theorem relay_overflow_neither_resets_nor_closes :
  let s := Relay.run (Relay.initial 0)
             [Relay.evConnection "c1";
              Relay.evMessage "c1"
                (Relay.inAudio (Relay.chunkOf (Relay.MAX_BUFFER_SIZE + 1)));
              Relay.evMessage "c1" (Relay.inAudio (Relay.chunkOf 1))] in
  Relay.clients s !! "c1"%string
  = Some (Relay.mkClient true
            [Relay.chunkOf (Relay.MAX_BUFFER_SIZE + 1); Relay.chunkOf 1]) ∧
  Relay.bufferedSize "c1" s = Relay.MAX_BUFFER_SIZE + 2 ∧
  Relay.sent s
  = [("c1"%string, Relay.outConnected "c1");
     ("c1"%string, Relay.outError "Failed to process message");
     ("c1"%string, Relay.outError "Failed to process message")] ∧
  Timers.pending (Relay.timers s) = [].
Proof.
  exact (relay_two_chunks_over_cap
           (Relay.chunkOf (Relay.MAX_BUFFER_SIZE + 1)) (Relay.chunkOf 1)
           (relay_chunkOf_length (Relay.MAX_BUFFER_SIZE + 1)
              ltac:(unfold Relay.MAX_BUFFER_SIZE; lia))
           (relay_chunkOf_length 1 ltac:(lia))).
Qed.


(** * Starting a session while a transcription call is in flight *)




(** In [AwaitingStt] this does not depend on which [isProcessing] the
    handlers see: the recording flag alone keeps recording from
    starting. *)
Lemma awaiting_flag_blocks_start seen s :
  AwaitingStt.isRecordingRef s = true →
  AwaitingStt.recorders (AwaitingStt.handleVoiceDetected seen s)
  = AwaitingStt.recorders s.
Proof.
  intros H. unfold AwaitingStt.handleVoiceDetected.
  destruct (AwaitingStt.silenceTimeoutRef s); simpl; by rewrite H.
Qed.

(** * Overlapping sessions in [PauseVad] *)

(** The handlers of the detector see the [isRecording] of the render in
    which [startListening] ran; when that is [false], every call of
    [onVoiceStart] creates a recorder, whatever is recording. *)
Lemma pause_vad_start_always_creates s v :
  PauseVad.vadRef s = Some v → PauseVad.seenIsRecording v = false →
  is_Some (PauseVad.streamRef s) →
  Media.activeCount (PauseVad.recorders (PauseVad.onVoiceStart s))
  = S (Media.activeCount (PauseVad.recorders s)).
Proof.
  intros Hv Hseen [st Hst]. unfold PauseVad.onVoiceStart. rewrite Hv, Hseen.
  simpl. unfold PauseVad.startRecording, PauseVad.handleSpeech.
  destruct (PauseVad.pauseTimeoutRef s); simpl; rewrite Hst; simpl;
    unfold PauseVad.setIsRecording; destruct (Bool.eqb _ _); simpl;
    unfold Media.activeCount; rewrite List.filter_app, length_app; simpl; lia.
Qed.

(** C1 at the failing input: in [PauseVad], voice starts, pauses for
    less than [PAUSE_THRESHOLD] and starts again; the second start
    creates a second recorder while the first still records. *)
Theorem pause_vad_second_start_overlaps :
  let s := PauseVad.run (PauseVad.initial 1000)
             [PauseVad.evStartListening true; PauseVad.evVoiceStart;
              PauseVad.evElapse 2000; PauseVad.evVoiceStop;
              PauseVad.evElapse 2500; PauseVad.evVoiceStart] in
  Media.isRecordingAt (PauseVad.recorders s) 0 = true ∧
  Media.isRecordingAt (PauseVad.recorders s) 1 = true ∧
  Media.activeCount (PauseVad.recorders s) = 2%nat.
Proof. vm_compute. repeat split; reflexivity. Qed.

(** * Sessions without a bound in [ClipDetector] *)

(** C6 at the failing input: [ClipDetector] arms no timer for a maximum
    duration.  Voice from 1000 on without a gap, chunks of audio
    arriving, the clock run to 61000: the recorder created at 1000 is
    still the only one and still recording, sixty seconds into the
    session; no timer is pending that would stop it and no clip has been
    cut.  Under the same signal [QueuedStt] has stopped its recorder at
    4000, when [MAX_RECORDING_DURATION] had passed. *)
Theorem clip_continuous_voice_is_never_cut :
  let s := ClipDetector.run (ClipDetector.listeningAt 1000)
             [ClipDetector.evProbability (9 # 10);
              ClipDetector.evElapse 2000; ClipDetector.evData 0 [Byte.x01];
              ClipDetector.evProbability (9 # 10);
              ClipDetector.evElapse 4000; ClipDetector.evData 0 [Byte.x02];
              ClipDetector.evProbability (9 # 10);
              ClipDetector.evElapse 5000; ClipDetector.evProbability (9 # 10);
              ClipDetector.evElapse 61000; ClipDetector.evProbability (9 # 10)] in
  let q := QueuedStt.run (QueuedStt.listeningAt 1000)
             [QueuedStt.evProbability (9 # 10);
              QueuedStt.evElapse 2000; QueuedStt.evData 0 [Byte.x01];
              QueuedStt.evProbability (9 # 10);
              QueuedStt.evElapse 4000] in
  (length (ClipDetector.recorders s) = 1%nat ∧
   Media.isRecordingAt (ClipDetector.recorders s) 0 = true ∧
   ClipDetector.now s = 61000 ∧
   Timers.pending (ClipDetector.timers s) = [] ∧
   ClipDetector.audioClips s = []) ∧
  (Media.stateOf (QueuedStt.recorders q) 0 = Some Media.inactive ∧
   QueuedStt.now q = 4000).
Proof. vm_compute. repeat split; reflexivity. Qed.

(** * Teardown with a timer armed *)

(** C7 at the failing input: in [ClipDetector], the component is
    unmounted while the silence timer is armed; the timer stays pending,
    fires at its deadline, stops the recorder, and the stop handler then
    cuts a clip. *)
Theorem clip_unmount_leaves_silence_timer :
  let s := ClipDetector.run (ClipDetector.listeningAt 1000)
             [ClipDetector.evProbability (9 # 10); ClipDetector.evElapse 1500;
              ClipDetector.evData 0 [Byte.x01];
              ClipDetector.evProbability (1 # 10); ClipDetector.evUnmount] in
  let s' := ClipDetector.run s
              [ClipDetector.evElapse 3000; ClipDetector.evStop 0] in
  (Timers.pending (ClipDetector.timers s)
   = [Timers.Timer 1 3000 ClipDetector.silenceElapsed] ∧
   Media.isRecordingAt (ClipDetector.recorders s) 0 = true ∧
   ClipDetector.audioClips s = []) ∧
  (Timers.pending (ClipDetector.timers s') = [] ∧
   ClipDetector.silenceTimeoutRef s' = None ∧
   Media.isRecordingAt (ClipDetector.recorders s') 0 = false ∧
   length (ClipDetector.audioClips s') = 1%nat).
Proof. vm_compute. repeat split; reflexivity. Qed.

(** The same in [QueuedStt], for the maximum-duration timer. *)
Lemma queued_unmount_leaves_maximum_timer :
  let s := QueuedStt.run (QueuedStt.listeningAt 1000)
             [QueuedStt.evProbability (9 # 10); QueuedStt.evElapse 1500;
              QueuedStt.evData 0 [Byte.x01]; QueuedStt.evUnmount] in
  let s' := QueuedStt.run s [QueuedStt.evElapse 4000; QueuedStt.evStop 0] in
  Timers.pending (QueuedStt.timers s)
  = [Timers.Timer 1 4000 (QueuedStt.maxDurationElapsed 0)] ∧
  Media.isRecordingAt (QueuedStt.recorders s') 0 = false ∧
  QueuedStt.submitted s' = [[Byte.x01]].
Proof. vm_compute. repeat split; reflexivity. Qed.

(** [PauseVad] does cancel its timer: after [stopListening] nothing is
    pending, and the passing of time changes the clock only. *)
Lemma pause_vad_stopListening_cancels_timer s h d t :
  PauseVad.pauseTimeoutRef s = Some h →
  Timers.pending (PauseVad.timers s) = [Timers.Timer h d PauseVad.pauseElapsed] →
  Timers.pending (PauseVad.timers (PauseVad.stopListening s)) = [] ∧
  PauseVad.elapse t (PauseVad.stopListening s)
  = PauseVad.set_now (Z.max (PauseVad.now s) t) (PauseVad.stopListening s).
Proof.
  intros Hh Hp.
  assert (H0 : Timers.pending (PauseVad.timers (PauseVad.stopListening s)) = []).
  { unfold PauseVad.stopListening, PauseVad.setIsRecording.
    destruct (PauseVad.streamRef s); simpl;
      destruct (PauseVad.audioContextRef s); simpl;
      destruct (PauseVad.vadRef s); simpl; rewrite Hh; simpl;
      destruct (Bool.eqb _ _); simpl; rewrite Hp; simpl;
      by rewrite Nat.eqb_refl. }
  split; [done|].
  unfold PauseVad.elapse. rewrite H0. simpl.
  f_equal. f_equal.
  unfold PauseVad.stopListening, PauseVad.setIsRecording.
  destruct (PauseVad.streamRef s); simpl;
    destruct (PauseVad.audioContextRef s); simpl;
    destruct (PauseVad.vadRef s); simpl; rewrite Hh; simpl;
    by destruct (Bool.eqb _ _).
Qed.


(** * Worked runs *)

(** [ClipDetector]: voice from 1000 to 3000, a dip until 3300, voice
    until 5000, then silence.  One recorder is created; it is stopped by
    the silence timer at 6600, one debounce period after the first
    silent sample, and one clip of 5.6 s is cut. *)
Example clip_dip_inside_voiced_region :
  let s := ClipDetector.run (ClipDetector.listeningAt 1000)
             [ClipDetector.evProbability (9 # 10);
              ClipDetector.evElapse 2000; ClipDetector.evData 0 [Byte.x01];
              ClipDetector.evProbability (9 # 10);
              ClipDetector.evElapse 3000; ClipDetector.evData 0 [Byte.x02];
              ClipDetector.evProbability (1 # 10);
              ClipDetector.evElapse 3200; ClipDetector.evProbability (5 # 100);
              ClipDetector.evElapse 3300; ClipDetector.evProbability (8 # 10);
              ClipDetector.evElapse 4000; ClipDetector.evData 0 [Byte.x03];
              ClipDetector.evProbability (9 # 10);
              ClipDetector.evElapse 5000; ClipDetector.evData 0 [Byte.x04];
              ClipDetector.evProbability (9 # 10);
              ClipDetector.evElapse 5100; ClipDetector.evProbability (1 # 10);
              ClipDetector.evElapse 6000; ClipDetector.evData 0 [Byte.x05];
              ClipDetector.evProbability (1 # 10);
              ClipDetector.evElapse 6600; ClipDetector.evStop 0] in
  length (ClipDetector.recorders s) = 1%nat ∧
  ClipDetector.audioClips s
  = [ClipDetector.Clip 6600
       [Byte.x01; Byte.x02; Byte.x03; Byte.x04; Byte.x05] 6600 (5600 # 1000)] ∧
  ClipDetector.isRecordingRef s = false.
Proof. vm_compute. repeat split; reflexivity. Qed.

(** [ClipDetector]: a voiced run of 200 ms is not a session of 200 ms.
    The recorder is stopped by the silence timer, one debounce period
    after the silence began, so the session lasts 1700 ms and its clip
    is kept. *)
Example clip_short_voiced_run_is_kept :
  let s := ClipDetector.run (ClipDetector.listeningAt 1000)
             [ClipDetector.evProbability (9 # 10);
              ClipDetector.evElapse 1200; ClipDetector.evProbability (1 # 10);
              ClipDetector.evElapse 1500; ClipDetector.evData 0 [Byte.x01];
              ClipDetector.evElapse 2700; ClipDetector.evStop 0] in
  ClipDetector.duration <$> ClipDetector.audioClips s = [(1700 # 1000)%Q].
Proof. vm_compute. reflexivity. Qed.

(** [ClipDetector] has no maximum duration: under voiced samples alone
    the recorder of the region goes on recording, here after 60 s. *)
Example clip_voiced_minute_still_recording :
  let s := ClipDetector.feedAll (ClipDetector.listeningAt 1000)
             [Media.sample 1000 (9 # 10); Media.sample 21000 (9 # 10);
              Media.sample 41000 (9 # 10); Media.sample 61000 (9 # 10)] in
  Media.isRecordingAt (ClipDetector.recorders s) 0 = true ∧
  ClipDetector.now s = 61000.
Proof. vm_compute. repeat split; reflexivity. Qed.

(** [QueuedStt]: voice without a gap from 1000 to 5000.  The first
    recorder is stopped by the maximum-duration timer at 4000, its clip
    is handed to transcription, and the next voiced sample starts a
    second recorder. *)
Example queued_continuous_voice_is_cut :
  let s := QueuedStt.run (QueuedStt.listeningAt 1000)
             [QueuedStt.evProbability (9 # 10);
              QueuedStt.evElapse 2000; QueuedStt.evData 0 [Byte.x01];
              QueuedStt.evProbability (9 # 10);
              QueuedStt.evElapse 3000; QueuedStt.evData 0 [Byte.x02];
              QueuedStt.evProbability (9 # 10);
              QueuedStt.evElapse 4000; QueuedStt.evData 0 [Byte.x03];
              QueuedStt.evStop 0;
              QueuedStt.evProbability (9 # 10);
              QueuedStt.evElapse 5000; QueuedStt.evProbability (9 # 10)] in
  QueuedStt.submitted s = [[Byte.x01; Byte.x02; Byte.x03]] ∧
  Media.stateOf (QueuedStt.recorders s) 0 = Some Media.inactive ∧
  Media.isRecordingAt (QueuedStt.recorders s) 1 = true ∧
  QueuedStt.recordingStartTimeRef s = Some 4000.
Proof. vm_compute. repeat split; reflexivity. Qed.


(** * [Wav]: bytes and writes *)

Section WavBytes.
Import Wav.

Lemma wav_byteValue_range b : 0 ≤ byteValue b < 256.
Proof.
  unfold byteValue. pose proof (Byte.to_N_bounded b). lia.
Qed.

Lemma wav_byteValue_u8 z : byteValue (u8 z) = z mod 256.
Proof.
  unfold byteValue, u8.
  pose proof (Z.mod_pos_bound z 256 ltac:(lia)) as Hr.
  destruct (Byte.of_N (Z.to_N (z mod 256))) as [b|] eqn:Hb.
  - apply Byte.to_of_N in Hb. rewrite Hb. lia.
  - apply Byte.of_N_None_iff in Hb. lia.
Qed.

Lemma wav_u8_byteValue b : u8 (byteValue b) = b.
Proof.
  unfold u8, byteValue. pose proof (Byte.to_N_bounded b).
  rewrite Z.mod_small by lia. rewrite N2Z.id. by rewrite Byte.of_to_N.
Qed.

Lemma wav_u8_ascii c : u8 (Z.of_N (Ascii.N_of_ascii c)) = Ascii.byte_of_ascii c.
Proof.
  unfold u8. pose proof (Ascii.N_ascii_bounded c).
  rewrite Z.mod_small by lia. rewrite N2Z.id.
  by rewrite <- Ascii.byte_of_ascii_via_N.
Qed.

Lemma wav_littleEndian_length n : ∀ v, length (littleEndian n v) = n.
Proof. induction n as [|n IH]; intros v; simpl; [done|]. by rewrite IH. Qed.

Lemma wav_littleEndian_round_trip n : ∀ v,
  fromLittleEndian (littleEndian n v) = v mod 256 ^ Z.of_nat n.
Proof.
  induction n as [|n IH]; intros v.
  - simpl. by rewrite Z.mod_1_r.
  - cbn [littleEndian fromLittleEndian]. rewrite wav_byteValue_u8, IH.
    rewrite Nat2Z.inj_succ, Z.pow_succ_r by lia.
    rewrite Z.rem_mul_r by lia. lia.
Qed.

Lemma wav_charCodes_length str : length (charCodes str) = String.length str.
Proof. induction str as [|c str IH]; simpl; [done|]. by rewrite IH. Qed.

Lemma wav_setBytes_fits view off bs :
  (off + length bs ≤ length view)%nat →
  setBytes view off bs = Some (list_inserts off bs view).
Proof. intros H. unfold setBytes. by rewrite decide_True. Qed.

(** A write over the bytes that follow a prefix. *)
Lemma wav_setBytes_after pre old bs rest :
  length old = length bs →
  setBytes (pre ++ old ++ rest) (length pre) bs = Some (pre ++ bs ++ rest).
Proof.
  intros Hl. rewrite wav_setBytes_fits.
  - f_equal. rewrite <- (Nat.add_0_r (length pre)), list_inserts_app_r.
    f_equal. by apply list_inserts_0_r.
  - rewrite !length_app. lia.
Qed.

Lemma wav_writeString_after str : ∀ pre old rest,
  length old = String.length str →
  writeString (pre ++ old ++ rest) (length pre) str
  = Some (pre ++ charCodes str ++ rest).
Proof.
  induction str as [|c str IH]; intros pre old rest Hl.
  - destruct old; [done|discriminate].
  - destruct old as [|o old]; [discriminate|]. simpl in Hl.
    cbn [writeString charCodes]. unfold setUint8. cbn [littleEndian].
    rewrite (wav_setBytes_after pre [o] [u8 _] (old ++ rest)) by done.
    cbn [mbind option_bind]. rewrite wav_u8_ascii.
    replace (S (length pre)) with (length (pre ++ [Ascii.byte_of_ascii c]))
      by (rewrite length_app; simpl; lia).
    replace (pre ++ [Ascii.byte_of_ascii c] ++ old ++ rest)
      with ((pre ++ [Ascii.byte_of_ascii c]) ++ old ++ rest)
      by (by rewrite <- app_assoc).
    rewrite IH by lia. by rewrite <- app_assoc.
Qed.

Lemma wav_floatTo16BitPCM_after xs : ∀ pre old,
  length old = (2 * length xs)%nat →
  floatTo16BitPCM (pre ++ old) (length pre) xs = Some (pre ++ pcmBytes xs).
Proof.
  induction xs as [|x xs IH]; intros pre old Hl.
  - destruct old; [|simpl in Hl; lia].
    unfold pcmBytes. simpl. by rewrite !app_nil_r.
  - destruct old as [|a [|b old]]; simpl in Hl; try lia.
    cbn [floatTo16BitPCM]. unfold setInt16.
    rewrite (wav_setBytes_after pre [a; b] _ old)
      by (by rewrite wav_littleEndian_length).
    cbn [mbind option_bind].
    replace (length pre + 2)%nat
      with (length (pre ++ littleEndian 2 (ToInt16 (scaled x))))
      by (rewrite length_app, wav_littleEndian_length; lia).
    rewrite app_assoc, IH by lia.
    unfold pcmBytes. cbn [map concat]. by rewrite <- app_assoc.
Qed.

Lemma wav_copyChannels_after frames chs : ∀ (pre old : list Number),
  Forall (λ c, length c = frames) chs →
  length old = (frames * length chs)%nat →
  copyChannels (pre ++ old) (length pre) frames chs = Some (pre ++ concat chs).
Proof.
  induction chs as [|c chs IH]; intros pre old Hwf Hl.
  - simpl in Hl. rewrite Nat.mul_0_r in Hl.
    destruct old; [|simpl in Hl; lia]. simpl. by rewrite !app_nil_r.
  - inversion Hwf as [|? ? Hc Hrest]; subst.
    cbn [copyChannels]. unfold typedArraySet.
    simpl in Hl.
    rewrite <- (take_drop (length c) old).
    assert (Ht : length (take (length c) old) = length c)
      by (rewrite length_take; lia).
    rewrite decide_True by (rewrite !length_app, Ht; lia).
    rewrite <- (Nat.add_0_r (length pre)) at 1.
    rewrite list_inserts_app_r, list_inserts_0_r by done.
    cbn [mbind option_bind].
    replace (length pre + length c)%nat with (length (pre ++ c))
      by (by rewrite length_app).
    rewrite app_assoc, IH; [by rewrite <- app_assoc|done|].
    rewrite length_drop. lia.
Qed.

Lemma wav_pcmBytes_length xs : length (pcmBytes xs) = (2 * length xs)%nat.
Proof.
  unfold pcmBytes. induction xs as [|x xs IH]; [done|].
  cbn [map concat]. rewrite length_app, IH, wav_littleEndian_length.
  simpl. lia.
Qed.

Lemma wav_planar_length b :
  wellFormed b →
  length (planar b) = (bufferLength b * numberOfChannels b)%nat.
Proof.
  unfold wellFormed, planar, numberOfChannels.
  induction (channels b) as [|c chs IH]; intros H; simpl; [lia|].
  inversion H; subst. rewrite length_app, IH by done. lia.
Qed.

Lemma wav_header_length b : length (header b) = 44%nat.
Proof. reflexivity. Qed.

End WavBytes.


(** * [Wav]: the file that [bufferToWav] builds *)

Section WavFile.
Import Wav.

Lemma wav_inserts_split {A} (bs view : list A) off :
  (off + length bs ≤ length view)%nat →
  list_inserts off bs view
  = take off view ++ bs ++ drop (off + length bs) view.
Proof.
  intros H.
  rewrite <- (take_drop off view) at 1.
  rewrite <- (take_drop (length bs) (drop off view)) at 1.
  assert (Ht : length (take off view) = off) by (rewrite length_take; lia).
  rewrite <- Ht at 1. rewrite <- (Nat.add_0_r (length (take off view))).
  rewrite list_inserts_app_r. f_equal.
  rewrite list_inserts_0_r by (rewrite length_take, length_drop; lia).
  f_equal. rewrite drop_drop. done.
Qed.

Lemma wav_writeString_fits view off str :
  (off + String.length str ≤ length view)%nat →
  writeString view off str = Some (list_inserts off (charCodes str) view).
Proof.
  intros H.
  rewrite wav_inserts_split by (rewrite wav_charCodes_length; lia).
  assert (Ht : length (take off view) = off) by (rewrite length_take; lia).
  assert (Hm : length (take (String.length str) (drop off view))
               = String.length str)
    by (rewrite length_take, length_drop; lia).
  pose proof (wav_writeString_after str (take off view)
                (take (String.length str) (drop off view))
                (drop (String.length str) (drop off view)) Hm) as Hw.
  rewrite !take_drop, Ht in Hw. rewrite Hw.
  by rewrite drop_drop, wav_charCodes_length.
Qed.

(** The thirteen writes of the header into a fresh buffer. *)
Lemma wav_header_writes b :
  let length := dataLength b in
  let numOfChan := numberOfChannels b in
  (view ← writeString (newArrayBuffer (44 + length)) 0 "RIFF";
   view ← setUint32 view 4 (36 + Z.of_nat length);
   view ← writeString view 8 "WAVE";
   view ← writeString view 12 "fmt ";
   view ← setUint32 view 16 16;
   view ← setUint16 view 20 1;
   view ← setUint16 view 22 (Z.of_nat numOfChan);
   view ← setUint32 view 24 (sampleRate b);
   view ← setUint32 view 28 (sampleRate b * Z.of_nat numOfChan * 2);
   view ← setUint16 view 32 (Z.of_nat numOfChan * 2);
   view ← setUint16 view 34 16;
   view ← writeString view 36 "data";
   setUint32 view 40 (Z.of_nat length))
  = Some (header b ++ replicate length Byte.x00).
Proof.
  intros length numOfChan. unfold newArrayBuffer.
  unfold setUint32, setUint16.
  repeat first
    [ rewrite wav_writeString_fits
        by (rewrite ?length_inserts, length_replicate; simpl; lia)
    | rewrite wav_setBytes_fits
        by (rewrite ?length_inserts, length_replicate, wav_littleEndian_length;
            lia)
    | progress cbn [mbind option_bind] ].
  reflexivity.
Qed.

(** The file is the header followed by the samples of the channels,
    one channel after the other, two bytes each. *)
Lemma wav_closed_form b :
  wellFormed b →
  bufferToWav b = Some (header b ++ pcmBytes (planar b)).
Proof.
  intros Hwf. unfold bufferToWav.
  pose proof (wav_header_writes b) as Hh. cbn zeta in Hh.
  unfold dataLength in Hh.
  change (0 + 4)%nat with 4%nat. change (4 + 4)%nat with 8%nat.
  change (8 + 4)%nat with 12%nat. change (12 + 4)%nat with 16%nat.
  change (16 + 4)%nat with 20%nat. change (20 + 2)%nat with 22%nat.
  change (22 + 2)%nat with 24%nat. change (24 + 4)%nat with 28%nat.
  change (28 + 4)%nat with 32%nat. change (32 + 2)%nat with 34%nat.
  change (34 + 2)%nat with 36%nat. change (36 + 4)%nat with 40%nat.
  destruct (writeString (newArrayBuffer _) 0 "RIFF") as [v1|]; [|done].
  cbn [mbind option_bind] in Hh |- *.
  destruct (setUint32 v1 4 _) as [v2|]; [|done].
  cbn [mbind option_bind] in Hh |- *.
  destruct (writeString v2 8 "WAVE") as [v3|]; [|done].
  cbn [mbind option_bind] in Hh |- *.
  destruct (writeString v3 12 "fmt ") as [v4|]; [|done].
  cbn [mbind option_bind] in Hh |- *.
  destruct (setUint32 v4 16 16) as [v5|]; [|done].
  cbn [mbind option_bind] in Hh |- *.
  destruct (setUint16 v5 20 1) as [v6|]; [|done].
  cbn [mbind option_bind] in Hh |- *.
  destruct (setUint16 v6 22 _) as [v7|]; [|done].
  cbn [mbind option_bind] in Hh |- *.
  destruct (setUint32 v7 24 _) as [v8|]; [|done].
  cbn [mbind option_bind] in Hh |- *.
  destruct (setUint32 v8 28 _) as [v9|]; [|done].
  cbn [mbind option_bind] in Hh |- *.
  destruct (setUint16 v9 32 _) as [v10|]; [|done].
  cbn [mbind option_bind] in Hh |- *.
  destruct (setUint16 v10 34 16) as [v11|]; [|done].
  cbn [mbind option_bind] in Hh |- *.
  destruct (writeString v11 36 "data") as [v12|]; [|done].
  cbn [mbind option_bind] in Hh |- *.
  rewrite Hh. cbn [mbind option_bind].
  pose proof (wav_copyChannels_after (bufferLength b) (channels b) []
                (replicate (bufferLength b * numberOfChannels b) (Finite 0))
                Hwf) as Hc.
  rewrite length_replicate in Hc. specialize (Hc eq_refl).
  cbn [app length] in Hc. rewrite Hc. cbn [mbind option_bind].
  apply (wav_floatTo16BitPCM_after (planar b) (header b)).
  rewrite length_replicate, wav_planar_length by done. lia.
Qed.

End WavFile.


(** * [Wav]: the conversion of one sample *)

Section WavSample.
Import Wav.

Lemma wav_Qle_bool_Z (p q : Q) :
  Qle_bool p q = (Qnum p * Zpos (Qden q) <=? Qnum q * Zpos (Qden p)).
Proof. reflexivity. Qed.

Lemma wav_ToInt16_small q :
  -32768 ≤ truncate q ≤ 32767 → ToInt16 (Finite q) = truncate q.
Proof.
  intros H. unfold ToInt16. cbn zeta.
  destruct (Z.leb_spec 0 (truncate q)).
  - rewrite Z.mod_small by lia. destruct (Z.leb_spec 32768 (truncate q)); lia.
  - replace (truncate q mod 65536) with (truncate q + 65536).
    + destruct (Z.leb_spec 32768 (truncate q + 65536)); lia.
    + apply Z.mod_unique with (q := -1); lia.
Qed.

Lemma wav_truncate_times q k :
  truncate (q * (Zpos k # 1)) = Z.quot (Qnum q * Zpos k) (Zpos (Qden q)).
Proof.
  unfold truncate. destruct q as [n d]. cbn [Qmult Qnum Qden].
  by rewrite Pos.mul_1_r.
Qed.

Lemma wav_pcm16_finite q :
  pcm16 (Finite q) = saturated (Qnum q) (Zpos (Qden q)).
Proof.
  unfold pcm16, scaled, saturated.
  destruct q as [n d]. cbn [Qnum Qden].
  cbn [Math_min]. rewrite wav_Qle_bool_Z. cbn [Qnum Qden].
  rewrite Z.mul_1_l, Z.mul_1_r.
  destruct (Z.leb_spec (Zpos d) n) as [H1|H1].
  - reflexivity.
  - cbn [Math_max]. rewrite wav_Qle_bool_Z. cbn [Qnum Qden].
    rewrite Z.mul_1_r.
    replace (-1 * Z.pos d) with (- Z.pos d) by lia.
    destruct (Z.leb_spec n (- Zpos d)) as [H2|H2].
    + destruct (Z.leb_spec (- Z.pos d) n) as [H3|H3].
      * assert (n = - Z.pos d) by lia. subst n.
        cbn [isNegative]. rewrite wav_Qle_bool_Z. cbn [Qnum Qden].
        destruct (Z.leb_spec (0 * Z.pos d) (- Z.pos d * 1)); [lia|].
        cbn [negb times]. rewrite wav_ToInt16_small;
          rewrite wav_truncate_times; cbn [Qnum Qden];
          replace (- Z.pos d * 32768) with ((-32768) * Z.pos d) by lia;
          rewrite Z.quot_mul by lia; lia.
      * reflexivity.
    + destruct (Z.leb_spec (- Z.pos d) n) as [H3|H3]; [|lia].
      cbn [isNegative]. rewrite wav_Qle_bool_Z. cbn [Qnum Qden].
      rewrite Z.mul_0_l, Z.mul_1_r.
      destruct (Z.leb_spec 0 n) as [H4|H4]; cbn [negb times].
      * assert (Hq : Z.quot (n * 32767) (Z.pos d) = (n * 32767) / Z.pos d)
          by (apply Z.quot_div_nonneg; lia).
        assert (0 ≤ (n * 32767) / Z.pos d < 32767).
        { split; [apply Z.div_pos; lia|].
          apply Z.div_lt_upper_bound; lia. }
        rewrite wav_ToInt16_small; rewrite wav_truncate_times;
          cbn [Qnum Qden]; rewrite Hq; lia.
      * assert (Hq : Z.quot (n * 32768) (Z.pos d)
                     = - ((- n * 32768) / Z.pos d)).
        { replace (n * 32768) with (- (- n * 32768)) by lia.
          rewrite Z.quot_opp_l by lia.
          rewrite Z.quot_div_nonneg by lia. done. }
        assert (0 ≤ (- n * 32768) / Z.pos d < 32768).
        { split; [apply Z.div_pos; lia|].
          apply Z.div_lt_upper_bound; lia. }
        rewrite wav_ToInt16_small; rewrite wav_truncate_times;
          cbn [Qnum Qden]; rewrite Hq; lia.
Qed.

Lemma wav_saturated_range n d :
  0 < d → -32768 ≤ saturated n d ≤ 32767.
Proof.
  intros Hd. unfold saturated.
  destruct (Z.leb_spec d n); [lia|].
  destruct (Z.leb_spec n (- d)); [lia|].
  destruct (Z.leb_spec 0 n).
  - assert (0 ≤ (n * 32767) / d < 32767); [|lia].
    split; [apply Z.div_pos; lia|apply Z.div_lt_upper_bound; lia].
  - assert (0 ≤ (- n * 32768) / d < 32768); [|lia].
    split; [apply Z.div_pos; lia|apply Z.div_lt_upper_bound; lia].
Qed.

Lemma wav_pcm16_range x : -32768 ≤ pcm16 x ≤ 32767.
Proof.
  destruct x as [|[]|q].
  - vm_compute; split; discriminate.
  - vm_compute; split; discriminate.
  - vm_compute; split; discriminate.
  - rewrite wav_pcm16_finite. apply wav_saturated_range. lia.
Qed.

(** The floor of a nonnegative fraction grows with the fraction. *)
Lemma wav_div_le_cross a b c d k :
  0 < b → 0 < d → 0 ≤ k → 0 ≤ a → a * d ≤ c * b →
  (a * k) / b ≤ (c * k) / d.
Proof.
  intros Hb Hd Hk Ha Hle.
  apply Z.div_le_lower_bound; [lia|].
  pose proof (Z.mul_div_le (a * k) b Hb) as Hr.
  assert (0 ≤ (a * k) / b) by (apply Z.div_pos; nia).
  apply Z.mul_le_mono_pos_l with (p := b); [lia|]. nia.
Qed.

Lemma wav_saturated_monotone n1 d1 n2 d2 :
  0 < d1 → 0 < d2 → n1 * d2 ≤ n2 * d1 →
  saturated n1 d1 ≤ saturated n2 d2.
Proof.
  intros H1 H2 Hle.
  pose proof (wav_saturated_range n1 d1 H1) as R1.
  pose proof (wav_saturated_range n2 d2 H2) as R2.
  unfold saturated in *.
  destruct (Z.leb_spec d2 n2); [lia|].
  destruct (Z.leb_spec d1 n1); [nia|].
  destruct (Z.leb_spec n1 (- d1)); [lia|].
  destruct (Z.leb_spec n2 (- d2)); [nia|].
  destruct (Z.leb_spec 0 n1), (Z.leb_spec 0 n2).
  - apply wav_div_le_cross; lia.
  - nia.
  - assert (0 ≤ (n2 * 32767) / d2) by (apply Z.div_pos; lia).
    assert (0 ≤ (- n1 * 32768) / d1) by (apply Z.div_pos; lia). lia.
  - apply Z.opp_le_mono. rewrite !Z.opp_involutive.
    apply wav_div_le_cross; lia.
Qed.

End WavSample.


(** * [Wav]: what a reader of the file finds *)

Section WavReader.
Import Wav.

Lemma wav_getBytes_header b rest off n :
  (off + n ≤ 44)%nat →
  getBytes (header b ++ rest) off n = Some (take n (drop off (header b))).
Proof.
  intros H. unfold getBytes.
  rewrite decide_True by (rewrite length_app, wav_header_length; lia).
  f_equal. rewrite drop_app_le by (rewrite wav_header_length; lia).
  rewrite take_app_le; [done|].
  rewrite length_drop, wav_header_length. lia.
Qed.

Lemma wav_concat_lookup {A} (frames : nat) (chs : list (list A)) :
  ∀ c ch i x,
    Forall (λ l, length l = frames) chs →
    chs !! c = Some ch → ch !! i = Some x →
    concat chs !! (c * frames + i)%nat = Some x.
Proof.
  induction chs as [|l chs IH]; intros c ch i x Hwf Hc Hi; [done|].
  inversion Hwf as [|? ? Hl Hrest]; subst.
  destruct c as [|c]; simpl in Hc.
  - injection Hc as ->. simpl. by apply lookup_app_l_Some.
  - simpl. rewrite lookup_app_r by lia.
    replace (length l + c * length l + i - length l)%nat
      with (c * length l + i)%nat by lia.
    by eapply IH.
Qed.

Lemma wav_pcmBytes_at xs : ∀ k x,
  xs !! k = Some x →
  take 2 (drop (2 * k) (pcmBytes xs)) = littleEndian 2 (pcm16 x).
Proof.
  induction xs as [|y xs IH]; intros k x Hk; [done|].
  destruct k as [|k]; simpl in Hk.
  - by injection Hk as ->.
  - replace (2 * S k)%nat with (2 + 2 * k)%nat by lia.
    unfold pcmBytes. cbn [map concat littleEndian app].
    cbn [Nat.add drop]. by apply IH.
Qed.

Lemma wav_int16_round_trip v :
  -32768 ≤ v ≤ 32767 →
  (let u := fromLittleEndian (littleEndian 2 v) in
   if 32768 <=? u then u - 65536 else u) = v.
Proof.
  intros H. cbn zeta. rewrite wav_littleEndian_round_trip.
  change (256 ^ Z.of_nat 2) with 65536.
  destruct (Z.leb_spec 0 v).
  - rewrite Z.mod_small by lia. destruct (Z.leb_spec 32768 v); lia.
  - replace (v mod 65536) with (v + 65536)
      by (apply Z.mod_unique with (q := -1); lia).
    destruct (Z.leb_spec 32768 (v + 65536)); lia.
Qed.

Lemma wav_fillSamples_after xs : ∀ pre old,
  length old = length xs →
  fillSamples (pre ++ old) (length pre) xs = pre ++ map pcm16 xs.
Proof.
  induction xs as [|x xs IH]; intros pre old Hl.
  - destruct old; [|discriminate]. done.
  - destruct old as [|o old]; [discriminate|]. simpl in Hl.
    cbn [fillSamples map].
    rewrite insert_app_r_alt by lia. rewrite Nat.sub_diag. cbn [insert list_insert].
    replace (S (length pre)) with (length (pre ++ [ToInt16 (scaled x)]))
      by (rewrite length_app; simpl; lia).
    replace (pre ++ ToInt16 (scaled x) :: old)
      with ((pre ++ [ToInt16 (scaled x)]) ++ old) by (by rewrite <- app_assoc).
    rewrite IH by lia. by rewrite <- app_assoc.
Qed.

End WavReader.

(** X1: on a well-formed audio buffer [bufferToWav] throws nothing and
    returns a file of 44 header bytes followed by two bytes for every
    sample of every channel. *)
Theorem wav_file_size (b : Wav.AudioBuffer) :
  Wav.wellFormed b →
  ∃ wav, Wav.bufferToWav b = Some wav ∧
         length wav
         = (44 + 2 * (Wav.bufferLength b * Wav.numberOfChannels b))%nat.
Proof.
  intros Hwf. eexists. split; [by apply wav_closed_form|].
  rewrite length_app, wav_header_length, wav_pcmBytes_length,
    wav_planar_length by done. done.
Qed.

(** X1, at an instance: a stereo buffer of three frames gives 56
    bytes. *)
Lemma wav_file_size_witness :
  ∃ wav, Wav.bufferToWav Wav.stereoExample = Some wav ∧
         length wav
         = (44 + 2 * (Wav.bufferLength Wav.stereoExample
                      * Wav.numberOfChannels Wav.stereoExample))%nat.
Proof.
  apply (wav_file_size Wav.stereoExample). repeat constructor.
Defined.

(** X2: the fields of the header read back, little-endian, as the
    values written: the four tags, PCM format 1, the channel count, the
    sample rate, the byte rate, the block size, 16 bits per sample, and
    the two sizes, each modulo the width of its field; and while the
    file is shorter than 2^32 bytes the RIFF size is the file length
    less 8 and the data size the file length less 44. *)
Theorem wav_header_round_trip (b : Wav.AudioBuffer) :
  Wav.wellFormed b →
  ∃ wav, Wav.bufferToWav b = Some wav ∧
    Wav.getBytes wav 0 4 = Some (Wav.charCodes "RIFF") ∧
    Wav.getUint32 wav 4
    = Some ((36 + Z.of_nat (Wav.dataLength b)) mod 2 ^ 32) ∧
    Wav.getBytes wav 8 4 = Some (Wav.charCodes "WAVE") ∧
    Wav.getBytes wav 12 4 = Some (Wav.charCodes "fmt ") ∧
    Wav.getUint32 wav 16 = Some 16 ∧
    Wav.getUint16 wav 20 = Some 1 ∧
    Wav.getUint16 wav 22
    = Some (Z.of_nat (Wav.numberOfChannels b) mod 2 ^ 16) ∧
    Wav.getUint32 wav 24 = Some (Wav.sampleRate b mod 2 ^ 32) ∧
    Wav.getUint32 wav 28
    = Some ((Wav.sampleRate b * Z.of_nat (Wav.numberOfChannels b) * 2)
            mod 2 ^ 32) ∧
    Wav.getUint16 wav 32
    = Some ((Z.of_nat (Wav.numberOfChannels b) * 2) mod 2 ^ 16) ∧
    Wav.getUint16 wav 34 = Some 16 ∧
    Wav.getBytes wav 36 4 = Some (Wav.charCodes "data") ∧
    Wav.getUint32 wav 40 = Some (Z.of_nat (Wav.dataLength b) mod 2 ^ 32) ∧
    (Z.of_nat (length wav) < 2 ^ 32 →
     Wav.getUint32 wav 4 = Some (Z.of_nat (length wav) - 8) ∧
     Wav.getUint32 wav 40 = Some (Z.of_nat (length wav) - 44)).
Proof.
  intros Hwf. eexists. split; [by apply wav_closed_form|].
  assert (Hlen : length (Wav.header b ++ Wav.pcmBytes (Wav.planar b))
                 = (44 + Wav.dataLength b)%nat).
  { rewrite length_app, wav_header_length, wav_pcmBytes_length,
      wav_planar_length by done. unfold Wav.dataLength. lia. }
  unfold Wav.getUint32, Wav.getUint16.
  rewrite !wav_getBytes_header by lia.
  assert (H4 : Wav.fromLittleEndian
                 <$> Some (take 4 (drop 4 (Wav.header b)))
               = Some ((36 + Z.of_nat (Wav.dataLength b)) mod 2 ^ 32)).
  { change (take 4 (drop 4 (Wav.header b)))
      with (Wav.littleEndian 4 (36 + Z.of_nat (Wav.dataLength b))).
    cbn [fmap option_fmap option_map]. by rewrite wav_littleEndian_round_trip. }
  assert (H40 : Wav.fromLittleEndian
                  <$> Some (take 4 (drop 40 (Wav.header b)))
                = Some (Z.of_nat (Wav.dataLength b) mod 2 ^ 32)).
  { change (take 4 (drop 40 (Wav.header b)))
      with (Wav.littleEndian 4 (Z.of_nat (Wav.dataLength b))).
    cbn [fmap option_fmap option_map]. by rewrite wav_littleEndian_round_trip. }
  repeat split; try done.
  - change (take 2 (drop 22 (Wav.header b)))
      with (Wav.littleEndian 2 (Z.of_nat (Wav.numberOfChannels b))).
    cbn [fmap option_fmap option_map]. by rewrite wav_littleEndian_round_trip.
  - change (take 4 (drop 24 (Wav.header b)))
      with (Wav.littleEndian 4 (Wav.sampleRate b)).
    cbn [fmap option_fmap option_map]. by rewrite wav_littleEndian_round_trip.
  - change (take 4 (drop 28 (Wav.header b)))
      with (Wav.littleEndian 4
              (Wav.sampleRate b * Z.of_nat (Wav.numberOfChannels b) * 2)).
    cbn [fmap option_fmap option_map]. by rewrite wav_littleEndian_round_trip.
  - change (take 2 (drop 32 (Wav.header b)))
      with (Wav.littleEndian 2 (Z.of_nat (Wav.numberOfChannels b) * 2)).
    cbn [fmap option_fmap option_map]. by rewrite wav_littleEndian_round_trip.
  - rewrite H4. f_equal. rewrite Hlen in H. rewrite Hlen.
    rewrite Z.mod_small by lia. lia.
  - rewrite H40. f_equal. rewrite Hlen in H. rewrite Hlen.
    rewrite Z.mod_small by lia. lia.
Qed.


(** X2, at an instance: the header of the stereo example. *)
Lemma wav_header_round_trip_witness :
  ∃ wav, Wav.bufferToWav Wav.stereoExample = Some wav ∧
    Wav.getBytes wav 0 4 = Some (Wav.charCodes "RIFF") ∧
    Wav.getUint32 wav 4
    = Some ((36 + Z.of_nat (Wav.dataLength Wav.stereoExample)) mod 2 ^ 32) ∧
    Wav.getBytes wav 8 4 = Some (Wav.charCodes "WAVE") ∧
    Wav.getBytes wav 12 4 = Some (Wav.charCodes "fmt ") ∧
    Wav.getUint32 wav 16 = Some 16 ∧
    Wav.getUint16 wav 20 = Some 1 ∧
    Wav.getUint16 wav 22
    = Some (Z.of_nat (Wav.numberOfChannels Wav.stereoExample) mod 2 ^ 16) ∧
    Wav.getUint32 wav 24 = Some (Wav.sampleRate Wav.stereoExample mod 2 ^ 32) ∧
    Wav.getUint32 wav 28
    = Some ((Wav.sampleRate Wav.stereoExample
             * Z.of_nat (Wav.numberOfChannels Wav.stereoExample) * 2)
            mod 2 ^ 32) ∧
    Wav.getUint16 wav 32
    = Some ((Z.of_nat (Wav.numberOfChannels Wav.stereoExample) * 2) mod 2 ^ 16) ∧
    Wav.getUint16 wav 34 = Some 16 ∧
    Wav.getBytes wav 36 4 = Some (Wav.charCodes "data") ∧
    Wav.getUint32 wav 40
    = Some (Z.of_nat (Wav.dataLength Wav.stereoExample) mod 2 ^ 32) ∧
    (Z.of_nat (length wav) < 2 ^ 32 →
     Wav.getUint32 wav 4 = Some (Z.of_nat (length wav) - 8) ∧
     Wav.getUint32 wav 40 = Some (Z.of_nat (length wav) - 44)).
Proof.
  apply (wav_header_round_trip Wav.stereoExample). repeat constructor.
Defined.

(** X3: the samples are stored channel after channel, not interleaved:
    sample [i] of channel [c] is read back, as a signed 16-bit
    little-endian integer, at byte [44 + 2 * (c * length + i)], and its
    value is the conversion of that sample. *)
Theorem wav_samples_channel_after_channel
  (b : Wav.AudioBuffer) (c i : nat) (ch : list Wav.Number) (x : Wav.Number) :
  Wav.wellFormed b →
  Wav.channels b !! c = Some ch →
  ch !! i = Some x →
  ∃ wav, Wav.bufferToWav b = Some wav ∧
         Wav.getInt16 wav (44 + 2 * (c * Wav.bufferLength b + i))
         = Some (Wav.pcm16 x).
Proof.
  intros Hwf Hc Hi. eexists. split; [by apply wav_closed_form|].
  pose proof (wav_concat_lookup _ _ _ _ _ _ Hwf Hc Hi) as Hx.
  fold (Wav.planar b) in Hx.
  assert (Hk : (c * Wav.bufferLength b + i < length (Wav.planar b))%nat)
    by (by eapply lookup_lt_Some).
  unfold Wav.getInt16, Wav.getUint16, Wav.getBytes.
  rewrite decide_True
    by (rewrite length_app, wav_header_length, wav_pcmBytes_length; lia).
  cbn [fmap option_fmap option_map]. f_equal.
  rewrite drop_app_ge by (rewrite wav_header_length; lia).
  rewrite wav_header_length.
  replace (44 + 2 * (c * Wav.bufferLength b + i) - 44)%nat
    with (2 * (c * Wav.bufferLength b + i))%nat by lia.
  rewrite (wav_pcmBytes_at _ _ _ Hx).
  apply wav_int16_round_trip, wav_pcm16_range.
Qed.

(** X3, at an instance: the second sample of the second channel of the
    stereo example is found after the three samples of the first
    channel. *)
Lemma wav_samples_channel_after_channel_witness :
  ∃ wav, Wav.bufferToWav Wav.stereoExample = Some wav ∧
         Wav.getInt16 wav (44 + 2 * (1 * Wav.bufferLength Wav.stereoExample + 1))
         = Some (Wav.pcm16 (Wav.Finite (-1))).
Proof.
  apply (wav_samples_channel_after_channel Wav.stereoExample 1 1
           [Wav.NaN; Wav.Finite (-1); Wav.Finite (1 # 3)]).
  - repeat constructor.
  - reflexivity.
  - reflexivity.
Defined.

(** X4: the conversion of a sample saturates and never wraps: the value
    stored is between -32768 and 32767; NaN is stored as 0; a sample of
    1 or more (positive infinity too) as 32767, a sample of -1 or less
    (negative infinity too) as -32768; in between, a sample below zero
    is multiplied by 32768, any other by 32767, and rounded towards
    zero. *)
Theorem wav_pcm16_saturates (x : Wav.Number) :
  -32768 ≤ Wav.pcm16 x ≤ 32767 ∧
  Wav.pcm16 x
  = match x with
    | Wav.NaN => 0
    | Wav.Infinity negative => if negative then -32768 else 32767
    | Wav.Finite q =>
        if Qle_bool 1 q then 32767
        else if Qle_bool q (-1) then -32768
        else if Qle_bool 0 q then Wav.truncate (q * 32767)
        else Wav.truncate (q * 32768)
    end.
Proof.
  split; [apply wav_pcm16_range|].
  destruct x as [|[]|q]; try reflexivity.
  rewrite wav_pcm16_finite. unfold Wav.saturated.
  rewrite !wav_Qle_bool_Z.
  change (32767%Q) with (Z.pos 32767 # 1).
  change (32768%Q) with (Z.pos 32768 # 1).
  rewrite !wav_truncate_times.
  destruct q as [n d]. cbn [Qnum Qden].
  rewrite Z.mul_1_l, !Z.mul_1_r, Z.mul_0_l.
  replace (-1 * Z.pos d) with (- Z.pos d) by lia.
  destruct (Z.leb_spec (Z.pos d) n); [done|].
  destruct (Z.leb_spec n (- Z.pos d)); [done|].
  destruct (Z.leb_spec 0 n).
  - by rewrite Z.quot_div_nonneg by lia.
  - replace (n * 32768) with (- (- n * 32768)) by lia.
    rewrite Z.quot_opp_l by lia. by rewrite Z.quot_div_nonneg by lia.
Qed.

(** X5: a louder sample is never stored as a smaller value: the
    conversion is monotone over the finite samples. *)
Theorem wav_pcm16_monotone (p q : Q) :
  (p <= q)%Q → Wav.pcm16 (Wav.Finite p) ≤ Wav.pcm16 (Wav.Finite q).
Proof.
  intros H. rewrite !wav_pcm16_finite.
  apply wav_saturated_monotone; [lia|lia|exact H].
Qed.

(** X5, at an instance. *)
Lemma wav_pcm16_monotone_witness :
  Wav.pcm16 (Wav.Finite (-3 # 4)) ≤ Wav.pcm16 (Wav.Finite (1 # 3)).
Proof.
  apply (wav_pcm16_monotone (-3 # 4) (1 # 3)). vm_compute. discriminate.
Defined.

(** X6: within full scale the value stored is off the scaled sample by
    less than one step, and has the sign of the sample. *)
Theorem wav_pcm16_quantisation (q : Q) :
  (-1 <= q)%Q → (q <= 1)%Q →
  let v := Wav.pcm16 (Wav.Finite q) in
  let k := if Qle_bool 0 q then 32767 else 32768 in
  (Qabs (q * inject_Z k - inject_Z v) < 1)%Q ∧
  ((0 <= q)%Q → 0 ≤ v) ∧ ((q <= 0)%Q → v ≤ 0).
Proof.
  intros Hlo Hhi. cbn zeta. rewrite wav_pcm16_finite, wav_Qle_bool_Z.
  destruct q as [n d]. unfold Qle in *. cbn [Qnum Qden] in *.
  rewrite Z.mul_0_l, Z.mul_1_r.
  assert (Hd : 0 < Z.pos d) by lia.
  unfold Wav.saturated.
  destruct (Z.leb_spec (Z.pos d) n) as [H1|H1].
  - assert (n = Z.pos d) by lia. subst n.
    destruct (Z.leb_spec 0 (Z.pos d)); [|lia].
    split; [|lia].
    apply Qabs_Qlt_condition. unfold Qlt, Qminus, Qplus, Qopp, Qmult, inject_Z.
    cbn [Qnum Qden]. lia.
  - destruct (Z.leb_spec n (- Z.pos d)) as [H2|H2].
    + assert (n = - Z.pos d) by lia. subst n.
      destruct (Z.leb_spec 0 (- Z.pos d)); [lia|].
      split; [|lia].
      apply Qabs_Qlt_condition. unfold Qlt, Qminus, Qplus, Qopp, Qmult, inject_Z.
      cbn [Qnum Qden]. lia.
    + destruct (Z.leb_spec 0 n) as [H3|H3].
      * pose proof (Z.mul_div_le (n * 32767) _ Hd).
        pose proof (Z.mul_succ_div_gt (n * 32767) _ Hd).
        assert (0 ≤ (n * 32767) / Z.pos d) by (apply Z.div_pos; lia).
        split; [|lia].
        apply Qabs_Qlt_condition. unfold Qlt, Qminus, Qplus, Qopp, Qmult, inject_Z.
        cbn [Qnum Qden]. rewrite ?Pos.mul_1_r. nia.
      * pose proof (Z.mul_div_le (- n * 32768) _ Hd).
        pose proof (Z.mul_succ_div_gt (- n * 32768) _ Hd).
        assert (0 ≤ (- n * 32768) / Z.pos d) by (apply Z.div_pos; lia).
        split; [|lia].
        apply Qabs_Qlt_condition. unfold Qlt, Qminus, Qplus, Qopp, Qmult, inject_Z.
        cbn [Qnum Qden]. rewrite ?Pos.mul_1_r. nia.
Qed.

(** X6, at an instance: a third of full scale. *)
Lemma wav_pcm16_quantisation_witness :
  let v := Wav.pcm16 (Wav.Finite (1 # 3)) in
  let k := if Qle_bool 0 (1 # 3) then 32767 else 32768 in
  (Qabs ((1 # 3) * inject_Z k - inject_Z v) < 1)%Q ∧
  ((0 <= 1 # 3)%Q → 0 ≤ v) ∧ ((1 # 3 <= 0)%Q → v ≤ 0).
Proof.
  apply (wav_pcm16_quantisation (1 # 3)); vm_compute; discriminate.
Defined.

(** X7: [audioBufferToWav] keeps the first channel only: whatever the
    number of channels, the samples given to the WAV writer are the
    conversions of the samples of channel 0, in order, declared as one
    channel of 16 bits at the sample rate of the buffer; with no channel
    the call throws. *)
Theorem wav_first_channel_only (b : Wav.AudioBuffer) :
  Wav.wellFormed b →
  Wav.audioBufferToWav b
  = match Wav.channels b with
    | [] => None
    | leftChannel :: _ =>
        Some (Wav.mkFromScratch 1 (Wav.sampleRate b) "16"
                (Wav.pcm16 <$> leftChannel))
    end.
Proof.
  intros Hwf. unfold Wav.audioBufferToWav, Wav.wellFormed in *.
  destruct (Wav.channels b) as [|left rest]; [done|].
  inversion Hwf as [|? ? Hl _]; subst.
  cbn [lookup list_lookup mbind option_bind]. do 2 f_equal.
  rewrite <- Hl.
  apply (wav_fillSamples_after left [] (replicate (length left) 0)).
  by rewrite length_replicate.
Qed.

(** X7, at an instance: the second channel of the stereo example is
    dropped. *)
Lemma wav_first_channel_only_witness :
  Wav.audioBufferToWav Wav.stereoExample
  = Some (Wav.mkFromScratch 1 16000 "16" [16383; -16384; 32767]).
Proof.
  apply (wav_first_channel_only Wav.stereoExample). repeat constructor.
Defined.


(** * [ClipDetector]: what is kept, and the failures of start-up *)

Section ClipKept.
Import Media ClipDetector ClipShapes.

Lemma clip_newBlob_size chunks :
  chunks ≠ [] → Forall (λ chunk, 0 < size chunk) chunks →
  0 < size (newBlob chunks).
Proof.
  intros Hne H. destruct chunks as [|c chunks]; [done|].
  inversion H; subst. unfold newBlob, size in *. simpl.
  rewrite length_app. lia.
Qed.

Lemma clip_keptInv_frame s s' :
  clipOutput s' = clipOutput s → keptInv s → keptInv s'.
Proof.
  unfold clipOutput, keptInv. intros Heq. injection Heq as -> -> ->. done.
Qed.

Lemma clip_onstop_kept startTime s : keptInv s → keptInv (onstop startTime s).
Proof.
  intros (Hch & Hcl & Hl). unfold onstop. cbn zeta.
  destruct (_ && _) eqn:Hc; unfold keptInv; simpl.
  - apply andb_prop in Hc as [Hd Hn].
    apply Z.leb_le in Hd. apply Z.ltb_lt in Hn.
    split; [constructor|]. split; [|done].
    constructor; [|done]. simpl. split.
    + unfold Qle. simpl. unfold MIN_RECORDING_DURATION in Hd. lia.
    + apply clip_newBlob_size; [|done].
      destruct (audioChunksRef s); [simpl in Hn; lia|done].
  - split; [constructor|done].
Qed.

Lemma clip_startRecording_kept s : keptInv s → keptInv (startRecording s).
Proof.
  intros (Hch & Hcl & Hl). unfold startRecording.
  destruct (streamRef s); [|done].
  destruct (currentIsRecording s); [done|].
  destruct (negb (opusSupported s)); [done|].
  unfold keptInv. simpl. split; [constructor|done].
Qed.

Lemma clip_handleVoiceProbability_kept p s :
  keptInv s → keptInv (handleVoiceProbability p s).
Proof.
  intros H. unfold handleVoiceProbability.
  destruct (Qle_bool _ _).
  - unfold handleVoiceDetected. cbn zeta.
    set (s1 := match silenceTimeoutRef s with Some _ => _ | None => _ end).
    assert (H1 : keptInv s1) by (subst s1; destruct (silenceTimeoutRef s); done).
    destruct (_ && _); [by apply clip_startRecording_kept|done].
  - unfold handleSilenceDetected.
    destruct (silenceTimeoutRef s); [done|].
    destruct (isRecordingRef s); done.
Qed.

Lemma clip_step_kept s e : keptInv s → keptInv (step s e).
Proof.
  intros H. destruct e as [p|r d|r|t|i| | |]; simpl.
  - by apply clip_handleVoiceProbability_kept.
  - unfold dispatchData. destruct (_ || _); [|done].
    unfold ondataavailable. destruct (Z.ltb_spec 0 (size d)); [|done].
    destruct H as (Hch & Hcl & Hl). unfold keptInv. simpl.
    split; [|done]. apply Forall_app. split; [done|]. by constructor.
  - unfold dispatchStop. destruct (recorders s !! r) as [m|]; [|done].
    destruct (stopQueued m); [|done]. by apply clip_onstop_kept.
  - eapply clip_keptInv_frame; [apply clip_elapse_output|done].
  - destruct i; done.
  - unfold startListening. destruct (cobraRef s); [|done].
    destruct (isInitialized s); done.
  - unfold stopListening. destruct (cobraRef s); [|done].
    destruct (isListeningRef s); [|done].
    eapply clip_keptInv_frame; [|exact H].
    cbn zeta. destruct (isRecordingRef _); [|done].
    unfold clipOutput. simpl.
    pose proof (clip_stopRecording_output
                  (set_cobraRef (Some (Cobra false (released c))) s)) as E.
    unfold clipOutput in E. by injection E as -> -> ->.
  - eapply clip_keptInv_frame; [|exact H].
    unfold unmount, clipOutput. cbn zeta.
    destruct (cobraRef s) as [c|] eqn:Hc; [destruct (isListeningRef s)|];
      simpl; destruct (streamRef s); simpl; rewrite ?Hc; reflexivity.
Qed.

Lemma clip_run_kept es : ∀ s, keptInv s → keptInv (run s es).
Proof.
  induction es as [|e es IH]; intros s H; [done|].
  simpl. apply IH. by apply clip_step_kept.
Qed.

Lemma clip_uninitialized_fireDue fuel t : ∀ s,
  uninitialized s → uninitialized (fireDue fuel t s).
Proof.
  induction fuel as [|fuel IH]; intros s H; [done|]. simpl.
  destruct (Timers.next_due t (timers s)) as [tm|]; [|done].
  apply IH. destruct (Timers.callback tm).
  destruct H as (? & ? & ? & ? & ? & Hm & ? & ?).
  unfold runCallback, stopRecording. simpl. rewrite Hm. done.
Qed.

Lemma clip_uninitialized_step s e :
  e ≠ evInitialized initReady → uninitialized s → uninitialized (step s e).
Proof.
  intros He H.
  pose proof H as (Hc & Hi & Hl & Hl' & Hr & Hm & Hrec & Hcl).
  destruct e as [p|r d|r|t|i| | |]; simpl.
  - unfold handleVoiceProbability. destruct (Qle_bool _ _).
    + unfold handleVoiceDetected. cbn zeta.
      destruct (silenceTimeoutRef s); simpl; rewrite Hr, Hl; done.
    + unfold handleSilenceDetected. destruct (silenceTimeoutRef s); [done|].
      by rewrite Hr.
  - unfold dispatchData, isRecordingAt, hasQueuedStop. by rewrite Hrec, lookup_nil.
  - unfold dispatchStop. by rewrite Hrec, lookup_nil.
  - unfold elapse. cbn zeta.
    exact (clip_uninitialized_fireDue _ t s H).
  - destruct i; done.
  - unfold startListening. by rewrite Hc.
  - unfold stopListening. by rewrite Hc.
  - unfold unmount. cbn zeta. rewrite Hc. simpl.
    destruct (streamRef s); simpl; by rewrite Hc.
Qed.

Lemma clip_withoutOpus_fireDue fuel t : ∀ s,
  withoutOpus s → withoutOpus (fireDue fuel t s).
Proof.
  induction fuel as [|fuel IH]; intros s H; [done|]. simpl.
  destruct (Timers.next_due t (timers s)) as [tm|]; [|done].
  apply IH. destruct (Timers.callback tm).
  destruct H as (? & Hrec & ? & ? & ? & ?).
  unfold runCallback, stopRecording. simpl.
  destruct (mediaRecorderRef s) as [r|]; [|done].
  unfold isRecordingAt. simpl. rewrite Hrec, lookup_nil. done.
Qed.

Lemma clip_withoutOpus_step s e : withoutOpus s → withoutOpus (step s e).
Proof.
  intros H.
  pose proof H as (Ho & Hrec & Hcl & Hr & Hcs & Hlc).
  destruct e as [p|r d|r|t|i| | |]; simpl.
  - unfold handleVoiceProbability. destruct (Qle_bool _ _).
    + unfold handleVoiceDetected. cbn zeta.
      set (s1 := match silenceTimeoutRef s with Some _ => _ | None => _ end).
      assert (H1 : withoutOpus s1)
        by (subst s1; destruct (silenceTimeoutRef s); done).
      destruct (_ && _); [|done].
      pose proof H1 as (Ho1 & Hrec1 & ? & ? & ? & ?).
      unfold startRecording. destruct (streamRef s1); [|done].
      unfold currentIsRecording, isRecordingAt. rewrite Hrec1.
      destruct (mediaRecorderRef s1); rewrite ?lookup_nil, Ho1; done.
    + unfold handleSilenceDetected. destruct (silenceTimeoutRef s); [done|].
      by rewrite Hr.
  - unfold dispatchData, isRecordingAt, hasQueuedStop. by rewrite Hrec, lookup_nil.
  - unfold dispatchStop. by rewrite Hrec, lookup_nil.
  - unfold elapse. cbn zeta.
    exact (clip_withoutOpus_fireDue _ t s H).
  - destruct i;
      first [done
            |unfold withoutOpus; simpl; repeat split; try done;
             intros; by eexists].
  - unfold startListening. destruct (cobraRef s) eqn:Hc; [|done].
    destruct (isInitialized s); [|done].
    unfold withoutOpus. simpl. repeat split; try done;
      intros; first [by eexists | apply Hcs; by eexists].
  - unfold stopListening. destruct (cobraRef s) eqn:Hc; [|done].
    destruct (isListeningRef s); [|done]. cbn zeta. simpl. rewrite Hr.
    unfold withoutOpus. simpl. repeat split; try done;
      intros; first [by eexists | apply Hcs; by eexists].
  - assert (Hss : is_Some (cobraRef s) → is_Some (streamRef s)) by done.
    unfold unmount. cbn zeta. unfold withoutOpus.
    destruct (cobraRef s) as [c|] eqn:Hc.
    + destruct (Hss ltac:(by eexists)) as [st Hst].
      destruct (isListeningRef s) eqn:Hl; simpl; rewrite Hst; simpl;
        rewrite ?Hc; simpl; repeat split; try done; intros; by eexists.
    + simpl. destruct (streamRef s); simpl; rewrite Hc; simpl;
        repeat split; try done; intros Hx;
        first [rewrite Hc in Hx; by destruct Hx
              |destruct (Hlc Hx) as [? ?]; congruence].
Qed.

End ClipKept.


(** * [ClipDetector]: the silence timer running out *)

Section ClipSilence.
Import Media ClipDetector ClipShapes.

Lemma clip_feed_silent_quiet_before r s x :
  recordingQuiet r s → voiced x = false → now s ≤ sampleTime x →
  armedBefore r (sampleTime x + SILENCE_DURATION_THRESHOLD) s (feed s x).
Proof.
  intros Hq Hv Hn.
  pose proof Hq as (Hr & Hm & Ha & Hs & Hp).
  unfold armedBefore, feed. rewrite clip_advanceTo_idle by done.
  unfold handleVoiceProbability. unfold voiced in Hv. rewrite Hv.
  unfold handleSilenceDetected. simpl. rewrite Hs, Hr. simpl.
  unfold sampleTime in *. rewrite Z.max_r by lia.
  unfold recordingArmed, clipOutput. simpl. repeat split; try done.
  - eexists. split; [done|]. by rewrite Hp.
  - unfold SILENCE_DURATION_THRESHOLD. lia.
Qed.

Lemma clip_feed_silent_before r d s0 s x :
  armedBefore r d s0 s → voiced x = false → sampleTime x < d →
  armedBefore r d s0 (feed s x).
Proof.
  intros (Ha & Hn & Hrec & Hout) Hv Hx.
  pose proof Ha as (Hr & Hm & Hrc & h & Hs & Hp).
  unfold armedBefore, feed.
  rewrite (clip_advanceTo_before _ _ _ _ _ Hp) by done.
  unfold handleVoiceProbability. unfold voiced in Hv. rewrite Hv.
  unfold handleSilenceDetected. simpl. rewrite Hs.
  unfold recordingArmed, clipOutput in *. simpl.
  repeat split; try done; [by eexists|]. unfold sampleTime in Hx. lia.
Qed.

Lemma clip_feedAll_silent_before r d s0 xs : ∀ s,
  armedBefore r d s0 s → forallb (λ y, negb (voiced y)) xs = true →
  Forall (λ y, sampleTime y < d) xs →
  armedBefore r d s0 (feedAll s xs).
Proof.
  induction xs as [|x xs IH]; intros s Ha Hv Hx; [done|].
  simpl in Hv. apply andb_prop in Hv as [Hv1 Hv2].
  apply negb_true_iff in Hv1. inversion Hx; subst.
  simpl. apply IH; [|done|done]. by apply clip_feed_silent_before.
Qed.

(** The timer comes due: the recorder is stopped at the deadline and its
    stop handler runs there. *)
Lemma clip_armed_runs_out r d s0 s m t :
  armedBefore r d s0 s → recorders s0 !! r = Some m → d ≤ t →
  let s' := advanceTo t s in
  stateOf (recorders s') r = Some inactive ∧
  activeCount (recorders s') = (activeCount (recorders s0) - 1)%nat ∧
  isRecordingRef s' = false ∧
  Timers.pending (timers s') = [] ∧
  silenceTimeoutRef s' = None ∧
  audioChunksRef s' = [] ∧
  audioClips s' = clipCut (closure m) d (audioChunksRef s0) ++ audioClips s0 ∧
  now s' = t.
Proof.
  intros (Ha & Hn & Hrec & Hout) Hm0 Ht.
  pose proof Ha as (Hr & Hm & Hrc & h & Hs & Hp).
  unfold clipOutput in Hout. injection Hout as Hch Hcl Hlt.
  rewrite <- Hrec in Hm0.
  assert (Hst : state m = recording).
  { unfold isRecordingAt in Hrc. rewrite Hm0 in Hrc. by destruct (state m). }
  assert (Hlt' : (r < length (recorders s))%nat) by (by eapply lookup_lt_Some).
  destruct (timers s) as [p n] eqn:Htb. simpl in Hp. subst p.
  set (s1 := set_now d
               (set_silenceTimeoutRef None
                  (set_recorders (stop r (recorders s))
                     (set_now d (set_timers (Timers.Table [] n) s))))).
  assert (E1 : elapse d s = s1).
  { unfold elapse. rewrite Htb. cbn [Timers.pending length fireDue].
    rewrite Htb, timers_next_due_single by lia.
    cbn [Timers.callback Timers.handle Timers.due].
    rewrite timers_clear_single.
    unfold runCallback, stopRecording. simpl. rewrite Hm, Hrc. simpl.
    subst s1. rewrite !Z.max_r by lia. done. }
  set (s2 := onstop (closure m)
               (set_recorders
                  (<[r := Recorder Z inactive false (closure m)]> (recorders s))
                  s1)).
  assert (E2 : settle s1 = s2).
  { unfold settle. subst s1. simpl. rewrite Hm.
    unfold dispatchStop. simpl. unfold stop. rewrite Hm0.
    rewrite list_lookup_insert_eq by done. simpl.
    unfold dispatched. rewrite list_lookup_insert_eq by done.
    simpl. by rewrite list_insert_insert_eq. }
  assert (Hp2 : timers s2 = Timers.Table [] n).
  { subst s2 s1. unfold onstop. simpl. by destruct (_ && _). }
  assert (E3 : advanceTo t s = set_now (Z.max (now s2) t) s2).
  { unfold advanceTo. rewrite Htb. cbn [Timers.pending length advance].
    rewrite Htb, timers_next_due_single by done. cbn [Timers.due].
    rewrite E1, E2. unfold elapse. rewrite Hp2. done. }
  cbn zeta. rewrite E3.
  assert (Hcount :
    activeCount (<[r := Recorder Z inactive false (closure m)]> (recorders s))
    = (activeCount (recorders s0) - 1)%nat).
  { rewrite <- Hrec. unfold activeCount.
    pose proof (media_count_insert (λ m, isRecordingState (state m))
                  (recorders s) r m (Recorder Z inactive false (closure m)) Hm0)
      as E.
    simpl in E. rewrite Hst in E. simpl in E. lia. }
  subst s2 s1. unfold onstop, clipCut. simpl.
  rewrite Hch, Hcl.
  destruct (_ && _); simpl;
    (repeat split; try done; try lia;
     unfold stateOf; rewrite list_lookup_insert_eq by done;
     done).
Qed.

End ClipSilence.


(** X8: in each of the three Cobra components, whatever the events and
    their order, at most one recorder is recording. *)
Theorem cobra_sessions_never_overlap :
  (∀ t opus es,
     (Media.activeCount
        (ClipDetector.recorders
           (ClipDetector.run (ClipDetector.initial t opus) es)) ≤ 1)%nat) ∧
  (∀ t es,
     (Media.activeCount
        (QueuedStt.recorders (QueuedStt.run (QueuedStt.initial t) es)) ≤ 1)%nat) ∧
  (∀ t key es,
     (Media.activeCount
        (AwaitingStt.recorders
           (AwaitingStt.run (AwaitingStt.initial t key) es)) ≤ 1)%nat).
Proof.
  split; [|split].
  - intros. apply clip_at_most_one_session.
  - intros. apply (queued_at_most_one_session t es).
  - intros. apply (awaiting_one_call_at_a_time t key es).
Qed.

(** X9: every clip that [ClipDetector] ever lists lasts at least half a
    second and holds at least one byte of audio, and the clip shown as
    the latest is the first of the list. *)
Theorem clip_kept_clips_are_long_and_nonempty
  (t : Z) (opus : bool) (es : list ClipDetector.Event) :
  let s := ClipDetector.run (ClipDetector.initial t opus) es in
  Forall (λ c, (1 # 2 <= ClipDetector.duration c)%Q
               ∧ 0 < Media.size (ClipDetector.url c))
    (ClipDetector.audioClips s) ∧
  ClipDetector.latestClip s = head (ClipDetector.audioClips s).
Proof.
  cbn zeta.
  assert (H : ClipShapes.keptInv (ClipDetector.initial t opus))
    by (repeat split; constructor).
  apply (clip_run_kept es) in H. by destruct H as (_ & ? & ?).
Qed.

(** X10: as long as no initialization has succeeded (no access key, the
    microphone refused, or Cobra not created once the stream is
    stored), the component cannot be brought to listen: whatever is
    clicked and whatever arrives, it stays uninitialized, not listening,
    creates no recorder and lists no clip. *)
Theorem clip_failed_initialization_never_listens
  (t : Z) (opus : bool) (es : list ClipDetector.Event) :
  Forall (λ e, e ≠ ClipDetector.evInitialized ClipDetector.initReady) es →
  let s := ClipDetector.run (ClipDetector.initial t opus) es in
  ClipDetector.isInitialized s = false ∧
  ClipDetector.isListening s = false ∧
  ClipDetector.isListeningRef s = false ∧
  ClipDetector.recorders s = [] ∧
  ClipDetector.audioClips s = [].
Proof.
  intros Hes. cbn zeta.
  assert (H : ∀ s, ClipShapes.uninitialized s →
                   ClipShapes.uninitialized (ClipDetector.run s es)).
  { induction Hes as [|e es He _ IH]; intros s Hs; [done|].
    simpl. apply IH. by apply clip_uninitialized_step. }
  specialize (H (ClipDetector.initial t opus) ltac:(by repeat split)).
  by destruct H as (_ & ? & ? & ? & _ & _ & ? & ?).
Qed.

(** X10, at an instance: the microphone is granted and the creation of
    Cobra fails, so the stream is there when the voiced sample comes. *)
Lemma clip_failed_initialization_never_listens_witness :
  let s := ClipDetector.run (ClipDetector.initial 1000 true)
             [ClipDetector.evInitialized
                (ClipDetector.initCobraFailed "Invalid AccessKey");
              ClipDetector.evStartListening;
              ClipDetector.evProbability (9 # 10);
              ClipDetector.evElapse 5000] in
  ClipDetector.isInitialized s = false ∧
  ClipDetector.isListening s = false ∧
  ClipDetector.isListeningRef s = false ∧
  ClipDetector.recorders s = [] ∧
  ClipDetector.audioClips s = [].
Proof.
  apply (clip_failed_initialization_never_listens 1000 true).
  repeat (constructor; [discriminate|]). constructor.
Defined.

(** X11: in a browser that lacks the MIME type [audio/webm;codecs=opus]
    the component never creates a recorder and never lists a clip, and
    every voiced sample that reaches it while it listens sets the error
    to "Failed to start recording". *)
Theorem clip_without_opus_never_records
  (t : Z) (es : list ClipDetector.Event) (p : Q) :
  let s := ClipDetector.run (ClipDetector.initial t false) es in
  ClipDetector.recorders s = [] ∧
  ClipDetector.audioClips s = [] ∧
  (ClipDetector.isListeningRef s = true →
   Qle_bool ClipDetector.VOICE_PROBABILITY_THRESHOLD p = true →
   ClipDetector.error (ClipDetector.handleVoiceProbability p s)
   = Some "Failed to start recording"%string).
Proof.
  cbn zeta.
  assert (H : ∀ s, ClipShapes.withoutOpus s →
                   ClipShapes.withoutOpus (ClipDetector.run s es)).
  { induction es as [|e es IH]; intros s Hs; [done|].
    simpl. apply IH. by apply clip_withoutOpus_step. }
  specialize (H (ClipDetector.initial t false)).
  destruct H as (Ho & Hrec & Hcl & Hr & Hcs & Hlc).
  { repeat split; try done; simpl; intros Hx; by destruct Hx. }
  split; [done|]. split; [done|]. intros Hl Hp.
  destruct (Hcs (Hlc Hl)) as [st Hst].
  unfold ClipDetector.handleVoiceProbability. rewrite Hp.
  unfold ClipDetector.handleVoiceDetected. cbn zeta.
  set (s := ClipDetector.run _ es) in *.
  destruct (ClipDetector.silenceTimeoutRef s); simpl; rewrite Hr, Hl, Hst;
    (rewrite bool_decide_eq_true_2 by eauto); simpl;
    unfold ClipDetector.startRecording; simpl; rewrite Hst;
    unfold ClipDetector.currentIsRecording, Media.isRecordingAt; simpl;
    rewrite Hrec;
    (destruct (ClipDetector.mediaRecorderRef s); rewrite ?lookup_nil, Ho; done).
Qed.

(** X11, at an instance: a voiced sample after listening has started. *)
Lemma clip_without_opus_never_records_witness :
  ClipDetector.error
    (ClipDetector.handleVoiceProbability (9 # 10)
       (ClipDetector.run (ClipDetector.initial 1000 false)
          [ClipDetector.evInitialized ClipDetector.initReady;
           ClipDetector.evStartListening]))
  = Some "Failed to start recording"%string.
Proof.
  apply (clip_without_opus_never_records 1000
           [ClipDetector.evInitialized ClipDetector.initReady;
            ClipDetector.evStartListening] (9 # 10)); reflexivity.
Defined.

(** X12: when the samples stay below the threshold for the whole
    debounce period, the recorder is stopped at the deadline, one period
    after the first silent sample: from then on it is inactive, the
    recording flag is down and no timer is left; its stop handler has
    emptied the chunk list and has put one clip, stamped with the
    deadline and lasting from the start of the session to the deadline,
    in front of the list if that duration reaches the minimum and a
    chunk was captured, and none otherwise. *)
Theorem clip_silence_ends_utterance
  (r : nat) (s : ClipDetector.State) (m : Media.MediaRecorder Z)
  (x : Media.Sample) (sil : list Media.Sample) (t : Z) :
  ClipDetector.recordingQuiet r s →
  ClipDetector.recorders s !! r = Some m →
  ClipDetector.now s ≤ ClipDetector.sampleTime x →
  forallb (λ y, negb (ClipDetector.voiced y)) (x :: sil) = true →
  Forall (λ y, ClipDetector.sampleTime y
               < ClipDetector.sampleTime x
                 + ClipDetector.SILENCE_DURATION_THRESHOLD) sil →
  ClipDetector.sampleTime x + ClipDetector.SILENCE_DURATION_THRESHOLD ≤ t →
  let d := ClipDetector.sampleTime x + ClipDetector.SILENCE_DURATION_THRESHOLD in
  let s' := ClipDetector.advanceTo t (ClipDetector.feedAll s (x :: sil)) in
  Media.stateOf (ClipDetector.recorders s') r = Some Media.inactive ∧
  ClipDetector.isRecordingRef s' = false ∧
  Timers.pending (ClipDetector.timers s') = [] ∧
  ClipDetector.audioChunksRef s' = [] ∧
  ClipDetector.audioClips s'
  = ClipShapes.clipCut (Media.closure m) d (ClipDetector.audioChunksRef s)
    ++ ClipDetector.audioClips s.
Proof.
  intros Hq Hm Hn Hv Hs Ht. cbn zeta.
  simpl in Hv. apply andb_prop in Hv as [Hv1 Hv2].
  apply negb_true_iff in Hv1.
  pose proof (clip_feed_silent_quiet_before r s x Hq Hv1 Hn) as Ha.
  pose proof (clip_feedAll_silent_before _ _ _ sil _ Ha Hv2 Hs) as Hb.
  pose proof (clip_armed_runs_out _ _ _ _ m t Hb Hm Ht) as H.
  cbn zeta in H. simpl. by destruct H as (? & _ & ? & ? & _ & ? & ? & _).
Qed.

(** X12, at an instance: voice at 1000, a chunk, silence from 2000 on;
    the recorder is stopped at 3500 and a clip of 2.5 s is cut. *)
Lemma clip_silence_ends_utterance_witness :
  let s := ClipDetector.run (ClipDetector.listeningAt 1000)
             [ClipDetector.evProbability (9 # 10);
              ClipDetector.evData 0 [Byte.x01]] in
  let s' := ClipDetector.advanceTo 4000
              (ClipDetector.feedAll s
                 [Media.sample 2000 (1 # 10); Media.sample 3000 (1 # 10)]) in
  Media.stateOf (ClipDetector.recorders s') 0 = Some Media.inactive ∧
  ClipDetector.isRecordingRef s' = false ∧
  Timers.pending (ClipDetector.timers s') = [] ∧
  ClipDetector.audioChunksRef s' = [] ∧
  ClipDetector.audioClips s'
  = [ClipDetector.Clip 3500 [Byte.x01] 3500 (2500 # 1000)].
Proof.
  apply (clip_silence_ends_utterance 0
           (ClipDetector.run (ClipDetector.listeningAt 1000)
              [ClipDetector.evProbability (9 # 10);
               ClipDetector.evData 0 [Byte.x01]])
           (Media.Recorder Z Media.recording false 1000)
           (Media.sample 2000 (1 # 10)) [Media.sample 3000 (1 # 10)] 4000).
  - vm_compute. repeat split; reflexivity.
  - reflexivity.
  - vm_compute. discriminate.
  - reflexivity.
  - repeat constructor.
  - vm_compute. discriminate.
Defined.


(** * [QueuedStt]: the processing flag and the transcript *)

Section QueuedIndicator.
Import Media Sarvam QueuedStt QueuedShapes.

Lemma queued_anyRunning_app q1 q2 :
  anyRunning (q1 ++ q2) = anyRunning q1 || anyRunning q2.
Proof. unfold anyRunning. by rewrite existsb_app. Qed.

Lemma queued_anyRunning_settled done :
  Forall (λ j, isSettled (phase j) = true) done → anyRunning done = false.
Proof.
  induction 1 as [|j done Hj _ IH]; [done|].
  unfold anyRunning in *. simpl. rewrite IH.
  by destruct (phase j).
Qed.

Lemma queued_anyRunning_waiting ws :
  Forall (λ j, phase j = waiting) ws → anyRunning ws = false.
Proof.
  induction 1 as [|j ws Hj _ IH]; [done|].
  unfold anyRunning in *. simpl. by rewrite IH, Hj.
Qed.

(** With a context, starting the next link raises the flag exactly when
    a link comes to run. *)
Lemma queued_pump_indicator q :
  preChained q →
  anyRunning (pump true q).1 = (pump true q).2 || anyRunning q.
Proof.
  intros (done & rest & -> & Hd & Hrest).
  induction Hd as [|j done Hj Hd IH].
  - simpl. destruct Hrest as [(j & ws & -> & Hj & Hws)|Hws].
    + cbn [pump]. destruct (phase j) eqn:Hp; simpl in Hj; try discriminate;
        simpl; unfold anyRunning; simpl; rewrite Hp; done.
    + destruct Hws as [|w ws Hw Hws]; [done|].
      simpl. rewrite Hw. simpl. done.
  - simpl. destruct (phase j) eqn:Hp; try done.
    destruct (pump true (done ++ rest)) as [q'' began] eqn:Hq.
    simpl in *. unfold anyRunning in *. simpl. rewrite Hp. simpl. done.
Qed.

Lemma queued_runQueue_indicator s :
  is_Some (audioContextRef s) →
  preChained (processingQueueRef s) →
  isProcessing s = anyRunning (processingQueueRef s) →
  isProcessing (runQueue s) = anyRunning (processingQueueRef (runQueue s)).
Proof.
  intros Hc Hpre Hi. unfold runQueue.
  rewrite bool_decide_eq_true_2 by done.
  pose proof (queued_pump_indicator _ Hpre) as E.
  destruct (pump true (processingQueueRef s)) as [q began]. simpl in *.
  by rewrite E, Hi.
Qed.

End QueuedIndicator.


Section QueuedIndicatorSteps.
Import Media Sarvam QueuedStt QueuedShapes.

Lemma queued_indicator_frame s s' :
  indicatorView s' = indicatorView s →
  (recorders s = [] → streamRef s = None → recorders s' = []) →
  indicatorInv s → indicatorInv s'.
Proof.
  unfold indicatorView. intros Hv Hr (Hc & Hw & Hi).
  injection Hv as Hctx Hst Hq Hp.
  unfold indicatorInv, contextReady. rewrite Hctx, Hst, Hq, Hp.
  split; [|done]. destruct Hc as [?|(? & ? & ?)]; [by left|right].
  repeat split; try done. by apply Hr.
Qed.

Lemma queued_stopRecording_indicator s :
  indicatorView (stopRecording s) = indicatorView s ∧
  (recorders s = [] → recorders (stopRecording s) = []).
Proof.
  unfold stopRecording, indicatorView. cbn zeta.
  destruct (mediaRecorderRef s) as [r|].
  - destruct (isRecordingAt (recorders s) r) eqn:Hr.
    + simpl. destruct (recordingTimeoutRef s); simpl; (split; [done|]);
        intros H; unfold isRecordingAt in Hr; by rewrite H, lookup_nil in Hr.
    + destruct (recordingTimeoutRef s); simpl; done.
  - destruct (recordingTimeoutRef s); simpl; done.
Qed.

Lemma queued_runCallback_indicator c s :
  indicatorView (runCallback c s) = indicatorView s ∧
  (recorders s = [] → recorders (runCallback c s) = []).
Proof.
  destruct (queued_stopRecording_indicator s) as [Hv Hr].
  destruct c as [|r]; simpl.
  - unfold indicatorView in *. simpl. done.
  - destruct (isRecordingAt (recorders s) r); done.
Qed.

Lemma queued_fireDue_indicator fuel t : ∀ s,
  indicatorView (fireDue fuel t s) = indicatorView s ∧
  (recorders s = [] → recorders (fireDue fuel t s) = []).
Proof.
  induction fuel as [|fuel IH]; intros s; [by split|]. simpl.
  destruct (Timers.next_due t (timers s)) as [tm|]; [|by split].
  set (s1 := set_now _ (set_timers _ s)).
  destruct (queued_runCallback_indicator (Timers.callback tm) s1) as [Hv Hr].
  destruct (IH (runCallback (Timers.callback tm) s1)) as [Hv' Hr'].
  split; [by rewrite Hv', Hv|]. intros H. apply Hr'. by apply Hr.
Qed.

Lemma queued_startRecording_indicator s :
  indicatorView (startRecording s) = indicatorView s ∧
  (streamRef s = None → recorders (startRecording s) = recorders s).
Proof.
  unfold startRecording.
  destruct (streamRef s) eqn:Hs; [|by split].
  destruct (currentIsRecording s); [by split|].
  unfold indicatorView. simpl. by split.
Qed.

Lemma queued_handleVoiceProbability_indicator p s :
  indicatorView (handleVoiceProbability p s) = indicatorView s ∧
  (streamRef s = None →
   recorders (handleVoiceProbability p s) = recorders s).
Proof.
  unfold handleVoiceProbability. destruct (Qle_bool _ _).
  - unfold handleVoiceDetected. cbn zeta.
    set (s1 := match silenceTimeoutRef s with Some _ => _ | None => _ end).
    assert (H1 : indicatorView s1 = indicatorView s ∧ recorders s1 = recorders s)
      by (subst s1; destruct (silenceTimeoutRef s); by split).
    destruct H1 as [Hv Hr].
    destruct (_ && _); [|by split].
    destruct (queued_startRecording_indicator s1) as [Hv' Hr'].
    split; [by rewrite Hv'|]. intros Hs. rewrite Hr'; [done|].
    unfold indicatorView in Hv. by injection Hv as _ -> _ _.
  - unfold handleSilenceDetected. destruct (silenceTimeoutRef s); [by split|].
    destruct (isRecordingRef s); by split.
Qed.

(** Settling the running link and starting the next. *)
Lemma queued_settleJob_indicator k j m s :
  is_Some (audioContextRef s) →
  wellChained (processingQueueRef s) = true →
  processingQueueRef s !! k = Some j → isRunning (phase j) = true →
  isProcessing s = false →
  wellChained (processingQueueRef (settleJob k m s)) = true ∧
  isProcessing (settleJob k m s)
  = anyRunning (processingQueueRef (settleJob k m s)) ∧
  audioContextRef (settleJob k m s) = audioContextRef s ∧
  streamRef (settleJob k m s) = streamRef s ∧
  recorders (settleJob k m s) = recorders s.
Proof.
  intros Hc Hw Hk Hj Hp.
  destruct (queued_running_located _ _ _ Hw Hk Hj)
    as (done & ws & Hq & Hlen & Hd & Hws).
  unfold settleJob. rewrite Hk.
  set (s1 := set_processingQueueRef _ s).
  assert (Hq1 : processingQueueRef s1
                = (done ++ [mkJob (clip j) (settled m)]) ++ ws).
  { subst s1. simpl. rewrite Hq, <- Hlen, queued_insert_located.
    by rewrite <- app_assoc. }
  assert (Hpre : preChained (processingQueueRef s1)).
  { exists (done ++ [mkJob (clip j) (settled m)]), ws.
    split; [done|]. split; [|by right].
    apply Forall_app. split; [done|]. by constructor. }
  assert (Hany : anyRunning (processingQueueRef s1) = false).
  { rewrite Hq1, queued_anyRunning_app.
    rewrite (queued_anyRunning_waiting ws) by done.
    rewrite queued_anyRunning_app.
    rewrite (queued_anyRunning_settled done) by done.
    reflexivity. }
  split; [|split].
  - by apply (queued_pump_chained
                (bool_decide (is_Some (audioContextRef s1)))) in Hpre
      as [? _]; unfold runQueue;
      destruct (pump _ (processingQueueRef s1)).
  - apply queued_runQueue_indicator; [done|done|]. by rewrite Hany.
  - unfold runQueue. by destruct (pump _ (processingQueueRef s1)).
Qed.

End QueuedIndicatorSteps.


Section QueuedIndicatorRun.
Import Media Sarvam QueuedStt QueuedShapes.

Lemma queued_context_of_link s k j :
  contextReady s → processingQueueRef s !! k = Some j →
  is_Some (audioContextRef s).
Proof.
  intros [H|(_ & _ & Hq)] Hk; [done|]. by rewrite Hq, lookup_nil in Hk.
Qed.

Lemma queued_context_of_recorder s r m :
  contextReady s → recorders s !! r = Some m →
  is_Some (audioContextRef s).
Proof.
  intros [H|(_ & Hr & _)] Hk; [done|]. by rewrite Hr, lookup_nil in Hk.
Qed.

Lemma queued_anyRunning_insert (done ws : list Job) j j' :
  isRunning (phase j') = isRunning (phase j) →
  anyRunning (done ++ j' :: ws) = anyRunning (done ++ j :: ws).
Proof.
  intros H. rewrite !queued_anyRunning_app. unfold anyRunning. simpl.
  by rewrite H.
Qed.

Lemma queued_processAndSendAudio_indicator c s :
  is_Some (audioContextRef s) →
  wellChained (processingQueueRef s) = true →
  isProcessing s = anyRunning (processingQueueRef s) →
  wellChained (processingQueueRef (processAndSendAudio c s)) = true ∧
  isProcessing (processAndSendAudio c s)
  = anyRunning (processingQueueRef (processAndSendAudio c s)) ∧
  audioContextRef (processAndSendAudio c s) = audioContextRef s.
Proof.
  intros Hc Hw Hi. unfold processAndSendAudio.
  set (s1 := set_processingQueueRef _ s).
  assert (Hpre : preChained (processingQueueRef s1))
    by (by apply queued_append_pre).
  split; [|split].
  - by apply (queued_pump_chained
                (bool_decide (is_Some (audioContextRef s1)))) in Hpre
      as [? _]; unfold runQueue;
      destruct (pump _ (processingQueueRef s1)).
  - apply queued_runQueue_indicator; [done|done|].
    subst s1. simpl. rewrite queued_anyRunning_app, Hi.
    unfold anyRunning at 2. simpl. by rewrite !orb_false_r.
  - unfold runQueue. by destruct (pump _ (processingQueueRef s1)).
Qed.

Lemma queued_onstop_indicator s :
  is_Some (audioContextRef s) → indicatorInv s → indicatorInv (onstop s).
Proof.
  intros Hc (Hctx & Hw & Hi). unfold onstop. cbn zeta.
  destruct (_ && _).
  - destruct (queued_processAndSendAudio_indicator
                (newBlob (chunksRef s)) s Hc Hw Hi) as (Hw' & Hi' & Hc').
    unfold indicatorInv, contextReady. simpl.
    split; [left; by rewrite Hc'|done].
  - unfold indicatorInv, contextReady. simpl. split; [by left|done].
Qed.

Lemma queued_decoded_indicator k f s : indicatorInv s → indicatorInv (decoded k f s).
Proof.
  intros Hinv. pose proof Hinv as (Hctx & Hw & Hi). unfold decoded.
  destruct (processingQueueRef s !! k) as [j|] eqn:Hk; [|done].
  pose proof (queued_context_of_link _ _ _ Hctx Hk) as Hc.
  destruct (phase j) eqn:Hp; try done.
  assert (Hj : isRunning (phase j) = true) by (by rewrite Hp).
  destruct f as [err|].
  - unfold transcriptionFailed.
    set (s1 := set_isProcessing false _).
    destruct (queued_settleJob_indicator k j None s1)
      as (Hw' & Hi' & Hc' & Hs' & Hr'); try done.
    unfold indicatorInv, contextReady. rewrite Hc'.
    split; [by left|done].
  - destruct (queued_running_located _ _ _ Hw Hk Hj)
      as (done & ws & Hq & Hlen & Hd & Hws).
    unfold indicatorInv, contextReady. simpl.
    split; [by left|].
    rewrite Hq, <- Hlen, queued_insert_located.
    split.
    + rewrite queued_wellChained_app by done. simpl.
      by apply queued_waiting_forallb.
    + rewrite Hi, Hq. symmetry. apply queued_anyRunning_insert.
      simpl. by rewrite Hp.
Qed.

Lemma queued_responded_indicator k r s :
  indicatorInv s → indicatorInv (responded k r s).
Proof.
  intros Hinv. pose proof Hinv as (Hctx & Hw & Hi). unfold responded.
  destruct (processingQueueRef s !! k) as [j|] eqn:Hk; [|done].
  pose proof (queued_context_of_link _ _ _ Hctx Hk) as Hc.
  destruct (phase j) eqn:Hp; try done.
  assert (Hj : isRunning (phase j) = true) by (by rewrite Hp).
  destruct r as [err|st txt|err|data]; unfold transcriptionFailed.
  all: match goal with
       | |- indicatorInv (settleJob ?k' ?m ?s1) =>
           destruct (queued_settleJob_indicator k' j m s1)
             as (Hw' & Hi' & Hc' & Hs' & Hr'); try done;
           unfold indicatorInv, contextReady; rewrite Hc';
           (split; [by left|done])
       end.
Qed.

Lemma queued_step_indicator s e : indicatorInv s → indicatorInv (step s e).
Proof.
  intros Hinv. pose proof Hinv as (Hctx & Hw & Hi).
  destruct e as [p|r d|r|t|k f|k r|i| | |]; simpl.
  - destruct (queued_handleVoiceProbability_indicator p s) as [Hv Hr].
    eapply queued_indicator_frame; [exact Hv| |done].
    intros Hrec Hs. by rewrite Hr.
  - unfold dispatchData. destruct (_ || _); [|done].
    unfold ondataavailable. destruct (0 <? size d); [|done].
    eapply queued_indicator_frame; [| |exact Hinv]; done.
  - unfold dispatchStop. destruct (recorders s !! r) as [m|] eqn:Hr; [|done].
    destruct (stopQueued m); [|done].
    pose proof (queued_context_of_recorder _ _ _ Hctx Hr) as Hc.
    apply queued_onstop_indicator; [done|].
    unfold indicatorInv, contextReady. simpl. split; [by left|done].
  - unfold elapse. cbn zeta.
    destruct (queued_fireDue_indicator
                (length (Timers.pending (timers s))) t s) as [Hv Hr].
    eapply queued_indicator_frame; [| |exact Hinv].
    + unfold indicatorView in *. simpl. exact Hv.
    + intros Hrec _. simpl. by apply Hr.
  - by apply queued_decoded_indicator.
  - by apply queued_responded_indicator.
  - unfold initializeVoiceDetector. cbn zeta.
    destruct i; unfold indicatorInv, contextReady; simpl;
      (split; [left; by eexists|done]).
  - unfold startListening. destruct (cobraRef s); [|done].
    destruct (isInitialized s); [|done].
    eapply queued_indicator_frame; [| |exact Hinv]; done.
  - unfold stopListening. destruct (cobraRef s) as [c|]; [|done].
    destruct (isListeningRef s); [|done]. cbn zeta.
    set (s1 := set_cobraRef _ s).
    destruct (queued_stopRecording_indicator s1) as [Hv Hr].
    eapply queued_indicator_frame; [| |exact Hinv].
    + destruct (isRecordingRef s1); [|done].
      unfold indicatorView in *. simpl. exact Hv.
    + intros Hrec _. destruct (isRecordingRef s1); simpl; [by apply Hr|done].
  - unfold unmount. cbn zeta.
    set (s1 := match cobraRef s with Some _ => _ | None => _ end).
    assert (H1 : indicatorInv s1 ∧ audioContextRef s1 = audioContextRef s).
    { subst s1. destruct (cobraRef s); [destruct (isListeningRef s)|];
        (split; [|reflexivity]); try done;
        (eapply queued_indicator_frame; [| |exact Hinv]; done). }
    destruct H1 as [H1 Hc1].
    set (s2 := match streamRef s1 with Some _ => _ | None => _ end).
    assert (H2 : indicatorInv s2 ∧ audioContextRef s2 = audioContextRef s1).
    { subst s2. destruct (streamRef s1) eqn:Hs; [|by split].
      split; [|done]. destruct H1 as ([Hc|(Hn & _)] & Hw1 & Hi1).
      - unfold indicatorInv, contextReady. simpl. split; [by left|done].
      - congruence. }
    destruct H2 as [H2 Hc2].
    set (s3 := match cobraRef s2 with Some _ => _ | None => _ end).
    assert (H3 : indicatorInv s3 ∧ audioContextRef s3 = audioContextRef s2).
    { subst s3. destruct (cobraRef s2); (split; [|reflexivity]); try done. }
    destruct H3 as [H3 Hc3].
    destruct (audioContextRef s3) eqn:Hc; [|done].
    destruct H3 as (_ & Hw3 & Hi3).
    unfold indicatorInv, contextReady. simpl. split; [left; by eexists|done].
Qed.

Lemma queued_run_indicator es : ∀ s, indicatorInv s → indicatorInv (run s es).
Proof.
  induction es as [|e es IH]; intros s H; [done|].
  simpl. apply IH. by apply queued_step_indicator.
Qed.

End QueuedIndicatorRun.


(** X13: in every state that [QueuedStt] reaches, the processing flag
    is up exactly when a link of the promise chain is decoding or
    fetching; and the chain is empty unless the audio context exists, so
    that [newProcessing] never takes its early return, which would
    leave the flag up. *)
Theorem queued_processing_flag_tracks_chain
  (t : Z) (es : list QueuedStt.Event) :
  let s := QueuedStt.run (QueuedStt.initial t) es in
  (QueuedStt.processingQueueRef s = []
   ∨ is_Some (QueuedStt.audioContextRef s)) ∧
  QueuedStt.isProcessing s
  = existsb (λ j, QueuedStt.isRunning (QueuedStt.phase j))
      (QueuedStt.processingQueueRef s).
Proof.
  cbn zeta.
  assert (H : QueuedShapes.indicatorInv (QueuedStt.initial t)).
  { split; [right|]; done. }
  apply (queued_run_indicator es) in H.
  destruct H as ([Hc|(_ & _ & Hq)] & _ & Hi); (split; [|exact Hi]);
    [by right|by left].
Qed.

(** X14: in every state that [QueuedStt] reaches, the transcript shown
    is the texts of the responses merged so far, in the order of the
    chain, joined by single spaces, together with the timestamps of the
    last of these responses alone: the timestamps of the earlier clips
    are not kept. *)
Theorem queued_transcript_is_joined (t : Z) (es : list QueuedStt.Event) :
  let s := QueuedStt.run (QueuedStt.initial t) es in
  QueuedStt.transcription s
  = QueuedShapes.joined
      (QueuedStt.mergedResponses (QueuedStt.processingQueueRef s)).
Proof.
  cbn zeta.
  destruct (queued_run_inv es _ (queued_initial_inv t)) as [_ Ht].
  by rewrite Ht, queued_mergeAll_joined.
Qed.

Section AwaitingWithoutKey.
Import Media Sarvam AwaitingStt AwaitingShapes.

Lemma awaiting_withoutKey_frame s s' :
  sarvamKeyConfigured s' = sarvamKeyConfigured s → calls s' = calls s →
  transcription s' = transcription s →
  lastResponseTime s' = lastResponseTime s →
  withoutKey s → withoutKey s'.
Proof. unfold withoutKey. by intros -> -> -> ->. Qed.

Lemma awaiting_stopRecording_withoutKey s :
  withoutKey s → withoutKey (stopRecording s).
Proof.
  unfold stopRecording. destruct (mediaRecorderRef s) as [r|]; [|done].
  by destruct (isRecordingAt (recorders s) r).
Qed.

Lemma awaiting_fireDue_withoutKey fuel t : ∀ s,
  withoutKey s → withoutKey (fireDue fuel t s).
Proof.
  induction fuel as [|fuel IH]; intros s H; [done|]. simpl.
  destruct (Timers.next_due t (timers s)) as [tm|]; [|done].
  apply IH. destruct (Timers.callback tm). unfold runCallback.
  eapply awaiting_withoutKey_frame;
    [| | | |apply (awaiting_stopRecording_withoutKey
                     (set_now (Z.max (now s) (Timers.due tm))
                        (set_timers
                           (Timers.clearTimeout (Timers.handle tm) (timers s))
                           s)))]; done.
Qed.

Lemma awaiting_step_withoutKey s e : withoutKey s → withoutKey (step s e).
Proof.
  intros H. pose proof H as (Hk & Hc & Ht & Hl).
  destruct e as [p|r d|r|t|k f|k r|i| | |]; simpl.
  - unfold handleVoiceProbability. destruct (Qle_bool _ _).
    + unfold handleVoiceDetected. cbn zeta.
      set (s1 := match silenceTimeoutRef s with Some _ => _ | None => _ end).
      assert (H1 : withoutKey s1)
        by (subst s1; destruct (silenceTimeoutRef s); done).
      destruct (_ && _); [|done].
      unfold startRecording. destruct (streamRef s1); [|done].
      destruct (_ || _); done.
    + unfold handleSilenceDetected. destruct (silenceTimeoutRef s); [done|].
      by destruct (isRecordingRef s).
  - unfold dispatchData. destruct (_ || _); [|done].
    unfold ondataavailable. by destruct (0 <? size d).
  - unfold dispatchStop. destruct (recorders s !! r) as [m|]; [|done].
    destruct (stopQueued m); [|done].
    unfold onstop. cbn zeta. simpl. rewrite Hk.
    destruct (_ && _); done.
  - unfold elapse. cbn zeta.
    exact (awaiting_fireDue_withoutKey _ t s H).
  - unfold decoded. by rewrite Hc, lookup_nil.
  - unfold responded. by rewrite Hc, lookup_nil.
  - by destruct i.
  - unfold startListening. destruct (cobraRef s); [|done].
    by destruct (isInitialized s).
  - unfold stopListening. destruct (cobraRef s) as [c|]; [|done].
    destruct (isListeningRef s); [|done]. cbn zeta.
    set (s1 := set_cobraRef _ s).
    assert (H1 : withoutKey s1) by done.
    destruct (isRecordingRef s1); [|done].
    by apply awaiting_stopRecording_withoutKey in H1.
  - unfold unmount. cbn zeta.
    destruct (cobraRef s) as [c|] eqn:Hcb; [destruct (isListeningRef s)|];
      simpl; destruct (streamRef s); simpl; rewrite ?Hcb; done.
Qed.

End AwaitingWithoutKey.

(** X15: built without the key of the transcription service, the
    component of [page.tsx] never calls the service and never shows a
    transcript, whatever is recorded; and the stop handler of every
    session that is long enough and has captured a chunk ends with the
    error "Sarvam API key is not configured in environment variables"
    and the recording flag down. *)
Theorem awaiting_without_key_never_calls
  (t : Z) (es : list AwaitingStt.Event) (r : nat)
  (m : Media.MediaRecorder unit) (start : Z) :
  let s := AwaitingStt.run (AwaitingStt.initial t false) es in
  AwaitingStt.calls s = [] ∧
  AwaitingStt.transcription s = None ∧
  (AwaitingStt.recorders s !! r = Some m →
   Media.stopQueued m = true →
   AwaitingStt.recordingStartTimeRef s = Some start →
   AwaitingStt.MIN_RECORDING_DURATION ≤ AwaitingStt.now s - start →
   AwaitingStt.chunksRef s ≠ [] →
   let s' := AwaitingStt.dispatchStop r s in
   AwaitingStt.error s'
   = Some "Sarvam API key is not configured in environment variables"%string ∧
   AwaitingStt.isRecordingRef s' = false ∧
   AwaitingStt.calls s' = []).
Proof.
  cbn zeta.
  assert (H : ∀ s, AwaitingShapes.withoutKey s →
                   AwaitingShapes.withoutKey (AwaitingStt.run s es)).
  { induction es as [|e es IH]; intros s Hs; [done|].
    simpl. apply IH. by apply awaiting_step_withoutKey. }
  specialize (H (AwaitingStt.initial t false) ltac:(done)).
  destruct H as (Hk & Hc & Ht & _).
  split; [done|]. split; [done|].
  intros Hm Hq Hs Hd Hch.
  unfold AwaitingStt.dispatchStop. rewrite Hm, Hq.
  unfold AwaitingStt.onstop. simpl. rewrite Hs, Hk.
  destruct (Z.leb_spec AwaitingStt.MIN_RECORDING_DURATION
              (AwaitingStt.now (AwaitingStt.run (AwaitingStt.initial t false) es)
               - start)); [|lia].
  destruct (AwaitingStt.chunksRef _) eqn:E; [done|]. simpl. done.
Qed.

(** X15, at an instance: a session of two seconds with one chunk. *)
Lemma awaiting_without_key_never_calls_witness :
  let s := AwaitingStt.run (AwaitingStt.initial 1000 false)
             [AwaitingStt.evInitialized AwaitingStt.initReady;
              AwaitingStt.evStartListening;
              AwaitingStt.evProbability (9 # 10);
              AwaitingStt.evElapse 1500;
              AwaitingStt.evData 0 [Byte.x01];
              AwaitingStt.evProbability (1 # 10);
              AwaitingStt.evElapse 3000] in
  let s' := AwaitingStt.dispatchStop 0 s in
  AwaitingStt.error s'
  = Some "Sarvam API key is not configured in environment variables"%string ∧
  AwaitingStt.isRecordingRef s' = false ∧
  AwaitingStt.calls s' = [].
Proof.
  apply (awaiting_without_key_never_calls 1000
           [AwaitingStt.evInitialized AwaitingStt.initReady;
            AwaitingStt.evStartListening;
            AwaitingStt.evProbability (9 # 10);
            AwaitingStt.evElapse 1500;
            AwaitingStt.evData 0 [Byte.x01];
            AwaitingStt.evProbability (1 # 10);
            AwaitingStt.evElapse 3000]
           0 (Media.Recorder unit Media.inactive true tt) 1000).
  - reflexivity.
  - reflexivity.
  - reflexivity.
  - vm_compute. discriminate.
  - vm_compute. discriminate.
Defined.


(** * [SimpleVad] *)

Section SimpleVadFacts.
Import Media SimpleVad.

Lemma simple_revokeAll_length urls : ∀ objects,
  length (revokeAll urls objects) = length objects.
Proof.
  induction urls as [|u urls IH]; intros objects; [done|]. simpl.
  rewrite IH. destruct (objects !! u); [by rewrite length_insert|done].
Qed.

Lemma simple_revokeAll_keeps urls : ∀ objects url o,
  objects !! url = Some o → revoked o = true →
  ∃ o', revokeAll urls objects !! url = Some o' ∧ revoked o' = true.
Proof.
  induction urls as [|u urls IH]; intros objects url o Ho Hr; [by eexists|].
  simpl. destruct (objects !! u) as [ou|] eqn:Hu; [|by eapply IH].
  destruct (decide (u = url)) as [->|Hne].
  - eapply IH; [apply list_lookup_insert_eq; by eapply lookup_lt_Some|done].
  - eapply IH; [|exact Hr]. by rewrite list_lookup_insert_ne.
Qed.

Lemma simple_revokeAll_revokes urls : ∀ objects url,
  url ∈ urls → (url < length objects)%nat →
  ∃ o', revokeAll urls objects !! url = Some o' ∧ revoked o' = true.
Proof.
  induction urls as [|u urls IH]; intros objects url Hin Hlt.
  - by apply elem_of_nil in Hin.
  - simpl. apply elem_of_cons in Hin as [->|Hin].
    + destruct (lookup_lt_is_Some_2 objects u Hlt) as [o Ho]. rewrite Ho.
      eapply simple_revokeAll_keeps; [by apply list_lookup_insert_eq|done].
    + apply IH; [done|].
      destruct (objects !! u); [by rewrite length_insert|done].
Qed.

Lemma simple_stopListening_frame s :
  objectURLs (stopListening s) = objectURLs s ∧
  audioPackets (stopListening s) = audioPackets s.
Proof.
  unfold stopListening. cbn zeta.
  destruct (streamRef s); simpl;
    (destruct (audioContextRef s); simpl; by destruct (vadRef s)).
Qed.

Lemma simple_stopListening_stopped s : stopped (stopListening s).
Proof.
  unfold stopListening, stopped. cbn zeta.
  destruct (streamRef s) eqn:Hs; simpl;
    (destruct (audioContextRef s) eqn:Hc; simpl;
     (destruct (vadRef s) as [d|] eqn:Hv; simpl; rewrite ?Hs, ?Hc, ?Hv;
      repeat split; try done; try (by intros ? [= <-]);
      try (intros d' [= <-]; unfold detectorLive; simpl;
           destruct (decide (d < length (detectors s))%nat);
           [by rewrite list_lookup_insert_eq
           |by rewrite list_lookup_insert_ne_length
              || (rewrite lookup_ge_None_2;
                  [done|rewrite length_insert; lia])]))).
Qed.

Lemma simple_cleanup_stopped seen s : stopped (cleanup seen s).
Proof.
  pose proof (simple_stopListening_stopped s) as H.
  unfold cleanup. cbn zeta. exact H.
Qed.

Lemma simple_packetsInv_frame s s' :
  objectURLs s' = objectURLs s → audioPackets s' = audioPackets s →
  packetsInv s → packetsInv s'.
Proof. unfold packetsInv, isRevoked. by intros -> ->. Qed.

Lemma simple_cleanup_inv s :
  packetsInv s → packetsInv (cleanup (audioPackets s) s).
Proof.
  intros [Hb Hr]. destruct (simple_stopListening_frame s) as [Ho Hp].
  unfold cleanup, packetsInv, isRevoked. cbn zeta.
  cbn [objectURLs audioPackets set_objectURLs set_audioPackets].
  rewrite Ho, Hp, simple_revokeAll_length. split; [done|].
  intros i url Hi Hlt.
  destruct (simple_revokeAll_revokes (audioPackets s) (objectURLs s) url)
    as (o & -> & Hrev); [by eapply list_elem_of_lookup_2| |done].
  rewrite Forall_forall in Hb. apply Hb. by eapply list_elem_of_lookup_2.
Qed.

Lemma simple_onstop_inv s : packetsInv s → packetsInv (onstop s).
Proof.
  intros [Hb Hr]. unfold onstop. cbn zeta.
  destruct (0 <? size (newBlob (audioChunksRef s))); [|done].
  set (s1 := set_objectURLs _ s).
  destruct (simple_stopListening_frame s1) as [Ho Hp].
  unfold cleanup, packetsInv, isRevoked. cbn zeta.
  cbn [objectURLs audioPackets set_objectURLs set_audioPackets].
  rewrite Ho, simple_revokeAll_length. subst s1.
  cbn [objectURLs audioPackets set_objectURLs set_audioPackets].
  rewrite length_app. simpl. split.
  - apply Forall_app. split.
    + eapply Forall_impl; [exact Hb|]. simpl. lia.
    + constructor; [lia|constructor].
  - intros i url Hi Hlt. rewrite length_app in Hlt. simpl in Hlt.
    rewrite lookup_app_l in Hi by lia.
    destruct (simple_revokeAll_revokes (audioPackets s)
                (objectURLs s ++ [Object (newBlob (audioChunksRef s)) false])
                url) as (o & -> & Hrev);
      [by eapply list_elem_of_lookup_2| |done].
    rewrite length_app. simpl.
    rewrite Forall_forall in Hb.
    assert (url < length (objectURLs s))%nat; [|lia].
    apply Hb. by eapply list_elem_of_lookup_2.
Qed.

Lemma simple_step_inv s e : packetsInv s → packetsInv (step s e).
Proof.
  intros H. destruct e as [d|d|r data|r|g| |]; simpl.
  - destruct (detectorLive d s); [|done]. unfold startRecording.
    destruct (streamRef s) as [st|]; [|done]. cbn zeta.
    by destruct (tracksLive st).
  - destruct (detectorLive d s); [|done]. unfold stopRecording.
    destruct (mediaRecorderRef s) as [r|]; [|done].
    by destruct (isRecordingAt (recorders s) r).
  - unfold dispatchData. destruct (_ || _); [|done].
    unfold ondataavailable. by destruct (0 <? size data).
  - unfold dispatchStop. destruct (recorders s !! r) as [m|]; [|done].
    destruct (stopQueued m); [|done]. by apply simple_onstop_inv.
  - by destruct g.
  - destruct (simple_stopListening_frame s).
    by eapply simple_packetsInv_frame.
  - by apply simple_cleanup_inv.
Qed.

Lemma simple_run_inv es : ∀ s, packetsInv s → packetsInv (run s es).
Proof.
  induction es as [|e es IH]; intros s H; [done|].
  simpl. apply IH. by apply simple_step_inv.
Qed.

Lemma simple_step_packets s e :
  audioPackets (step s e) = audioPackets s
  ∨ stopped (step s e).
Proof.
  destruct e as [d|d|r data|r|g| |]; simpl.
  - left. destruct (detectorLive d s); [|done]. unfold startRecording.
    destruct (streamRef s) as [st|]; [|done]. cbn zeta.
    by destruct (tracksLive st).
  - left. destruct (detectorLive d s); [|done]. unfold stopRecording.
    destruct (mediaRecorderRef s) as [r|]; [|done].
    by destruct (isRecordingAt (recorders s) r).
  - left. unfold dispatchData. destruct (_ || _); [|done].
    unfold ondataavailable. by destruct (0 <? size data).
  - unfold dispatchStop. destruct (recorders s !! r) as [m|]; [|by left].
    destruct (stopQueued m); [|by left]. unfold onstop. cbn zeta.
    destruct (0 <? size _); [|by left]. right.
    set (s1 := set_objectURLs _ (set_recorders _ s)).
    exact (simple_cleanup_stopped _ s1).
  - left. by destruct g.
  - right. apply simple_stopListening_stopped.
  - right. apply simple_cleanup_stopped.
Qed.

End SimpleVadFacts.

(** X16: of the packets that the [Index] of [part_001] lists, every one
    but the newest names an object URL that has been revoked: when a
    packet is added, the effect cleanup of the render before revokes the
    object URL of every packet listed until then. *)
Theorem simple_vad_older_packet_urls_are_revoked
  (es : list SimpleVad.Event) (i url : nat) :
  let s := SimpleVad.run SimpleVad.initial es in
  SimpleVad.audioPackets s !! i = Some url →
  (S i < length (SimpleVad.audioPackets s))%nat →
  SimpleVad.isRevoked s url = true.
Proof.
  cbn zeta. intros Hi Hlt.
  assert (H : SimpleVad.packetsInv SimpleVad.initial).
  { split; [constructor|]. intros ? ? Hx. simpl in Hx. by rewrite lookup_nil in Hx. }
  apply (simple_run_inv es) in H. destruct H as [_ H]. by eapply H.
Qed.

(** X16, at an instance: two utterances recorded, listening started
    again in between. *)
Lemma simple_vad_older_packet_urls_are_revoked_witness :
  let s := SimpleVad.run SimpleVad.initial
             [SimpleVad.evStartListening true; SimpleVad.evVoiceStart 0;
              SimpleVad.evVoiceStop 0; SimpleVad.evData 0 [Byte.x01];
              SimpleVad.evStop 0;
              SimpleVad.evStartListening true; SimpleVad.evVoiceStart 1;
              SimpleVad.evVoiceStop 1; SimpleVad.evData 1 [Byte.x02];
              SimpleVad.evStop 1] in
  SimpleVad.audioPackets s = [0; 1]%nat ∧
  SimpleVad.isRevoked s 0 = true ∧
  SimpleVad.isRevoked s 1 = false.
Proof.
  split; [reflexivity|]. split; [|reflexivity].
  apply (simple_vad_older_packet_urls_are_revoked
           [SimpleVad.evStartListening true; SimpleVad.evVoiceStart 0;
            SimpleVad.evVoiceStop 0; SimpleVad.evData 0 [Byte.x01];
            SimpleVad.evStop 0;
            SimpleVad.evStartListening true; SimpleVad.evVoiceStart 1;
            SimpleVad.evVoiceStop 1; SimpleVad.evData 1 [Byte.x02];
            SimpleVad.evStop 1] 0 0).
  - reflexivity.
  - vm_compute. lia.
Defined.

(** X17: saving a packet ends the listening: after any event that
    lengthens the list of packets the component shows itself idle, the
    tracks of its stream are stopped, its audio context is closed and
    the detector it holds is destroyed. *)
Theorem simple_vad_saving_a_packet_stops_listening
  (s : SimpleVad.State) (e : SimpleVad.Event) :
  (length (SimpleVad.audioPackets s)
   < length (SimpleVad.audioPackets (SimpleVad.step s e)))%nat →
  SimpleVad.stopped (SimpleVad.step s e).
Proof.
  intros H. destruct (simple_step_packets s e) as [E|Hs]; [|done].
  rewrite E in H. lia.
Qed.

(** X17, at an instance: the stop event of the first utterance. *)
Lemma simple_vad_saving_a_packet_stops_listening_witness :
  SimpleVad.stopped
    (SimpleVad.step
       (SimpleVad.run SimpleVad.initial
          [SimpleVad.evStartListening true; SimpleVad.evVoiceStart 0;
           SimpleVad.evVoiceStop 0; SimpleVad.evData 0 [Byte.x01]])
       (SimpleVad.evStop 0)).
Proof.
  apply (simple_vad_saving_a_packet_stops_listening
           (SimpleVad.run SimpleVad.initial
              [SimpleVad.evStartListening true; SimpleVad.evVoiceStart 0;
               SimpleVad.evVoiceStop 0; SimpleVad.evData 0 [Byte.x01]])
           (SimpleVad.evStop 0)).
  vm_compute. lia.
Defined.


(** * [PauseVad]: the pause timer *)

Section PauseTimer.
Import Media PauseVad PauseShapes.

Lemma pause_clear_empty h n :
  Timers.clearTimeout h (Timers.Table (C:=Callback) [] n) = Timers.Table [] n.
Proof. reflexivity. Qed.

Lemma pause_timerInv_frame s s' :
  now s' = now s → timers s' = timers s →
  pauseTimeoutRef s' = pauseTimeoutRef s →
  silenceStartRef s' = silenceStartRef s →
  timerInv s → timerInv s'.
Proof. unfold timerInv. by intros -> -> -> ->. Qed.

(** [setIsRecording] written with the setters. *)
Lemma pause_setIsRecording_unfold v s :
  setIsRecording v s
  = set_startListeningHolds
      (if Bool.eqb (isRecording s) v then startListeningHolds s
       else isListening s)
      (set_isRecording v s).
Proof. unfold setIsRecording. cbn zeta. by destruct (Bool.eqb _ _). Qed.

Lemma pause_stopRecording_inv s : timerInv s → timerInv (stopRecording s).
Proof.
  unfold stopRecording. destruct (mediaRecorderRef s) as [r|]; [|done].
  destruct (isRecordingAt (recorders s) r); [|done].
  by rewrite pause_setIsRecording_unfold.
Qed.

(** Clearing the timer that [pauseTimeoutRef] names leaves none. *)
Lemma pause_clear_named s :
  timerInv s →
  Timers.pending
    (match pauseTimeoutRef s with
     | Some h => Timers.clearTimeout h (timers s)
     | None => timers s
     end) = [].
Proof.
  intros [_ [Hp|(h & d & Hp & Hr & _)]].
  - destruct (pauseTimeoutRef s) as [h|]; [|done].
    destruct (timers s) as [p n]. simpl in Hp. by subst p.
  - rewrite Hr. destruct (timers s) as [p n]. simpl in Hp. subst p.
    by rewrite timers_clear_single.
Qed.

Lemma pause_handleSpeech_inv s : timerInv s → timerInv (handleSpeech s).
Proof.
  intros H. pose proof (pause_clear_named s H) as Hc.
  destruct H as [Hn _]. unfold handleSpeech, timerInv. cbn zeta.
  destruct (pauseTimeoutRef s); simpl; (split; [done|by left]).
Qed.

Lemma pause_handlePause_inv s : timerInv s → timerInv (handlePause s).
Proof.
  intros H. unfold handlePause.
  destruct (truthy (silenceStartRef s)) eqn:Ht; [done|].
  destruct H as [Hn [Hp|(h & d & _ & _ & Ht')]]; [|congruence].
  unfold timerInv. simpl. split; [done|]. right.
  rewrite Hp. simpl. do 2 eexists. split; [done|]. split; [done|].
  apply negb_true_iff, Z.eqb_neq. lia.
Qed.

Lemma pause_stopListening_clears s :
  timerInv s → Timers.pending (timers (stopListening s)) = [].
Proof.
  intros H. pose proof (pause_clear_named s H) as Hc.
  unfold stopListening. cbn zeta. rewrite pause_setIsRecording_unfold.
  destruct (streamRef s); simpl;
    (destruct (audioContextRef s); simpl;
     (destruct (vadRef s); simpl; by destruct (pauseTimeoutRef s))).
Qed.

Lemma pause_stopListening_inv s : timerInv s → timerInv (stopListening s).
Proof.
  intros H. pose proof (pause_stopListening_clears s H) as Hc.
  destruct H as [Hn _]. split; [|by left].
  unfold stopListening. cbn zeta. rewrite pause_setIsRecording_unfold.
  destruct (streamRef s); simpl;
    (destruct (audioContextRef s); simpl;
     (destruct (vadRef s); simpl; by destruct (pauseTimeoutRef s))).
Qed.

Lemma pause_onstop_inv b s : timerInv s → timerInv (onstop b s).
Proof.
  intros H. unfold onstop. cbn zeta.
  set (s1 := if _ <=? _ then _ else s).
  assert (H1 : timerInv s1).
  { subst s1. destruct (_ <=? _); [|done]. unfold saveRecording. cbn zeta.
    by destruct (0 <? _). }
  by destruct (_ && _).
Qed.

Lemma pause_set_now_inv t s :
  timerInv s → timerInv (set_now (Z.max (now s) t) s).
Proof. intros [Hn Hp]. split; [simpl; lia|exact Hp]. Qed.

Lemma pause_elapse_inv t s : timerInv s → timerInv (elapse t s).
Proof.
  intros H. pose proof H as [Hn Hp]. unfold elapse. cbn zeta.
  apply pause_set_now_inv.
  destruct Hp as [Hp|(h & d & Hp & Hr & Ht)].
  - by rewrite Hp.
  - rewrite Hp. cbn [length fireDue].
    destruct (timers s) as [p n] eqn:Htb. simpl in Hp. subst p.
    destruct (Z.le_gt_cases d t) as [Hd|Hd].
    + rewrite timers_next_due_single by done.
      cbn [Timers.callback Timers.handle Timers.due].
      rewrite timers_clear_single.
      unfold runCallback.
      set (s1 := set_now _ (set_timers _ s)).
      assert (H1 : timerInv s1)
        by (split; [subst s1; simpl; lia|by left]).
      destruct (_ <=? _); [|done]. by apply pause_stopRecording_inv.
    + by rewrite timers_next_due_later by done.
Qed.

Lemma pause_step_inv s e : timerInv s → timerInv (step s e).
Proof.
  intros H. destruct e as [| |r d|r|t|g| |]; simpl.
  - destruct (detectorLive s); [|done]. unfold onVoiceStart.
    destruct (vadRef s) as [v|]; [|done]. cbn zeta.
    pose proof (pause_handleSpeech_inv s H) as H1.
    destruct (negb _); [|done]. unfold startRecording.
    destruct (streamRef (handleSpeech s)); [|done].
    destruct (create _ _) as [r' hp]. by rewrite pause_setIsRecording_unfold.
  - destruct (detectorLive s); [|done]. unfold onVoiceStop.
    destruct (vadRef s); [|done]. by apply pause_handlePause_inv.
  - unfold dispatchData. destruct (_ || _); [|done].
    unfold ondataavailable. by destruct (0 <? size d).
  - unfold dispatchStop. destruct (recorders s !! r) as [m|]; [|done].
    destruct (stopQueued m); [|done]. by apply pause_onstop_inv.
  - by apply pause_elapse_inv.
  - by destruct g.
  - by apply pause_stopListening_inv.
  - by apply pause_stopListening_inv.
Qed.

Lemma pause_run_inv es : ∀ s, timerInv s → timerInv (run s es).
Proof.
  induction es as [|e es IH]; intros s H; [done|].
  simpl. apply IH. by apply pause_step_inv.
Qed.

End PauseTimer.

(** X18: in the [Index] of [speech2tex.tsx], mounted at a time after the
    epoch, at most one pause timer is ever pending, and [stopListening]
    leaves none: after it, the passing of time runs no callback and
    changes nothing but the clock. *)
Theorem pause_vad_stopListening_leaves_no_timer
  (t : Z) (es : list PauseVad.Event) (t' : Z) :
  0 < t →
  let s := PauseVad.run (PauseVad.initial t) es in
  (length (Timers.pending (PauseVad.timers s)) ≤ 1)%nat ∧
  Timers.pending (PauseVad.timers (PauseVad.stopListening s)) = [] ∧
  PauseVad.elapse t' (PauseVad.stopListening s)
  = PauseVad.set_now (Z.max (PauseVad.now s) t') (PauseVad.stopListening s).
Proof.
  intros Ht. cbn zeta.
  assert (H : PauseShapes.timerInv (PauseVad.initial t))
    by (split; [done|by left]).
  apply (pause_run_inv es) in H.
  pose proof (pause_stopListening_clears _ H) as Hc.
  split; [|split; [done|]].
  - destruct H as [_ [->|(h & d & -> & _)]]; simpl; lia.
  - unfold PauseVad.elapse. rewrite Hc. simpl. f_equal.
    unfold PauseVad.stopListening. cbn zeta.
    rewrite pause_setIsRecording_unfold.
    set (s := PauseVad.run _ es).
    destruct (PauseVad.streamRef s); simpl;
      (destruct (PauseVad.audioContextRef s); simpl;
       (destruct (PauseVad.vadRef s); simpl;
        by destruct (PauseVad.pauseTimeoutRef s))).
Qed.

(** X18, at an instance: listening is stopped one second into a
    pause. *)
Lemma pause_vad_stopListening_leaves_no_timer_witness :
  let s := PauseVad.run (PauseVad.initial 1000)
             [PauseVad.evStartListening true; PauseVad.evVoiceStart;
              PauseVad.evElapse 2000; PauseVad.evVoiceStop;
              PauseVad.evElapse 3000] in
  (length (Timers.pending (PauseVad.timers s)) ≤ 1)%nat ∧
  Timers.pending (PauseVad.timers (PauseVad.stopListening s)) = [] ∧
  PauseVad.elapse 9000 (PauseVad.stopListening s)
  = PauseVad.set_now (Z.max (PauseVad.now s) 9000) (PauseVad.stopListening s).
Proof.
  apply (pause_vad_stopListening_leaves_no_timer 1000
           [PauseVad.evStartListening true; PauseVad.evVoiceStart;
            PauseVad.evElapse 2000; PauseVad.evVoiceStop;
            PauseVad.evElapse 3000] 9000).
  reflexivity.
Defined.

Section PlainIdle.
Import Media PlainDetector PlainShapes.

Lemma plain_idle_step s e : idle s → idle (step s e).
Proof.
  intros H. pose proof H as (Hr & Hc & Hi & Hm & Hs & Hp).
  destruct e as [p|r d|r|t|i| | |]; simpl.
  - unfold handleVoiceProbability. destruct (negb _); simpl.
    + unfold handleVoiceDetected. simpl. rewrite Hs. simpl. done.
    + unfold handleSilenceDetected. simpl. rewrite Hs. simpl. done.
  - unfold dispatchData, isRecordingAt, hasQueuedStop.
    by rewrite Hr, lookup_nil.
  - unfold dispatchStop. by rewrite Hr, lookup_nil.
  - unfold elapse. rewrite Hp. simpl. done.
  - by destruct i.
  - unfold startListening. destruct (cobra s); [|done].
    by destruct (isListening s).
  - unfold stopListening. destruct (cobra s) as [c|]; [|done].
    destruct (isListening s); [|done]. cbn zeta. by rewrite Hi.
  - done.
Qed.

End PlainIdle.

(** X19: the [VoiceDetector] of [speech2tex.tsx] never records: the
    callback given to Cobra belongs to the first render, where
    [isListening] and [isRecording] are false, so whatever the samples
    and the clicks no recorder is created, no silence timer is armed and
    no clip is listed. *)
Theorem plain_detector_never_records (t : Z) (es : list PlainDetector.Event) :
  let s := PlainDetector.run (PlainDetector.initial t) es in
  PlainDetector.recorders s = [] ∧
  PlainDetector.audioClips s = [] ∧
  PlainDetector.isRecording s = false ∧
  Timers.pending (PlainDetector.timers s) = [].
Proof.
  cbn zeta.
  assert (H : ∀ s, PlainShapes.idle s → PlainShapes.idle (PlainDetector.run s es)).
  { induction es as [|e es IH]; intros s Hs; [done|].
    simpl. apply IH. by apply plain_idle_step. }
  specialize (H (PlainDetector.initial t) ltac:(by repeat split)).
  by destruct H as (? & ? & ? & _ & _ & ?).
Qed.


(** * The relay server: bursts of audio *)

Section RelayBurst.
Import Sarvam Relay RelayBeat.

Lemma relay_totalSize_app l1 l2 :
  totalSize (l1 ++ l2) = totalSize l1 + totalSize l2.
Proof.
  induction l2 as [|c l2 IH] using rev_ind.
  - rewrite app_nil_r. unfold totalSize at 3. simpl. lia.
  - rewrite app_assoc, !relay_totalSize_snoc, IH. lia.
Qed.

Lemma relay_totalSize_concat chunks :
  totalSize chunks = Z.of_nat (length (concat chunks)).
Proof.
  induction chunks as [|c chunks IH] using rev_ind; [done|].
  rewrite relay_totalSize_snoc, concat_app, length_app, IH. simpl.
  rewrite app_nil_r. lia.
Qed.

Lemma relay_elapse_idle t s :
  Timers.pending (timers s) = [] → elapse t s = set_now (Z.max (now s) t) s.
Proof. intros H. unfold elapse. by rewrite H. Qed.

Lemma relay_elapse_before t s h d c :
  Timers.pending (timers s) = [Timers.Timer h d c] → t < d →
  elapse t s = set_now (Z.max (now s) t) s.
Proof.
  intros H Ht. unfold elapse. rewrite H. cbn [length fireDue].
  destruct (timers s) as [p n]. simpl in H. subst p.
  by rewrite timers_next_due_later.
Qed.

(** An audio message within the cap arms the timer afresh. *)
Lemma relay_onMessage_arms s clientId alive buffered chunk :
  clients s !! clientId = Some (mkClient alive buffered) →
  totalSize (buffered ++ [chunk]) ≤ MAX_BUFFER_SIZE →
  Timers.pending
    (match audioProcessingTimeout s !! clientId with
     | Some h => Timers.clearTimeout h (timers s)
     | None => timers s
     end) = [] →
  let s' := onMessage clientId (inAudio chunk) s in
  armed clientId alive (buffered ++ [chunk]) s' ∧
  now s' = now s ∧ requests s' = requests s ∧ sent s' = sent s.
Proof.
  intros Hc Hsz Hp. cbn zeta. unfold onMessage. rewrite Hc. cbn zeta.
  cbn [currentAudioBuffer isAlive].
  destruct (Z.ltb_spec MAX_BUFFER_SIZE (totalSize (buffered ++ [chunk])));
    [lia|].
  cbn [audioProcessingTimeout timers set_clients now].
  set (tb := match audioProcessingTimeout s !! clientId with
             | Some h => _ | None => _ end) in *.
  unfold Timers.setTimeout. unfold armed. simpl.
  rewrite lookup_insert_eq. split; [|done].
  split; [done|]. eexists. rewrite lookup_insert_eq. split; [done|].
  by rewrite Hp.
Qed.

Lemma relay_deliver_idle s clientId alive buffered (m : Z * Buffer) :
  clients s !! clientId = Some (mkClient alive buffered) →
  Timers.pending (timers s) = [] → now s ≤ m.1 →
  totalSize (buffered ++ [m.2]) ≤ MAX_BUFFER_SIZE →
  let s' := deliver clientId s m in
  armed clientId alive (buffered ++ [m.2]) s' ∧
  now s' = m.1 ∧ requests s' = requests s ∧ sent s' = sent s.
Proof.
  intros Hc Hp Hn Hsz. cbn zeta. unfold deliver.
  rewrite relay_elapse_idle by done.
  destruct (relay_onMessage_arms (set_now (Z.max (now s) m.1) s)
              clientId alive buffered m.2) as (Ha & Hn' & Hr & Hs);
    try done.
  - simpl. destruct (audioProcessingTimeout s !! clientId); [|done].
    destruct (timers s) as [p nh]. simpl in Hp. by subst p.
  - split; [done|]. split; [simpl in Hn'; lia|done].
Qed.

Lemma relay_deliver_armed s clientId alive buffered (m : Z * Buffer) :
  armed clientId alive buffered s →
  now s ≤ m.1 → m.1 < now s + AUDIO_CHUNK_TIMEOUT →
  totalSize (buffered ++ [m.2]) ≤ MAX_BUFFER_SIZE →
  let s' := deliver clientId s m in
  armed clientId alive (buffered ++ [m.2]) s' ∧
  now s' = m.1 ∧ requests s' = requests s ∧ sent s' = sent s.
Proof.
  intros (Hc & h & Hh & Hp) Hn Hlt Hsz. cbn zeta. unfold deliver.
  rewrite (relay_elapse_before _ _ _ _ _ Hp) by done.
  destruct (relay_onMessage_arms (set_now (Z.max (now s) m.1) s)
              clientId alive buffered m.2) as (Ha & Hn' & Hr & Hs);
    try done.
  - simpl. rewrite Hh. destruct (timers s) as [p nh]. simpl in Hp. subst p.
    by rewrite timers_clear_single.
  - split; [done|]. split; [simpl in Hn'; lia|done].
Qed.

Lemma relay_last_cons {A} (ms : list A) : ∀ m d,
  List.last (m :: ms) d = List.last ms m.
Proof.
  induction ms as [|m' ms IH]; intros m d; [done|].
  change (List.last (m :: m' :: ms) d) with (List.last (m' :: ms) d).
  by rewrite !IH.
Qed.

Lemma relay_deliverAll_armed clientId alive ms : ∀ s buffered,
  armed clientId alive buffered s →
  spaced (now s) ms →
  totalSize (buffered ++ (snd <$> ms)) ≤ MAX_BUFFER_SIZE →
  let s' := deliverAll clientId s ms in
  armed clientId alive (buffered ++ (snd <$> ms)) s' ∧
  now s' = (List.last ms (now s, [])).1 ∧
  requests s' = requests s ∧ sent s' = sent s.
Proof.
  induction ms as [|m ms IH]; intros s buffered Ha Hsp Hsz.
  - simpl. by rewrite app_nil_r.
  - destruct Hsp as (Hle & Hlt & Hsp). cbn zeta.
    cbn [deliverAll fold_left].
    assert (Hsz1 : totalSize (buffered ++ [m.2]) ≤ MAX_BUFFER_SIZE).
    { change (snd <$> m :: ms) with (m.2 :: (snd <$> ms)) in Hsz.
      replace (buffered ++ m.2 :: (snd <$> ms))
        with ((buffered ++ [m.2]) ++ (snd <$> ms)) in Hsz
        by (by rewrite <- app_assoc).
      rewrite relay_totalSize_app in Hsz.
      pose proof (relay_totalSize_nonneg (snd <$> ms)). lia. }
    destruct (relay_deliver_armed s clientId alive buffered m Ha Hle Hlt Hsz1)
      as (Ha1 & Hn1 & Hr1 & Hs1).
    destruct (IH (deliver clientId s m) (buffered ++ [m.2]) Ha1)
      as (Ha2 & Hn2 & Hr2 & Hs2).
    + by rewrite Hn1.
    + rewrite <- app_assoc. exact Hsz.
    + fold (deliverAll clientId (deliver clientId s m) ms).
      rewrite <- app_assoc in Ha2. split; [exact Ha2|].
      split; [|split; congruence].
      rewrite Hn2, Hn1, relay_last_cons.
      destruct ms as [|m' ms]; [done|]. by rewrite !relay_last_cons.
Qed.

(** The timer comes due: the buffer goes to [processAudio] in one
    piece. *)
Lemma relay_armed_flushes s clientId alive buffered t :
  armed clientId alive buffered s →
  now s + AUDIO_CHUNK_TIMEOUT ≤ t →
  let s' := elapse t s in
  requests s' = requests s ++ [(clientId, concat buffered)] ∧
  clients s' !! clientId = Some (mkClient alive []) ∧
  sent s' = sent s ∧
  Timers.pending (timers s') = [].
Proof.
  intros (Hc & h & Hh & Hp) Ht. cbn zeta. unfold elapse. rewrite Hp.
  cbn [length fireDue].
  destruct (timers s) as [p n] eqn:Htb. simpl in Hp. subst p.
  rewrite timers_next_due_single by done.
  cbn [Timers.callback Timers.handle Timers.due].
  rewrite timers_clear_single. unfold runCallback. simpl. rewrite Hc. simpl.
  rewrite lookup_insert_eq. done.
Qed.

End RelayBurst.


(** X20: audio messages of one client that follow each other by less
    than [AUDIO_CHUNK_TIMEOUT], and stay within the cap together with
    what was buffered, are handed to [processAudio] as one buffer: the
    chunks in their order of arrival, once, [AUDIO_CHUNK_TIMEOUT] after
    the last of them; nothing is sent to the client meanwhile, and its
    buffer is left empty. *)
Theorem relay_close_chunks_flush_as_one
  (s : Relay.State) (clientId : string) (client : Relay.Client)
  (m : Z * Relay.Buffer) (ms : list (Z * Relay.Buffer)) (t : Z) :
  Relay.clients s !! clientId = Some client →
  Timers.pending (Relay.timers s) = [] →
  Relay.now s ≤ m.1 →
  RelayBeat.spaced m.1 ms →
  Relay.totalSize (Relay.currentAudioBuffer client ++ (snd <$> m :: ms))
  ≤ Relay.MAX_BUFFER_SIZE →
  RelayBeat.lastTime m ms + Relay.AUDIO_CHUNK_TIMEOUT ≤ t →
  let before := RelayBeat.deliverAll clientId s (m :: ms) in
  let s' := Relay.elapse t before in
  Relay.requests before = Relay.requests s ∧
  Relay.requests s'
  = Relay.requests s
    ++ [(clientId,
         concat (Relay.currentAudioBuffer client ++ (snd <$> m :: ms)))] ∧
  Relay.clients s' !! clientId
  = Some (Relay.mkClient (Relay.isAlive client) []) ∧
  Relay.sent s' = Relay.sent s ∧
  Timers.pending (Relay.timers s') = [].
Proof.
  intros Hc Hp Hn Hsp Hsz Ht. cbn zeta.
  destruct client as [alive buffered]. cbn [Relay.currentAudioBuffer Relay.isAlive] in *.
  change (snd <$> m :: ms) with (m.2 :: (snd <$> ms)) in *.
  assert (Hsz1 : Relay.totalSize (buffered ++ [m.2]) ≤ Relay.MAX_BUFFER_SIZE).
  { replace (buffered ++ m.2 :: (snd <$> ms))
      with ((buffered ++ [m.2]) ++ (snd <$> ms)) in Hsz
      by (by rewrite <- app_assoc).
    rewrite relay_totalSize_app in Hsz.
    pose proof (relay_totalSize_nonneg (snd <$> ms)). lia. }
  destruct (relay_deliver_idle s clientId alive buffered m Hc Hp Hn Hsz1)
    as (Ha1 & Hn1 & Hr1 & Hs1).
  destruct (relay_deliverAll_armed clientId alive ms
              (RelayBeat.deliver clientId s m) (buffered ++ [m.2]) Ha1)
    as (Ha2 & Hn2 & Hr2 & Hs2).
  { by rewrite Hn1. }
  { by rewrite <- app_assoc. }
  cbn zeta in *. rewrite <- app_assoc in Ha2.
  change (RelayBeat.deliverAll clientId s (m :: ms))
    with (RelayBeat.deliverAll clientId (RelayBeat.deliver clientId s m) ms).
  destruct (relay_armed_flushes _ clientId alive _ t Ha2)
    as (Hr3 & Hc3 & Hs3 & Hp3).
  { rewrite Hn2, Hn1. unfold RelayBeat.lastTime in Ht.
    destruct ms as [|m' ms]; [done|]. by rewrite !relay_last_cons in *. }
  split; [congruence|].
  split; [by rewrite Hr3, Hr2, Hr1|].
  split; [done|]. split; [congruence|done].
Qed.

(** X20, at an instance: three chunks at 1000, 1300 and 1700; one
    request at 2200. *)
Lemma relay_close_chunks_flush_as_one_witness :
  let s := Relay.onConnection "c1" (Relay.initial 0) in
  let ms := [(1000, [Byte.x01]); (1300, [Byte.x02; Byte.x03]);
             (1700, [Byte.x04])] in
  let before := RelayBeat.deliverAll "c1" s ms in
  let s' := Relay.elapse 2200 before in
  Relay.requests before = [] ∧
  Relay.requests s'
  = [("c1"%string, [Byte.x01; Byte.x02; Byte.x03; Byte.x04])] ∧
  Relay.clients s' !! "c1"%string = Some (Relay.mkClient true []) ∧
  Relay.sent s' = [("c1"%string, Relay.outConnected "c1")] ∧
  Timers.pending (Relay.timers s') = [].
Proof.
  apply (relay_close_chunks_flush_as_one
           (Relay.onConnection "c1" (Relay.initial 0)) "c1"
           (Relay.mkClient true []) (1000, [Byte.x01])
           [(1300, [Byte.x02; Byte.x03]); (1700, [Byte.x04])] 2200).
  - reflexivity.
  - reflexivity.
  - vm_compute. discriminate.
  - vm_compute. repeat split; discriminate.
  - vm_compute. discriminate.
  - vm_compute. discriminate.
Defined.

(** X21: the cap does not bound what is transcribed: a chunk that takes
    the buffer over [MAX_BUFFER_SIZE] while the processing timer is
    armed is answered with the error, and when the timer comes due the
    whole buffer, that chunk included and larger than the cap, is handed
    to [processAudio]. *)
Theorem relay_cap_does_not_bound_requests
  (s : Relay.State) (clientId : string) (alive : bool)
  (buffered : list Relay.Buffer) (chunk : Relay.Buffer) (t : Z) :
  RelayBeat.armed clientId alive buffered s →
  Relay.MAX_BUFFER_SIZE < Relay.totalSize (buffered ++ [chunk]) →
  Relay.now s + Relay.AUDIO_CHUNK_TIMEOUT ≤ t →
  let s' := Relay.elapse t (Relay.onMessage clientId (Relay.inAudio chunk) s) in
  Relay.sent s'
  = Relay.sent s ++ [(clientId, Relay.outError "Failed to process message")] ∧
  Relay.requests s'
  = Relay.requests s ++ [(clientId, concat (buffered ++ [chunk]))] ∧
  Relay.MAX_BUFFER_SIZE < Z.of_nat (length (concat (buffered ++ [chunk]))).
Proof.
  intros Ha Hover Ht. cbn zeta.
  pose proof Ha as (Hc & h & Hh & Hp).
  rewrite (relay_onMessage_overflow s clientId _ chunk Hc) by done.
  cbn [Relay.currentAudioBuffer Relay.isAlive].
  set (s1 := Relay.send _ _ _).
  assert (Ha1 : RelayBeat.armed clientId alive (buffered ++ [chunk]) s1).
  { subst s1. split; [simpl; by rewrite lookup_insert_eq|].
    exists h. by split. }
  destruct (relay_armed_flushes s1 clientId alive _ t Ha1)
    as (Hr & _ & Hs & _); [done|].
  cbn zeta in *. rewrite Hs, Hr. split; [done|]. split; [done|].
  by rewrite <- relay_totalSize_concat.
Qed.

(** X21, at an instance: one byte buffered, then a chunk of the size of
    the cap. *)
Lemma relay_cap_does_not_bound_requests_witness :
  let s := RelayBeat.deliver "c1" (Relay.onConnection "c1" (Relay.initial 0))
             (1000, [Byte.x01]) in
  let chunk := Relay.chunkOf Relay.MAX_BUFFER_SIZE in
  let s' := Relay.elapse 1500 (Relay.onMessage "c1" (Relay.inAudio chunk) s) in
  Relay.sent s'
  = Relay.sent s ++ [("c1"%string, Relay.outError "Failed to process message")] ∧
  Relay.requests s'
  = Relay.requests s ++ [("c1"%string, concat ([[Byte.x01]] ++ [chunk]))] ∧
  Relay.MAX_BUFFER_SIZE < Z.of_nat (length (concat ([[Byte.x01]] ++ [chunk]))).
Proof.
  apply (relay_cap_does_not_bound_requests
           (RelayBeat.deliver "c1" (Relay.onConnection "c1" (Relay.initial 0))
              (1000, [Byte.x01]))
           "c1" true [[Byte.x01]] (Relay.chunkOf Relay.MAX_BUFFER_SIZE) 1500).
  - split; [reflexivity|]. exists 1%nat. split; reflexivity.
  - rewrite relay_totalSize_snoc, relay_chunkOf_length by (vm_compute; discriminate).
    vm_compute. reflexivity.
  - vm_compute. discriminate.
Defined.


(** * The relay server: the heartbeat *)

Section RelayHeartbeat.
Import Sarvam Relay RelayBeat.

Lemma relay_pingClients_lookup s clientId :
  clients (pingClients s) !! clientId
  = match clients s !! clientId with
    | Some client =>
        if isAlive client
        then Some (mkClient false (currentAudioBuffer client))
        else None
    | None => None
    end.
Proof.
  unfold pingClients. cbn zeta. simpl. rewrite lookup_fmap.
  destruct (clients s !! clientId) as [client|] eqn:Hc.
  - destruct (isAlive client) eqn:Ha.
    + rewrite (map_lookup_filter_Some_2 _ _ clientId client); done.
    + rewrite map_lookup_filter_None_2; [done|].
      right. intros x Hx. simpl. rewrite Hc in Hx. injection Hx as <-.
      by rewrite Ha.
  - rewrite map_lookup_filter_None_2; [done|]. by left.
Qed.

Lemma relay_pingClients_notAlive s clientId : notAlive clientId (pingClients s).
Proof.
  intros client. rewrite relay_pingClients_lookup.
  destruct (clients s !! clientId) as [c|]; [|done].
  destruct (isAlive c); [|done]. by intros [= <-].
Qed.

(** What one beat sends: a ping to each client that is alive. *)
Lemma relay_pingClients_pings s clientId client :
  clients s !! clientId = Some client → isAlive client = true →
  (clientId, outPing) ∈ drop (length (sent s)) (sent (pingClients s)).
Proof.
  intros Hc Ha. unfold pingClients. cbn zeta. simpl.
  rewrite drop_app_length. apply list_elem_of_fmap.
  exists (clientId, client). split; [done|].
  apply elem_of_map_to_list. by apply map_lookup_filter_Some_2.
Qed.

(** What one event does to the entry of a client. *)
Lemma relay_fireDue_entry fuel t clientId : ∀ s,
  match clients (fireDue fuel t s) !! clientId, clients s !! clientId with
  | Some c', Some c => isAlive c' = isAlive c
  | None, None => True
  | _, _ => False
  end.
Proof.
  induction fuel as [|fuel IH]; intros s.
  - simpl. by destruct (clients s !! clientId).
  - simpl. destruct (Timers.next_due t (timers s)) as [tm|];
      [|by destruct (clients s !! clientId)].
    set (s1 := runCallback _ _). specialize (IH s1).
    assert (H1 : match clients s1 !! clientId, clients s !! clientId with
                 | Some c', Some c => isAlive c' = isAlive c
                 | None, None => True
                 | _, _ => False
                 end).
    { subst s1. destruct (Timers.callback tm) as [c]. simpl.
      destruct (clients s !! c) as [client|] eqn:Hc; simpl;
        [|destruct (detached s !! c); simpl; by destruct (clients s !! clientId)].
      destruct (decide (c = clientId)) as [->|Hne].
      - by rewrite lookup_insert_eq, Hc.
      - rewrite lookup_insert_ne by done.
        by destruct (clients s !! clientId). }
    destruct (clients (fireDue fuel t s1) !! clientId),
      (clients s1 !! clientId), (clients s !! clientId); try done.
    congruence.
Qed.

Lemma relay_step_notAlive s e clientId :
  e ≠ evMessage clientId inPing → e ≠ evConnection clientId →
  notAlive clientId s → notAlive clientId (step s e).
Proof.
  intros Hp Hn H. unfold notAlive in *.
  destruct e as [c|c m|k r|c|t]; simpl.
  - intros client. rewrite lookup_insert_ne by congruence. apply H.
  - unfold onMessage. destruct (clients s !! c) as [cl|] eqn:Hc; [|done].
    destruct m as [data| | |]; try done.
    + cbn zeta. simpl.
      destruct (_ <? _); simpl.
      * intros client. destruct (decide (c = clientId)) as [->|Hne].
        -- rewrite lookup_insert_eq. intros [= <-]. simpl. by apply H.
        -- rewrite lookup_insert_ne by done. apply H.
      * intros client. destruct (decide (c = clientId)) as [->|Hne].
        -- rewrite lookup_insert_eq. intros [= <-]. simpl. by apply H.
        -- rewrite lookup_insert_ne by done. apply H.
    + simpl. intros client. rewrite lookup_insert_ne by congruence. apply H.
  - unfold onProcessed. destruct (requests s !! k) as [[c b]|]; [|done].
    by destruct r.
  - unfold onClose. destruct (clients s !! c) eqn:Hc; [|done]. simpl.
    intros client. destruct (decide (c = clientId)) as [->|Hne].
    + by rewrite lookup_delete_eq.
    + rewrite lookup_delete_ne by done. apply H.
  - unfold elapse. cbn zeta. simpl. intros client Hc.
    pose proof (relay_fireDue_entry (length (Timers.pending (timers s))) t
                  clientId s) as E.
    rewrite Hc in E. destruct (clients s !! clientId) as [c0|] eqn:Hc0; [|done].
    rewrite E. by apply H.
Qed.

Lemma relay_run_notAlive es clientId : ∀ s,
  Forall (λ e, e ≠ evMessage clientId inPing ∧ e ≠ evConnection clientId) es →
  notAlive clientId s → notAlive clientId (run s es).
Proof.
  induction es as [|e es IH]; intros s Hes H; [done|].
  inversion Hes as [|? ? [Hp Hn] Hrest]; subst.
  simpl. apply IH; [done|]. by apply relay_step_notAlive.
Qed.

Lemma relay_step_connected s e clientId :
  e ≠ evClose clientId →
  connected clientId s → connected clientId (step s e).
Proof.
  intros Hn [c0 H0]. unfold connected.
  destruct e as [c|c m|k r|c|t]; simpl.
  - destruct (decide (c = clientId)) as [->|Hne].
    + by rewrite lookup_insert_eq.
    + by rewrite lookup_insert_ne, H0.
  - unfold onMessage. destruct (clients s !! c) as [cl|] eqn:Hc;
      [|by rewrite H0].
    destruct m as [data| | |]; simpl; try (by rewrite H0).
    + cbn zeta. destruct (_ <? _); simpl;
        (destruct (decide (c = clientId)) as [->|Hne];
         [by rewrite lookup_insert_eq|by rewrite lookup_insert_ne, H0]).
    + destruct (decide (c = clientId)) as [->|Hne];
        [by rewrite lookup_insert_eq|by rewrite lookup_insert_ne, H0].
  - unfold onProcessed. destruct (requests s !! k) as [[c b]|]; [|by rewrite H0].
    destruct r; simpl; by rewrite H0.
  - unfold onClose. destruct (clients s !! c) eqn:Hc; [|by rewrite H0]. simpl.
    rewrite lookup_delete_ne by congruence. by rewrite H0.
  - unfold elapse. cbn zeta. simpl.
    pose proof (relay_fireDue_entry (length (Timers.pending (timers s))) t
                  clientId s) as E.
    rewrite H0 in E. by destruct (clients (fireDue _ t s) !! clientId).
Qed.

Lemma relay_step_alive s e clientId :
  e ≠ evClose clientId →
  alive clientId s → alive clientId (step s e).
Proof.
  intros Hn (c0 & H0 & Ha). unfold alive.
  destruct e as [c|c m|k r|c|t]; simpl.
  - destruct (decide (c = clientId)) as [->|Hne].
    + rewrite lookup_insert_eq. by eexists.
    + rewrite lookup_insert_ne by done. by eexists.
  - unfold onMessage. destruct (clients s !! c) as [cl|] eqn:Hc;
      [|by eexists].
    destruct m as [data| | |]; simpl; try (by eexists).
    + cbn zeta. destruct (_ <? _); simpl;
        (destruct (decide (c = clientId)) as [->|Hne];
         [rewrite lookup_insert_eq; eexists; split; [done|]; simpl; congruence
         |rewrite lookup_insert_ne by done; by eexists]).
    + destruct (decide (c = clientId)) as [->|Hne];
        [rewrite lookup_insert_eq|rewrite lookup_insert_ne by done];
        by eexists.
  - unfold onProcessed. destruct (requests s !! k) as [[c b]|]; [|by eexists].
    destruct r; simpl; by eexists.
  - unfold onClose. destruct (clients s !! c) eqn:Hc; [|by eexists]. simpl.
    rewrite lookup_delete_ne by congruence. by eexists.
  - unfold elapse. cbn zeta. simpl.
    pose proof (relay_fireDue_entry (length (Timers.pending (timers s))) t
                  clientId s) as E.
    rewrite H0 in E.
    destruct (clients (fireDue _ t s) !! clientId) as [c'|]; [|done].
    exists c'. split; [done|congruence].
Qed.

Lemma relay_run_connected es clientId : ∀ s,
  Forall (λ e, e ≠ evClose clientId) es →
  connected clientId s → connected clientId (run s es).
Proof.
  induction es as [|e es IH]; intros s Hes H; [done|].
  inversion Hes; subst. simpl. apply IH; [done|].
  by apply relay_step_connected.
Qed.

Lemma relay_run_alive es clientId : ∀ s,
  Forall (λ e, e ≠ evClose clientId) es →
  alive clientId s → alive clientId (run s es).
Proof.
  induction es as [|e es IH]; intros s Hes H; [done|].
  inversion Hes; subst. simpl. apply IH; [done|].
  by apply relay_step_alive.
Qed.

Lemma relay_run_app s es1 e es2 :
  run s (es1 ++ e :: es2) = run (step (run s es1) e) es2.
Proof. unfold run. by rewrite fold_left_app. Qed.

End RelayHeartbeat.

(** X22: only a message of type ping shows a client alive.  A client
    that sends none between two beats of the heartbeat (and does not
    connect anew) is no longer registered after the second beat,
    whatever else it sends: audio messages do not keep a connection. *)
Theorem relay_silent_client_is_dropped
  (s : Relay.State) (clientId : string) (es : list Relay.Event) :
  Forall (λ e, e ≠ Relay.evMessage clientId Relay.inPing
               ∧ e ≠ Relay.evConnection clientId) es →
  Relay.clients
    (RelayBeat.pingClients (Relay.run (RelayBeat.pingClients s) es))
  !! clientId = None.
Proof.
  intros Hes.
  pose proof (relay_run_notAlive es clientId _ Hes
                (relay_pingClients_notAlive s clientId)) as H.
  rewrite relay_pingClients_lookup.
  destruct (Relay.clients _ !! clientId) as [c|] eqn:Hc; [|done].
  by rewrite (H c Hc).
Qed.

(** X22, at an instance: a client that streams audio between the two
    beats. *)
Lemma relay_silent_client_is_dropped_witness :
  Relay.clients
    (RelayBeat.pingClients
       (Relay.run
          (RelayBeat.pingClients (Relay.onConnection "c1" (Relay.initial 0)))
          [Relay.evElapse 1000;
           Relay.evMessage "c1" (Relay.inAudio [Byte.x01]);
           Relay.evElapse 2000;
           Relay.evMessage "c1" (Relay.inAudio [Byte.x02])]))
  !! "c1"%string = None.
Proof.
  apply (relay_silent_client_is_dropped
           (Relay.onConnection "c1" (Relay.initial 0)) "c1").
  repeat (constructor; [split; discriminate|]). constructor.
Defined.

(** X23: a registered client that has shown itself alive and, after a
    beat of the heartbeat, sends a message of type ping is still
    registered after the next beat, unless its connection closes, and
    that next beat itself sends it a ping: the ping is among the
    messages sent after those sent before that beat. *)
Theorem relay_ping_keeps_connection
  (s : Relay.State) (clientId : string) (client : Relay.Client)
  (es1 es2 : list Relay.Event) :
  Relay.clients s !! clientId = Some client →
  Relay.isAlive client = true →
  Forall (λ e, e ≠ Relay.evClose clientId) (es1 ++ es2) →
  let before :=
    Relay.run (RelayBeat.pingClients s)
      (es1 ++ Relay.evMessage clientId Relay.inPing :: es2) in
  let s' := RelayBeat.pingClients before in
  is_Some (Relay.clients s' !! clientId) ∧
  (clientId, Relay.outPing)
  ∈ drop (length (Relay.sent before)) (Relay.sent s').
Proof.
  intros Hc Ha Hes. cbn zeta.
  apply Forall_app in Hes as [H1 H2].
  rewrite relay_run_app.
  set (s1 := Relay.run (RelayBeat.pingClients s) es1).
  assert (Hc1 : RelayBeat.connected clientId s1).
  { apply relay_run_connected; [done|].
    unfold RelayBeat.connected. rewrite relay_pingClients_lookup, Hc, Ha.
    by eexists. }
  destruct Hc1 as [c1 Hc1].
  change (Relay.step s1 (Relay.evMessage clientId Relay.inPing))
    with (Relay.onMessage clientId Relay.inPing s1).
  set (s2 := Relay.onMessage clientId Relay.inPing s1).
  assert (Ha2 : RelayBeat.alive clientId s2).
  { subst s2. unfold Relay.onMessage, RelayBeat.alive. rewrite Hc1. simpl.
    rewrite lookup_insert_eq. by eexists. }
  destruct (relay_run_alive es2 clientId s2 H2 Ha2) as (c3 & Hc3 & Ha3).
  split.
  - rewrite relay_pingClients_lookup, Hc3, Ha3. by eexists.
  - by eapply relay_pingClients_pings.
Qed.

(** X23, at an instance: audio, then a ping, then audio again; the
    second beat sends one message, the ping. *)
Lemma relay_ping_keeps_connection_witness :
  let before :=
    Relay.run
      (RelayBeat.pingClients (Relay.onConnection "c1" (Relay.initial 0)))
      ([Relay.evElapse 1000;
        Relay.evMessage "c1" (Relay.inAudio [Byte.x01])]
       ++ Relay.evMessage "c1" Relay.inPing
          :: [Relay.evElapse 2000]) in
  let s' := RelayBeat.pingClients before in
  is_Some (Relay.clients s' !! "c1"%string) ∧
  ("c1"%string, Relay.outPing)
  ∈ drop (length (Relay.sent before)) (Relay.sent s').
Proof.
  apply (relay_ping_keeps_connection
           (Relay.onConnection "c1" (Relay.initial 0)) "c1"
           (Relay.mkClient true [])
           [Relay.evElapse 1000;
            Relay.evMessage "c1" (Relay.inAudio [Byte.x01])]
           [Relay.evElapse 2000]).
  - reflexivity.
  - reflexivity.
  - repeat (constructor; [discriminate|]). constructor.
Defined.


(** X24: in the [Index] of [speech2tex.tsx], when the voice stops and
    does not come back for [PAUSE_THRESHOLD], the recorder in use is
    stopped at that deadline and the pause is marked long; its stop
    handler then saves one packet if the recording lasted
    [MIN_RECORDING_LENGTH] and holds a byte, none otherwise, and starts
    no new recorder. *)
Theorem pause_vad_long_pause_ends_recording
  (s : PauseVad.State) (r : nat) (m : Media.MediaRecorder bool) (t : Z) :
  PauseVad.detectorLive s = true →
  PauseVad.mediaRecorderRef s = Some r →
  PauseVad.recorders s !! r = Some m →
  Media.state m = Media.recording →
  Timers.pending (PauseVad.timers s) = [] →
  PauseVad.silenceStartRef s = None →
  PauseVad.now s + PauseVad.PAUSE_THRESHOLD ≤ t →
  let s2 := PauseVad.elapse t (PauseVad.step s PauseVad.evVoiceStop) in
  let s3 := PauseVad.dispatchStop r s2 in
  Media.stateOf (PauseVad.recorders s2) r = Some Media.inactive ∧
  PauseVad.isLongPauseRef s2 = true ∧
  PauseVad.isRecording s2 = false ∧
  Timers.pending (PauseVad.timers s2) = [] ∧
  PauseVad.audioPackets s3
  = PauseVad.audioPackets s
    ++ PauseShapes.packetSaved (t - PauseVad.currentRecordingStartTime s)
         (PauseVad.audioChunksRef s) ∧
  length (PauseVad.recorders s3) = length (PauseVad.recorders s) ∧
  Media.activeCount (PauseVad.recorders s3)
  = (Media.activeCount (PauseVad.recorders s) - 1)%nat.
Proof.
  intros Hlive Hm Hr Hst Hp Hs Ht. cbn zeta.
  assert (Hlt : (r < length (PauseVad.recorders s))%nat)
    by (by eapply lookup_lt_Some).
  assert (Hrc : Media.isRecordingAt (PauseVad.recorders s) r = true)
    by (unfold Media.isRecordingAt; by rewrite Hr, Hst).
  change (PauseVad.step s PauseVad.evVoiceStop)
    with (if PauseVad.detectorLive s then PauseVad.onVoiceStop s else s).
  rewrite Hlive.
  destruct (PauseVad.timers s) as [p n] eqn:Htb. simpl in Hp. subst p.
  set (s1 := PauseVad.set_pauseTimeoutRef (Some n)
               (PauseVad.set_timers
                  (Timers.Table
                     [Timers.Timer n (PauseVad.now s + PauseVad.PAUSE_THRESHOLD)
                        PauseVad.pauseElapsed] (S n))
                  (PauseVad.set_silenceStartRef (Some (PauseVad.now s)) s))).
  assert (E1 : PauseVad.onVoiceStop s = s1).
  { unfold PauseVad.onVoiceStop. unfold PauseVad.detectorLive in Hlive.
    destruct (PauseVad.vadRef s) as [v|] eqn:Hv; [|done].
    unfold PauseVad.handlePause. rewrite Hs. simpl. by rewrite Htb. }
  rewrite E1. clear E1.
  assert (E2 : PauseVad.elapse t s1
               = PauseVad.set_now t
                   (PauseVad.setIsRecording false
                      (PauseVad.set_recorders
                         (Media.stop r (PauseVad.recorders s))
                         (PauseVad.set_isLongPauseRef true
                            (PauseVad.set_now
                               (PauseVad.now s + PauseVad.PAUSE_THRESHOLD)
                               (PauseVad.set_timers
                                  (Timers.Table [] (S n)) s1)))))).
  { unfold PauseVad.elapse. subst s1. simpl.
    rewrite timers_next_due_single by done. simpl.
    rewrite timers_clear_single.
    unfold PauseVad.PAUSE_THRESHOLD in *.
    rewrite !(Z.max_r (PauseVad.now s) (PauseVad.now s + 2000)) by lia.
    destruct (Z.leb_spec 2000 (PauseVad.now s + 2000 - PauseVad.now s)); [|lia].
    unfold PauseVad.stopRecording. simpl. rewrite Hm, Hrc.
    rewrite !pause_setIsRecording_unfold. simpl.
    rewrite ?Z.max_r by lia. done. }
  rewrite E2. clear E2. subst s1.
  rewrite pause_setIsRecording_unfold.
  unfold PauseVad.dispatchStop. simpl. unfold Media.stop. rewrite Hr.
  rewrite list_lookup_insert_eq by done. simpl.
  unfold Media.dispatched. rewrite list_lookup_insert_eq by done. simpl.
  rewrite list_insert_insert_eq.
  assert (Hcount :
    Media.activeCount
      (<[r := Media.Recorder bool Media.inactive false (Media.closure m)]>
         (PauseVad.recorders s))
    = (Media.activeCount (PauseVad.recorders s) - 1)%nat).
  { unfold Media.activeCount.
    pose proof (media_count_insert
                  (λ m, Media.isRecordingState (Media.state m))
                  (PauseVad.recorders s) r m
                  (Media.Recorder bool Media.inactive false (Media.closure m))
                  Hr) as E.
    simpl in E. rewrite Hst in E. simpl in E. lia. }
  unfold Media.stateOf. rewrite list_lookup_insert_eq by done.
  unfold PauseVad.onstop, PauseVad.saveRecording, PauseShapes.packetSaved.
  cbn zeta. cbn [PauseVad.now PauseVad.set_now PauseVad.set_recorders
                 PauseVad.currentRecordingStartTime PauseVad.audioChunksRef
                 PauseVad.set_isRecording PauseVad.set_isLongPauseRef
                 PauseVad.set_startListeningHolds
                 PauseVad.set_timers PauseVad.set_pauseTimeoutRef
                 PauseVad.set_silenceStartRef].
  destruct (PauseVad.MIN_RECORDING_LENGTH <=? _);
    [destruct (0 <? _)|]; simpl; rewrite andb_false_r; simpl;
    rewrite ?app_nil_r, ?length_insert; repeat split; done.
Qed.

(** X24, at an instance: voice from 1000 to 2000 with one chunk, then
    silence; the recorder is stopped at 4000. *)
Lemma pause_vad_long_pause_ends_recording_witness :
  let s := PauseVad.run (PauseVad.initial 1000)
             [PauseVad.evStartListening true; PauseVad.evVoiceStart;
              PauseVad.evData 0 [Byte.x01]; PauseVad.evElapse 2000] in
  let s2 := PauseVad.elapse 4500 (PauseVad.step s PauseVad.evVoiceStop) in
  let s3 := PauseVad.dispatchStop 0 s2 in
  Media.stateOf (PauseVad.recorders s2) 0 = Some Media.inactive ∧
  PauseVad.isLongPauseRef s2 = true ∧
  PauseVad.isRecording s2 = false ∧
  Timers.pending (PauseVad.timers s2) = [] ∧
  PauseVad.audioPackets s3
  = PauseVad.audioPackets s
    ++ PauseShapes.packetSaved (4500 - PauseVad.currentRecordingStartTime s)
         (PauseVad.audioChunksRef s) ∧
  length (PauseVad.recorders s3) = length (PauseVad.recorders s) ∧
  Media.activeCount (PauseVad.recorders s3)
  = (Media.activeCount (PauseVad.recorders s) - 1)%nat.
Proof.
  apply (pause_vad_long_pause_ends_recording
           (PauseVad.run (PauseVad.initial 1000)
              [PauseVad.evStartListening true; PauseVad.evVoiceStart;
               PauseVad.evData 0 [Byte.x01]; PauseVad.evElapse 2000])
           0 (Media.Recorder bool Media.recording false false) 4500);
    try reflexivity.
  vm_compute. discriminate.
Defined.
